(* ===== verification/_CoqProject ===== *)
-Q . S2P
Prelude.v
GoStrings.v
GoTime.v
GoEncoding.v
GoNet.v
GoDate.v
GoConv.v
GoJSON.v
JSONFacts.v
JSONIndent.v
GoFiles.v
GoURL.v
Events.v
GatewayRoutes.v
RateLimit.v
RouteSources.v
Postgres.v
ControlPlane.v
AuthSecurity.v
Auth.v
AuthUsecase.v
AuthHistory.v
AuthKeys.v
AuthSessions.v
Gateway.v
Jobs.v
Wire.v
Bodies.v
JobHistory.v
JobWorker.v
Webhook.v
JobContract.v
Cleanup.v
Analytics.v
AnalyticsHistory.v
AnalyticsQueries.v
AnalyticsProgress.v
Report.v
ReportFormats.v
WorkerSetup.v
Topology.v
Platform.v
Proxy.v
Apps.v
Demo.v
Routers.v
ReportJobs.v
Tracing.v
PublishedRoutes.v
Pipeline.v
EndToEnd.v
