(* ===== verification/Prelude.v ===== *)
(** * EdgeGuard: a verification development of the EdgeGuard API gateway platform

    ** The program

    EdgeGuard is a set of Go services (internal/) around an HTTP API gateway.
    - The gateway (internal/gateway) matches a request against a snapshot of routes,
      authorises it with an API key, checks a rate limit in Redis, forwards it to the
      upstream of the route and publishes an access event to Kafka.  Its routes come
      from a YAML file and, periodically, from the control plane.
    - The control plane (internal/controlplane) keeps projects, services and routes in
      PostgreSQL and publishes the enabled routes; it also accepts background jobs
      (internal/jobs), which it records in PostgreSQL and sends to RabbitMQ.
    - The notification worker (internal/jobworker) consumes the jobs: webhooks, reports
      and the cleanup of refresh tokens, with retries and a dead-letter queue.
    - The auth service (internal/auth) keeps users, refresh tokens and API keys.
    - The analytics service (internal/analytics) stores the access events from Kafka with
      hourly aggregates and answers queries on them.
    - internal/platform holds what they share: events, job messages, readiness, metrics,
      the response recorder, tracing and configuration; internal/demo is an upstream.

    ** Files and what they model

    Go and its libraries, as far as the code uses them:
    - Prelude: errors with wrapping and errors.Is, results of fallible calls.
    - GoStrings, GoEncoding, GoTime, GoNet, GoURL, GoFiles: strings, hex, base64 and
      SHA-256, instants and durations in int64 nanoseconds with wrap-around, headers and
      streams, path escaping, file paths, CSV and file system calls.
    - GoDate, GoConv: civil dates with the layouts of RFC 3339; strconv.Atoi, ParseBool and
      time.ParseDuration (its fractions in IEEE 754 binary64).
    - GoJSON, JSONFacts, JSONIndent: the scanner, decoders and texts of encoding/json, their
      round trips, and the layout of an indented encoder.
    - Postgres: what the statements use of PostgreSQL: text and uuid encoding, microsecond
      timestamps, ordering, faults of a statement.
    Components, each file opening with its sources:
    - Events: platform/events (the access event and its validation).
    - GatewayRoutes: gateway/domain, usecase/resolve_route.go and refresh_routes.go, the
      in-memory repository with slice aliasing, the refresh worker.
    - RateLimit: usecase/rate_limit.go and infrastructure/ratelimit (with the Lua script).
    - RouteSources: infrastructure/controlplane and infrastructure/config.
    - Gateway: authorization, handler, middlewares, access events, Kafka records, config.
    - Proxy: infrastructure/proxy with the reverse proxy of net/http/httputil.
    - ControlPlane: domain, PostgreSQL statements, use case and HTTP delivery.
    - AuthSecurity, Auth, AuthUsecase: tokens, hashes and configuration; domain, statements,
      use case and handlers; the constructor of the use case and the guards of its
      dependencies.  AuthHistory, AuthKeys, AuthSessions: their step relation and theorems.
    - Jobs: platform/jobs, jobs domain, statements, publisher, use case, delivery.
      JobHistory: the step relation of the table of jobs.
    - Wire, Bodies: the JSON the services exchange (routes, principals, access events, job
      envelopes and payloads) and the bodies of their HTTP interfaces, from the struct tags.
      JobContract: what the jobs API accepts against what the worker reads.
    - JobWorker: jobworker domain, use case and the RabbitMQ consumer, with a step relation
      of broker and workers.  Webhook, Report, Cleanup: the three executors.
      ReportFormats: the files of reports and how they are read back.
      WorkerSetup: configuration and retry policy.  Topology: connections, exchanges and
      queues of publisher and consumer.
    - Analytics: ingestion, consumer, queries, delivery, configuration.  AnalyticsHistory,
      AnalyticsQueries, AnalyticsProgress: the step relations of table and partition, and
      theorems.
    - Platform: readiness, response recorder, metrics, tracing, configuration.
    - Apps: the Run of every service, made of the constructors of its components, with
      deferred calls; the readiness of the services and the wiring of the gateway.
    - Tracing: the propagation of traces through RabbitMQ and Kafka, and the spans around
      publishing and handling.
    - Demo: the demo backend.
    - Routers: the registrations of every service, and the auth service behind its router.
    Services together:
    - PublishedRoutes: the routes of the control plane in a gateway.  EndToEnd: the gateway
      against the auth service it asks.  Pipeline: the access events of the gateway in the
      analytics service.  ReportJobs: a report from the request to the file.

    State is explicit: a repository is a record of tables (lists where order or duplicates
    matter, finite maps otherwise), a statement is a function from tables to a result and
    new tables that keeps its guards and constraints, and every call that can fail takes
    its fault as an argument.  Concurrency is a step relation whose steps are the atomic
    statements, so that use cases made of several statements interleave.  URL parsing,
    mail addresses, ParseFloat, YAML, JWT signatures, bcrypt, DNS, HTTP transports, Kafka,
    RabbitMQ and Redis are parameters or classes; the assumptions made of them are the laws
    of those classes, each with a concrete instance that a witness uses.  The components
    read and write JSON through small classes (JSONDecoder, JSONCodec, EventJSON), which
    Wire and Bodies instantiate with the decoders and texts of GoJSON; the theorems on
    several services are stated with those instances.

    ** What the theorems show

    - Routing and forwarding (GatewayRoutes, Gateway, Proxy): the longest prefix is chosen;
      what is forwarded was authorised and within its limit; failures of authorization are
      refused and failures of the limiter let through; what the upstream and the client
      get; one valid access event per request, stored and counted once (Pipeline); the
      snapshot of routes is always the last good one and cannot be changed through a slice
      a caller holds.
    - Rate limiting: the limiter is a fixed-window counter per route, client and window,
      across gateways and clock skew, without overflow; a gateway without Redis panics
      instead of failing open (Apps).
    - Control plane: the tables keep their invariant; a gateway that refreshes routes every
      path as the tables say, or keeps its routes (PublishedRoutes); four kinds of accepted
      configuration that make it refuse all.
    - Auth: a refresh token is redeemed once under any interleaving, rotation, the life of
      API keys, access tokens, registration and login; what a request
      to the service can change at all (Routers); which keys open which routes of a
      gateway that asks the service (EndToEnd).
    - Jobs: the life cycle of a row, the contract of a submission, no job lost or settled
      early unless the broker gives it up, bounded attempts, a run that is repeated after a
      stale read; webhooks only dial public addresses; reports are atomic and readable, and
      a requested one is delivered with exact rows (ReportJobs), and both formats read back
      to the rows in any time zone (ReportFormats); a cleanup is invisible; messages are
      routed; what the API accepts the worker reads from the JSON, with the body of a
      webhook compacted on the way (JobContract); a job and an event
      are handled in the trace they were sent in (Tracing).
    - Analytics: aggregates are exact, no event is skipped, the consumers can finish a
      partition exactly when every remaining event can be stored, summaries are exact.
    - Services: a service serves exactly when every call of its start succeeds, and
      everything opened is closed in order on every path.

    ** Bounds and fuel

    Loops of the code are structural in the model, except: TrimSpace and Fields (fuel: the
    length of the string, which every step shortens), the JSON scanner (fuel: twice the
    length of the text, enough by JSONFacts.scan_enough), the terms of ParseDuration (fuel:
    the length of the text, enough by GoConv.terms_enough), SHA-256 (fuel: the number of blocks),
    the retries of the analytics consumer and of a message (fuel: the configured maximum of
    attempts; the theorems show that it suffices and a result is always returned), and the
    waits of Run functions, which end with the list of events.  Integers are Z with
    wrap-around written out where the code can overflow (wrap64, wrap32).

    ** Not modelled

    Entry points (cmd/), the logger, the router of echo (read as the search for a matching
    entry), the tracer and the exporter of OpenTelemetry, the Prometheus registry, and
    timeouts as clock time: they are calls into libraries without logic of their own.
    Migrations are read for their constraints only.  The decoder's limit of 10000 nested
    JSON values is left out.  Float averages of the analytics are kept as exact quotients,
    so the text of those responses is not modelled. *)
From Stdlib Require Import ZArith Lia.
From Corelib Require Import ssreflect.
From stdpp Require Import base gmap strings list numbers pretty.

#[global] Open Scope Z_scope.

(** ** Go errors *)

(** A Go [error] value, with what [errors.Is], [errors.As] and [Error()]
    observe of it.  A [Sentinel] is a package variable initialised with
    [errors.New]: its identity is its qualified name.  [Opaque] is an error made
    on the spot ([errors.New] in an expression, or an error of a library that no
    caller inspects).  [Wrap] is [fmt.Errorf] with its rendered text and the
    errors of its [%w] verbs.  [PermanentError] is the struct of
    jobworker/domain/errors.go; [PgError] is pgconn's [*PgError]. *)
Inductive error : Type :=
| Sentinel (name text : string)
| Opaque (text : string)
| Wrap (text : string) (causes : list error)
| PermanentError (inner : error)
| PgError (code constraint text : string).

(** [err.Error()]. *)
Fixpoint Error (e : error) : string :=
  match e with
  | Sentinel _ text => text
  | Opaque text => text
  | Wrap text _ => text
  | PermanentError inner => "permanent job error: " +:+ Error inner
  | PgError _ _ text => text
  end.

(** Pointer identity of two sentinels. *)
Definition same_sentinel (e target : error) : bool :=
  match e, target with
  | Sentinel n _, Sentinel n' _ => bool_decide (n = n')
  | _, _ => false
  end.

(** [errors.Is]: depth-first search of the wrapping tree. *)
Fixpoint errors_Is (e target : error) : bool :=
  same_sentinel e target ||
  match e with
  | Wrap _ causes => existsb (fun c => errors_Is c target) causes
  | PermanentError inner => errors_Is inner target
  | _ => false
  end.

(** [fmt.Errorf("ctx: %w", err)]. *)
Definition wrapf (ctx : string) (e : error) : error :=
  Wrap (ctx +:+ ": " +:+ Error e) [e].

Lemma errors_Is_wrapf ctx e target :
  errors_Is (wrapf ctx e) target = errors_Is e target.
Proof. cbn. by rw orb_false_r. Qed.

Lemma errors_Is_sentinel n t : errors_Is (Sentinel n t) (Sentinel n t) = true.
Proof. cbn. by rw bool_decide_eq_true_2. Qed.

(** ** Results of fallible code *)

(** The Go convention [(value, error)]: the value is meaningful exactly when the
    error is nil, and every function of the program returns the zero value
    beside an error. *)
Inductive res (A : Type) : Type :=
| Ok (a : A)
| Err (e : error).
Arguments Ok {A} a.
Arguments Err {A} e.

#[global] Instance res_ret : MRet res := @Ok.
#[global] Instance res_bind : MBind res := fun A B k m =>
  match m with Ok a => k a | Err e => Err e end.

Definition is_ok {A} (r : res A) : bool :=
  match r with Ok _ => true | Err _ => false end.

(** The value of a call, in examples. *)
Definition ok_or {A} (a : A) (r : res A) : A := match r with Ok x => x | Err _ => a end.

(** Replace the error of a failed call, as the [if err != nil] blocks do. *)
Definition map_err {A} (f : error -> error) (r : res A) : res A :=
  match r with Ok a => Ok a | Err e => Err (f e) end.

(** A guard: [if cond { return zero, e }]. *)
Definition fail_if (cond : bool) (e : error) : res unit :=
  if cond then Err e else Ok tt.

Lemma map_err_Ok {A} g (r : res A) a : map_err g r = Ok a <-> r = Ok a.
Proof. destruct r; naive_solver. Qed.

(** ** Sorting *)

(** Insertion sort with a total preorder given by its test [le]. *)
Fixpoint insert_by {A} (le : A -> A -> bool) (a : A) (l : list A) : list A :=
  match l with
  | [] => [a]
  | b :: l' => if le a b then a :: l else b :: insert_by le a l'
  end.
Definition order_by {A} (le : A -> A -> bool) (l : list A) : list A := foldr (insert_by le) [] l.

Lemma insert_by_perm {A} (le : A -> A -> bool) a l : insert_by le a l ≡ₚ a :: l.
Proof.
  induction l as [|b l IH]; cbn; [done|]. destruct (le a b); [done|].
  rw IH. apply Permutation_swap.
Qed.

Lemma order_by_perm {A} (le : A -> A -> bool) l : order_by le l ≡ₚ l.
Proof. induction l as [|a l IH]; [done|]. cbn. rw insert_by_perm. by constructor. Qed.

(** A property of the numbers below a bound is checked case by case. *)
Lemma N_below (k : nat) (P : N -> Prop) :
  Forall (fun i => P (N.of_nat i)) (seq 0 k) -> forall n, (n < N.of_nat k)%N -> P n.
Proof.
  intros HP n Hn. rw Forall_forall in HP. specialize (HP (N.to_nat n)).
  rw N2Nat.id in HP. apply HP. apply elem_of_seq. lia.
Qed.
Lemma Z_below (k : nat) (P : Z -> Prop) :
  Forall (fun i => P (Z.of_nat i)) (seq 0 k) -> forall n, (0 <= n < Z.of_nat k)%Z -> P n.
Proof.
  intros HP n Hn. rw Forall_forall in HP. specialize (HP (Z.to_nat n)).
  rw Z2Nat.id in HP; [lia|]. apply HP. apply elem_of_seq. lia.
Qed.
