(* ===== verification/GoStrings.v ===== *)
(** Go strings and the parts of the packages [strings] and [strconv] the program
    calls.

    A Go string is a sequence of bytes, and so is a [string] of this library:
    every [ascii] is one byte.  [TrimSpace] and [Fields] treat the UTF-8
    encodings of the Unicode white space characters as Go does; the case
    mappings compute on ASCII strings and defer to the Unicode tables (the class
    [UnicodeTables]) otherwise. *)
From Stdlib Require Import Ascii ZArith Lia ZifyBool.
From Corelib Require Import ssreflect.
From stdpp Require Import base strings list numbers pretty.
From S2P Require Import Prelude.

#[local] Open Scope nat_scope.

(** ** Definitions *)

Definition len (s : string) : Z := Z.of_nat (String.length s).

(** A byte as the integer 0..255. *)
Definition byte_val (a : ascii) : N := N_of_ascii a.

Definition is_ascii_byte (a : ascii) : bool := (byte_val a <? 128)%N.

Fixpoint all_bytes (p : ascii -> bool) (s : string) : bool :=
  match s with
  | EmptyString => true
  | String a s' => p a && all_bytes p s'
  end.

(** [strings.HasPrefix], [TrimPrefix], [HasSuffix]. *)
Fixpoint cut_prefix (p s : string) : option string :=
  match p with
  | EmptyString => Some s
  | String a p' =>
    match s with
    | EmptyString => None
    | String b s' => if Ascii.eqb a b then cut_prefix p' s' else None
    end
  end.

Definition HasPrefix (s p : string) : bool :=
  match cut_prefix p s with Some _ => true | None => false end.

Definition TrimPrefix (s p : string) : string :=
  match cut_prefix p s with Some s' => s' | None => s end.

Fixpoint HasSuffix (s p : string) : bool :=
  bool_decide (s = p) ||
  match s with
  | EmptyString => false
  | String _ s' => HasSuffix s' p
  end.

(** [strings.TrimRight] with a cutset of one ASCII character. *)
Fixpoint TrimRight (s : string) (c : ascii) : string :=
  match s with
  | EmptyString => EmptyString
  | String a s' =>
    match TrimRight s' c with
    | EmptyString => if Ascii.eqb a c then EmptyString else String a EmptyString
    | t => String a t
    end
  end.

(** White space: the bytes of [asciiSpace] and the encodings of U+0085, U+00A0,
    U+1680, U+2000..U+200A, U+2028, U+2029, U+202F, U+205F and U+3000, the other
    characters of [unicode.IsSpace]. *)
Definition ascii_space (a : ascii) : bool :=
  let n := byte_val a in ((9 <=? n) && (n <=? 13) || (n =? 32))%N.

Definition space2 (a b : ascii) : bool :=
  ((byte_val a =? 0xC2) && ((byte_val b =? 0x85) || (byte_val b =? 0xA0)))%N.

Definition space3 (a b c : ascii) : bool :=
  let x := byte_val a in let y := byte_val b in let z := byte_val c in
  (((x =? 0xE1) && (y =? 0x9A) && (z =? 0x80)) ||
   ((x =? 0xE2) && (y =? 0x80) &&
      (((0x80 <=? z) && (z <=? 0x8A)) || (z =? 0xA8) || (z =? 0xA9) || (z =? 0xAF))) ||
   ((x =? 0xE2) && (y =? 0x81) && (z =? 0x9F)) ||
   ((x =? 0xE3) && (y =? 0x80) && (z =? 0x80)))%N.

(** The string after its first rune, when that rune is white space. *)
Definition strip_space (s : string) : option string :=
  match s with
  | EmptyString => None
  | String a s1 =>
    if ascii_space a then Some s1 else
    match s1 with
    | EmptyString => None
    | String b s2 =>
      if space2 a b then Some s2 else
      match s2 with
      | EmptyString => None
      | String c s3 => if space3 a b c then Some s3 else None
      end
    end
  end.

Fixpoint trim_left_fuel (n : nat) (s : string) : string :=
  match n with
  | O => s
  | S n' =>
    match strip_space s with
    | Some s' => trim_left_fuel n' s'
    | None => s
    end
  end.

(** [strings.TrimLeftFunc(s, unicode.IsSpace)]. *)
Definition TrimLeftSpace (s : string) : string :=
  trim_left_fuel (String.length s) s.

(** [strings.TrimRightFunc(s, unicode.IsSpace)]: cut at the first position from
    which only white space follows. *)
Fixpoint TrimRightSpace (s : string) : string :=
  match TrimLeftSpace s with
  | EmptyString => EmptyString
  | _ =>
    match s with
    | EmptyString => EmptyString
    | String a s' => String a (TrimRightSpace s')
    end
  end.

Definition TrimSpace (s : string) : string := TrimRightSpace (TrimLeftSpace s).

(** The test [strings.TrimSpace(s) == ""]. *)
Definition blank (s : string) : bool := bool_decide (TrimSpace s = EmptyString).

(** [strings.Split] and [SplitN] with a separator of one ASCII character. *)
Fixpoint Split (s : string) (c : ascii) : list string :=
  match s with
  | EmptyString => [EmptyString]
  | String a s' =>
    if Ascii.eqb a c then EmptyString :: Split s' c
    else match Split s' c with
         | [] => [String a EmptyString]
         | x :: xs => String a x :: xs
         end
  end.

Fixpoint SplitN (s : string) (c : ascii) (n : nat) {struct n} : list string :=
  match n with
  | O => []
  | S O => [s]
  | S n' =>
    (fix go (s : string) : list string :=
       match s with
       | EmptyString => [EmptyString]
       | String a s' =>
         if Ascii.eqb a c then EmptyString :: SplitN s' c n'
         else match go s' with
              | [] => [String a EmptyString]
              | x :: xs => String a x :: xs
              end
       end) s
  end.

(** [strings.Fields]: the maximal runs of non-space runes. *)
Fixpoint fields_fuel (n : nat) (cur s : string) : list string :=
  let flush := match cur with EmptyString => [] | _ => [cur] end in
  match n with
  | O => flush
  | S n' =>
    match strip_space s with
    | Some s' => flush ++ fields_fuel n' EmptyString s'
    | None =>
      match s with
      | EmptyString => flush
      | String a s' => fields_fuel n' (cur +:+ String a EmptyString) s'
      end
    end
  end.
Definition Fields (s : string) : list string :=
  fields_fuel (S (String.length s)) EmptyString s.

(** [strings.ReplaceAll(s, c, "")] with a one-character [c]. *)
Fixpoint remove_char (c : ascii) (s : string) : string :=
  match s with
  | EmptyString => EmptyString
  | String a s' => if Ascii.eqb a c then remove_char c s' else String a (remove_char c s')
  end.

Fixpoint smap (f : ascii -> ascii) (s : string) : string :=
  match s with
  | EmptyString => EmptyString
  | String a s' => String (f a) (smap f s')
  end.

Definition lower_byte (a : ascii) : ascii :=
  let n := byte_val a in
  if ((65 <=? n) && (n <=? 90))%N then ascii_of_N (n + 32) else a.
Definition upper_byte (a : ascii) : ascii :=
  let n := byte_val a in
  if ((97 <=? n) && (n <=? 122))%N then ascii_of_N (n - 32) else a.

(** The Unicode tables of the Go runtime, which the case mappings and the quoting
    verb consult for strings that are not pure ASCII. *)
Class UnicodeTables := {
  unicode_lower : string -> string;
  unicode_upper : string -> string;
  strconv_Quote : string -> string
}.

Definition ToLower `{UnicodeTables} (s : string) : string :=
  if all_bytes is_ascii_byte s then smap lower_byte s else unicode_lower s.
Definition ToUpper `{UnicodeTables} (s : string) : string :=
  if all_bytes is_ascii_byte s then smap upper_byte s else unicode_upper s.

(** [strings.EqualFold] against a string whose letters have no case variants
    outside ASCII ("Bearer": only k and s have such variants). *)
Definition EqualFold_ascii (s t : string) : bool :=
  bool_decide (smap lower_byte s = smap lower_byte t).

(** [strconv.Itoa], [strconv.FormatInt(z, 10)] and the verb [%d]. *)
Definition Itoa (z : Z) : string := pretty z.

(** [s[i]] of a constant index, [None] where Go panics. *)
Definition byte_at (s : string) (i : nat) : option ascii := String.get i s.
Definition byte_is (s : string) (i : nat) (a : ascii) : bool :=
  match byte_at s i with Some b => Ascii.eqb a b | None => false end.

(** ** Lemmas: concatenation, prefixes *)

#[global] Arguments Ascii.eqb : simpl never.

Create Rewrite HintDb gostr.

Lemma sapp_nil_l s : EmptyString +:+ s = s.
Proof. done. Qed.

Lemma sapp_cons a s t : String a s +:+ t = String a (s +:+ t).
Proof. done. Qed.

Lemma sapp_nil_r s : s +:+ EmptyString = s.
Proof. induction s as [|a s IH]; [done|]. by rw sapp_cons IH. Qed.

Lemma sapp_assoc s t u : (s +:+ t) +:+ u = s +:+ (t +:+ u).
Proof. induction s as [|a s IH]; [done|]. by rw !sapp_cons IH. Qed.

Lemma slength_app s t : String.length (s +:+ t) = String.length s + String.length t.
Proof. induction s as [|a s IH]; [done|]. rw sapp_cons /= IH //. Qed.

Lemma sapp_inj_l s t u : s +:+ t = s +:+ u -> t = u.
Proof. induction s as [|a s IH]; [done|]. rw !sapp_cons. intros [= H]. auto. Qed.

Lemma sapp_eq_nil s t : s +:+ t = EmptyString -> s = EmptyString /\ t = EmptyString.
Proof. by destruct s. Qed.

#[export] Hint Rewrite sapp_nil_l sapp_nil_r sapp_cons sapp_assoc : gostr.

Lemma all_bytes_app p s t : all_bytes p (s +:+ t) = all_bytes p s && all_bytes p t.
Proof.
  induction s as [|a s IH]; [done|]. rw sapp_cons /= IH. by rw andb_assoc.
Qed.

Lemma all_bytes_impl (p q : ascii -> bool) s :
  (forall a, p a = true -> q a = true) -> all_bytes p s = true -> all_bytes q s = true.
Proof.
  intros Hpq. induction s as [|a s IH]; [done|]. cbn.
  rw !andb_true_iff. naive_solver.
Qed.

(** A string without the byte [c]. *)
Definition no_byte (c : ascii) (s : string) : bool := all_bytes (fun a => negb (Ascii.eqb a c)) s.

(** The first separator splits a string in only one way. *)
Lemma sapp_sep_inj c s s' u u' :
  no_byte c s = true -> no_byte c s' = true ->
  s +:+ String c u = s' +:+ String c u' -> s = s' /\ u = u'.
Proof.
  revert s'. induction s as [|a s IH]; intros [|b s'] Hs Hs' E; cbn in Hs, Hs';
    rw ?sapp_nil_l ?sapp_cons in E.
  - by injection E as ->.
  - injection E as <- _. by rw Ascii.eqb_refl in Hs'.
  - injection E as -> _. by rw Ascii.eqb_refl in Hs.
  - injection E as -> E. apply andb_prop in Hs as [_ Hs]. apply andb_prop in Hs' as [_ Hs'].
    by destruct (IH s' Hs Hs' E) as [-> ->].
Qed.

Lemma cut_prefix_Some p s t : cut_prefix p s = Some t <-> s = p +:+ t.
Proof.
  revert s. induction p as [|a p IH]; intros s.
  - rw sapp_nil_l. cbn. naive_solver.
  - rw sapp_cons. destruct s as [|b s]; cbn; [done|].
    destruct (Ascii.eqb_spec a b) as [->|Hne].
    + rw IH. naive_solver.
    + split; [done|]. by intros [= -> _].
Qed.

Lemma cut_prefix_app p t : cut_prefix p (p +:+ t) = Some t.
Proof. by apply cut_prefix_Some. Qed.

Lemma HasPrefix_spec s p : HasPrefix s p = true <-> exists t, s = p +:+ t.
Proof.
  unfold HasPrefix. destruct (cut_prefix p s) as [t|] eqn:E.
  - apply cut_prefix_Some in E. naive_solver.
  - split; [done|]. intros [t Ht]. apply cut_prefix_Some in Ht. congruence.
Qed.

Lemma HasPrefix_app s t : HasPrefix (s +:+ t) s = true.
Proof. apply HasPrefix_spec. eauto. Qed.

Lemma TrimPrefix_app p t : TrimPrefix (p +:+ t) p = t.
Proof. unfold TrimPrefix. by rw cut_prefix_app. Qed.

Lemma HasPrefix_char s a :
  HasPrefix s (String a EmptyString) = true <-> exists t, s = String a t.
Proof. rw HasPrefix_spec. naive_solver. Qed.

Lemma HasSuffix_spec s p : HasSuffix s p = true <-> exists t, s = t +:+ p.
Proof.
  induction s as [|a s IH]; cbn; rw orb_true_iff bool_decide_eq_true.
  - split.
    + intros [<-|?]; [|done]. by exists EmptyString.
    + intros [t Ht]. symmetry in Ht. apply sapp_eq_nil in Ht as [-> ->]. by left.
  - rw IH. split.
    + intros [<-|[t ->]]; [by exists EmptyString|]. by exists (String a t).
    + intros [[|b t] Ht]; [by left|]. right. rw sapp_cons in Ht.
      injection Ht as -> ->. eauto.
Qed.

(** ** Lemmas: [TrimRight] *)

(** The string ends with the character. *)
Fixpoint ends_with (s : string) (c : ascii) : bool :=
  match s with
  | EmptyString => false
  | String a EmptyString => Ascii.eqb a c
  | String _ s' => ends_with s' c
  end.

Fixpoint srepeat (c : ascii) (n : nat) : string :=
  match n with O => EmptyString | S n' => String c (srepeat c n') end.

Lemma TrimRight_decomp s c : exists k, s = TrimRight s c +:+ srepeat c k.
Proof.
  induction s as [|a s [k IH]]; [by exists O|]. cbn.
  destruct (TrimRight s c) as [|b t] eqn:E.
  - destruct (Ascii.eqb_spec a c) as [->|Hne].
    + exists (S k). cbn. by rw IH sapp_nil_l.
    + exists k. by rw IH.
  - exists k. by rw sapp_cons -IH.
Qed.

Lemma TrimRight_not_ends s c : ends_with (TrimRight s c) c = false.
Proof.
  induction s as [|a s IH]; [done|]. cbn.
  destruct (TrimRight s c) as [|b t] eqn:E.
  - destruct (Ascii.eqb_spec a c) as [->|Hne]; [done|]. cbn.
    by apply Ascii.eqb_neq.
  - exact IH.
Qed.

Lemma TrimRight_id s c : ends_with s c = false -> TrimRight s c = s.
Proof.
  induction s as [|a s IH]; [done|]. cbn. destruct s as [|b s].
  - cbn. intros ->. done.
  - intros H. rw IH //.
Qed.

Lemma TrimRight_idemp s c : TrimRight (TrimRight s c) c = TrimRight s c.
Proof. apply TrimRight_id, TrimRight_not_ends. Qed.

Lemma TrimRight_head s c a t :
  TrimRight s c = String a t -> exists s', s = String a s'.
Proof.
  intros H. destruct (TrimRight_decomp s c) as [k Hk]. rw H sapp_cons in Hk. eauto.
Qed.

Lemma TrimRight_length s c : String.length (TrimRight s c) <= String.length s.
Proof.
  destruct (TrimRight_decomp s c) as [k Hk].
  apply (f_equal String.length) in Hk. rw slength_app in Hk. lia.
Qed.

(** ** Lemmas: white space *)

Lemma strip_space_length s s' : strip_space s = Some s' -> String.length s' < String.length s.
Proof.
  unfold strip_space. intros H.
  repeat case_match; simplify_eq/=; lia.
Qed.

Lemma strip_space_prefix u v w :
  strip_space u = Some w -> strip_space (u +:+ v) = Some (w +:+ v).
Proof.
  unfold strip_space. intros H.
  repeat (case_match; simplify_eq/=; rw ?sapp_cons; try done);
    repeat match goal with E : ?b = true |- context [?b] => rw E
                      | E : ?b = false |- context [?b] => rw E end; done.
Qed.


Lemma trim_left_fuel_mono n m s :
  String.length s <= n -> String.length s <= m -> trim_left_fuel n s = trim_left_fuel m s.
Proof.
  revert m s. induction n as [|n IH]; intros m s Hn Hm.
  - destruct s; [|cbn in Hn; lia]. by destruct m.
  - destruct m as [|m].
    + destruct s; [done|cbn in Hm; lia].
    + cbn. destruct (strip_space s) as [s'|] eqn:E; [|done].
      apply strip_space_length in E. apply IH; lia.
Qed.

Lemma TrimLeftSpace_eq s :
  TrimLeftSpace s =
  match strip_space s with Some s' => TrimLeftSpace s' | None => s end.
Proof.
  unfold TrimLeftSpace. destruct (String.length s) as [|n] eqn:E.
  - by destruct s.
  - cbn. destruct (strip_space s) as [s'|] eqn:Es; [|done].
    pose proof (strip_space_length _ _ Es). apply trim_left_fuel_mono; lia.
Qed.

Lemma TrimLeftSpace_stop s : strip_space (TrimLeftSpace s) = None.
Proof.
  remember (String.length s) as n eqn:Hn. revert s Hn.
  induction n as [n IH] using lt_wf_ind. intros s ->.
  rw TrimLeftSpace_eq. destruct (strip_space s) as [s'|] eqn:E; [|done].
  eapply IH; [|reflexivity]. by apply strip_space_length.
Qed.

Lemma TrimLeftSpace_id s : strip_space s = None -> TrimLeftSpace s = s.
Proof. intros H. by rw TrimLeftSpace_eq H. Qed.

Lemma TrimLeftSpace_suffix s : exists u, s = u +:+ TrimLeftSpace s.
Proof.
  remember (String.length s) as n eqn:Hn. revert s Hn.
  induction n as [n IH] using lt_wf_ind. intros s ->.
  rw TrimLeftSpace_eq. destruct (strip_space s) as [s'|] eqn:E;
    [|by exists EmptyString].
  destruct (IH _ (strip_space_length _ _ E) s' eq_refl) as [u Hu].
  assert (exists w, s = w +:+ s') as [w ->].
  { clear -E. unfold strip_space in E. repeat case_match; simplify_eq.
    all: first [ by exists (String a EmptyString)
               | by exists (String a (String a0 EmptyString))
               | by exists (String a (String a0 (String a1 EmptyString))) ]. }
  exists (w +:+ u). by rw sapp_assoc -Hu.
Qed.

Lemma TrimRightSpace_eq s :
  TrimRightSpace s =
  match TrimLeftSpace s with
  | EmptyString => EmptyString
  | _ => match s with
         | EmptyString => EmptyString
         | String a s' => String a (TrimRightSpace s')
         end
  end.
Proof. by destruct s. Qed.

Lemma TrimRightSpace_prefix s : exists v, s = TrimRightSpace s +:+ v.
Proof.
  induction s as [|a s [v IH]]; [by exists EmptyString|].
  rw TrimRightSpace_eq. destruct (TrimLeftSpace (String a s)).
  - by exists (String a s).
  - exists v. by rw sapp_cons -IH.
Qed.

(** A space-only string followed by a space-only string is space-only, and a
    space-only prefix of a string does not hide the rest. *)
Lemma TrimLeftSpace_app_blank u v :
  TrimLeftSpace u = EmptyString -> TrimLeftSpace (u +:+ v) = TrimLeftSpace v.
Proof.
  remember (String.length u) as n eqn:Hn. revert u Hn.
  induction n as [n IH] using lt_wf_ind. intros u -> H.
  rw TrimLeftSpace_eq in H. destruct (strip_space u) as [u'|] eqn:E.
  - rw TrimLeftSpace_eq (strip_space_prefix _ v _ E).
    by apply (IH _ (strip_space_length _ _ E) u').
  - subst u. done.
Qed.

(** What [TrimRightSpace] cuts off is space-only. *)
Lemma TrimRightSpace_decomp s :
  exists v, s = TrimRightSpace s +:+ v /\ TrimLeftSpace v = EmptyString.
Proof.
  induction s as [|a s (v & Hv & Hb)]; [by exists EmptyString|].
  rw TrimRightSpace_eq. destruct (TrimLeftSpace (String a s)) eqn:E.
  - by exists (String a s).
  - exists v. by rw sapp_cons -Hv.
Qed.

Lemma TrimRightSpace_idemp s : TrimRightSpace (TrimRightSpace s) = TrimRightSpace s.
Proof.
  induction s as [|a s IH]; [done|].
  rw (TrimRightSpace_eq (String a s)). destruct (TrimLeftSpace (String a s)) eqn:E; [done|].
  rw TrimRightSpace_eq IH. destruct (TrimLeftSpace (String a (TrimRightSpace s))) eqn:E'; [|done].
  exfalso. destruct (TrimRightSpace_decomp s) as (v & Hv & Hb).
  rw Hv -sapp_cons (TrimLeftSpace_app_blank _ _ E') Hb in E. done.
Qed.

Lemma TrimSpace_left s : strip_space (TrimSpace s) = None.
Proof.
  unfold TrimSpace. pose proof (TrimLeftSpace_stop s) as H.
  destruct (TrimRightSpace_prefix (TrimLeftSpace s)) as [v Hv].
  destruct (strip_space (TrimRightSpace _)) as [w|] eqn:E; [|done].
  apply (strip_space_prefix _ v) in E. rw -Hv H in E. done.
Qed.

Lemma TrimSpace_idemp s : TrimSpace (TrimSpace s) = TrimSpace s.
Proof.
  unfold TrimSpace at 1. rw (TrimLeftSpace_id _ (TrimSpace_left s)).
  apply TrimRightSpace_idemp.
Qed.

(** A byte that is neither white space nor the first byte of a white space
    encoding. *)
Definition graphic_byte (a : ascii) : bool :=
  ((33 <=? byte_val a) && (byte_val a <=? 126))%N.

Lemma graphic_strip a s : graphic_byte a = true -> strip_space (String a s) = None.
Proof.
  destruct a as [[] [] [] [] [] [] [] []]; intros H; try discriminate H;
    by destruct s as [|b [|c s]].
Qed.

Lemma graphic_TrimRight s : all_bytes graphic_byte s = true -> TrimRightSpace s = s.
Proof.
  induction s as [|a s IH]; [done|]. cbn [all_bytes]. rw andb_true_iff. intros [Ha Hs].
  rw TrimRightSpace_eq (TrimLeftSpace_id _ (graphic_strip _ _ Ha)).
  by rw (IH Hs).
Qed.

Lemma graphic_TrimSpace s : all_bytes graphic_byte s = true -> TrimSpace s = s.
Proof.
  intros H. unfold TrimSpace.
  enough (Hs : strip_space s = None).
  { rw (TrimLeftSpace_id _ Hs). by apply graphic_TrimRight. }
  destruct s as [|a s]; [done|]. apply graphic_strip.
  cbn in H. by apply andb_true_iff in H as [? _].
Qed.

(** A byte no white space character is encoded with keeps a string from being
    blank. *)
Definition space_byte (a : ascii) : bool := ascii_space a || negb (is_ascii_byte a).

Lemma strip_space_bytes s s' :
  strip_space s = Some s' -> all_bytes space_byte s' = true -> all_bytes space_byte s = true.
Proof.
  unfold strip_space, space2, space3, space_byte, is_ascii_byte. intros H Hs.
  repeat (case_match; simplify_eq/=); rw Hs ?andb_true_r;
    repeat match goal with |- context [ascii_space ?a] => destruct (ascii_space a) end;
    cbn [orb]; lia.
Qed.

Lemma trim_left_blank n s : trim_left_fuel n s = EmptyString -> all_bytes space_byte s = true.
Proof.
  revert s. induction n as [|n IH]; intros s; cbn; [by intros ->|].
  destruct (strip_space s) as [s'|] eqn:E; [|by intros ->].
  intros H. eapply strip_space_bytes; eauto.
Qed.

Lemma blank_bytes s : blank s = true -> all_bytes space_byte s = true.
Proof.
  unfold blank, TrimSpace. intros H%bool_decide_eq_true_1.
  apply (trim_left_blank (String.length s)). change (TrimLeftSpace s = EmptyString).
  rw TrimRightSpace_eq (TrimLeftSpace_id _ (TrimLeftSpace_stop s)) in H.
  by destruct (TrimLeftSpace s).
Qed.

Lemma blank_TrimSpace s : blank (TrimSpace s) = blank s.
Proof. unfold blank. by rw TrimSpace_idemp. Qed.

Lemma blank_false s : blank s = false <-> TrimSpace s <> EmptyString.
Proof. unfold blank. by rw bool_decide_eq_false. Qed.

#[export] Hint Rewrite TrimSpace_idemp blank_TrimSpace TrimRight_idemp : gostr.

(** ** Lemmas: [Split] *)

(** [strings.Join] with a one-character separator. *)
Fixpoint Join (l : list string) (c : ascii) : string :=
  match l with
  | [] => EmptyString
  | [x] => x
  | x :: l' => x +:+ String c (Join l' c)
  end.

Lemma Split_not_nil s c : Split s c <> [].
Proof. induction s as [|a s IH]; cbn; repeat case_match; done. Qed.

Lemma Split_app s t c : Split (s +:+ String c t) c = Split s c ++ Split t c.
Proof.
  induction s as [|a s IH].
  - rw sapp_nil_l. simpl. by rw Ascii.eqb_refl.
  - rw sapp_cons. simpl. rw IH. destruct (Ascii.eqb a c); [done|].
    destruct (Split s c) eqn:E; [|done]. by apply Split_not_nil in E.
Qed.

Lemma Join_Split s c : Join (Split s c) c = s.
Proof.
  induction s as [|a s IH]; [done|]. cbn. destruct (Ascii.eqb_spec a c) as [->|Hne].
  - destruct (Split s c) eqn:E; [by apply Split_not_nil in E|].
    change (EmptyString +:+ String c (Join (s0 :: l) c) = String c s). by rw IH.
  - destruct (Split s c) as [|x [|y l]] eqn:E; [by apply Split_not_nil in E|..];
      by rw -IH.
Qed.

Lemma Join_app l k c :
  l <> [] -> k <> [] -> Join (l ++ k) c = Join l c +:+ String c (Join k c).
Proof.
  intros Hl Hk. induction l as [|x l IH]; [done|]. destruct l as [|y l].
  - cbn. by destruct k.
  - change (x +:+ String c (Join ((y :: l) ++ k) c) = (x +:+ String c (Join (y :: l) c)) +:+ String c (Join k c)).
    rw IH //. by rw sapp_assoc.
Qed.

(** A path lies under a prefix at a segment boundary exactly when the prefix's
    segments are the first segments of the path. *)
Lemma Split_prefix s p c :
  Split p c `prefix_of` Split s c <-> s = p \/ HasPrefix s (p +:+ String c EmptyString) = true.
Proof.
  rw HasPrefix_spec. split.
  - intros [k Hk]. destruct k as [|x k].
    + left. rw app_nil_r in Hk. by rw -(Join_Split s c) Hk Join_Split.
    + right. exists (Join (x :: k) c).
      rw -(Join_Split s c) Hk Join_app; [apply Split_not_nil|done|].
      by rw Join_Split sapp_assoc sapp_cons.
  - intros [->|[t ->]]; [done|]. rw sapp_assoc sapp_cons Split_app sapp_nil_l.
    by eexists.
Qed.

(** Two prefixes of one string with the same length are equal. *)
Lemma prefix_same_length s p q u v :
  s = p +:+ u -> s = q +:+ v -> String.length p = String.length q -> p = q.
Proof.
  revert s q. induction p as [|a p IH]; intros s q.
  - intros _ _ H. by destruct q.
  - destruct q as [|b q]; [done|]. intros -> H [= Hl].
    rw !sapp_cons in H. injection H as -> H. f_equal. by eapply IH.
Qed.

Lemma len_nonneg s : (0 <= len s)%Z.
Proof. unfold len. lia. Qed.

(** ** UTF-8 *)

(** The bytes of a well-formed UTF-8 sequence, as Go and PostgreSQL check them: no
    overlong form, no surrogate, nothing above U+10FFFF. *)
Definition in_range (lo hi : N) (a : ascii) : bool := ((lo <=? byte_val a) && (byte_val a <=? hi))%N.
Definition continuation : ascii -> bool := in_range 0x80 0xBF.

Definition utf8_two (a b : ascii) : bool := in_range 0xC2 0xDF a && continuation b.
Definition utf8_three (a b c : ascii) : bool :=
  ((in_range 0xE0 0xE0 a && in_range 0xA0 0xBF b) || (in_range 0xED 0xED a && in_range 0x80 0x9F b) ||
   ((in_range 0xE1 0xEC a || in_range 0xEE 0xEF a) && continuation b)) && continuation c.
Definition utf8_four (a b c d : ascii) : bool :=
  ((in_range 0xF0 0xF0 a && in_range 0x90 0xBF b) || (in_range 0xF4 0xF4 a && in_range 0x80 0x8F b) ||
   (in_range 0xF1 0xF3 a && continuation b)) && continuation c && continuation d.

Fixpoint utf8_valid (s : string) : bool :=
  match s with
  | EmptyString => true
  | String a s1 =>
    if is_ascii_byte a then utf8_valid s1
    else match s1 with
         | String b s2 =>
           if utf8_two a b then utf8_valid s2
           else match s2 with
                | String c s3 =>
                  if utf8_three a b c then utf8_valid s3
                  else match s3 with
                       | String d s4 => utf8_four a b c d && utf8_valid s4
                       | EmptyString => false
                       end
                | EmptyString => false
                end
         | EmptyString => false
         end
  end.

Lemma utf8_ascii s : all_bytes is_ascii_byte s = true -> utf8_valid s = true.
Proof. induction s as [|a s IH]; [done|]. cbn. rw andb_true_iff. intros [-> Hs]. by apply IH. Qed.

Example utf8_euro : utf8_valid (String "226" (String "130" (String "172" ""))) = true.
Proof. reflexivity. Qed.
Example utf8_surrogate : utf8_valid (String "237" (String "160" (String "128" ""))) = false.
Proof. reflexivity. Qed.

(** Induction along the characters of a well-formed string. *)
Lemma utf8_ind (P : string -> Prop) :
  P EmptyString ->
  (forall a s, is_ascii_byte a = true -> P s -> P (String a s)) ->
  (forall a b s, is_ascii_byte a = false -> utf8_two a b = true -> P s -> P (String a (String b s))) ->
  (forall a b c s, is_ascii_byte a = false -> utf8_two a b = false -> utf8_three a b c = true -> P s ->
     P (String a (String b (String c s)))) ->
  (forall a b c d s, is_ascii_byte a = false -> utf8_two a b = false -> utf8_three a b c = false ->
     utf8_four a b c d = true -> P s -> P (String a (String b (String c (String d s))))) ->
  forall s, utf8_valid s = true -> P s.
Proof.
  intros H0 H1 H2 H3 H4 s. remember (String.length s) as n eqn:En. assert (Hn : String.length s <= n) by lia. clear En.
  revert s Hn. induction n as [|n IH]; intros [|a s] Hn; cbn in *; [done|lia|done|].
  destruct (is_ascii_byte a) eqn:Ea; [intros Hs; apply H1; [done|]; apply IH; [lia|done]|].
  destruct s as [|b s]; [done|]. cbn in *. destruct (utf8_two a b) eqn:E2; [intros Hs; apply H2; [done..|]; apply IH; [lia|done]|].
  destruct s as [|c s]; [done|]. cbn in *. destruct (utf8_three a b c) eqn:E3; [intros Hs; apply H3; [done..|]; apply IH; [lia|done]|].
  destruct s as [|d s]; [done|]. cbn in *. intros [E4 Hs]%andb_true_iff. apply H4; [done..|]. apply IH; [lia|done].
Qed.
