(* ===== verification/GoTime.v ===== *)
(** Machine integers, [time.Duration] and [time.Time].

    Go's [int] and [int64] are 64-bit two's complement (the services are built
    for 64-bit targets); arithmetic that can leave the range is written with
    [wrap64].  A [time.Duration] is an [int64] of nanoseconds.  A [time.Time] is
    the number of nanoseconds since January 1 of year 1, 00:00 UTC, which is the
    zero [Time]; the location plays no role in comparisons, differences and
    truncation, so [UTC()] is the identity, and the monotonic clock reading is
    not represented. *)
From Stdlib Require Import ZArith Lia.
From Corelib Require Import ssreflect.
From stdpp Require Import base numbers.
From S2P Require Import Prelude.

#[local] Open Scope Z_scope.

(** ** Integers *)

Definition min_int64 : Z := - 2 ^ 63.
Definition max_int64 : Z := 2 ^ 63 - 1.
Definition int64_range (z : Z) : Prop := min_int64 <= z <= max_int64.
Definition max_int32 : Z := 2 ^ 31 - 1.
Definition int32_range (z : Z) : Prop := - 2 ^ 31 <= z <= 2 ^ 31 - 1.

#[global] Instance int64_range_dec z : Decision (int64_range z).
Proof. unfold int64_range. apply _. Defined.
#[global] Instance int32_range_dec z : Decision (int32_range z).
Proof. unfold int32_range. apply _. Defined.

Definition wrap64 (z : Z) : Z := (z + 2 ^ 63) mod 2 ^ 64 - 2 ^ 63.

Lemma wrap64_id z : int64_range z -> wrap64 z = z.
Proof.
  unfold int64_range, min_int64, max_int64, wrap64. intros H.
  rw Z.mod_small; lia.
Qed.

Lemma wrap64_range z : int64_range (wrap64 z).
Proof.
  unfold int64_range, min_int64, max_int64, wrap64.
  pose proof (Z.mod_pos_bound (z + 2 ^ 63) (2 ^ 64) ltac:(lia)). lia.
Qed.

(** ** Durations *)

Definition Nanosecond : Z := 1.
Definition Microsecond : Z := 1000.
Definition Millisecond : Z := 1000000.
Definition Second : Z := 1000000000.
Definition Minute : Z := 60 * Second.
Definition Hour : Z := 60 * Minute.

(** [Duration.Milliseconds]: truncated division. *)
Definition Milliseconds (d : Z) : Z := Z.quot d Millisecond.

(** ** Instants *)

(** The zero [Time] and the Unix epoch. *)
Definition time_zero : Z := 0.
Definition unix_epoch : Z := 62135596800 * Second.

Definition IsZero (t : Z) : bool := t =? time_zero.
Definition After (t u : Z) : bool := u <? t.
Definition Before (t u : Z) : bool := t <? u.
Definition Add (t d : Z) : Z := t + d.
(** [t.Sub(u)] saturates at the range of a [Duration]. *)
Definition Sub (t u : Z) : Z := Z.max min_int64 (Z.min max_int64 (t - u)).
(** [t.Truncate(d)]: round down to a multiple of [d] since the zero time. *)
Definition Truncate (t d : Z) : Z := if d <=? 0 then t else t - t mod d.

Definition Unix (t : Z) : Z := (t - unix_epoch) / Second.
Definition UnixMilli (t : Z) : Z := (t - unix_epoch) / Millisecond.
(** [time.UnixMilli(ms)]. *)
Definition of_UnixMilli (ms : Z) : Z := unix_epoch + ms * Millisecond.

(** ** Lemmas *)

Ltac Zify.zify_post_hook ::= Z.to_euclidean_division_equations.

Ltac unfold_time :=
  unfold Nanosecond, Microsecond, Hour, Minute, Second, Millisecond, time_zero,
    unix_epoch, min_int64, max_int64 in *.

Lemma Sub_exact t u : int64_range (t - u) -> Sub t u = t - u.
Proof. unfold Sub, int64_range. lia. Qed.

Lemma Truncate_le t d : 0 < d -> Truncate t d <= t < Truncate t d + d.
Proof.
  intros Hd. unfold Truncate. rw (proj2 (Z.leb_gt d 0) Hd).
  pose proof (Z.mod_pos_bound t d Hd). lia.
Qed.

Lemma Truncate_aligned t d : 0 < d -> Truncate t d mod d = 0.
Proof.
  intros Hd. unfold Truncate. rw (proj2 (Z.leb_gt d 0) Hd).
  rw Zminus_mod_idemp_r Z.sub_diag. apply Z.mod_0_l. lia.
Qed.

Lemma Truncate_fixed t d : 0 < d -> t mod d = 0 -> Truncate t d = t.
Proof.
  intros Hd H. unfold Truncate. rw (proj2 (Z.leb_gt d 0) Hd) H. lia.
Qed.

Lemma Truncate_mono t u d : 0 < d -> t <= u -> Truncate t d <= Truncate u d.
Proof.
  intros Hd H. unfold Truncate. rw (proj2 (Z.leb_gt d 0) Hd).
  rw !Z.mod_eq; [lia|lia|]. pose proof (Z.div_le_mono t u d Hd H). nia.
Qed.

Lemma UnixMilli_of_UnixMilli ms : UnixMilli (of_UnixMilli ms) = ms.
Proof. unfold UnixMilli, of_UnixMilli. unfold_time. lia. Qed.
