(* ===== verification/GoEncoding.v ===== *)
(** The packages [encoding/hex], [encoding/base64] (RawURLEncoding) and
    [crypto/sha256], on byte strings, with the round trips of the two codecs. *)
From Stdlib Require Import Ascii NArith Lia.
From Corelib Require Import ssreflect.
From stdpp Require Import base strings list numbers.
From S2P Require Import Prelude GoStrings.

#[local] Open Scope N_scope.

(** ** encoding/hex *)

Definition hex_digit (n : N) : ascii := ascii_of_N (if n <? 10 then 48 + n else 87 + n).

Definition hex_val (a : ascii) : option N :=
  let n := byte_val a in
  if (48 <=? n) && (n <=? 57) then Some (n - 48)
  else if (97 <=? n) && (n <=? 102) then Some (n - 87)
  else if (65 <=? n) && (n <=? 70) then Some (n - 55)
  else None.

(** [hex.EncodeToString]. *)
Fixpoint hex_encode (s : string) : string :=
  match s with
  | EmptyString => EmptyString
  | String a s' =>
    String (hex_digit (byte_val a / 16)) (String (hex_digit (byte_val a mod 16)) (hex_encode s'))
  end.

(** [hex.DecodeString]; [None] is its error. *)
Fixpoint hex_decode (s : string) : option string :=
  match s with
  | EmptyString => Some EmptyString
  | String a (String b s') =>
    match hex_val a, hex_val b, hex_decode s' with
    | Some x, Some y, Some t => Some (String (ascii_of_N (16 * x + y)) t)
    | _, _, _ => None
    end
  | String _ EmptyString => None
  end.

(** ** base64.RawURLEncoding *)

Definition b64_char (n : N) : ascii :=
  ascii_of_N
    (if n <? 26 then 65 + n
     else if n <? 52 then 71 + n
     else if n <? 62 then n - 4
     else if n =? 62 then 45 else 95).

Definition b64_val (a : ascii) : option N :=
  let n := byte_val a in
  if (65 <=? n) && (n <=? 90) then Some (n - 65)
  else if (97 <=? n) && (n <=? 122) then Some (n - 71)
  else if (48 <=? n) && (n <=? 57) then Some (n + 4)
  else if n =? 45 then Some 62
  else if n =? 95 then Some 63
  else None.

Fixpoint b64_encode (s : string) : string :=
  match s with
  | EmptyString => EmptyString
  | String a s1 =>
    let x := byte_val a in
    match s1 with
    | EmptyString => String (b64_char (x / 4)) (String (b64_char (x mod 4 * 16)) EmptyString)
    | String b s2 =>
      let y := byte_val b in
      match s2 with
      | EmptyString =>
        String (b64_char (x / 4)) (String (b64_char (x mod 4 * 16 + y / 16))
          (String (b64_char (y mod 16 * 4)) EmptyString))
      | String c s3 =>
        let z := byte_val c in
        String (b64_char (x / 4)) (String (b64_char (x mod 4 * 16 + y / 16))
          (String (b64_char (y mod 16 * 4 + z / 64)) (String (b64_char (z mod 64))
            (b64_encode s3))))
      end
    end
  end.

(** Decoding of the characters left once carriage returns and line feeds, which
    the decoder skips, are removed.  The encoding is not strict: the unused bits
    of the last character are ignored. *)
Fixpoint b64_decode_clean (s : string) : option string :=
  match s with
  | EmptyString => Some EmptyString
  | String a (String b s2) =>
    match b64_val a, b64_val b with
    | Some p, Some q =>
      let byte0 := ascii_of_N (p * 4 + q / 16) in
      match s2 with
      | EmptyString => Some (String byte0 EmptyString)
      | String c s3 =>
        match b64_val c with
        | Some r =>
          let byte1 := ascii_of_N (q mod 16 * 16 + r / 4) in
          match s3 with
          | EmptyString => Some (String byte0 (String byte1 EmptyString))
          | String d s4 =>
            match b64_val d, b64_decode_clean s4 with
            | Some t, Some rest =>
              Some (String byte0 (String byte1 (String (ascii_of_N (r mod 4 * 64 + t)) rest)))
            | _, _ => None
            end
          end
        | None => None
        end
      end
    | _, _ => None
    end
  | String _ EmptyString => None
  end.

Definition b64_decode (s : string) : option string :=
  b64_decode_clean (remove_char "010"%char (remove_char "013"%char s)).

(** ** crypto/sha256 *)

Module Sha256.

Definition mask (x : N) : N := N.land x 0xFFFFFFFF.
Definition rotr (k x : N) : N := N.lor (N.shiftr x k) (mask (N.shiftl x (32 - k))).
Definition ch (x y z : N) : N := N.lxor (N.land x y) (N.land (N.lxor x 0xFFFFFFFF) z).
Definition maj (x y z : N) : N := N.lxor (N.lxor (N.land x y) (N.land x z)) (N.land y z).
Definition bsig0 (x : N) : N := N.lxor (N.lxor (rotr 2 x) (rotr 13 x)) (rotr 22 x).
Definition bsig1 (x : N) : N := N.lxor (N.lxor (rotr 6 x) (rotr 11 x)) (rotr 25 x).
Definition ssig0 (x : N) : N := N.lxor (N.lxor (rotr 7 x) (rotr 18 x)) (N.shiftr x 3).
Definition ssig1 (x : N) : N := N.lxor (N.lxor (rotr 17 x) (rotr 19 x)) (N.shiftr x 10).

(** The constants: the first 32 bits of the fractional parts of the cube roots of
    the first 64 primes and of the square roots of the first 8. *)
Definition primes : list N :=
  [2; 3; 5; 7; 11; 13; 17; 19; 23; 29; 31; 37; 41; 43; 47; 53; 59; 61; 67; 71; 73; 79;
   83; 89; 97; 101; 103; 107; 109; 113; 127; 131; 137; 139; 149; 151; 157; 163; 167; 173; 179; 181; 191; 193;
   197; 199; 211; 223; 227; 229; 233; 239; 241; 251; 257; 263; 269; 271; 277; 281; 283; 293; 307; 311].

(** Integer cube root by bisection: [lo^3 <= x < hi^3]. *)
Fixpoint cube_root (fuel : nat) (lo hi x : N) : N :=
  match fuel with
  | O => lo
  | S fuel' =>
    if hi <=? lo + 1 then lo
    else let m := (lo + hi) / 2 in
         if m * m * m <=? x then cube_root fuel' m hi x else cube_root fuel' lo m x
  end.

Definition K : list N :=
  Eval vm_compute in map (fun p => cube_root 64 0 (2 ^ 36) (p * 2 ^ 96) mod 2 ^ 32) primes.

Record state := St { ha : N; hb : N; hc : N; hd : N; he : N; hf : N; hg : N; hh : N }.

Definition H0 : state :=
  Eval vm_compute in
  let r i := N.sqrt (nth i primes 0 * 2 ^ 64) mod 2 ^ 32 in
  St (r 0%nat) (r 1%nat) (r 2%nat) (r 3%nat) (r 4%nat) (r 5%nat) (r 6%nat) (r 7%nat).

(** The message bytes followed by the padding. *)
Definition pad (s : string) : list N :=
  let msg := map byte_val (String.list_ascii_of_string s) in
  let l := N.of_nat (length msg) in
  let zeros := N.to_nat ((119 - l mod 64) mod 64) in
  let bits := l * 8 in
  msg ++ [0x80] ++ replicate zeros 0 ++
    map (fun i => N.land (N.shiftr bits (8 * i)) 0xFF) [7; 6; 5; 4; 3; 2; 1; 0].

Fixpoint words (l : list N) : list N :=
  match l with
  | a :: b :: c :: d :: l' => (((a * 256 + b) * 256 + c) * 256 + d) :: words l'
  | _ => []
  end.

(** The last [n] words of the schedule, latest first. *)
Fixpoint schedule (n : nat) (w : list N) : list N :=
  match n with
  | O => w
  | S n' =>
    let at_ i := nth i w 0 in
    schedule n' (mask (ssig1 (at_ 1%nat) + at_ 6%nat + ssig0 (at_ 14%nat) + at_ 15%nat) :: w)
  end.

Definition round (s : state) (kw : N * N) : state :=
  let t1 := hh s + bsig1 (he s) + ch (he s) (hf s) (hg s) + kw.1 + kw.2 in
  let t2 := bsig0 (ha s) + maj (ha s) (hb s) (hc s) in
  St (mask (t1 + t2)) (ha s) (hb s) (hc s) (mask (hd s + t1)) (he s) (hf s) (hg s).

Definition block (s : state) (w : list N) : state :=
  let t := fold_left round (combine K (rev (schedule 48 (rev w)))) s in
  St (mask (ha s + ha t)) (mask (hb s + hb t)) (mask (hc s + hc t)) (mask (hd s + hd t))
     (mask (he s + he t)) (mask (hf s + hf t)) (mask (hg s + hg t)) (mask (hh s + hh t)).

Fixpoint blocks (fuel : nat) (s : state) (w : list N) : state :=
  match fuel, w with
  | S fuel', _ :: _ => blocks fuel' (block s (take 16 w)) (drop 16 w)
  | _, _ => s
  end.

Definition word_bytes (x : N) : string :=
  String (ascii_of_N (N.shiftr x 24)) (String (ascii_of_N (N.land (N.shiftr x 16) 0xFF))
    (String (ascii_of_N (N.land (N.shiftr x 8) 0xFF)) (String (ascii_of_N (N.land x 0xFF)) EmptyString))).

(** [sha256.Sum256]; the fuel is the number of message words, more than the
    number of blocks. *)
Definition Sum256 (m : string) : string :=
  let w := words (pad m) in
  let s := blocks (length w) H0 w in
  word_bytes (ha s) +:+ word_bytes (hb s) +:+ word_bytes (hc s) +:+ word_bytes (hd s) +:+
  word_bytes (he s) +:+ word_bytes (hf s) +:+ word_bytes (hg s) +:+ word_bytes (hh s).

Example Sum256_abc :
  hex_encode (Sum256 "abc") = "ba7816bf8f01cfea414140de5dae2223b00361a396177a9cb410ff61f20015ad".
Proof. vm_compute. reflexivity. Qed.

Example Sum256_two_blocks :
  hex_encode (Sum256 "abcdbcdecdefdefgefghfghighijhijkijkljklmklmnlmnomnopnopq") =
  "248d6a61d20638b8e5c026930c3e6039a33ce45964ff2167f6ecedd419db06c1".
Proof. vm_compute. reflexivity. Qed.

Lemma Sum256_length m : String.length (Sum256 m) = 32%nat.
Proof. done. Qed.

End Sha256.

(** [hex.EncodeToString(sha256.Sum256([]byte(v))[:])]. *)
Definition sha256_hex (v : string) : string := hex_encode (Sha256.Sum256 v).

(** ** Round trips *)

Ltac Zify.zify_post_hook ::= Z.to_euclidean_division_equations.

Lemma byte_val_lt a : byte_val a < 256.
Proof. apply N_ascii_bounded. Qed.

Lemma of_byte_val a : ascii_of_N (byte_val a) = a.
Proof. apply ascii_N_embedding. Qed.

Lemma below_16 (P : N -> bool) :
  forallb P (map N.of_nat (seq 0 16)) = true -> forall n, n < 16 -> P n = true.
Proof.
  rw forallb_forall. intros H n Hn. apply H, in_map_iff.
  exists (N.to_nat n). rw in_seq. lia.
Qed.

Lemma below_64 (P : N -> bool) :
  forallb P (map N.of_nat (seq 0 64)) = true -> forall n, n < 64 -> P n = true.
Proof.
  rw forallb_forall. intros H n Hn. apply H, in_map_iff.
  exists (N.to_nat n). rw in_seq. lia.
Qed.

Lemma hex_val_digit n : n < 16 -> hex_val (hex_digit n) = Some n.
Proof.
  intros Hn. apply (bool_decide_eq_true_1 (hex_val (hex_digit n) = Some n)).
  revert n Hn. apply below_16. vm_compute. reflexivity.
Qed.

Lemma b64_val_char n : n < 64 -> b64_val (b64_char n) = Some n.
Proof.
  intros Hn. apply (bool_decide_eq_true_1 (b64_val (b64_char n) = Some n)).
  revert n Hn. apply below_64. vm_compute. reflexivity.
Qed.

Lemma hex_decode_encode s : hex_decode (hex_encode s) = Some s.
Proof.
  induction s as [|a s IH]; [done|]. cbn [hex_encode hex_decode].
  pose proof (byte_val_lt a) as Ha.
  rw (hex_val_digit (byte_val a / 16)); [lia|].
  rw (hex_val_digit (byte_val a mod 16)); [lia|].
  rw IH -{3}(of_byte_val a). do 3 f_equal.
  lia.
Qed.

Lemma pack_div q r k : r < k -> (q * k + r) / k = q /\ (q * k + r) mod k = r.
Proof.
  intros H. split.
  - symmetry. apply (N.div_unique _ k q r); lia.
  - symmetry. apply (N.mod_unique _ k q r); lia.
Qed.

Lemma unpack_div x k : x / k * k + x mod k = x.
Proof. rw {3}(N.Div0.div_mod x k). lia. Qed.

Lemma b64_group3 x y z :
  x < 256 -> y < 256 -> z < 256 ->
  x / 4 * 4 + (x mod 4 * 16 + y / 16) / 16 = x /\
  (x mod 4 * 16 + y / 16) mod 16 * 16 + (y mod 16 * 4 + z / 64) / 4 = y /\
  (y mod 16 * 4 + z / 64) mod 4 * 64 + z mod 64 = z.
Proof.
  intros Hx Hy Hz.
  destruct (pack_div (x mod 4) (y / 16) 16) as [-> ->]; [lia|].
  destruct (pack_div (y mod 16) (z / 64) 4) as [-> ->]; [lia|].
  by rw !unpack_div.
Qed.

Lemma b64_sextets x y z :
  x < 256 -> y < 256 -> z < 256 ->
  x / 4 < 64 /\ x mod 4 * 16 + y / 16 < 64 /\ y mod 16 * 4 + z / 64 < 64 /\ z mod 64 < 64.
Proof. intros Hx Hy Hz. repeat split; lia. Qed.

Lemma b64_decode_clean_encode s : b64_decode_clean (b64_encode s) = Some s.
Proof.
  remember (String.length s) as n eqn:Hn. revert s Hn.
  induction n as [n IH] using lt_wf_ind. intros [|a [|b [|c s]]] ->; [done|..].
  - pose proof (byte_val_lt a). cbn [b64_encode b64_decode_clean].
    rw !b64_val_char; [lia..|]. rw -{3}(of_byte_val a). do 3 f_equal. lia.
  - pose proof (byte_val_lt a). pose proof (byte_val_lt b).
    cbn [b64_encode b64_decode_clean]. rw !b64_val_char; [lia..|].
    destruct (b64_group3 (byte_val a) (byte_val b) 0) as (Ea & Eb & _); [lia..|].
    rw N.add_0_r in Eb. by rw Ea Eb !of_byte_val.
  - destruct (b64_group3 (byte_val a) (byte_val b) (byte_val c)) as (Ea & Eb & Ec);
      [apply byte_val_lt..|].
    destruct (b64_sextets (byte_val a) (byte_val b) (byte_val c)) as (? & ? & ? & ?);
      [apply byte_val_lt..|].
    cbn [b64_encode b64_decode_clean]. rw !b64_val_char; [lia..|].
    rw (IH (String.length s)); [cbn; lia|done|]. by rw Ea Eb Ec !of_byte_val.
Qed.

(** The characters both encoders produce. *)
Definition token_byte (a : ascii) : bool :=
  match b64_val a with Some _ => true | None => false end.

Lemma token_byte_b64 n : n < 64 -> token_byte (b64_char n) = true.
Proof. intros H. unfold token_byte. by rw (b64_val_char _ H). Qed.

Lemma token_byte_hex n : n < 16 -> token_byte (hex_digit n) = true.
Proof. revert n. apply below_16. vm_compute. reflexivity. Qed.

Lemma b64_encode_token s : all_bytes token_byte (b64_encode s) = true.
Proof.
  remember (String.length s) as n eqn:Hn. revert s Hn.
  induction n as [n IH] using lt_wf_ind. intros [|a [|b [|c s]]] ->; [done|..];
    repeat match goal with x : ascii |- _ =>
      lazymatch goal with H : byte_val x < 256 |- _ => fail
      | |- _ => pose proof (byte_val_lt x) end end;
    cbn [b64_encode all_bytes]; rw !token_byte_b64; try lia.
  apply (IH (String.length s)); [cbn; lia|done].
Qed.

Lemma hex_encode_token s : all_bytes token_byte (hex_encode s) = true.
Proof.
  induction s as [|a s IH]; [done|]. cbn [hex_encode all_bytes].
  pose proof (byte_val_lt a). rw !token_byte_hex; [lia..|]. exact IH.
Qed.

Lemma hex_encode_length s : String.length (hex_encode s) = (2 * String.length s)%nat.
Proof. induction s as [|a s IH]; [done|]. cbn. rw IH. lia. Qed.

Lemma token_graphic a : token_byte a = true -> graphic_byte a = true.
Proof. destruct a as [[] [] [] [] [] [] [] []]; vm_compute; congruence. Qed.

Lemma token_remove c s :
  token_byte c = false -> all_bytes token_byte s = true -> remove_char c s = s.
Proof.
  intros Hc. induction s as [|a s IH]; [done|]. cbn.
  destruct (Ascii.eqb_spec a c) as [->|Hne]; [by rw Hc|].
  rw andb_true_iff. intros [_ Hs]. by rw IH.
Qed.

Lemma b64_decode_encode s : b64_decode (b64_encode s) = Some s.
Proof.
  unfold b64_decode. pose proof (b64_encode_token s) as H.
  rw (token_remove "013"%char) // (token_remove "010"%char) //.
  apply b64_decode_clean_encode.
Qed.

(** Distinct byte strings have distinct hexadecimal texts. *)
Lemma hex_encode_inj s t : hex_encode s = hex_encode t -> s = t.
Proof.
  intros H. apply (f_equal hex_decode) in H. rw !hex_decode_encode in H. congruence.
Qed.
