(* ===== verification/GoNet.v ===== *)
(** The parts of net/url, net/http, net and encoding/json the program calls.

    URL parsing is the operation of the class [NetURL], with a concrete instance at
    the end of the file for evaluating examples.  [JSONDecoder] is the interface the
    components decode bodies through; its instances on the decoder of GoJSON.v are in
    Wire.v and Bodies.v.  Header maps,
    body streams with their size limit and the host part of an address are
    modelled here. *)
From Stdlib Require Import Ascii ZArith Lia.
From Corelib Require Import ssreflect.
From stdpp Require Import base gmap strings list numbers pretty.
From S2P Require Import Prelude GoStrings.

#[local] Open Scope Z_scope.

(** ** URLs *)

(** The fields of [url.URL] the program reads; [User] is whether user
    information is present. *)
Record URL := mkURL {
  u_Scheme : string;
  u_User : bool;
  u_Host : string;
  u_Path : string
}.

Class NetURL := {
  url_Parse : string -> res URL;
  url_ParseRequestURI : string -> res URL;
  url_String : URL -> string;
  url_JoinPath : string -> string -> res string;
  url_Hostname : URL -> string;
}.

(** ** Headers *)

Definition is_lower (a : ascii) : bool := ((97 <=? byte_val a) && (byte_val a <=? 122))%N.
Definition is_upper (a : ascii) : bool := ((65 <=? byte_val a) && (byte_val a <=? 90))%N.
Definition is_digit (a : ascii) : bool := ((48 <=? byte_val a) && (byte_val a <=? 57))%N.

Definition has_byte (a : ascii) (s : string) : bool := negb (no_byte a s).

(** The token bytes of a header field name. *)
Definition token_char (a : ascii) : bool :=
  is_lower a || is_upper a || is_digit a ||
  has_byte a "!#$%&'*+-.^_`|~".

Fixpoint canonical_bytes (upper : bool) (s : string) : string :=
  match s with
  | EmptyString => EmptyString
  | String a s' =>
    String (if upper then upper_byte a else lower_byte a)
      (canonical_bytes (Ascii.eqb a "-"%char) s')
  end.

(** [textproto.CanonicalMIMEHeaderKey]. *)
Definition CanonicalHeaderKey (k : string) : string :=
  if all_bytes token_char k then canonical_bytes true k else k.

(** [http.Header]: canonical names to their values. *)
Abbreviation Header := (gmap string (list string)).

Definition Header_Get (h : Header) (k : string) : string :=
  match h !! CanonicalHeaderKey k with
  | Some (v :: _) => v
  | _ => ""
  end.
Definition Header_Set (h : Header) (k v : string) : Header := <[CanonicalHeaderKey k := [v]]> h.
Definition Header_Del (h : Header) (k : string) : Header := delete (CanonicalHeaderKey k) h.

(** ** Body streams *)

(** What a reader yields: bytes, then end of file or an error. *)
Record stream := mkStream {
  st_bytes : string;
  st_err : option error
}.

Fixpoint stake (n : N) (s : string) : string * bool :=
  match s with
  | EmptyString => (EmptyString, true)
  | String a s' =>
    if (n =? 0)%N then (EmptyString, false)
    else let '(t, whole) := stake (N.pred n) s' in (String a t, whole)
  end.

(** [io.LimitReader(r, n)]: at most [n] bytes; a stream of exactly [n] bytes
    ends before its error is seen. *)
Definition LimitReader (r : stream) (n : N) : stream :=
  let '(t, whole) := stake n (st_bytes r) in
  mkStream t (if whole && (N.of_nat (String.length t) <? n)%N then st_err r else None).

(** [io.ReadAll]. *)
Definition ReadAll (r : stream) : res string :=
  match st_err r with
  | Some e => Err e
  | None => Ok (st_bytes r)
  end.

Lemma stake_whole s : forall n, (N.of_nat (String.length s) <= n)%N -> stake n s = (s, true).
Proof.
  induction s as [|a s IH]; intros n Hn; [done|]. cbn [stake String.length] in *.
  destruct (N.eqb_spec n 0); [lia|]. rw IH; [lia|]. done.
Qed.

Record Response := mkResponse {
  res_StatusCode : Z;
  res_Body : stream
}.

(** ** JSON *)

(** A decoder over a stream: [json_Decode] reads one value of type [A] with
    unknown fields disallowed, [json_more] is what a second [Decode] into an
    [any] finds. *)
Inductive trailing := AtEOF | Malformed (e : error) | MoreValues.

Class JSONDecoder (A : Type) := {
  json_Decode : stream -> res (A * stream);
  json_more : stream -> trailing;
}.

(** A JSON reply: a status with a response body, or with an error text. *)
Inductive json_reply (A : Type) :=
| JSONOk (status : Z) (body : A)
| JSONError (status : Z) (message : string).
Arguments JSONOk {A}.
Arguments JSONError {A}.

(** ** Addresses *)

(** The index of the last colon, and [net.SplitHostPort]. *)
Fixpoint last_colon (s : string) : option (string * string) :=
  match s with
  | EmptyString => None
  | String a s' =>
    match last_colon s' with
    | Some (h, p) => Some (String a h, p)
    | None => if Ascii.eqb a ":"%char then Some (EmptyString, s') else None
    end
  end.

(** The host between the brackets, with the bytes after the first ']'. *)
Fixpoint until_bracket (s : string) : option (string * string) :=
  match s with
  | EmptyString => None
  | String a s' =>
    if Ascii.eqb a "]"%char then Some (EmptyString, s')
    else match until_bracket s' with
         | Some (h, r) => Some (String a h, r)
         | None => None
         end
  end.

Definition addrError (why addr : string) : error := Opaque ("address " +:+ addr +:+ ": " +:+ why).

Definition SplitHostPort (hostport : string) : res (string * string) :=
  match last_colon hostport with
  | None => Err (addrError "missing port in address" hostport)
  | Some (before, port) =>
    match hostport with
    | String "["%char rest =>
      match until_bracket rest with
      | None => Err (addrError "missing ']' in address" hostport)
      | Some (host, after) =>
        match after with
        | EmptyString => Err (addrError "missing port in address" hostport)
        | String c after' =>
          if Ascii.eqb c ":"%char && no_byte ":"%char after' then
            if has_byte "["%char host || has_byte "["%char after' then
              Err (addrError "unexpected '[' in address" hostport)
            else if has_byte "]"%char after' then
              Err (addrError "unexpected ']' in address" hostport)
            else Ok (host, after')
          else if Ascii.eqb c ":"%char then Err (addrError "too many colons in address" hostport)
          else Err (addrError "missing port in address" hostport)
        end
      end
    | _ =>
      if has_byte ":"%char before then Err (addrError "too many colons in address" hostport)
      else if has_byte "["%char hostport then Err (addrError "unexpected '[' in address" hostport)
      else if has_byte "]"%char hostport then Err (addrError "unexpected ']' in address" hostport)
      else Ok (before, port)
    end
  end.

Example SplitHostPort_ipv4 : SplitHostPort "10.0.0.7:4242" = Ok ("10.0.0.7", "4242").
Proof. reflexivity. Qed.
Example SplitHostPort_ipv6 : SplitHostPort "[2001:db8::1]:4242" = Ok ("2001:db8::1", "4242").
Proof. reflexivity. Qed.
Example SplitHostPort_bare : is_ok (SplitHostPort "2001:db8::1") = false.
Proof. reflexivity. Qed.

(** ** Lemmas *)

Lemma Header_Get_Del h k : Header_Get (Header_Del h k) k = "".
Proof. unfold Header_Get, Header_Del. by rw lookup_delete_eq. Qed.

Lemma Header_Get_Set h k v : Header_Get (Header_Set h k v) k = v.
Proof. unfold Header_Get, Header_Set. by rw lookup_insert_eq. Qed.

Lemma Header_Get_Set_ne h k k' v :
  CanonicalHeaderKey k <> CanonicalHeaderKey k' ->
  Header_Get (Header_Set h k v) k' = Header_Get h k'.
Proof. intros. unfold Header_Get, Header_Set. by rw lookup_insert_ne. Qed.

(** ** A URL parser for the plain forms scheme://host/path *)

Fixpoint cut_at (pat s : string) : option (string * string) :=
  match cut_prefix pat s with
  | Some rest => Some (EmptyString, rest)
  | None =>
    match s with
    | EmptyString => None
    | String a s' =>
      match cut_at pat s' with
      | Some (h, t) => Some (String a h, t)
      | None => None
      end
    end
  end.

Definition plain_Parse (s : string) : res URL :=
  match cut_at "://" s with
  | None => Ok (mkURL "" false "" s)
  | Some (scheme, rest) =>
    let '(host, path) := match cut_at "/" rest with
                         | Some (h, p) => (h, String "/" p)
                         | None => (rest, EmptyString)
                         end in
    if bool_decide (scheme = "") then Err (Opaque "missing protocol scheme")
    else Ok (mkURL (smap lower_byte scheme) (has_byte "@"%char host) host path)
  end.

Definition plain_url : NetURL := {|
  url_Parse := plain_Parse;
  url_ParseRequestURI s :=
    if bool_decide (s = "") then Err (Opaque "empty url") else plain_Parse s;
  url_String u := u_Scheme u +:+ "://" +:+ u_Host u +:+ u_Path u;
  url_JoinPath base elem := Ok (TrimRight base "/"%char +:+ "/" +:+ elem);
  url_Hostname u := match last_colon (u_Host u) with Some (h, _) => h | None => u_Host u end;
|}.
