(* ===== verification/GoDate.v ===== *)
(** Calendar dates, and the RFC 3339 texts of times.

    The civil date of a day is computed as package time does it, by cycles of 400, 100, 4
    and 1 years; a time is an instant in UTC ([GoTime]).  [format_nano] is the layout
    RFC3339Nano that Time.MarshalJSON uses and [format_rfc3339] the layout RFC3339;
    [parse_time] is time.Parse with that layout: it takes an hour of one digit, a fraction
    after a point or a comma, and an offset.  The round trip holds for the years 0 to 9999,
    the ones MarshalJSON accepts. *)
From Stdlib Require Import Ascii ZArith Lia.
From Corelib Require Import ssreflect.
From stdpp Require Import base strings list numbers.
From S2P Require Import Prelude GoStrings GoTime GoNet.

#[local] Open Scope Z_scope.

Module Date.

(** ** Dates *)

Definition leap (y : Z) : bool := (y mod 4 =? 0) && (negb (y mod 100 =? 0) || (y mod 400 =? 0)).
Definition months (y : Z) : list Z := [31; if leap y then 29 else 28; 31; 30; 31; 30; 31; 31; 30; 31; 30; 31].

(** Days from January 1 of year 1 to January 1 of a year. *)
Definition days_before_year (y : Z) : Z := 365 * (y - 1) + (y - 1) / 4 - (y - 1) / 100 + (y - 1) / 400.

(** The year of a day, and the day of the year from 0. *)
Definition year_yday (d : Z) : Z * Z :=
  let n400 := d / 146097 in
  let d := d mod 146097 in
  let n100 := Z.min 3 (d / 36524) in
  let d := d - 36524 * n100 in
  let n4 := d / 1461 in
  let d := d mod 1461 in
  let n1 := Z.min 3 (d / 365) in
  (400 * n400 + 100 * n100 + 4 * n4 + n1 + 1, d - 365 * n1).

(** Month and day of the month from the day of the year. *)
Fixpoint month_day (lengths : list Z) (m yday : Z) : Z * Z :=
  match lengths with
  | [] => (m, yday + 1)
  | n :: lengths => if yday <? n then (m, yday + 1) else month_day lengths (m + 1) (yday - n)
  end.
Definition days_before_month (y m : Z) : Z := foldr Z.add 0 (take (Z.to_nat (m - 1)) (months y)).
Definition days_in_month (y m : Z) : Z := default 0 (months y !! Z.to_nat (m - 1)).

Definition day_length : Z := 24 * Hour.

(** The instant of a date and a time of the day, and back. *)
Record civil := mkCivil { c_year : Z; c_month : Z; c_day : Z; c_hour : Z; c_minute : Z; c_second : Z; c_nano : Z }.
Definition instant (c : civil) : Z :=
  (days_before_year (c_year c) + days_before_month (c_year c) (c_month c) + (c_day c - 1)) * day_length +
  c_hour c * Hour + c_minute c * Minute + c_second c * Second + c_nano c.
Definition civil_of (t : Z) : civil :=
  let '(y, yday) := year_yday (t / day_length) in
  let '(m, d) := month_day (months y) 1 yday in
  mkCivil y m d (t mod day_length / Hour) (t mod Hour / Minute) (t mod Minute / Second) (t mod Second).
Definition year_of (t : Z) : Z := (year_yday (t / day_length)).1.

(** ** Texts *)

Definition dchar (n : Z) : ascii := ascii_of_N (48 + Z.to_N n).
Definition dval (a : ascii) : Z := Z.of_N (byte_val a) - 48.
Fixpoint pad (w : nat) (n : Z) : string :=
  match w with O => EmptyString | S w => pad w (n / 10) +:+ String (dchar (n mod 10)) EmptyString end.

Definition date_text (c : civil) : string :=
  pad 4 (c_year c) +:+ "-" +:+ pad 2 (c_month c) +:+ "-" +:+ pad 2 (c_day c) +:+ "T" +:+
  pad 2 (c_hour c) +:+ ":" +:+ pad 2 (c_minute c) +:+ ":" +:+ pad 2 (c_second c).
Definition frac_text (n : Z) : string := if n =? 0 then EmptyString else "." +:+ TrimRight (pad 9 n) "0".

Definition format_rfc3339 (t : Z) : string := date_text (civil_of t) +:+ "Z".
Definition format_nano (t : Z) : string := date_text (civil_of t) +:+ frac_text (c_nano (civil_of t)) +:+ "Z".

(** A zone is given by its offset to UTC in minutes; that of UTC is written Z. *)
Definition offset_text (m : Z) : string :=
  if m =? 0 then "Z" else (if m <? 0 then "-" else "+") +:+ pad 2 (Z.abs m / 60) +:+ ":" +:+ pad 2 (Z.abs m mod 60).
Definition format_nano_in (m t : Z) : string :=
  date_text (civil_of (t + m * Minute)) +:+ frac_text (c_nano (civil_of (t + m * Minute))) +:+ offset_text m.

(** Decimal digits at the head of a text. *)
Fixpoint digits (s : string) : string * string :=
  match s with
  | String a s' => if is_digit a then (String a (digits s').1, (digits s').2) else (EmptyString, s)
  | EmptyString => (EmptyString, EmptyString)
  end.

(** A number of exactly [w] digits. *)
Fixpoint num (w : nat) (acc : Z) (s : string) : option (Z * string) :=
  match w, s with
  | O, _ => Some (acc, s)
  | S w, String a s' => if is_digit a then num w (acc * 10 + dval a) s' else None
  | S _, EmptyString => None
  end.
Definition char (c : ascii) (s : string) : option string :=
  match s with String a s' => if Ascii.eqb a c then Some s' else None | EmptyString => None end.

(** The hour may have one digit. *)
Definition hour_num (s : string) : option (Z * string) :=
  match num 2 0 s with
  | Some r => Some r
  | None => num 1 0 s
  end.

(** Nine digits of a fraction count, more are dropped. *)
Fixpoint frac_value (w : Z) (s : string) : Z :=
  match s with EmptyString => 0 | String a s' => dval a * w + frac_value (w / 10) s' end.
Definition parse_frac (s : string) : Z * string :=
  match s with
  | String a s1 =>
    if Ascii.eqb a "." || Ascii.eqb a "," then
      match digits s1 with
      | (EmptyString, _) => (0, s)
      | (ds, rest) => (frac_value 100000000 ds, rest)
      end
    else (0, s)
  | EmptyString => (0, s)
  end.

Definition parse_offset (s : string) : option Z :=
  match s with
  | String a s1 =>
    if Ascii.eqb a "Z" then (if bool_decide (s1 = "") then Some 0 else None)
    else if Ascii.eqb a "+" || Ascii.eqb a "-" then
      '(h, s2) ← num 2 0 s1; s3 ← char ":" s2; '(m, s4) ← num 2 0 s3;
      if bool_decide (s4 = "") && (h <=? 24) && (m <=? 60) then
        Some ((if Ascii.eqb a "-" then -1 else 1) * (h * Hour + m * Minute))
      else None
    else None
  | EmptyString => None
  end.

Definition valid_civil (c : civil) : bool :=
  (1 <=? c_month c) && (c_month c <=? 12) && (1 <=? c_day c) && (c_day c <=? days_in_month (c_year c) (c_month c)) &&
  (c_hour c <? 24) && (c_minute c <? 60) && (c_second c <? 60).

Definition parse_time (s : string) : option Z :=
  '(y, s) ← num 4 0 s; s ← char "-" s;
  '(mo, s) ← num 2 0 s; s ← char "-" s;
  '(d, s) ← num 2 0 s; s ← char "T" s;
  '(h, s) ← hour_num s; s ← char ":" s;
  '(mi, s) ← num 2 0 s; s ← char ":" s;
  '(sec, s) ← num 2 0 s;
  let '(nano, s) := parse_frac s in
  offset ← parse_offset s;
  let c := mkCivil y mo d h mi sec nano in
  if valid_civil c then Some (instant c - offset) else None.

Example epoch : format_rfc3339 unix_epoch = "1970-01-01T00:00:00Z".
Proof. reflexivity. Qed.
Example leap_day : format_nano (unix_epoch + 1709210096 * Second + 120000000) = "2024-02-29T12:34:56.12Z".
Proof. reflexivity. Qed.
Example offset1 : parse_time "2024-02-29T15:34:56.120+03:00" = Some (unix_epoch + 1709210096 * Second + 120000000).
Proof. reflexivity. Qed.
Example no_leap_day : parse_time "2023-02-29T00:00:00Z" = None.
Proof. reflexivity. Qed.
(** ** The round trip *)

Lemma year_yday_spec d :
  let '(y, yday) := year_yday d in
  d = days_before_year y + yday /\ 0 <= yday < (if leap y then 366 else 365).
Proof.
  unfold year_yday.
  set (n400 := d / 146097). set (d1 := d mod 146097). assert (H1 : d = 146097 * n400 + d1 /\ 0 <= d1 < 146097) by (unfold n400, d1; lia).
  set (n100 := Z.min 3 (d1 / 36524)). set (d2 := d1 - 36524 * n100).
  assert (H2 : 0 <= n100 <= 3 /\ 0 <= d2 /\ (n100 < 3 -> d2 < 36524) /\ d2 < 36525) by (unfold d2, n100; lia).
  set (n4 := d2 / 1461). set (d3 := d2 mod 1461).
  assert (H3 : d2 = 1461 * n4 + d3 /\ 0 <= d3 < 1461 /\ 0 <= n4 <= 24) by (unfold d3, n4; lia).
  set (n1 := Z.min 3 (d3 / 365)). set (yday := d3 - 365 * n1).
  assert (H4 : 0 <= n1 <= 3 /\ 0 <= yday /\ (n1 < 3 -> yday < 365) /\ yday < 366) by (unfold yday, n1; lia).
  assert (Ey : d1 = 36524 * n100 + d2 /\ d3 = 365 * n1 + yday) by (unfold yday, d2; lia).
  clearbody n400 d1 n100 d2 n4 d3 n1 yday. set (y := 400 * n400 + 100 * n100 + 4 * n4 + n1 + 1).
  assert (E4 : (y - 1) / 4 = 100 * n400 + 25 * n100 + n4) by (unfold y; lia).
  assert (E100 : (y - 1) / 100 = 4 * n400 + n100) by (unfold y; lia).
  assert (E400 : (y - 1) / 400 = n400) by (unfold y; lia).
  split; [unfold days_before_year; rw E4 E100 E400; unfold y; lia|].
  split; [lia|]. destruct (leap y) eqn:El; [lia|]. destruct (decide (yday < 365)) as [|Hn]; [done|exfalso].
  assert (Hn1 : n1 = 3) by lia. assert (Hd3 : d3 = 1460) by lia.
  assert (Hy : y mod 4 = 0) by (unfold y; lia). unfold leap in El. rw Hy in El. cbn in El.
  apply orb_false_iff in El as [El1 El2]. apply negb_false_iff, Z.eqb_eq in El1. apply Z.eqb_neq in El2.
  assert (Hn4 : n4 = 24) by (unfold y in El1; lia). assert (Hn100 : n100 = 3) by lia. apply El2. unfold y. lia.
Qed.
Lemma month_day_spec lengths m yday :
  0 <= yday < foldr Z.add 0 lengths -> Forall (fun n => 0 < n) lengths ->
  let '(m', d) := month_day lengths m yday in
  m <= m' < m + Z.of_nat (length lengths) /\ 1 <= d <= default 0 (lengths !! Z.to_nat (m' - m)) /\
  yday = foldr Z.add 0 (take (Z.to_nat (m' - m)) lengths) + (d - 1).
Proof.
  revert m yday. induction lengths as [|n l IH]; intros m yday Hy Hn; cbn in Hy; [lia|].
  apply list.Forall_cons in Hn as [Hn Hl]. cbn [month_day]. destruct (Z.ltb_spec yday n) as [Hlt|Hge].
  - rw Z.sub_diag. change (Z.to_nat 0) with O. cbn. lia.
  - specialize (IH (m + 1) (yday - n) ltac:(lia) Hl). destruct (month_day l (m + 1) (yday - n)) as [m' d].
    destruct IH as (H1 & H2 & H3). replace (Z.to_nat (m' - m)) with (S (Z.to_nat (m' - (m + 1)))) by lia.
    change ((n :: l) !! S (Z.to_nat (m' - (m + 1)))) with (l !! Z.to_nat (m' - (m + 1))). cbn [take foldr length]. lia.
Qed.

Lemma year_length y : foldr Z.add 0 (months y) = if leap y then 366 else 365.
Proof. unfold months. by destruct (leap y). Qed.

Lemma civil_of_spec t : instant (civil_of t) = t /\ valid_civil (civil_of t) = true /\
  c_year (civil_of t) = year_of t /\ 1 <= c_month (civil_of t) <= 12 /\ 1 <= c_day (civil_of t) <= 31 /\
  0 <= c_hour (civil_of t) < 24 /\ 0 <= c_minute (civil_of t) < 60 /\ 0 <= c_second (civil_of t) < 60 /\
  0 <= c_nano (civil_of t) < 1000000000 /\ c_nano (civil_of t) = t mod Second.
Proof.
  unfold civil_of, year_of. pose proof (year_yday_spec (t / day_length)) as Hy. destruct (year_yday (t / day_length)) as [y yday].
  destruct Hy as [Hd Hyd]. rw -year_length in Hyd.
  assert (Hpos : Forall (fun n => 0 < n) (months y)) by (unfold months; destruct (leap y); repeat constructor).
  pose proof (month_day_spec (months y) 1 yday Hyd Hpos) as Hm. destruct (month_day (months y) 1 yday) as [m d].
  destruct Hm as (Hm & Hdd & Hyy). cbn [length months] in Hm. cbn [fst c_year c_month c_day c_hour c_minute c_second c_nano].
  assert (Hd31 : default 0 (months y !! Z.to_nat (m - 1)) <= 31).
  { assert (Hc : m = 1 \/ m = 2 \/ m = 3 \/ m = 4 \/ m = 5 \/ m = 6 \/ m = 7 \/ m = 8 \/ m = 9 \/ m = 10 \/ m = 11 \/ m = 12) by lia.
    unfold months. destruct (leap y); repeat destruct Hc as [->|Hc]; subst; by vm_compute. }
  assert (Ht : 0 <= t mod day_length / Hour < 24 /\ 0 <= t mod Hour / Minute < 60 /\ 0 <= t mod Minute / Second < 60 /\
    0 <= t mod Second < 1000000000 /\
    t = t / day_length * day_length + t mod day_length / Hour * Hour + t mod Hour / Minute * Minute + t mod Minute / Second * Second + t mod Second).
  { unfold day_length. unfold_time. lia. }
  destruct Ht as (T1 & T2 & T3 & T4 & T5).
  set (D := t / day_length) in *. set (hh := t mod day_length / Hour) in *. set (mm := t mod Hour / Minute) in *.
  set (ss := t mod Minute / Second) in *. set (nn := t mod Second) in *. clearbody D hh mm ss nn.
  assert (Hm12 : 1 <= m <= 12) by (clear -Hm; lia). assert (Hd1 : 1 <= d <= 31) by (clear -Hdd Hd31; lia).
  split_and!; try done; try (clear -Hm12 Hd1 T1 T2 T3 T4; lia).
  - unfold instant, days_before_month. cbn [c_year c_month c_day c_hour c_minute c_second c_nano].
    rw T5 Hd Hyy. by rw (Z.add_assoc (days_before_year y)).
  - unfold valid_civil, days_in_month. cbn [c_year c_month c_day c_hour c_minute c_second c_nano].
    clear -Hm12 Hdd T1 T2 T3. lia.
Qed.

(** Numbers of a fixed width. *)
Lemma dchar_spec n : 0 <= n < 10 -> is_digit (dchar n) = true /\ dval (dchar n) = n.
Proof.
  revert n. apply (Z_below 10). by repeat constructor.
Qed.
Lemma num_snoc w acc s n a rest : num w acc s = Some (n, String a rest) -> is_digit a = true ->
  num (S w) acc s = Some (n * 10 + dval a, rest).
Proof.
  revert acc s. induction w as [|w IH]; intros acc s H Ha; [injection H as -> ->; cbn; by rw Ha|].
  destruct s as [|b s]; [done|]. cbn [num] in H |- *. destruct (is_digit b); [|done]. by apply IH.
Qed.
Lemma num_pad w n acc rest : 0 <= n < 10 ^ Z.of_nat w -> num w acc (pad w n +:+ rest) = Some (acc * 10 ^ Z.of_nat w + n, rest).
Proof.
  revert n acc rest. induction w as [|w IH]; intros n acc rest Hn.
  - cbn in *. rw sapp_nil_l. repeat f_equal. lia.
  - rw Nat2Z.inj_succ Z.pow_succ_r in Hn |- *; [lia..|]. cbn [pad]. rw sapp_assoc.
    destruct (dchar_spec (n mod 10)) as [Hd Hv]; [lia|].
    rw (num_snoc w acc _ _ _ _ (IH (n / 10) acc (String (dchar (n mod 10)) rest) ltac:(lia))) //.
    rw Hv. do 2 f_equal. lia.
Qed.
Lemma pad_digits w n : all_bytes is_digit (pad w n) = true /\ String.length (pad w n) = w.
Proof.
  revert n. induction w as [|w IH]; intros n; [done|]. cbn [pad]. destruct (IH (n / 10)) as [H1 H2].
  destruct (dchar_spec (n mod 10)) as [Hd _]; [lia|]. rw all_bytes_app slength_app H1 H2. cbn. rw Hd. split; [done|lia].
Qed.

(** Fractions of a second. *)
Lemma frac_value_app W s t : frac_value W (s +:+ t) = frac_value W s + frac_value (W / 10 ^ Z.of_nat (String.length s)) t.
Proof.
  revert W. induction s as [|a s IH]; intros W.
  - rw sapp_nil_l. cbn. by rw Z.div_1_r.
  - rw sapp_cons. cbn [frac_value String.length]. rw IH Nat2Z.inj_succ Z.pow_succ_r; [lia|].
    rw Z.div_div; [done|by apply Z.pow_pos_nonneg; lia|]. lia.
Qed.
Lemma frac_value_pad w k n :
  0 <= k -> 0 <= n < 10 ^ Z.of_nat w -> frac_value (10 ^ (k + Z.of_nat w) / 10) (pad w n) = n * 10 ^ k.
Proof.
  revert k n. induction w as [|w IH]; intros k n Hk Hn; [cbn in *; lia|].
  rw Nat2Z.inj_succ Z.pow_succ_r in Hn; [lia|]. cbn [pad]. rw frac_value_app (proj2 (pad_digits _ _)).
  assert (Hp : 10 ^ (k + Z.of_nat (S w)) / 10 = 10 ^ (k + 1 + Z.of_nat w) / 10) by (do 2 f_equal; lia).
  rw {1}Hp (IH (k + 1) (n / 10)); [lia|lia|]. cbn [frac_value].
  destruct (dchar_spec (n mod 10)) as [_ Hv]; [lia|]. rw Hv.
  assert (Hq : 10 ^ (k + Z.of_nat (S w)) / 10 / 10 ^ Z.of_nat w = 10 ^ k).
  { replace (k + Z.of_nat (S w)) with (1 + k + Z.of_nat w) by lia. rw !Z.pow_add_r; [lia..|]. rw Z.pow_1_r.
    rw -Z.mul_assoc (Z.mul_comm 10) Z.div_mul // Z.div_mul //. lia. }
  rw Hq Z.pow_add_r; [lia..|]. rw Z.pow_1_r.
  assert (Hd : n = n / 10 * 10 + n mod 10) by lia. rw {3}Hd. ring.
Qed.

Lemma frac_value_trim W s : frac_value W (TrimRight s "0") = frac_value W s.
Proof.
  revert W. induction s as [|a s IH]; intros W; [done|]. cbn [TrimRight]. specialize (IH (W / 10)).
  destruct (TrimRight s "0") as [|b t] eqn:E.
  - cbn in IH. cbn [frac_value]. rw -IH. destruct (Ascii.eqb_spec a "0") as [->|_];
      [change (dval "0") with 0|]; cbn [frac_value]; lia.
  - cbn [frac_value] in IH |- *. by rw -IH.
Qed.
Lemma TrimRight_all p s c : all_bytes p s = true -> all_bytes p (TrimRight s c) = true.
Proof.
  induction s as [|a s IH]; [done|]. cbn. intros [Ha Hs]%andb_true_iff. specialize (IH Hs).
  destruct (TrimRight s c) as [|b t]; [|cbn in *; by rw Ha]. destruct (Ascii.eqb a c); cbn; by rw ?Ha.
Qed.

Lemma digits_before s rest :
  all_bytes is_digit s = true -> match rest with String a _ => negb (is_digit a) | EmptyString => true end = true ->
  digits (s +:+ rest) = (s, rest).
Proof.
  intros Hs Hr. induction s as [|a s IH].
  - rw sapp_nil_l. destruct rest as [|b r]; [done|]. cbn in *. by destruct (is_digit b).
  - cbn in Hs. apply andb_true_iff in Hs as [Ha Hs]. rw sapp_cons. cbn. by rw Ha IH.
Qed.

(** What may follow the seconds. *)
Definition zone_start (rest : string) : Prop :=
  match rest with String a _ => is_digit a = false /\ Ascii.eqb a "." = false /\ Ascii.eqb a "," = false | EmptyString => True end.

Lemma parse_frac_text n rest : zone_start rest -> 0 <= n < 1000000000 -> parse_frac (frac_text n +:+ rest) = (n, rest).
Proof.
  intros Hr Hn. unfold frac_text. destruct (Z.eqb_spec n 0) as [->|Hne].
  { rw sapp_nil_l. destruct rest as [|a rest]; [done|]. destruct Hr as (_ & E1 & E2). cbn [parse_frac]. by rw E1 E2. }
  assert (Hv : frac_value 100000000 (TrimRight (pad 9 n) "0") = n).
  { rw frac_value_trim. pose proof (frac_value_pad 9 0 n ltac:(lia) ltac:(exact Hn)) as Hf.
    change (10 ^ (0 + Z.of_nat 9) / 10) with 100000000 in Hf. by rw Z.mul_1_r in Hf. }
  pose proof (TrimRight_all is_digit (pad 9 n) "0" (proj1 (pad_digits 9 n))) as Hd.
  generalize dependent (TrimRight (pad 9 n) "0"). intros s Hv Hd. rw sapp_assoc sapp_cons sapp_nil_l. cbn [parse_frac].
  change (Ascii.eqb "." "." || Ascii.eqb "." ",") with true. cbn iota. rw digits_before //; [by destruct rest; [|destruct Hr as [-> _]]|].
  destruct s as [|a s]; [cbn in Hv; lia|]. by rw Hv.
Qed.

(** Date and time as they are printed, before a zone. *)
Lemma parse_text t rest :
  0 <= year_of t < 10000 -> zone_start rest ->
  parse_time (date_text (civil_of t) +:+ frac_text (c_nano (civil_of t)) +:+ rest) =
    (offset ← parse_offset rest; Some (t - offset)).
Proof.
  intros Hy Hr. destruct (civil_of_spec t) as (Hi & Hv & Ey & Hmo & Hd & Hh & Hmi & Hs & Hn & _).
  pose proof (parse_frac_text _ _ Hr Hn) as Hf. destruct (civil_of t) as [y mo d h mi sec n].
  cbn [c_year c_month c_day c_hour c_minute c_second c_nano] in *. rw -Ey in Hy. unfold date_text.
  cbn [c_year c_month c_day c_hour c_minute c_second c_nano].
  generalize dependent (frac_text n). intros ft Hf.
  pose proof (fun r => num_pad 4 y 0 r Hy) as Ny. pose proof (fun r => num_pad 2 mo 0 r ltac:(cbn; lia)) as Nmo.
  pose proof (fun r => num_pad 2 d 0 r ltac:(cbn; lia)) as Nd. pose proof (fun r => num_pad 2 h 0 r ltac:(cbn; lia)) as Nh.
  pose proof (fun r => num_pad 2 mi 0 r ltac:(cbn; lia)) as Nmi. pose proof (fun r => num_pad 2 sec 0 r ltac:(cbn; lia)) as Ns.
  revert Ny Nmo Nd Nh Nmi Ns. generalize (pad 4 y), (pad 2 mo), (pad 2 d), (pad 2 h), (pad 2 mi), (pad 2 sec).
  intros py pmo pd ph pmi ps Ny Nmo Nd Nh Nmi Ns. rw Z.mul_0_l Z.add_0_l in Ny.
  assert (Hc : forall c s, char c (String c EmptyString +:+ s) = Some s)
    by (intros c s; rw sapp_cons; cbn; by rw Ascii.eqb_refl).
  unfold parse_time, hour_num. rw !sapp_assoc.
  rw Ny; cbn [mbind option_bind]; rw Hc; cbn [mbind option_bind]. rw Nmo; cbn [mbind option_bind]; rw Hc; cbn [mbind option_bind].
  rw Nd; cbn [mbind option_bind]; rw Hc; cbn [mbind option_bind]. rw Nh; cbn [mbind option_bind]; rw Hc; cbn [mbind option_bind].
  rw Nmi; cbn [mbind option_bind]; rw Hc; cbn [mbind option_bind]. rw Ns; cbn [mbind option_bind].
  rw Hf. destruct (parse_offset rest) as [offset|]; [|done]. cbn [mbind option_bind]. by rw Hv Hi.
Qed.
Lemma parse_format t : 0 <= year_of t < 10000 -> parse_time (format_nano t) = Some t.
Proof. intros Hy. unfold format_nano. rw parse_text //. change (parse_offset "Z") with (Some 0). cbn [mbind option_bind]. f_equal. lia. Qed.

Lemma parse_offset_text m : -1440 < m < 1440 -> zone_start (offset_text m) /\ parse_offset (offset_text m) = Some (m * Minute).
Proof.
  intros Hm. unfold offset_text. destruct (Z.eqb_spec m 0) as [->|H0]; [done|].
  pose proof (fun r => num_pad 2 (Z.abs m / 60) 0 r ltac:(cbn; lia)) as Nh.
  pose proof (fun r => num_pad 2 (Z.abs m mod 60) 0 r ltac:(cbn; lia)) as Nm. pose proof (Nm "") as Nm'. rw sapp_nil_r in Nm'.
  revert Nh Nm'. clear Nm. generalize (pad 2 (Z.abs m / 60)), (pad 2 (Z.abs m mod 60)). intros ph pm Nh Nm. rw Z.mul_0_l Z.add_0_l in Nh Nm.
  assert (Hc : forall s, char ":" (":" +:+ s) = Some s) by (intros s; rw sapp_cons; by cbn).
  assert (Hle : (Z.abs m / 60 <=? 24) && (Z.abs m mod 60 <=? 60) = true) by lia. apply andb_true_iff in Hle as [L1 L2].
  destruct (Z.ltb_spec m 0); rw sapp_cons sapp_nil_l; (split; [done|]); cbn [parse_offset];
    match goal with |- context [Ascii.eqb ?x "Z"] => change (Ascii.eqb x "Z") with false end; cbn [orb];
    rw Nh; cbn [mbind option_bind]; rw Hc; cbn [mbind option_bind]; rw Nm; cbn [mbind option_bind];
    rw L1 L2 bool_decide_eq_true_2 //; cbn [andb]; f_equal;
    match goal with |- context [Ascii.eqb ?x "-"] => let b := eval vm_compute in (Ascii.eqb x "-") in change (Ascii.eqb x "-") with b end;
    cbn iota; unfold_time; lia.
Qed.
Lemma parse_format_in m t :
  -1440 < m < 1440 -> 0 <= year_of (t + m * Minute) < 10000 -> parse_time (format_nano_in m t) = Some t.
Proof.
  intros Hm Hy. destruct (parse_offset_text m Hm) as [Hz Ho]. unfold format_nano_in. rw parse_text // Ho.
  cbn [mbind option_bind]. f_equal. lia.
Qed.
(** The whole seconds of an instant are all that the shorter layout shows. *)
Lemma format_rfc3339_parse t : 0 <= year_of t < 10000 -> parse_time (format_rfc3339 t) = Some (Truncate t Second).
Proof.
  intros Hy. assert (Ht : Truncate t Second = t - t mod Second) by done.
  assert (Hday : Truncate t Second / day_length = t / day_length /\ Truncate t Second mod day_length / Hour = t mod day_length / Hour /\
    Truncate t Second mod Hour / Minute = t mod Hour / Minute /\ Truncate t Second mod Minute / Second = t mod Minute / Second /\
    Truncate t Second mod Second = 0).
  { rw Ht. unfold day_length. unfold_time. clear. lia. }
  destruct Hday as (H1 & H2 & H3 & H4 & H5).
  assert (Hf : format_nano (Truncate t Second) = format_rfc3339 t).
  { unfold format_nano, format_rfc3339, civil_of. rw H1 H2 H3 H4 H5. destruct (year_yday _) as [y yday], (month_day _ _ _) as [m d]. done. }
  rw -Hf. apply parse_format. unfold year_of. by rw H1.
Qed.
End Date.
