(* ===== verification/GoConv.v ===== *)
(** strconv and time.ParseDuration, which read the configuration of the services.

    Atoi and ParseBool as documented, with their errors.  ParseDuration is the loop of
    the time package over terms of digits, fraction and unit: integers of 64 bits with
    their overflow checks, and the fraction computed in IEEE 754 binary64 as the package
    does. *)
From Stdlib Require Import Ascii ZArith Lia SpecFloat.
From Corelib Require Import ssreflect.
From stdpp Require Import base strings list numbers pretty.
From S2P Require Import Prelude GoStrings GoTime GoEncoding GoNet GoDate.

#[local] Open Scope Z_scope.

(** ** strconv *)

Definition ErrRange : error := Sentinel "strconv.ErrRange" "value out of range".
Definition ErrSyntax : error := Sentinel "strconv.ErrSyntax" "invalid syntax".

(** NumError. *)
Definition num_error `{UnicodeTables} (fn s : string) (err : error) : error :=
  Wrap ("strconv." +:+ fn +:+ ": parsing " +:+ strconv_Quote s +:+ ": " +:+ Error err) [err].

Definition max_uint64 : Z := 2 ^ 64 - 1.

(** ParseUint in base 10, for 64 bits. *)
Fixpoint parse_uint (n : Z) (s : string) : res Z :=
  match s with
  | EmptyString => Ok n
  | String a s' =>
    if is_digit a then
      let n' := n * 10 + Date.dval a in if max_uint64 <? n' then Err ErrRange else parse_uint n' s'
    else Err ErrSyntax
  end.

(** The sign of a number, and the rest. *)
Definition signed (s : string) : bool * string :=
  match s with
  | String a s' => if Ascii.eqb a "-" then (true, s') else if Ascii.eqb a "+" then (false, s') else (false, s)
  | EmptyString => (false, s)
  end.

Definition parse_int (s : string) : res Z :=
  let '(neg, digits) := signed s in
  if bool_decide (digits = "") then Err ErrSyntax
  else
    n ← parse_uint 0 digits;
    if neg then if 2 ^ 63 <? n then Err ErrRange else Ok (- n)
    else if 2 ^ 63 <=? n then Err ErrRange else Ok n.

Definition Atoi `{UnicodeTables} (s : string) : res Z := map_err (num_error "Atoi" s) (parse_int s).

Definition ParseBool `{UnicodeTables} (s : string) : res bool :=
  if bool_decide (s ∈ ["1"; "t"; "T"; "true"; "TRUE"; "True"]) then Ok true
  else if bool_decide (s ∈ ["0"; "f"; "F"; "false"; "FALSE"; "False"]) then Ok false
  else Err (num_error "ParseBool" s ErrSyntax).

(** ** time.ParseDuration *)

Module Duration.

(** binary64. *)
Definition of_uint (n : Z) : spec_float := binary_normalize 53 1024 n 0 false.
Definition fmul : spec_float -> spec_float -> spec_float := SFmul 53 1024.
Definition fdiv : spec_float -> spec_float -> spec_float := SFdiv 53 1024.
(** uint64(x), towards zero. *)
Definition to_uint (x : spec_float) : Z :=
  match x with S754_finite false m e => Z.shiftl (Z.pos m) e | _ => 0 end.

Fixpoint leadingInt (x : Z) (s : string) : option (Z * string) :=
  match s with
  | EmptyString => Some (x, s)
  | String a s' =>
    if is_digit a then
      if 2 ^ 63 / 10 <? x then None
      else let x' := x * 10 + Date.dval a in if 2 ^ 63 <? x' then None else leadingInt x' s'
    else Some (x, s)
  end.

Fixpoint leadingFraction (overflow : bool) (x : Z) (scale : spec_float) (s : string) : Z * spec_float * string :=
  match s with
  | EmptyString => (x, scale, s)
  | String a s' =>
    if is_digit a then
      if overflow then leadingFraction true x scale s'
      else if (2 ^ 63 - 1) / 10 <? x then leadingFraction true x scale s'
      else
        let y := x * 10 + Date.dval a in
        if 2 ^ 63 <? y then leadingFraction true x scale s'
        else leadingFraction false y (fmul scale (of_uint 10)) s'
    else (x, scale, s)
  end.

(** The unit: the bytes up to the next number. *)
Definition number_byte (a : ascii) : bool := Ascii.eqb a "." || is_digit a.
Fixpoint unit_text (s : string) : string * string :=
  match s with
  | EmptyString => (EmptyString, EmptyString)
  | String a s' => if number_byte a then (EmptyString, s) else (String a (unit_text s').1, (unit_text s').2)
  end.

(** The two spellings of micro are U+00B5 and U+03BC. *)
Definition micro_sign : string := String "194" (String "181" "s").
Definition greek_mu : string := String "206" (String "188" "s").
Definition unitMap (u : string) : option Z :=
  if bool_decide (u = "ns") then Some 1
  else if bool_decide (u ∈ ["us"; micro_sign; greek_mu]) then Some 1000
  else if bool_decide (u = "ms") then Some Millisecond
  else if bool_decide (u = "s") then Some Second
  else if bool_decide (u = "m") then Some Minute
  else if bool_decide (u = "h") then Some Hour
  else None.

(** The quoting of the time package, byte by byte. *)
Definition quote_byte (a : ascii) : string :=
  let n := byte_val a in
  if ((n <? 32) || (128 <=? n))%N then "\x" +:+ String (hex_digit (n / 16)) (String (hex_digit (n mod 16)) EmptyString)
  else if Ascii.eqb a "034" || Ascii.eqb a "\" then String "\" (String a EmptyString)
  else String a EmptyString.
Fixpoint quote_bytes (s : string) : string :=
  match s with EmptyString => String "034" EmptyString | String a s' => quote_byte a +:+ quote_bytes s' end.
Definition quote (s : string) : string := String "034" (quote_bytes s).

Definition invalid (orig : string) : error := Opaque ("time: invalid duration " +:+ quote orig).

(** One term: its nanoseconds, and the rest. *)
Definition term (orig s : string) : res (Z * string) :=
  match leadingInt 0 s with
  | None => Err (invalid orig)
  | Some (v, s1) =>
    let pre := negb (String.length s1 =? String.length s)%nat in
    let '(f, scale, s2, post) :=
      match s1 with
      | String a s1' =>
        if Ascii.eqb a "." then
          let '(f, scale, s2) := leadingFraction false 0 (of_uint 1) s1' in
          (f, scale, s2, negb (String.length s2 =? String.length s1')%nat)
        else (0, of_uint 1, s1, false)
      | EmptyString => (0, of_uint 1, s1, false)
      end in
    if negb pre && negb post then Err (invalid orig)
    else
      let '(u, s3) := unit_text s2 in
      if bool_decide (u = "") then Err (Opaque ("time: missing unit in duration " +:+ quote orig))
      else
        match unitMap u with
        | None => Err (Opaque ("time: unknown unit " +:+ quote u +:+ " in duration " +:+ quote orig))
        | Some unit =>
          if 2 ^ 63 / unit <? v then Err (invalid orig)
          else
            let v := v * unit in
            if 0 <? f then
              let v := v + to_uint (fmul (of_uint f) (fdiv (of_uint unit) scale)) in
              if 2 ^ 63 <? v then Err (invalid orig) else Ok (v, s3)
            else Ok (v, s3)
        end
  end.

(** The loop; a term takes at least one byte. *)
Fixpoint terms (fuel : nat) (orig : string) (d : Z) (s : string) : res Z :=
  match fuel, s with
  | _, EmptyString => Ok d
  | O, _ => Err (invalid orig)
  | S fuel, String a _ =>
    if negb (number_byte a) then Err (invalid orig)
    else
      '(v, s') ← term orig s;
      if 2 ^ 63 <? d + v then Err (invalid orig) else terms fuel orig (d + v) s'
  end.

Definition ParseDuration (orig : string) : res Z :=
  let '(neg, s) := signed orig in
  if bool_decide (s = "0") then Ok 0
  else if bool_decide (s = "") then Err (invalid orig)
  else
    d ← terms (String.length s) orig 0 s;
    if neg then Ok (- d) else if 2 ^ 63 - 1 <? d then Err (invalid orig) else Ok d.

Example parse_1h30 : ParseDuration "1h30m" = Ok (90 * Minute).
Proof. vm_compute. reflexivity. Qed.
Example parse_frac : ParseDuration "-1.5s" = Ok (-1500 * Millisecond).
Proof. vm_compute. reflexivity. Qed.
(** Fractions beyond the precision of the product, from the tests of the package. *)
Example parse_third : ParseDuration "0.3333333333333333333h" = Ok (20 * Minute).
Proof. vm_compute. reflexivity. Qed.
Example parse_long : ParseDuration "0.830103483285477580700h" = Ok (49 * Minute + 48 * Second + 372539827).
Proof. vm_compute. reflexivity. Qed.
Example parse_no_unit : ParseDuration "15" = Err (Opaque ("time: missing unit in duration " +:+ quote "15")).
Proof. vm_compute. reflexivity. Qed.
Example parse_overflow : ParseDuration "9223372036854775808ns" = Err (invalid "9223372036854775808ns") /\
  ParseDuration "-9223372036854775808ns" = Ok min_int64.
Proof. vm_compute. split; reflexivity. Qed.
Example parse_micro : ParseDuration (String.append "7" micro_sign) = Ok 7000.
Proof. vm_compute. reflexivity. Qed.
(** ** Lemmas *)

Lemma dval_range a : is_digit a = true -> 0 <= Date.dval a <= 9.
Proof. unfold is_digit, Date.dval. lia. Qed.

Lemma leadingInt_spec x s v s' :
  0 <= x <= 2 ^ 63 -> leadingInt x s = Some (v, s') -> 0 <= v <= 2 ^ 63 /\ (String.length s' <= String.length s)%nat.
Proof.
  revert x. induction s as [|a s IH]; intros x Hx; cbn [leadingInt]; [by intros [= <- <-]|].
  destruct (is_digit a) eqn:Ea; [|by intros [= <- <-]]. destruct (_ <? x); [done|].
  pose proof (dval_range a Ea) as Ha. destruct (Z.ltb_spec (2 ^ 63) (x * 10 + Date.dval a)); [done|].
  intros [Hv Hl]%IH; [|lia]. cbn [String.length]. split; [done|lia].
Qed.
Lemma leadingFraction_length o x scale s : (String.length (leadingFraction o x scale s).2 <= String.length s)%nat.
Proof.
  revert o x scale. induction s as [|a s IH]; intros o x scale; cbn [leadingFraction]; [done|].
  assert (IH' : forall o x scale, (String.length (leadingFraction o x scale s).2 <= String.length (String a s))%nat)
    by (intros; etrans; [apply IH|cbn [String.length]; lia]).
  destruct (is_digit a); [|done]. by repeat case_match.
Qed.
Lemma unit_text_length s : (String.length (unit_text s).1 + String.length (unit_text s).2 = String.length s)%nat.
Proof. induction s as [|a s IH]; [done|]. cbn [unit_text]. destruct (number_byte a); [done|]. cbn [fst snd String.length]. lia. Qed.
Lemma unitMap_pos u unit : unitMap u = Some unit -> 0 < unit.
Proof. unfold unitMap. unfold_time. repeat case_bool_decide; intros [= <-]; lia. Qed.
Lemma to_uint_nonneg x : 0 <= to_uint x.
Proof. destruct x as [| | |[] m e]; cbn [to_uint]; try lia. apply Z.shiftl_nonneg. lia. Qed.

(** A term takes bytes, and what it stands for has a bound. *)
Lemma term_Ok orig s v s' : term orig s = Ok (v, s') -> 0 <= v <= 2 ^ 63 /\ (String.length s' < String.length s)%nat.
Proof.
  unfold term. destruct (leadingInt 0 s) as [[n s1]|] eqn:Ei; [|done]. apply leadingInt_spec in Ei as [Hn Hl1]; [|lia].
  match goal with |- context [match s1 with EmptyString => _ | String _ _ => _ end] =>
    set (frac := match s1 with EmptyString => _ | String _ _ => _ end) end.
  assert (Hf : (String.length frac.1.2 <= String.length s1)%nat).
  { unfold frac. destruct s1 as [|a s1']; [done|]. destruct (Ascii.eqb a "."); [|done].
    pose proof (leadingFraction_length false 0 (of_uint 1) s1') as Hl. destruct (leadingFraction _ _ _ _) as [[f scale] s2].
    cbn in *. lia. }
  destruct frac as [[[f scale] s2] post]. cbn [fst snd] in Hf. destruct (_ && _); [done|].
  pose proof (unit_text_length s2) as Hu. destruct (unit_text s2) as [u s3]. cbn [fst snd] in Hu.
  case_bool_decide as Hne; [done|]. assert (Hu0 : (0 < String.length u)%nat) by (destruct u; [done|cbn; lia]).
  destruct (unitMap u) as [unit|] eqn:Em; [|done]. apply unitMap_pos in Em.
  destruct (Z.ltb_spec (2 ^ 63 / unit) n) as [|Hq]; [done|].
  assert (Hv : 0 <= n * unit <= 2 ^ 63).
  { split; [lia|]. pose proof (Z.mul_div_le (2 ^ 63) unit Em). nia. }
  destruct (0 <? f); [|intros [= <- <-]; split; [done|lia]].
  set (x := fmul _ _). pose proof (to_uint_nonneg x) as Hx.
  destruct (Z.ltb_spec (2 ^ 63) (n * unit + to_uint x)); [done|]. intros [= <- <-]. split; lia.
Qed.

(** The bytes bound the number of rounds. *)
Lemma terms_enough n m orig d s : (String.length s <= n <= m)%nat -> terms m orig d s = terms n orig d s.
Proof.
  revert m d s. induction n as [|n IH]; intros m d [|a s] Hl; [by destruct m|cbn in Hl; lia|by destruct m|].
  destruct m as [|m]; [lia|]. cbn [terms]. destruct (negb (number_byte a)); [done|].
  destruct (term orig (String a s)) as [[v s']|] eqn:Et; [|done]. apply term_Ok in Et as [_ Ht]. cbn [mbind res_bind].
  destruct (_ <? _); [done|]. apply IH. lia.
Qed.
Lemma terms_range n orig d s v : 0 <= d <= 2 ^ 63 -> terms n orig d s = Ok v -> 0 <= v <= 2 ^ 63.
Proof.
  revert d s. induction n as [|n IH]; intros d [|a s] Hd; cbn [terms]; try (by intros [= <-]).
  destruct (negb (number_byte a)); [done|]. destruct (term orig (String a s)) as [[w s']|] eqn:Et; [|done].
  apply term_Ok in Et as [Hw _]. cbn [mbind res_bind]. destruct (Z.ltb_spec (2 ^ 63) (d + w)); [done|]. apply IH. lia.
Qed.
(** A duration is an int64. *)
Lemma ParseDuration_range s d : ParseDuration s = Ok d -> int64_range d.
Proof.
  unfold ParseDuration, int64_range, min_int64, max_int64. destruct (signed s) as [neg s'].
  case_bool_decide; [intros [= <-]; lia|]. case_bool_decide; [done|]. destruct (terms _ _ _ _) as [v|] eqn:Et; [|done].
  apply terms_range in Et; [|lia]. cbn [mbind res_bind]. destruct neg; [intros [= <-]; lia|].
  destruct (Z.ltb_spec (2 ^ 63 - 1) v); [done|]. intros [= <-]. lia.
Qed.
End Duration.

(** An integer is an int64. *)
Lemma parse_uint_range n s v : 0 <= n -> parse_uint n s = Ok v -> 0 <= v.
Proof.
  revert n. induction s as [|a s IH]; intros n Hn; cbn [parse_uint]; [by intros [= <-]|].
  destruct (is_digit a) eqn:Ea; [|done]. apply Duration.dval_range in Ea. destruct (_ <? _); [done|]. apply IH. lia.
Qed.
Lemma Atoi_range `{UnicodeTables} s z : Atoi s = Ok z -> int64_range z.
Proof.
  unfold Atoi, parse_int, int64_range, min_int64, max_int64. destruct (signed s) as [neg s']. case_bool_decide; [done|].
  destruct (parse_uint 0 s') as [n|] eqn:E; [|done]. apply parse_uint_range in E; [|done]. cbn [mbind res_bind].
  destruct neg; [destruct (Z.ltb_spec (2 ^ 63) n)|destruct (Z.leb_spec (2 ^ 63) n)]; try done; intros [= <-]; lia.
Qed.
