(* ===== verification/GoJSON.v ===== *)
(** encoding/json, as far as the services use it.

    A JSON text is a string of bytes.  [scan_value] checks the syntax of the value at the
    head of a text and returns its compact form, without white space outside of strings
    and with the bytes HTML is sensitive to escaped, and the rest of the text: it is the
    scanner of the package together with the compaction that Marshal applies to a
    RawMessage.  Structs are read member by member ([unmarshal_struct]: names match
    exactly or else without case, later members win, null leaves a field alone, unknown
    members are ignored or refused) and written as their members in order
    ([object_text]).  The limit of 10000 nested values is left out.

    The fuel of the scanner is twice the length of the text; JSONFacts.v shows that it is
    enough, and the round trips. *)
From Stdlib Require Import Ascii ZArith Lia.
From Corelib Require Import ssreflect.
From stdpp Require Import base gmap strings list numbers pretty.
From S2P Require Import Prelude GoStrings GoTime GoEncoding GoNet GoDate.

#[local] Open Scope Z_scope.

Module JSON.
Import Date.

(** ** Strings *)

Definition dquote : ascii := "034"%char.
Definition backslash : ascii := "\"%char.
Definition bytes (a : ascii) : string := String a EmptyString.

(** White space between tokens. *)
Definition is_ws (a : ascii) : bool :=
  Ascii.eqb a " " || Ascii.eqb a "009" || Ascii.eqb a "010" || Ascii.eqb a "013".
Fixpoint skip (s : string) : string :=
  match s with
  | String a s' => if is_ws a then skip s' else s
  | EmptyString => EmptyString
  end.

(** [\uXXXX] with lower case digits. *)
Definition u_escape (n : N) : string :=
  "\u" +:+ String (hex_digit (n / 4096 mod 16)) (String (hex_digit (n / 256 mod 16))
    (String (hex_digit (n / 16 mod 16)) (bytes (hex_digit (n mod 16))))).

Definition html (a : ascii) : bool := Ascii.eqb a "<" || Ascii.eqb a ">" || Ascii.eqb a "&".

(** U+2028 and U+2029, which JavaScript takes for ends of lines. *)
Definition line_sep (a b c : ascii) : bool :=
  Ascii.eqb a "226" && Ascii.eqb b "128" && (Ascii.eqb c "168" || Ascii.eqb c "169").
Definition line_escape (c : ascii) : string := u_escape (if Ascii.eqb c "168" then 0x2028 else 0x2029)%N.

Definition is_hex (a : ascii) : bool :=
  match hex_val a with Some _ => true | None => Ascii.eqb a "A" || Ascii.eqb a "B" || Ascii.eqb a "C" ||
    Ascii.eqb a "D" || Ascii.eqb a "E" || Ascii.eqb a "F" end.
Definition simple_escape (e : ascii) : option ascii :=
  if Ascii.eqb e dquote then Some dquote
  else if Ascii.eqb e backslash then Some backslash
  else if Ascii.eqb e "/" then Some "/"%char
  else if Ascii.eqb e "b" then Some "008"%char
  else if Ascii.eqb e "f" then Some "012"%char
  else if Ascii.eqb e "n" then Some "010"%char
  else if Ascii.eqb e "r" then Some "013"%char
  else if Ascii.eqb e "t" then Some "009"%char
  else None.

Definition emit (p : string) (r : option (string * string)) : option (string * string) :=
  match r with Some (t, rest) => Some (p +:+ t, rest) | None => None end.

(** A string after its opening quote: the compact text up to the closing quote, and the
    rest. *)
Fixpoint scan_str (s : string) : option (string * string) :=
  match s with
  | EmptyString => None
  | String a s1 =>
    if Ascii.eqb a dquote then Some (bytes dquote, s1)
    else if Ascii.eqb a backslash then
      match s1 with
      | String e s2 =>
        match simple_escape e with
        | Some _ => emit (String a (bytes e)) (scan_str s2)
        | None =>
          if Ascii.eqb e "u" then
            match s2 with
            | String h1 (String h2 (String h3 (String h4 s3))) =>
              if is_hex h1 && is_hex h2 && is_hex h3 && is_hex h4 then
                emit (String a (String e (String h1 (String h2 (String h3 (bytes h4)))))) (scan_str s3)
              else None
            | _ => None
            end
          else None
        end
      | EmptyString => None
      end
    else if (byte_val a <? 32)%N then None
    else if html a then emit (u_escape (byte_val a)) (scan_str s1)
    else match s1 with
         | String b (String c s3) =>
           if line_sep a b c then emit (line_escape c) (scan_str s3) else emit (bytes a) (scan_str s1)
         | _ => emit (bytes a) (scan_str s1)
         end
  end.

(** UTF-8 of a code point. *)
Definition byte_of (n : N) : ascii := ascii_of_N n.
Definition encode_rune (n : N) : string :=
  (if n <? 0x80 then bytes (byte_of n)
   else if n <? 0x800 then String (byte_of (0xC0 + n / 64)) (bytes (byte_of (0x80 + n mod 64)))
   else if n <? 0x10000 then
     String (byte_of (0xE0 + n / 4096)) (String (byte_of (0x80 + n / 64 mod 64)) (bytes (byte_of (0x80 + n mod 64))))
   else String (byte_of (0xF0 + n / 262144)) (String (byte_of (0x80 + n / 4096 mod 64))
          (String (byte_of (0x80 + n / 64 mod 64)) (bytes (byte_of (0x80 + n mod 64))))))%N.
Definition replacement : string := encode_rune 0xFFFD.

Definition hex_value (a : ascii) : option N :=
  match hex_val a with
  | Some n => Some n
  | None => if is_hex a then Some (byte_val a - 55)%N else None
  end.
Definition hex4 (h1 h2 h3 h4 : ascii) : option N :=
  n1 ← hex_value h1; n2 ← hex_value h2; n3 ← hex_value h3; n4 ← hex_value h4;
  Some (n1 * 4096 + n2 * 256 + n3 * 16 + n4)%N.

Definition in_N (lo hi n : N) : bool := ((lo <=? n) && (n <=? hi))%N.

Definition put (p : string) (r : option string) : option string :=
  match r with Some t => Some (p +:+ t) | None => None end.

(** The bytes a string stands for, after its opening quote. *)
Fixpoint unquote (s : string) : option string :=
  match s with
  | EmptyString => None
  | String a s1 =>
    if Ascii.eqb a dquote then Some EmptyString
    else if Ascii.eqb a backslash then
      match s1 with
      | String e s2 =>
        match simple_escape e with
        | Some c => put (bytes c) (unquote s2)
        | None =>
          match s2 with
          | String h1 (String h2 (String h3 (String h4 s3))) =>
            n ← hex4 h1 h2 h3 h4;
            if in_N 0xD800 0xDFFF n then
              match s3 with
              | String b (String u (String k1 (String k2 (String k3 (String k4 s4))))) =>
                if Ascii.eqb b backslash && Ascii.eqb u "u" && in_N 0xD800 0xDBFF n then
                  match hex4 k1 k2 k3 k4 with
                  | Some m =>
                    if in_N 0xDC00 0xDFFF m then
                      put (encode_rune (0x10000 + (n - 0xD800) * 1024 + (m - 0xDC00))%N) (unquote s4)
                    else put replacement (unquote s3)
                  | None => put replacement (unquote s3)
                  end
                else put replacement (unquote s3)
              | _ => put replacement (unquote s3)
              end
            else put (encode_rune n) (unquote s3)
          | _ => None
          end
        end
      | EmptyString => None
      end
    else if (byte_val a <? 32)%N then None
    else if is_ascii_byte a then put (bytes a) (unquote s1)
    else
      match s1 with
      | String b s2 =>
        if utf8_two a b then put (String a (bytes b)) (unquote s2)
        else match s2 with
             | String c s3 =>
               if utf8_three a b c then put (String a (String b (bytes c))) (unquote s3)
               else match s3 with
                    | String d s4 =>
                      if utf8_four a b c d then put (String a (String b (String c (bytes d)))) (unquote s4)
                      else put replacement (unquote s1)
                    | EmptyString => put replacement (unquote s1)
                    end
             | EmptyString => put replacement (unquote s1)
             end
      | EmptyString => None
      end
  end.

(** Marshal of an ASCII byte. *)
Definition quote_byte (a : ascii) : string :=
  if Ascii.eqb a dquote || Ascii.eqb a backslash then String backslash (bytes a)
  else if Ascii.eqb a "008" then "\b"
  else if Ascii.eqb a "012" then "\f"
  else if Ascii.eqb a "010" then "\n"
  else if Ascii.eqb a "013" then "\r"
  else if Ascii.eqb a "009" then "\t"
  else if (byte_val a <? 32)%N || html a then u_escape (byte_val a)
  else bytes a.

(** Marshal of a string, after the opening quote: bytes that are no UTF-8 become U+FFFD. *)
Fixpoint quote_body (s : string) : string :=
  match s with
  | EmptyString => bytes dquote
  | String a s1 =>
    if is_ascii_byte a then quote_byte a +:+ quote_body s1
    else match s1 with
         | String b s2 =>
           if utf8_two a b then String a (bytes b) +:+ quote_body s2
           else match s2 with
                | String c s3 =>
                  if utf8_three a b c then
                    (if line_sep a b c then line_escape c else String a (String b (bytes c))) +:+ quote_body s3
                  else match s3 with
                       | String d s4 =>
                         if utf8_four a b c d then String a (String b (String c (bytes d))) +:+ quote_body s4
                         else u_escape 0xFFFD +:+ quote_body s1
                       | EmptyString => u_escape 0xFFFD +:+ quote_body s1
                       end
                | EmptyString => u_escape 0xFFFD +:+ quote_body s1
                end
         | EmptyString => u_escape 0xFFFD +:+ quote_body s1
         end
  end.
Definition quote (s : string) : string := String dquote (quote_body s).

(** ** Values *)

(** The exponent, the fraction and the integer part of a number. *)
Definition scan_exp (s : string) : option (string * string) :=
  match s with
  | String a s1 =>
    if Ascii.eqb a "e" || Ascii.eqb a "E" then
      let '(sign, s2) := match s1 with
        | String b s2 => if Ascii.eqb b "+" || Ascii.eqb b "-" then (bytes b, s2) else (EmptyString, s1)
        | EmptyString => (EmptyString, s1)
        end in
      let '(ds, rest) := digits s2 in
      if bool_decide (ds = "") then None else Some (String a sign +:+ ds, rest)
    else Some (EmptyString, s)
  | EmptyString => Some (EmptyString, s)
  end.
Definition scan_frac (s : string) : option (string * string) :=
  match s with
  | String a s1 =>
    if Ascii.eqb a "." then
      let '(ds, s2) := digits s1 in
      if bool_decide (ds = "") then None else emit (String a ds) (scan_exp s2)
    else scan_exp s
  | EmptyString => scan_exp s
  end.
Definition scan_int (s : string) : option (string * string) :=
  match s with
  | String a s1 =>
    if Ascii.eqb a "0" then emit (bytes a) (scan_frac s1)
    else if is_digit a then emit (String a (digits s1).1) (scan_frac (digits s1).2)
    else None
  | EmptyString => None
  end.
Definition scan_number (s : string) : option (string * string) :=
  match s with
  | String a s1 => if Ascii.eqb a "-" then emit (bytes a) (scan_int s1) else scan_int s
  | EmptyString => None
  end.

Definition scan_word (word s : string) : option (string * string) :=
  match cut_prefix word s with Some rest => Some (word, rest) | None => None end.

(** The next token is the given one. *)
Definition expect (c : ascii) (s : string) : option string :=
  match skip s with String a s' => if Ascii.eqb a c then Some s' else None | EmptyString => None end.

Definition member (key value : string) : string := String dquote key +:+ ":" +:+ value.

Fixpoint scan_value (n : nat) (s : string) {struct n} : option (string * string) :=
  match n with
  | O => None
  | S n =>
    match skip s with
    | EmptyString => None
    | String a s1 =>
      if Ascii.eqb a dquote then emit (bytes dquote) (scan_str s1)
      else if Ascii.eqb a "{" then
        match expect "}" s1 with Some s2 => Some ("{}", s2) | None => emit "{" (scan_members n s1) end
      else if Ascii.eqb a "[" then
        match expect "]" s1 with Some s2 => Some ("[]", s2) | None => emit "[" (scan_elements n s1) end
      else if Ascii.eqb a "t" then scan_word "true" (String a s1)
      else if Ascii.eqb a "f" then scan_word "false" (String a s1)
      else if Ascii.eqb a "n" then scan_word "null" (String a s1)
      else scan_number (String a s1)
    end
  end
with scan_members (n : nat) (s : string) {struct n} : option (string * string) :=
  match n with
  | O => None
  | S n =>
    s1 ← expect dquote s;
    '(key, s2) ← scan_str s1;
    s3 ← expect ":" s2;
    '(value, s4) ← scan_value n s3;
    match expect "," s4 with
    | Some s5 => emit (member key value +:+ ",") (scan_members n s5)
    | None => s5 ← expect "}" s4; Some (member key value +:+ "}", s5)
    end
  end
with scan_elements (n : nat) (s : string) {struct n} : option (string * string) :=
  match n with
  | O => None
  | S n =>
    '(value, s1) ← scan_value n s;
    match expect "," s1 with
    | Some s2 => emit (value +:+ ",") (scan_elements n s2)
    | None => s2 ← expect "]" s1; Some (value +:+ "]", s2)
    end
  end.

Definition scan (s : string) : option (string * string) := scan_value (2 * String.length s) s.

(** [json.Valid] and [json.Compact] with HTML escapes: one value and nothing after it. *)
Definition compact_text (s : string) : option string :=
  match scan s with Some (t, rest) => if bool_decide (skip rest = "") then Some t else None | None => None end.
Definition Valid (s : string) : bool := match compact_text s with Some _ => true | None => false end.

(** ** Reading values *)

(** The text a scan consumed. *)
Definition consumed (s rest : string) : string := String.substring 0 (String.length s - String.length rest) s.

(** The members of an object with the texts of their values, and the texts of the elements
    of an array. *)
Fixpoint read_members (n : nat) (s : string) : option (list (string * string)) :=
  match n with
  | O => None
  | S n =>
    s1 ← expect dquote s;
    '(_, s2) ← scan_str s1;
    key ← unquote s1;
    s3 ← expect ":" s2;
    '(_, s4) ← scan (skip s3);
    let value := consumed (skip s3) s4 in
    match expect "," s4 with
    | Some s5 => l ← read_members n s5; Some ((key, value) :: l)
    | None => _ ← expect "}" s4; Some [(key, value)]
    end
  end.
Definition object_members (s : string) : option (list (string * string)) :=
  s1 ← expect "{" s;
  match expect "}" s1 with Some _ => Some [] | None => read_members (String.length s1) s1 end.

Fixpoint read_elements (n : nat) (s : string) : option (list string) :=
  match n with
  | O => None
  | S n =>
    '(_, s1) ← scan (skip s);
    let value := consumed (skip s) s1 in
    match expect "," s1 with
    | Some s2 => l ← read_elements n s2; Some (value :: l)
    | None => _ ← expect "]" s1; Some [value]
    end
  end.
Definition array_elements (s : string) : option (list string) :=
  s1 ← expect "[" s;
  match expect "]" s1 with Some _ => Some [] | None => read_elements (String.length s1) s1 end.

(** A decoder of a Go type: the text of a value, and the variable before and after. *)
Definition decoder (A : Type) : Type := string -> A -> res A.

Definition type_error : error := Opaque "json: cannot unmarshal value into Go value".
Definition is_null (raw : string) : bool := bool_decide (raw = "null").
Definition of_option {A} (o : option A) : res A := match o with Some a => Ok a | None => Err type_error end.

Definition dec_string : decoder string := fun raw cur =>
  if is_null raw then Ok cur
  else match raw with
       | String a s => if Ascii.eqb a dquote then of_option (unquote s) else Err type_error
       | EmptyString => Err type_error
       end.
Definition dec_bool : decoder bool := fun raw cur =>
  if is_null raw then Ok cur
  else if bool_decide (raw = "true") then Ok true
  else if bool_decide (raw = "false") then Ok false
  else Err type_error.

(** strconv.ParseInt of a number without fraction and exponent. *)
Fixpoint digits_value (acc : Z) (s : string) : option Z :=
  match s with
  | EmptyString => Some acc
  | String a s' => if is_digit a then digits_value (acc * 10 + (Z.of_N (byte_val a) - 48)) s' else None
  end.
Definition int_value (s : string) : option Z :=
  match s with
  | EmptyString => None
  | String a s' =>
    if Ascii.eqb a "-" then (if bool_decide (s' = "") then None else Z.opp <$> digits_value 0 s')
    else digits_value 0 s
  end.
Definition dec_int64 : decoder Z := fun raw cur =>
  if is_null raw then Ok cur
  else z ← of_option (int_value raw); if bool_decide (int64_range z) then Ok z else Err type_error.

(** Time.UnmarshalJSON and Time.MarshalJSON: the text between the quotes, and the years 0
    to 9999. *)
Fixpoint before_quote (s : string) : option string :=
  match s with
  | EmptyString => None
  | String a EmptyString => if Ascii.eqb a dquote then Some EmptyString else None
  | String a s' => put (bytes a) (before_quote s')
  end.
Definition between_quotes (raw : string) : option string :=
  match raw with
  | String a s => if Ascii.eqb a dquote then before_quote s else None
  | EmptyString => None
  end.
Definition dec_time : decoder Z := fun raw cur =>
  if is_null raw then Ok cur
  else of_option (s ← between_quotes raw; parse_time s).
Definition year_error : error :=
  Opaque "json: error calling MarshalJSON for type time.Time: Time.MarshalJSON: year outside of range [0,9999]".
Definition time_text (t : Z) : res string :=
  if (0 <=? year_of t) && (year_of t <? 10000) then Ok (String dquote (format_nano t +:+ bytes dquote))
  else Err year_error.
(** In a zone of [m] minutes to UTC. *)
Definition time_text_in (m t : Z) : res string :=
  if (0 <=? year_of (t + m * Minute)) && (year_of (t + m * Minute) <? 10000)
  then Ok (String dquote (format_nano_in m t +:+ bytes dquote)) else Err year_error.

(** json.RawMessage takes the text, a pointer is nil for null and fresh otherwise. *)
Definition dec_raw : decoder string := fun raw _ => Ok raw.
Definition dec_pointer {A} (zero : A) (dec : decoder A) : decoder (option A) := fun raw cur =>
  if is_null raw then Ok None else a ← dec raw (default zero cur); Ok (Some a).

Fixpoint dec_entries (l : list (string * string)) (m : gmap string string) : res (gmap string string) :=
  match l with
  | [] => Ok m
  | (key, raw) :: l => v ← dec_string raw EmptyString; dec_entries l (<[key := v]> m)
  end.
Definition dec_string_map : decoder (gmap string string) := fun raw cur =>
  if is_null raw then Ok ∅
  else l ← of_option (object_members raw); dec_entries l cur.

Fixpoint dec_list {A} (zero : A) (dec : decoder A) (l : list string) : res (list A) :=
  match l with
  | [] => Ok []
  | raw :: l => a ← dec raw zero; rest ← dec_list zero dec l; Ok (a :: rest)
  end.
Definition dec_slice {A} (zero : A) (dec : decoder A) : decoder (list A) := fun raw _ =>
  if is_null raw then Ok []
  else l ← of_option (array_elements raw); dec_list zero dec l.

(** Names without case: ASCII letters, the long s and the Kelvin sign. *)
Fixpoint fold_name (s : string) : string :=
  match s with
  | EmptyString => EmptyString
  | String a s1 =>
    match s1 with
    | String b s2 =>
      if Ascii.eqb a "197" && Ascii.eqb b "191" then String "S" (fold_name s2)
      else match s2 with
           | String c s3 =>
             if Ascii.eqb a "226" && Ascii.eqb b "132" && Ascii.eqb c "170" then String "K" (fold_name s3)
             else String (upper_byte a) (fold_name s1)
           | EmptyString => String (upper_byte a) (fold_name s1)
           end
    | EmptyString => String (upper_byte a) EmptyString
    end
  end.

(** The field a member belongs to: the one of its name, or else one whose name differs in
    case only. *)
Definition resolve (names : list string) (key : string) : option string :=
  match List.find (String.eqb key) names with
  | Some name => Some name
  | None => List.find (fun name => String.eqb (fold_name name) (fold_name key)) names
  end.

(** The value of a field after the members of an object, in their order. *)
Fixpoint get {A} (names : list string) (name : string) (dec : decoder A) (l : list (string * string)) (cur : A) : res A :=
  match l with
  | [] => Ok cur
  | (key, raw) :: l =>
    if bool_decide (resolve names key = Some name) then a ← dec raw cur; get names name dec l a
    else get names name dec l cur
  end.

Definition unknown_member (names : list string) (kv : string * string) : bool :=
  match resolve names kv.1 with Some _ => false | None => true end.

(** A struct with the tags [names]: [build] makes it of the members; with
    DisallowUnknownFields ([strict]) a member of no field is an error.  The variable it is
    read into is fresh, and null leaves it so. *)
Definition read_struct {S} (strict : bool) (names : list string) (build : list (string * string) -> res S) : decoder S :=
  fun raw _ =>
  if is_null raw then build []
  else l ← of_option (object_members raw);
       if strict && existsb (unknown_member names) l then Err (Opaque "json: unknown field") else build l.

Definition syntax_error : error := Opaque "invalid character in JSON".

(** [json.Unmarshal]: the whole text is one value; it is checked before it is decoded. *)
Definition Unmarshal {A} (zero : A) (dec : decoder A) (s : string) : res A :=
  match scan s with
  | None => Err syntax_error
  | Some (_, rest) => if bool_decide (skip rest = "") then dec (consumed (skip s) rest) zero else Err syntax_error
  end.

(** [Decoder.Decode]: one value from the head of a stream. *)
Definition Decode {A} (zero : A) (dec : decoder A) (body : stream) : res (A * stream) :=
  match scan (st_bytes body) with
  | None => Err (default syntax_error (st_err body))
  | Some (_, rest) =>
    a ← dec (consumed (skip (st_bytes body)) rest) zero;
    Ok (a, mkStream rest (st_err body))
  end.
Definition More (body : stream) : trailing :=
  if bool_decide (skip (st_bytes body) = "") then match st_err body with Some e => Malformed e | None => AtEOF end
  else match scan (st_bytes body) with Some _ => MoreValues | None => Malformed (default syntax_error (st_err body)) end.

(** ** Writing values *)

Fixpoint members_text (l : list (string * string)) : string :=
  match l with
  | [] => "}"
  | [(key, value)] => member (quote_body key) value +:+ "}"
  | (key, value) :: l => (member (quote_body key) value +:+ ",") +:+ members_text l
  end.
Definition object_text (l : list (string * string)) : string := "{" +:+ members_text l.

Fixpoint elements_text (l : list string) : string :=
  match l with
  | [] => "]"
  | [value] => value +:+ "]"
  | value :: l => (value +:+ ",") +:+ elements_text l
  end.
Definition array_text (l : list string) : string := "[" +:+ elements_text l.

Definition bool_text (b : bool) : string := if b then "true" else "false".
Definition option_text {A} (text : A -> string) (o : option A) : string :=
  match o with Some a => text a | None => "null" end.

(** A member with omitempty is written when it is not empty. *)
Definition omit_if (empty : bool) (name value : string) : list (string * string) :=
  if empty then [] else [(name, value)].

(** A map is written in the order of its keys. *)
Definition string_map_text (m : gmap string string) : string :=
  object_text ((fun kv => (kv.1, quote kv.2)) <$> order_by (fun a b => String.leb a.1 b.1) (map_to_list m)).

(** A RawMessage is compacted; nil is null, and a text that is no JSON fails. *)
Definition raw_text (raw : string) : res string :=
  if bool_decide (raw = "") then Ok "null"
  else match compact_text raw with Some t => Ok t | None => Err syntax_error end.

Example compact1 :
  compact_text (smap (fun a => if Ascii.eqb a "'" then dquote else a) "{ 'a' : [1, -2.50e+3 , true,null,{} ], 'b<' :'\u00e9\n' } ") =
  Some (smap (fun a => if Ascii.eqb a "'" then dquote else a) "{'a':[1,-2.50e+3,true,null,{}],'b\u003c':'\u00e9\n'}").
Proof. reflexivity. Qed.
Example trailing_comma : Valid "[1,]" = false.
Proof. reflexivity. Qed.
Example leading_zero : Valid "01" = false.
Proof. reflexivity. Qed.
End JSON.
