(* ===== verification/JSONFacts.v ===== *)
(** Facts on encoding/json: the fuel of the scanner is enough, scanning is idempotent
    (whatever was scanned is scanned as it is), and printed values are read back as the
    values they were printed from. *)
From Stdlib Require Import Ascii ZArith Lia.
From Corelib Require Import ssreflect.
From stdpp Require Import base gmap strings list numbers pretty.
From S2P Require Import Prelude GoStrings GoTime GoEncoding GoNet GoDate GoJSON.

#[local] Open Scope Z_scope.

Module JSONFacts.
Import Date JSON.

(** ** Strings *)

(** Decide a property of a byte by its 256 values. *)
Ltac each_byte a := destruct a as [[] [] [] [] [] [] [] []]; vm_compute; (done || congruence || auto).

(** Bytes that are copied whatever follows. *)
Definition plain (a : ascii) : bool :=
  negb (Ascii.eqb a dquote) && negb (Ascii.eqb a backslash) && negb (byte_val a <? 32)%N && negb (html a) &&
  negb (Ascii.eqb a "226").

Lemma scan_copy a X :
  Ascii.eqb a dquote = false -> Ascii.eqb a backslash = false -> (byte_val a <? 32)%N = false -> html a = false ->
  match X with String b (String c _) => line_sep a b c = false | _ => True end ->
  scan_str (String a X) = emit (bytes a) (scan_str X).
Proof.
  intros E1 E2 E3 E4 E5. cbn [scan_str]. rw E1 E2 E3 E4. destruct X as [|b [|c X]]; [done..|]. by rw E5.
Qed.

Lemma scan_plain a X : plain a = true -> scan_str (String a X) = emit (bytes a) (scan_str X).
Proof.
  unfold plain. rw !andb_true_iff !negb_true_iff. intros ((((E1 & E2) & E3) & E4) & E5). apply scan_copy; [done..|].
  destruct X as [|b [|c X]]; [done..|]. unfold line_sep. by rw E5.
Qed.

Lemma emit_app p q r : emit (p +:+ q) r = emit p (emit q r).
Proof. destruct r as [[t rest]|]; [|done]. cbn. by rw sapp_assoc. Qed.

Lemma scan_u h1 h2 h3 h4 X :
  is_hex h1 && is_hex h2 && is_hex h3 && is_hex h4 = true ->
  scan_str ("\u" +:+ String h1 (String h2 (String h3 (String h4 X)))) =
  emit ("\u" +:+ String h1 (String h2 (String h3 (bytes h4)))) (scan_str X).
Proof.
  intros E. transitivity (if is_hex h1 && is_hex h2 && is_hex h3 && is_hex h4
    then emit ("\u" +:+ String h1 (String h2 (String h3 (bytes h4)))) (scan_str X) else None); [reflexivity|by rw E].
Qed.

Lemma is_hex_digit n : (n < 16)%N -> is_hex (hex_digit n) = true.
Proof. intros Hn. destruct n as [|[[[[]|[]|]|[[]|[]|]|]|[[[]|[]|]|[[]|[]|]|]|]]; (reflexivity || lia). Qed.

Lemma scan_u_escape n X : scan_str (u_escape n +:+ X) = emit (u_escape n) (scan_str X).
Proof.
  unfold u_escape. rw -scan_u; [|by rw sapp_assoc].
  rw !is_hex_digit //; apply N.mod_lt; done.
Qed.

Lemma scan_quote_byte a X : is_ascii_byte a = true -> scan_str (quote_byte a +:+ X) = emit (quote_byte a) (scan_str X).
Proof.
  intros Ha. unfold quote_byte. destruct (Ascii.eqb a dquote || Ascii.eqb a backslash) eqn:E1.
  { apply orb_true_iff in E1 as [->%Ascii.eqb_eq| ->%Ascii.eqb_eq]; reflexivity. }
  apply orb_false_iff in E1 as [E1 E1']. repeat (case_match; [reflexivity|]).
  destruct ((byte_val a <? 32)%N || html a) eqn:E2; [apply scan_u_escape|]. apply orb_false_iff in E2 as [E2 E3].
  apply scan_plain. unfold plain. rw E1 E1' E2 E3. cbn. apply negb_true_iff, Ascii.eqb_neq. by intros ->.
Qed.
Lemma continuation_plain a : continuation a = true -> plain a = true.
Proof. each_byte a. Qed.
Lemma lead_plain lo hi a : in_range lo hi a = true -> (0x80 <=? lo)%N = true -> Ascii.eqb a "226" = false -> plain a = true.
Proof.
  unfold in_range. rw andb_true_iff. intros [H1%N.leb_le _] H2%N.leb_le H3. unfold plain. rw H3.
  assert (Ha : (0x80 <=? byte_val a)%N = true) by (apply N.leb_le; lia). revert Ha. clear. each_byte a.
Qed.

Create HintDb utf8.
#[local] Hint Resolve continuation_plain : utf8.

Lemma utf8_two_plain a b : utf8_two a b = true -> plain a = true /\ plain b = true.
Proof.
  unfold utf8_two. intros [Ha Hb]%andb_true_iff. split; [|auto with utf8]. revert Ha. clear. each_byte a.
Qed.
Lemma utf8_three_plain a b c :
  utf8_three a b c = true -> plain b = true /\ plain c = true /\ (plain a = true \/ a = "226"%char).
Proof.
  unfold utf8_three. intros [Hab Hc]%andb_true_iff.
  assert (Hb : continuation b = true).
  { apply orb_true_iff in Hab as [[[_ Hb]%andb_true_iff|[_ Hb]%andb_true_iff]%orb_true_iff|[_ Hb]%andb_true_iff];
      revert Hb; clear; each_byte b. }
  split; [auto with utf8|]. split; [auto with utf8|]. destruct (Ascii.eqb_spec a "226") as [->|Hne]; [by right|left].
  apply Ascii.eqb_neq in Hne.
  apply orb_true_iff in Hab as [[[Ha _]%andb_true_iff|[Ha _]%andb_true_iff]%orb_true_iff|[[Ha|Ha]%orb_true_iff _]%andb_true_iff];
    by eapply lead_plain.
Qed.
Lemma utf8_four_plain a b c d : utf8_four a b c d = true -> plain a = true /\ plain b = true /\ plain c = true /\ plain d = true.
Proof.
  unfold utf8_four. intros [[Hab Hc]%andb_true_iff Hd]%andb_true_iff.
  assert (Ha : plain a = true /\ continuation b = true).
  { apply orb_true_iff in Hab as [[[Ha Hb]%andb_true_iff|[Ha Hb]%andb_true_iff]%orb_true_iff|[Ha Hb]%andb_true_iff];
      (split; [revert Ha; clear; each_byte a|revert Hb; clear; each_byte b]). }
  destruct Ha. auto with utf8.
Qed.

(** A printed string is scanned as it is. *)
Lemma scan_quote s rest : utf8_valid s = true -> scan_str (quote_body s +:+ rest) = Some (quote_body s, rest).
Proof.
  revert s. apply (utf8_ind (fun s => scan_str (quote_body s +:+ rest) = Some (quote_body s, rest))); [done|..].
  - intros a s Ha IH. cbn [quote_body]. rw Ha sapp_assoc scan_quote_byte // IH //.
  - intros a b s Ha E2 IH. cbn [quote_body]. rw Ha E2 sapp_assoc. destruct (utf8_two_plain _ _ E2) as [Pa Pb].
    rw !sapp_cons. rw !scan_plain // sapp_nil_l IH //.
  - intros a b c s Ha E2 E3 IH. cbn [quote_body]. rw Ha E2 E3 sapp_assoc. destruct (utf8_three_plain _ _ _ E3) as (Pb & Pc & Pa).
    destruct (line_sep a b c) eqn:El; [by rw scan_u_escape IH|]. rw !sapp_cons sapp_nil_l.
    assert (E : scan_str (String a (String b (String c (quote_body s +:+ rest)))) =
      emit (bytes a) (scan_str (String b (String c (quote_body s +:+ rest))))).
    { destruct Pa as [Pa|E]; [by apply scan_plain|]. subst a. by apply scan_copy. }
    rw E !scan_plain // IH //.
  - intros a b c d s Ha E2 E3 E4 IH. cbn [quote_body]. rw Ha E2 E3 E4 sapp_assoc.
    destruct (utf8_four_plain _ _ _ _ E4) as (Pa & Pb & Pc & Pd). rw !sapp_cons sapp_nil_l !scan_plain // IH //.
Qed.
Lemma hex_value_digit n : (n < 16)%N -> hex_value (hex_digit n) = Some n.
Proof. intros Hn. destruct n as [|[[[[]|[]|]|[[]|[]|]|]|[[[]|[]|]|[[]|[]|]|]|]]; (reflexivity || lia). Qed.

Lemma unquote_u h1 h2 h3 h4 n X :
  hex4 h1 h2 h3 h4 = Some n -> in_N 0xD800 0xDFFF n = false ->
  unquote ("\u" +:+ String h1 (String h2 (String h3 (String h4 X)))) = put (encode_rune n) (unquote X).
Proof.
  intros Hx Hs. rw !sapp_cons sapp_nil_l. cbn [unquote]. change (Ascii.eqb "\" dquote) with false.
  change (Ascii.eqb "\" backslash) with true. cbn iota. change (simple_escape "u") with (@None ascii). cbn iota.
  rw Hx. cbn [mbind option_bind]. by rw Hs.
Qed.

Lemma unquote_u_escape n X :
  (n < 65536)%N -> in_N 0xD800 0xDFFF n = false -> unquote (u_escape n +:+ X) = put (encode_rune n) (unquote X).
Proof.
  intros Hn Hs. unfold u_escape. rw !sapp_assoc. apply unquote_u; [|done].
  unfold hex4. rw !hex_value_digit; [apply N.mod_lt; done..|]. cbn [mbind option_bind]. f_equal. lia.
Qed.

Lemma unquote_plain a X : is_ascii_byte a = true -> plain a = true -> unquote (String a X) = put (bytes a) (unquote X).
Proof.
  intros Ha. unfold plain. rw !andb_true_iff !negb_true_iff. intros ((((E1 & E2) & E3) & E4) & E5). cbn [unquote].
  by rw E1 E2 E3 Ha.
Qed.

Lemma unquote_quote_byte a X : is_ascii_byte a = true -> unquote (quote_byte a +:+ X) = put (bytes a) (unquote X).
Proof.
  intros Ha. unfold quote_byte. destruct (Ascii.eqb a dquote || Ascii.eqb a backslash) eqn:E1.
  { apply orb_true_iff in E1 as [->%Ascii.eqb_eq| ->%Ascii.eqb_eq]; reflexivity. }
  apply orb_false_iff in E1 as [E1 E1'].
  repeat (case_match eqn:E; [apply Ascii.eqb_eq in E as ->; reflexivity|clear E]).
  destruct ((byte_val a <? 32)%N || html a) eqn:E2.
  - unfold is_ascii_byte in Ha. apply N.ltb_lt in Ha. rw unquote_u_escape; [lia|unfold in_N; lia|].
    unfold encode_rune. rw (proj2 (N.ltb_lt _ _) Ha). unfold byte_of, byte_val. by rw ascii_N_embedding.
  - apply orb_false_iff in E2 as [E2 E3]. apply unquote_plain; [done|]. unfold plain. rw E1 E1' E2 E3. cbn.
    apply negb_true_iff, Ascii.eqb_neq. by intros ->.
Qed.

Lemma high_not_special a : is_ascii_byte a = false -> Ascii.eqb a dquote = false /\ Ascii.eqb a backslash = false /\ (byte_val a <? 32)%N = false.
Proof. each_byte a. Qed.

(** Tokens are UTF-8 and are printed as they are. *)
Lemma token_utf8 s : all_bytes token_byte s = true -> utf8_valid s = true.
Proof. intros Hs. apply utf8_ascii. eapply all_bytes_impl; [|exact Hs]. intros a. each_byte a. Qed.
Lemma quote_token s : all_bytes token_byte s = true -> quote_body s = s +:+ bytes dquote.
Proof.
  induction s as [|a s IH]; [done|]. cbn [all_bytes]. intros [Ha Hs]%andb_true_iff. cbn [quote_body].
  assert (is_ascii_byte a = true /\ quote_byte a = bytes a) as [-> ->] by (revert Ha; clear; each_byte a). by rw IH.
Qed.

(** A printed string stands for the string it was printed from. *)
Lemma unquote_quote s rest : utf8_valid s = true -> unquote (quote_body s +:+ rest) = Some s.
Proof.
  revert s. apply (utf8_ind (fun s => unquote (quote_body s +:+ rest) = Some s)); [done|..].
  - intros a s Ha IH. cbn [quote_body]. rw Ha sapp_assoc unquote_quote_byte // IH //.
  - intros a b s Ha E2 IH. cbn [quote_body]. rw Ha E2 sapp_assoc !sapp_cons sapp_nil_l.
    destruct (high_not_special a Ha) as (D1 & D2 & D3). cbn [unquote]. rw D1 D2 D3 Ha E2 IH //.
  - intros a b c s Ha E2 E3 IH. cbn [quote_body]. rw Ha E2 E3 sapp_assoc.
    destruct (line_sep a b c) eqn:El.
    + unfold line_escape. unfold line_sep in El. apply andb_true_iff in El as [[->%Ascii.eqb_eq ->%Ascii.eqb_eq]%andb_true_iff Hc].
      destruct (Ascii.eqb_spec c "168") as [->|_]; [by rw unquote_u_escape // IH|].
      apply Ascii.eqb_eq in Hc as ->. by rw unquote_u_escape // IH.
    + destruct (high_not_special a Ha) as (D1 & D2 & D3). rw !sapp_cons sapp_nil_l. cbn [unquote]. rw D1 D2 D3 Ha E2 E3 IH //.
  - intros a b c d s Ha E2 E3 E4 IH. cbn [quote_body]. rw Ha E2 E3 E4 sapp_assoc !sapp_cons sapp_nil_l.
    destruct (high_not_special a Ha) as (D1 & D2 & D3). cbn [unquote]. rw D1 D2 D3 Ha E2 E3 E4 IH //.
Qed.
(** *** What a scan consumes *)

Lemma emit_Some p r t rest : emit p r = Some (t, rest) <-> exists t', r = Some (t', rest) /\ t = p +:+ t'.
Proof. destruct r as [[t0 r0]|]; cbn; naive_solver. Qed.

Lemma str_ind (P : string -> Prop) :
  (forall s, (forall s', (String.length s' < String.length s)%nat -> P s') -> P s) -> forall s, P s.
Proof.
  intros H s. remember (String.length s) as n eqn:En. assert (Hn : (String.length s <= n)%nat) by lia. clear En. revert s Hn.
  induction n as [|n IH]; intros s Hn; apply H; intros s' Hs; [lia|]. apply IH. lia.
Qed.

Lemma scan_str_length s t rest :
  scan_str s = Some (t, rest) -> (String.length rest < String.length s)%nat /\ (1 <= String.length t)%nat.
Proof.
  revert s t rest. apply (str_ind (fun s => forall t rest, scan_str s = Some (t, rest) -> _)).
  intros [|a s1] IH t rest; [done|]. cbn [scan_str].
  assert (Hemit : forall p s', (String.length s' <= String.length s1)%nat -> emit p (scan_str s') = Some (t, rest) ->
    (String.length rest < String.length (String a s1))%nat /\ (1 <= String.length t)%nat).
  { intros p s' Hs (t' & E & ->)%emit_Some. destruct (IH s' ltac:(cbn; lia) t' rest E). rw slength_app. cbn. lia. }
  repeat (case_match; subst; try done);
    try (by (intros [= <- <-]; cbn; lia)); try (intros E; refine (Hemit _ _ _ E); cbn; lia).
Qed.

Lemma skip_length s : (String.length (skip s) <= String.length s)%nat.
Proof. induction s as [|a s IH]; [done|]. cbn. destruct (is_ws a); cbn; lia. Qed.
Lemma expect_length c s s' : expect c s = Some s' -> (String.length s' < String.length s)%nat.
Proof. unfold expect. pose proof (skip_length s). destruct (skip s) as [|a s0]; [done|]. cbn in *. case_match; naive_solver lia. Qed.
Lemma digits_length s : (String.length (digits s).2 <= String.length s)%nat.
Proof. induction s as [|a s IH]; [done|]. cbn. destruct (is_digit a); cbn; lia. Qed.

Lemma scan_exp_length s t rest : scan_exp s = Some (t, rest) -> (String.length rest <= String.length s)%nat.
Proof.
  unfold scan_exp. destruct s as [|a s1]; [by intros [= <- <-]|]. destruct (_ || _); [|by intros [= <- <-]].
  destruct (match s1 with String b s2 => _ | EmptyString => _ end) as [sign s2] eqn:E2.
  assert (Hs : (String.length s2 <= String.length s1)%nat) by (destruct s1 as [|b s2']; [|destruct (_ || _)]; injection E2 as <- <-; cbn; lia).
  pose proof (digits_length s2). destruct (digits s2) as [ds r2]. case_bool_decide; [done|]. intros [= <- <-]. cbn in *. lia.
Qed.
Lemma scan_frac_length s t rest : scan_frac s = Some (t, rest) -> (String.length rest <= String.length s)%nat.
Proof.
  unfold scan_frac. destruct s as [|a s1]; [apply scan_exp_length|]. destruct (Ascii.eqb a "."); [|apply scan_exp_length].
  pose proof (digits_length s1). destruct (digits s1) as [ds r2]. case_bool_decide; [done|].
  intros (t' & E%scan_exp_length & _)%emit_Some. cbn in *. lia.
Qed.
Lemma scan_number_length s t rest :
  scan_number s = Some (t, rest) -> (String.length rest < String.length s)%nat.
Proof.
  assert (Hint : forall s t, scan_int s = Some (t, rest) -> (String.length rest < String.length s)%nat).
  { intros [|a s1] t0; [done|]. cbn [scan_int]. pose proof (digits_length s1).
    repeat case_match; [| |done]; intros (t' & E%scan_frac_length & _)%emit_Some; cbn; lia. }
  destruct s as [|a s1]; [done|]. cbn [scan_number]. destruct (Ascii.eqb a "-"); [|apply Hint].
  intros (t' & E%Hint & _)%emit_Some. cbn. lia.
Qed.
Lemma scan_word_length w s t rest : w <> "" -> scan_word w s = Some (t, rest) -> (String.length rest < String.length s)%nat.
Proof.
  unfold scan_word. intros Hw. destruct (cut_prefix w s) as [r|] eqn:E; [|done]. intros [= <- <-].
  apply cut_prefix_Some in E as ->. rw slength_app. destruct w; [done|cbn; lia].
Qed.
(** The steps of a scan through members and elements. *)
Lemma scan_members_Some n s t rest :
  scan_members (S n) s = Some (t, rest) ->
  exists s1 key s2 s3 value s4, expect dquote s = Some s1 /\ scan_str s1 = Some (key, s2) /\ expect ":" s2 = Some s3 /\
    scan_value n s3 = Some (value, s4) /\
    ((exists s5 t', expect "," s4 = Some s5 /\ scan_members n s5 = Some (t', rest) /\ t = (member key value +:+ ",") +:+ t') \/
     (expect "," s4 = None /\ expect "}" s4 = Some rest /\ t = member key value +:+ "}")).
Proof.
  cbn [scan_members]. destruct (expect dquote s) as [s1|] eqn:E1; [|done]. cbn [mbind option_bind].
  destruct (scan_str s1) as [[key s2]|] eqn:E2; [|done]. cbn [mbind option_bind].
  destruct (expect ":" s2) as [s3|] eqn:E3; [|done]. cbn [mbind option_bind].
  destruct (scan_value n s3) as [[value s4]|] eqn:E4; [|done]. cbn [mbind option_bind].
  intros H. exists s1, key, s2, s3, value, s4. split_and!; [done..|].
  destruct (expect "," s4) as [s5|] eqn:E5.
  - left. apply emit_Some in H as (t' & H & ->). eauto.
  - right. destruct (expect "}" s4) as [s5|] eqn:E6; [|done]. by injection H as <- <-.
Qed.

Lemma scan_elements_Some n s t rest :
  scan_elements (S n) s = Some (t, rest) ->
  exists value s1, scan_value n s = Some (value, s1) /\
    ((exists s2 t', expect "," s1 = Some s2 /\ scan_elements n s2 = Some (t', rest) /\ t = (value +:+ ",") +:+ t') \/
     (expect "," s1 = None /\ expect "]" s1 = Some rest /\ t = value +:+ "]")).
Proof.
  cbn [scan_elements]. destruct (scan_value n s) as [[value s1]|] eqn:E1; [|done]. cbn [mbind option_bind].
  intros H. exists value, s1. split; [done|]. destruct (expect "," s1) as [s2|] eqn:E2.
  - left. apply emit_Some in H as (t' & H & ->). eauto.
  - right. destruct (expect "]" s1) as [s2|] eqn:E3; [|done]. by injection H as <- <-.
Qed.

Lemma scan_lengths n :
  (forall s t rest, scan_value n s = Some (t, rest) -> (String.length rest < String.length s)%nat) /\
  (forall s t rest, scan_members n s = Some (t, rest) -> (String.length rest < String.length s)%nat) /\
  (forall s t rest, scan_elements n s = Some (t, rest) -> (String.length rest < String.length s)%nat).
Proof.
  induction n as [|n (IHv & IHm & IHe)]; [done|]. split_and!; intros s t rest.
  - cbn [scan_value]. pose proof (skip_length s). destruct (skip s) as [|a s1]; [done|]. cbn [String.length] in *.
    repeat (case_match; subst); intros E; try (injection E as <- <-); try (apply emit_Some in E as (t' & E & ->));
      repeat match goal with
      | H : expect _ _ = Some _ |- _ => apply expect_length in H
      | H : scan_str _ = Some _ |- _ => apply scan_str_length in H as [H _]
      | H : scan_members _ _ = Some _ |- _ => apply IHm in H
      | H : scan_elements _ _ = Some _ |- _ => apply IHe in H
      | H : scan_word _ _ = Some _ |- _ => apply scan_word_length in H; [|done]
      | H : scan_number _ = Some _ |- _ => apply scan_number_length in H
      end; cbn in *; lia.
  - intros (s1 & key & s2 & s3 & value & s4 & E1%expect_length & E2%scan_str_length & E3%expect_length & E4%IHv &
      [(s5 & t' & E5%expect_length & E6%IHm & _)|(_ & E5%expect_length & _)])%scan_members_Some; lia.
  - intros (value & s1 & E1%IHv & [(s2 & t' & E2%expect_length & E3%IHe & _)|(_ & E2%expect_length & _)])%scan_elements_Some; lia.
Qed.

(** More fuel than twice the length of the text changes nothing. *)
Lemma scan_fuel n :
  (forall m s, (2 * String.length s <= n)%nat -> (n <= m)%nat -> scan_value n s = scan_value m s) /\
  (forall m s, (2 * String.length s + 1 <= n)%nat -> (n <= m)%nat -> scan_members n s = scan_members m s) /\
  (forall m s, (2 * String.length s + 1 <= n)%nat -> (n <= m)%nat -> scan_elements n s = scan_elements m s).
Proof.
  induction n as [|n (IHv & IHm & IHe)].
  - split_and!; intros m s Hs Hm; [|lia..]. destruct s; [|cbn in Hs; lia]. by destruct m.
  - split_and!; intros m s Hs Hm; (destruct m as [|m]; [lia|]).
    + cbn [scan_value]. pose proof (skip_length s). destruct (skip s) as [|a s1]; [done|]. cbn in *.
      rw (IHm m s1) ?(IHe m s1) //; lia.
    + cbn [scan_members]. destruct (expect dquote s) as [s1|] eqn:E1; [|done]. cbn [mbind option_bind].
      destruct (scan_str s1) as [[key s2]|] eqn:E2; [|done]. cbn [mbind option_bind].
      destruct (expect ":" s2) as [s3|] eqn:E3; [|done]. cbn [mbind option_bind].
      apply expect_length in E1, E3. apply scan_str_length in E2 as [E2 _]. rw -(IHv m s3); [lia..|].
      destruct (scan_value n s3) as [[value s4]|] eqn:E4; [|done]. cbn [mbind option_bind]. apply scan_lengths in E4.
      destruct (expect "," s4) as [s5|] eqn:E5; [|done]. apply expect_length in E5. rw (IHm m s5) //; lia.
    + cbn [scan_elements]. rw -(IHv m s); [lia..|]. destruct (scan_value n s) as [[value s1]|] eqn:E1; [|done].
      cbn [mbind option_bind]. apply scan_lengths in E1. destruct (expect "," s1) as [s2|] eqn:E2; [|done].
      apply expect_length in E2. rw (IHe m s2) //; lia.
Qed.

(** [scan] is the scanner with any fuel that is large enough. *)
Lemma scan_enough m s : (2 * String.length s <= m)%nat -> scan_value m s = scan s.
Proof. intros Hm. unfold scan. symmetry. by apply scan_fuel. Qed.
(** *** Compact texts scan as they are *)

(** A byte of the output that is no quote and no escape was copied. *)
Lemma scan_str_copied s b t rest :
  scan_str s = Some (String b t, rest) -> Ascii.eqb b dquote = false -> Ascii.eqb b backslash = false ->
  exists s', s = String b s' /\ scan_str s' = Some (t, rest).
Proof.
  intros E Hq Hb. destruct s as [|a s1]; [done|]. revert E. cbn [scan_str].
  assert (Hesc : forall p r, emit (String backslash p) r = Some (String b t, rest) -> False).
  { intros p r (t' & _ & E)%emit_Some. rw sapp_cons in E. injection E as -> _. by rw Ascii.eqb_refl in Hb. }
  assert (Hcopy : emit (bytes a) (scan_str s1) = Some (String b t, rest) ->
    exists s', String a s1 = String b s' /\ scan_str s' = Some (t, rest)).
  { intros (t' & E & [= -> ->])%emit_Some. rw sapp_nil_l. eauto. }
  destruct (Ascii.eqb a dquote); [intros [= <- <- <-]; by rw Ascii.eqb_refl in Hq|].
  destruct (Ascii.eqb_spec a backslash) as [->|_].
  { repeat (case_match; try done); by intros E%Hesc. }
  destruct (_ <? _)%N; [done|]. destruct (html a); [by intros E%Hesc|].
  destruct s1 as [|b1 [|c1 s3]]; [exact Hcopy..|]. destruct (line_sep a b1 c1); [by intros E%Hesc|exact Hcopy].
Qed.

Lemma scan_str_compact s t rest rest' : scan_str s = Some (t, rest) -> scan_str (t +:+ rest') = Some (t, rest').
Proof.
  revert s t. apply (str_ind (fun s => forall t, scan_str s = Some (t, rest) -> _)). intros [|a s1] IH t; [done|]. cbn [scan_str].
  destruct (Ascii.eqb a dquote) eqn:E1; [by intros [= <- <-]|]. destruct (Ascii.eqb a backslash) eqn:E2.
  - destruct s1 as [|e s2]; [done|]. destruct (simple_escape e) eqn:E3.
    + intros (t' & E & ->)%emit_Some. rw sapp_assoc !sapp_cons sapp_nil_l. cbn [scan_str]. rw E1 E2 E3 (IH s2) //. cbn; lia.
    + destruct (Ascii.eqb e "u") eqn:E4; [|done]. destruct s2 as [|h1 [|h2 [|h3 [|h4 s3]]]]; try done.
      destruct (_ && _ && _ && _) eqn:E5; [|done]. intros (t' & E & ->)%emit_Some. rw sapp_assoc !sapp_cons sapp_nil_l.
      cbn [scan_str]. rw E1 E2 E3 E4 E5 (IH s3) //. cbn; lia.
  - destruct (_ <? _)%N eqn:E3; [done|]. destruct (html a) eqn:E4.
    { intros (t' & E & ->)%emit_Some. rw sapp_assoc scan_u_escape (IH s1) //. cbn; lia. }
    assert (Hcopy : match s1 with String b (String c _) => line_sep a b c = false | _ => True end ->
      emit (bytes a) (scan_str s1) = Some (t, rest) -> scan_str (t +:+ rest') = Some (t, rest')).
    { intros Hl (t' & E & ->)%emit_Some. rw sapp_assoc sapp_cons sapp_nil_l scan_copy //; [|rw (IH s1) //; cbn; lia].
      destruct (t' +:+ rest') as [|b [|c X]] eqn:Et; [done..|]. destruct (line_sep a b c) eqn:El; [exfalso|done].
      destruct (scan_str_length _ _ _ E) as [_ Ht]. destruct t' as [|b' t2]; [cbn in Ht; lia|]. rw sapp_cons in Et. injection Et as -> Et.
      unfold line_sep in El. apply andb_true_iff in El as [[Ea ->%Ascii.eqb_eq]%andb_true_iff Hc].
      apply scan_str_copied in E as (s2 & -> & E); [|done..]. destruct (scan_str_length _ _ _ E) as [_ Ht2].
      destruct t2 as [|c' t3]; [cbn in Ht2; lia|]. rw sapp_cons in Et. injection Et as -> Et.
      apply scan_str_copied in E as (s3 & -> & E); [|by apply orb_true_iff in Hc as [->%Ascii.eqb_eq| ->%Ascii.eqb_eq]..].
      unfold line_sep in Hl. by rw Ea Hc in Hl. }
    destruct s1 as [|b [|c s3]]; [by apply Hcopy..|]. destruct (line_sep a b c) eqn:E5; [|by apply Hcopy].
    intros (t' & E & ->)%emit_Some. rw sapp_assoc scan_u_escape (IH s3) //. cbn; lia.
Qed.

(** What may follow a number. *)
Definition stops (s : string) : bool :=
  match s with
  | String a _ => negb (is_digit a || Ascii.eqb a "." || Ascii.eqb a "e" || Ascii.eqb a "E")
  | EmptyString => true
  end.
Definition nodigit (s : string) : bool := match s with String a _ => negb (is_digit a) | EmptyString => true end.

Lemma digits_app s rest : nodigit rest = true -> digits ((digits s).1 +:+ rest) = ((digits s).1, rest).
Proof.
  intros Hr. induction s as [|a s IH].
  - cbn. rw sapp_nil_l. destruct rest as [|b r]; [done|]. cbn in *. by destruct (is_digit b).
  - cbn. destruct (is_digit a) eqn:Ea; cbn [fst].
    + rw sapp_cons. cbn. by rw Ea IH.
    + rw sapp_nil_l. destruct rest as [|b r]; [done|]. cbn in *. by destruct (is_digit b).
Qed.
Lemma stops_nodigit s : stops s = true -> nodigit s = true.
Proof. destruct s as [|a s]; [done|]. cbn. by destruct (is_digit a). Qed.

(** The exponent and the fraction start with no digit, and scan as they are. *)
Lemma scan_exp_compact s t rest rest' :
  scan_exp s = Some (t, rest) -> stops rest' = true ->
  scan_exp (t +:+ rest') = Some (t, rest') /\ nodigit (t +:+ rest') = true /\ HasPrefix (t +:+ rest') "." = false.
Proof.
  intros E Hr. assert (H0 : scan_exp rest' = Some (EmptyString, rest') /\ nodigit rest' = true /\ HasPrefix rest' "." = false).
  { split_and!; [|by apply stops_nodigit|]; destruct rest' as [|b r]; try done; cbn in Hr |- *;
      destruct (is_digit b), (Ascii.eqb b ".") eqn:Ed, (Ascii.eqb b "e"), (Ascii.eqb b "E"); try done.
    unfold HasPrefix. cbn. by rw Ascii.eqb_sym Ed. }
  revert E. unfold scan_exp at 1. destruct s as [|a s1]; [by intros [= <- <-]|].
  destruct (Ascii.eqb a "e" || Ascii.eqb a "E") eqn:Ea; [|by intros [= <- <-]].
  destruct (match s1 with String b s2 => _ | EmptyString => _ end) as [sign s2] eqn:E2.
  pose proof (digits_app s2 rest' (stops_nodigit _ Hr)) as Hd. destruct (digits s2) as [ds r2]. cbn [fst] in Hd.
  case_bool_decide as Hne; [done|]. intros [= <- <-].
  assert (Hx : nodigit (String a sign +:+ ds +:+ rest') = true /\ HasPrefix (String a sign +:+ ds +:+ rest') "." = false).
  { apply orb_true_iff in Ea as [->%Ascii.eqb_eq| ->%Ascii.eqb_eq]; done. }
  rw sapp_assoc. split; [|done]. rw sapp_cons. cbn [scan_exp]. rw Ea.
  assert (Hs : match sign +:+ (ds +:+ rest') with
    | String b s2 => if Ascii.eqb b "+" || Ascii.eqb b "-" then (bytes b, s2) else (EmptyString, sign +:+ (ds +:+ rest'))
    | EmptyString => (EmptyString, sign +:+ (ds +:+ rest')) end = (sign, ds +:+ rest')).
  { assert (Hn : sign = EmptyString \/ exists b, sign = bytes b /\ Ascii.eqb b "+" || Ascii.eqb b "-" = true).
    { destruct s1 as [|b s2']; [by injection E2 as <- <-; left|].
      destruct (Ascii.eqb b "+" || Ascii.eqb b "-") eqn:Eb; injection E2 as <- <-; eauto. }
    destruct Hn as [->|(b & -> & Eb)]; [|by rw sapp_cons sapp_nil_l Eb]. rw sapp_nil_l. destruct ds as [|d ds]; [done|].
    rw !sapp_cons in Hd |- *. cbn in Hd. destruct (is_digit d) eqn:Ed; [|done].
    assert (Ascii.eqb d "+" || Ascii.eqb d "-" = false) as -> by (revert Ed; clear; each_byte d). done. }
  rw Hs Hd. by rw bool_decide_eq_false_2.
Qed.
Lemma scan_frac_compact s t rest rest' :
  scan_frac s = Some (t, rest) -> stops rest' = true ->
  scan_frac (t +:+ rest') = Some (t, rest') /\ nodigit (t +:+ rest') = true.
Proof.
  intros E Hr. assert (Hexp : forall s, scan_exp s = Some (t, rest) ->
    scan_frac (t +:+ rest') = Some (t, rest') /\ nodigit (t +:+ rest') = true).
  { intros s0 E0. destruct (scan_exp_compact _ _ _ _ E0 Hr) as (H1 & H2 & H3). split; [|done]. unfold scan_frac.
    destruct (t +:+ rest') as [|b X]; [done|]. unfold HasPrefix in H3. cbn in H3. rw Ascii.eqb_sym in H3.
    by destruct (Ascii.eqb b "."). }
  revert E. unfold scan_frac at 1. destruct s as [|a s1]; [apply Hexp|]. destruct (Ascii.eqb a ".") eqn:Ea; [|apply Hexp].
  pose proof (fun X => digits_app s1 X) as Hd. destruct (digits s1) as [ds r2]. cbn [fst] in Hd. case_bool_decide as Hne; [done|].
  intros (t' & E & ->)%emit_Some. destruct (scan_exp_compact _ _ _ _ E Hr) as (H1 & H2 & _).
  rw sapp_assoc sapp_cons. split; [|by apply Ascii.eqb_eq in Ea as ->]. cbn [scan_frac]. rw Ea (Hd _ H2) bool_decide_eq_false_2 // H1 //.
Qed.

Lemma scan_int_compact s t rest rest' : scan_int s = Some (t, rest) -> stops rest' = true -> scan_int (t +:+ rest') = Some (t, rest').
Proof.
  intros E Hr. revert E. destruct s as [|a s1]; [done|]. cbn [scan_int]. destruct (Ascii.eqb a "0") eqn:E0.
  - intros (t' & E & ->)%emit_Some. destruct (scan_frac_compact _ _ _ _ E Hr) as [H1 _]. rw sapp_assoc sapp_cons sapp_nil_l.
    cbn [scan_int]. by rw E0 H1.
  - destruct (is_digit a) eqn:Ed; [|done]. intros (t' & E & ->)%emit_Some.
    destruct (scan_frac_compact _ _ _ _ E Hr) as [H1 H2]. rw sapp_assoc sapp_cons. cbn [scan_int]. by rw E0 Ed digits_app // H1.
Qed.

Lemma scan_number_compact s t rest rest' :
  scan_number s = Some (t, rest) -> stops rest' = true -> scan_number (t +:+ rest') = Some (t, rest').
Proof.
  intros E Hr. revert E. destruct s as [|a s1]; [done|]. cbn [scan_number]. destruct (Ascii.eqb a "-") eqn:Ea.
  - intros (t' & E & ->)%emit_Some. rw sapp_assoc sapp_cons sapp_nil_l. cbn [scan_number]. rw Ea (scan_int_compact _ _ _ _ E) //.
  - intros E. pose proof (scan_int_compact _ _ _ _ E Hr) as H1. destruct t as [|b t].
    + cbn in E. repeat case_match; try done; by apply emit_Some in E as (? & _ & ?).
    + rw sapp_cons in H1 |- *. cbn [scan_number]. destruct (Ascii.eqb_spec b "-") as [->|]; [|done]. done.
Qed.

(** The first byte of a value. *)
Definition starts (t : string) : bool :=
  match t with String a _ => negb (is_ws a) && negb (Ascii.eqb a "]") | EmptyString => false end.
Lemma starts_skip t rest : starts t = true -> skip (t +:+ rest) = t +:+ rest.
Proof. destruct t as [|a t]; [done|]. cbn. rw sapp_cons. cbn. by destruct (is_ws a). Qed.
Lemma starts_expect t rest : starts t = true -> expect "]" (t +:+ rest) = None.
Proof.
  intros Hs. unfold expect. rw starts_skip //. destruct t as [|a t]; [done|]. rw sapp_cons. cbn in Hs.
  by destruct (is_ws a), (Ascii.eqb a "]").
Qed.
Lemma expect_here c s : is_ws c = false -> expect c (String c s) = Some s.
Proof. intros Hw. unfold expect. cbn. by rw Hw Ascii.eqb_refl. Qed.
Lemma expect_other c a s : is_ws a = false -> Ascii.eqb a c = false -> expect c (String a s) = None.
Proof. intros Hw Ha. unfold expect. cbn. by rw Hw Ha. Qed.

(** A value that is scanned as it is, whatever follows. *)
Record compact (t : string) : Prop := {
  c_starts : starts t = true;
  c_scan m rest : (2 * String.length t <= m)%nat -> stops rest = true -> scan_value m (t +:+ rest) = Some (t, rest);
}.

Lemma number_head s t rest :
  scan_number s = Some (t, rest) -> exists a t', t = String a t' /\ Ascii.eqb a "-" || is_digit a = true.
Proof.
  assert (Hint : forall s t, scan_int s = Some (t, rest) -> exists a t', t = String a t' /\ is_digit a = true).
  { intros [|a s1] t0; [done|]. cbn [scan_int]. destruct (Ascii.eqb_spec a "0") as [->|_].
    - intros (t' & _ & ->)%emit_Some. by eexists _, _.
    - destruct (is_digit a) eqn:Ed; [|done]. intros (t' & _ & ->)%emit_Some. rw sapp_cons. eauto. }
  destruct s as [|a s1]; [done|]. cbn [scan_number]. destruct (Ascii.eqb a "-") eqn:Ea.
  - intros (t' & _ & ->)%emit_Some. rw sapp_cons. exists a. by rw Ea; eexists.
  - intros (b & t' & -> & Hb)%Hint. exists b, t'. by rw Hb orb_true_r.
Qed.

Lemma number_compact s t rest : scan_number s = Some (t, rest) -> compact t.
Proof.
  intros E. destruct (number_head _ _ _ E) as (a & t' & -> & Ha). split.
  { revert Ha. clear. cbn. each_byte a. }
  intros m rest' Hm Hr. pose proof (scan_number_compact _ _ _ _ E Hr) as Hn. rw sapp_cons in Hn |- *.
  destruct m as [|m]; [cbn in Hm; lia|]. cbn [scan_value].
  assert (Hw : is_ws a = false /\ Ascii.eqb a dquote = false /\ Ascii.eqb a "{" = false /\ Ascii.eqb a "[" = false /\
    Ascii.eqb a "t" = false /\ Ascii.eqb a "f" = false /\ Ascii.eqb a "n" = false) by (revert Ha; clear; each_byte a).
  destruct Hw as (W & D1 & D2 & D3 & D4 & D5 & D6). cbn [skip]. by rw W D1 D2 D3 D4 D5 D6.
Qed.

Lemma word_compact w s t rest : w ∈ ["true"; "false"; "null"] -> scan_word w s = Some (t, rest) -> compact t.
Proof.
  unfold scan_word. intros Hw. destruct (cut_prefix w s) as [r|]; [|done]. intros [= <- _].
  apply elem_of_cons in Hw as [->|[->|[->|[]%elem_of_nil]%elem_of_cons]%elem_of_cons];
    (split; [done|]; intros [|m] rest' Hm _; [cbn in Hm; lia|reflexivity]).
Qed.

Lemma string_compact key s rest : scan_str s = Some (key, rest) -> compact (String dquote key).
Proof.
  intros E. split; [done|]. intros [|m] rest' Hm _; [cbn in Hm; lia|]. rw sapp_cons.
  transitivity (emit (bytes dquote) (scan_str (key +:+ rest'))); [reflexivity|]. by rw (scan_str_compact _ _ _ _ E).
Qed.
(** A key with its closing quote, and the members and elements of a compact text with
    their closing bracket. *)
Definition key_ok (key : string) : Prop := forall rest, scan_str (key +:+ rest) = Some (key, rest).

Record members_ok (t : string) : Prop := {
  m_starts : exists t', t = String dquote t';
  m_scan m rest : (2 * String.length t + 1 <= m)%nat -> scan_members m (t +:+ rest) = Some (t, rest);
}.
Record elements_ok (t : string) : Prop := {
  e_starts : starts t = true;
  e_scan m rest : (2 * String.length t + 1 <= m)%nat -> scan_elements m (t +:+ rest) = Some (t, rest);
}.

Lemma member_app key value rest : member key value +:+ rest = String dquote (key +:+ String ":" (value +:+ rest)).
Proof. unfold member. by rw !sapp_cons !sapp_assoc !sapp_cons sapp_nil_l. Qed.
Lemma member_length key value : String.length (member key value) = (String.length key + String.length value + 2)%nat.
Proof. unfold member. rw sapp_cons /= !slength_app /=. lia. Qed.

Lemma scan_member m key value rest :
  key_ok key -> compact value -> (2 * String.length value <= m)%nat -> stops rest = true ->
  scan_members (S m) (member key value +:+ rest) =
    match expect "," rest with
    | Some s5 => emit (member key value +:+ ",") (scan_members m s5)
    | None => s5 ← expect "}" rest; Some (member key value +:+ "}", s5)
    end.
Proof.
  intros Hk [Hs Hv] Hm Hr. rw member_app. cbn [scan_members]. rw expect_here //. cbn [mbind option_bind]. rw Hk. cbn [mbind option_bind].
  rw expect_here //. cbn [mbind option_bind]. by rw Hv.
Qed.

Lemma members_last key value : key_ok key -> compact value -> members_ok (member key value +:+ "}").
Proof.
  intros Hk Hv. split; [by eexists; unfold member; rw !sapp_cons|].
  intros m rest Hm. rw slength_app member_length in Hm. cbn in Hm. destruct m as [|m]; [lia|].
  rw sapp_assoc scan_member //. lia.
Qed.

Lemma members_next key value t :
  key_ok key -> compact value -> members_ok t -> members_ok ((member key value +:+ ",") +:+ t).
Proof.
  intros Hk Hv [_ Ht]. split; [by eexists; unfold member; rw !sapp_cons|].
  intros m rest Hm. rw 2!slength_app member_length in Hm. cbn in Hm. destruct m as [|m]; [lia|].
  rw 2!sapp_assoc scan_member //; try lia. rw sapp_cons sapp_nil_l expect_here // Ht; try lia. cbn. by rw sapp_assoc.
Qed.

Lemma elements_last value : compact value -> elements_ok (value +:+ "]").
Proof.
  intros [Hs Hv]. split; [by destruct value|]. intros [|m] rest; rw slength_app /=; [lia|]. intros Hm. rw sapp_assoc.
  cbn [scan_elements]. rw Hv //. lia.
Qed.

Lemma elements_next value t : compact value -> elements_ok t -> elements_ok ((value +:+ ",") +:+ t).
Proof.
  intros [Hs Hv] [_ Ht]. split; [by destruct value|]. intros [|m] rest; rw !slength_app /=; [lia|]. intros Hm. rw !sapp_assoc.
  cbn [scan_elements]. rw Hv //; try lia. cbn [mbind option_bind]. rw sapp_cons sapp_nil_l expect_here // Ht; try lia.
  cbn. by rw sapp_assoc.
Qed.

Lemma object_compact t : members_ok t -> compact ("{" +:+ t).
Proof.
  intros [(t' & ->) Ht]. split; [done|]. intros m rest Hm _. rw slength_app /= in Hm. destruct m as [|m]; [lia|]. rw sapp_assoc sapp_cons sapp_nil_l.
  transitivity (match expect "}" (String dquote t' +:+ rest) with Some s2 => Some ("{}", s2)
                | None => emit "{" (scan_members m (String dquote t' +:+ rest)) end); [reflexivity|].
  rw {1}sapp_cons expect_other // Ht //. cbn. lia.
Qed.
Lemma array_compact t : elements_ok t -> compact ("[" +:+ t).
Proof.
  intros [Hs Ht]. split; [done|]. intros m rest Hm _. rw slength_app /= in Hm. destruct m as [|m]; [lia|]. rw sapp_assoc sapp_cons sapp_nil_l.
  transitivity (match expect "]" (t +:+ rest) with Some s2 => Some ("[]", s2)
                | None => emit "[" (scan_elements m (t +:+ rest)) end); [reflexivity|].
  rw starts_expect // Ht //. lia.
Qed.

(** Whatever was scanned is compact: the scanner is idempotent. *)
Lemma scan_compact n :
  (forall s t rest, scan_value n s = Some (t, rest) -> compact t) /\
  (forall s t rest, scan_members n s = Some (t, rest) -> members_ok t) /\
  (forall s t rest, scan_elements n s = Some (t, rest) -> elements_ok t).
Proof.
  induction n as [|n (IHv & IHm & IHe)]; [done|]. split_and!; intros s t rest.
  - cbn [scan_value]. destruct (skip s) as [|a s1]; [done|].
    destruct (Ascii.eqb a dquote); [intros (t' & E & ->)%emit_Some; by eapply string_compact|].
    destruct (Ascii.eqb a "{").
    { destruct (expect "}" s1); [|intros (t' & E & ->)%emit_Some; apply object_compact; by eapply IHm].
      intros [= <- <-]. split; [done|]. intros [|m] rest' Hm _; [cbn in Hm; lia|reflexivity]. }
    destruct (Ascii.eqb a "[").
    { destruct (expect "]" s1); [|intros (t' & E & ->)%emit_Some; apply array_compact; by eapply IHe].
      intros [= <- <-]. split; [done|]. intros [|m] rest' Hm _; [cbn in Hm; lia|reflexivity]. }
    repeat (case_match; [apply word_compact; set_solver|]). apply number_compact.
  - intros (s1 & key & s2 & s3 & value & s4 & _ & Hk & _ & Hv%IHv & Ht)%scan_members_Some.
    assert (Hko : key_ok key) by (intros r; by eapply scan_str_compact).
    destruct Ht as [(s5 & t' & _ & Ht%IHm & ->)|(_ & _ & ->)]; [by apply members_next|by apply members_last].
  - intros (value & s1 & Hv%IHv & [(s2 & t' & _ & Ht%IHe & ->)|(_ & _ & ->)])%scan_elements_Some;
      [by apply elements_next|by apply elements_last].
Qed.

Lemma compact_scan t rest : compact t -> stops rest = true -> scan (t +:+ rest) = Some (t, rest).
Proof. intros [_ Ht] Hr. unfold scan. apply Ht; [|done]. rw slength_app. lia. Qed.

Lemma compact_text_compact s t : compact_text s = Some t -> compact t /\ compact_text t = Some t.
Proof.
  unfold compact_text at 1. destruct (scan s) as [[t' rest]|] eqn:E; [|done]. case_bool_decide; [|done]. intros [= <-].
  apply scan_compact in E. split; [done|]. unfold compact_text. rw -(sapp_nil_r t') compact_scan // sapp_nil_r //.
Qed.
(** *** Printed values *)

Lemma consumed_app v rest : consumed (v +:+ rest) rest = v.
Proof.
  unfold consumed. rw slength_app. replace (String.length v + String.length rest - String.length rest)%nat with (String.length v) by lia.
  induction v as [|a v IH]; [by destruct rest|]. rw sapp_cons. cbn. by rw IH.
Qed.

Lemma quote_key s : utf8_valid s = true -> key_ok (quote_body s).
Proof. intros Hs rest. by apply scan_quote. Qed.
Lemma quote_compact s : utf8_valid s = true -> compact (quote s).
Proof. intros Hs. apply (string_compact _ (quote_body s +:+ "") ""). by apply scan_quote. Qed.
Lemma dec_string_quote s cur : utf8_valid s = true -> dec_string (quote s) cur = Ok s.
Proof. intros Hs. unfold dec_string, quote. cbn. rw -(sapp_nil_r (quote_body s)) unquote_quote //. Qed.

Lemma bool_compact b : compact (bool_text b).
Proof. apply (word_compact (bool_text b) (bool_text b) _ ""); destruct b; (set_solver || reflexivity). Qed.
Lemma dec_bool_text b cur : dec_bool (bool_text b) cur = Ok b.
Proof. by destruct b. Qed.
Lemma null_compact : compact "null".
Proof. apply (word_compact "null" "null" _ ""); [set_solver|reflexivity]. Qed.

(** Numbers. *)
Lemma digits_value_app acc s t v : digits_value acc s = Some v -> digits_value acc (s +:+ t) = digits_value v t.
Proof.
  revert acc. induction s as [|a s IH]; intros acc; [by intros [= ->]|]. rw sapp_cons. cbn. destruct (is_digit a); [apply IH|done].
Qed.
Lemma pretty_char_digit y : (y < 10)%N -> is_digit (pretty_N_char y) = true /\ Z.of_N (byte_val (pretty_N_char y)) - 48 = Z.of_N y.
Proof.
  revert y. apply (N_below 10). by repeat constructor.
Qed.

(** The digits of a positive number: they start with one that is not zero, and have its value. *)
Lemma pretty_go_value x s : (0 < x)%N -> exists d p,
  pretty_N_go x s = String d p +:+ s /\ all_bytes is_digit (String d p) = true /\ Ascii.eqb d "0" = false /\
  digits_value 0 (String d p) = Some (Z.of_N x).
Proof.
  revert s. induction (N.lt_wf_0 x) as [x _ IH]; intros s Hx. rw pretty_N_go_step //.
  pose proof (N.mod_lt x 10 ltac:(lia)) as Hm. destruct (pretty_char_digit _ Hm) as [Hd Hv].
  destruct (decide (x < 10)%N) as [Hs|Hs].
  - rw (N.div_small x 10) // pretty_N_go_0. rw N.mod_small // in Hd Hv |- *. exists (pretty_N_char x), "".
    split; [done|]. cbn. rw Hd Hv. split; [done|]. split; [|done]. apply Ascii.eqb_neq. intros E. rw E in Hv. cbn in Hv. lia.
  - destruct (IH (x / 10)%N ltac:(apply N.div_lt; lia) (String (pretty_N_char (x mod 10)) s)) as (d & p & -> & Hp & Hz & Hval);
      [lia|]. exists d, (p +:+ bytes (pretty_N_char (x mod 10))).
    split; [by rw !sapp_cons sapp_assoc|]. split; [|split; [done|]].
    + cbn [all_bytes] in Hp |- *. apply andb_true_iff in Hp as [-> Hp]. rw all_bytes_app Hp. cbn. by rw Hd.
    + rw -sapp_cons (digits_value_app _ _ _ _ Hval). cbn. rw Hd Hv. f_equal. lia.
Qed.

Lemma scan_int_pos x : (0 < x)%N -> scan_int (pretty_N_go x "") = Some (pretty_N_go x "", "") /\
  digits_value 0 (pretty_N_go x "") = Some (Z.of_N x) /\ Ascii.eqb (default " "%char (String.get 0 (pretty_N_go x ""))) "-" = false /\
  pretty_N_go x "" <> "".
Proof.
  intros Hx. destruct (pretty_go_value x "" Hx) as (d & p & -> & Hd & H0 & Hv). rw sapp_nil_r.
  cbn [all_bytes] in Hd. apply andb_true_iff in Hd as [Hd Hp].
  split_and!; [|done| |done].
  - cbn [scan_int]. rw H0 Hd. rw -(sapp_nil_r p) digits_before // sapp_nil_r.
  - cbn. revert Hd. clear. each_byte d.
Qed.

Lemma Itoa_scan z : scan_number (Itoa z) = Some (Itoa z, "") /\ int_value (Itoa z) = Some z.
Proof.
  unfold Itoa, pretty, pretty_Z. destruct z as [|p|p]; [done|..].
  - change (pretty p) with (pretty_N_go (N.pos p) ""). destruct (scan_int_pos (N.pos p) ltac:(lia)) as (Hs & Hv & Hm & _).
    destruct (pretty_N_go (N.pos p) "") as [|a s]; [done|]. cbn in Hm. cbn [scan_number int_value]. by rw Hm.
  - change (pretty p) with (pretty_N_go (N.pos p) ""). destruct (scan_int_pos (N.pos p) ltac:(lia)) as (Hs & Hv & _ & Hne).
    rw sapp_cons sapp_nil_l. cbn [scan_number int_value]. change (Ascii.eqb "-" "-") with true. cbn iota.
    rw Hs bool_decide_eq_false_2 // Hv. split; [|done]. cbn. by rw sapp_cons sapp_nil_l.
Qed.

Lemma int_compact z : compact (Itoa z).
Proof. eapply number_compact. apply Itoa_scan. Qed.
Lemma dec_int64_text z cur : int64_range z -> dec_int64 (Itoa z) cur = Ok z.
Proof.
  intros Hz. unfold dec_int64. assert (is_null (Itoa z) = false) as ->.
  { unfold is_null. apply bool_decide_eq_false. intros E. pose proof (proj1 (Itoa_scan z)) as Hs. by rw E in Hs. }
  rw (proj2 (Itoa_scan z)). cbn. by rw bool_decide_eq_true_2.
Qed.
(** Times. *)
Lemma scan_plain_all s rest : all_bytes plain s = true -> scan_str (s +:+ String dquote rest) = Some (s +:+ bytes dquote, rest).
Proof.
  induction s as [|a s IH]; [done|]. cbn [all_bytes]. intros [Ha Hs]%andb_true_iff. rw !sapp_cons scan_plain // IH //.
Qed.
Lemma before_quote_app s : before_quote (s +:+ bytes dquote) = Some s.
Proof.
  induction s as [|a s IH]; [done|]. rw sapp_cons. cbn [before_quote]. destruct (s +:+ bytes dquote) eqn:E; [|by rw IH].
  by destruct s.
Qed.
Lemma digit_plain a : is_digit a = true -> plain a = true.
Proof. each_byte a. Qed.
Lemma date_plain t rest : all_bytes plain rest = true -> all_bytes plain (date_text (civil_of t) +:+ frac_text (c_nano (civil_of t)) +:+ rest) = true.
Proof.
  intros Hrest. assert (Hp : forall w n, all_bytes plain (pad w n) = true).
  { intros w n. eapply all_bytes_impl; [exact digit_plain|]. apply pad_digits. }
  unfold date_text, frac_text. destruct (civil_of t) as [y mo d h mi sec n].
  cbn [c_year c_month c_day c_hour c_minute c_second c_nano].
  assert (Hf : all_bytes plain (if n =? 0 then "" else "." +:+ TrimRight (pad 9 n) "0") = true).
  { destruct (n =? 0); [done|]. rw all_bytes_app TrimRight_all //. }
  pose proof (Hp 4%nat y) as P1. pose proof (Hp 2%nat mo) as P2. pose proof (Hp 2%nat d) as P3. pose proof (Hp 2%nat h) as P4.
  pose proof (Hp 2%nat mi) as P5. pose proof (Hp 2%nat sec) as P6. revert P1 P2 P3 P4 P5 P6 Hf.
  generalize (pad 4 y), (pad 2 mo), (pad 2 d), (pad 2 h), (pad 2 mi), (pad 2 sec), (if n =? 0 then "" else "." +:+ TrimRight (pad 9 n) "0").
  intros s1 s2 s3 s4 s5 s6 s7 P1 P2 P3 P4 P5 P6 Hf. by rw !all_bytes_app P1 P2 P3 P4 P5 P6 Hf Hrest.
Qed.
Lemma offset_plain m : all_bytes plain (offset_text m) = true.
Proof.
  assert (Hp : forall w n, all_bytes plain (pad w n) = true).
  { intros w n. eapply all_bytes_impl; [exact digit_plain|]. apply pad_digits. }
  unfold offset_text. destruct (m =? 0); [done|]. pose proof (Hp 2%nat (Z.abs m / 60)) as P1. pose proof (Hp 2%nat (Z.abs m mod 60)) as P2.
  revert P1 P2. generalize (pad 2 (Z.abs m / 60)), (pad 2 (Z.abs m mod 60)). intros s1 s2 P1 P2.
  rw !all_bytes_app P1 P2. by destruct (m <? 0).
Qed.

(** A text of plain bytes that parses as a time. *)
Lemma time_plain s t cur :
  all_bytes plain s = true -> parse_time s = Some t ->
  compact (String dquote (s +:+ bytes dquote)) /\ dec_time (String dquote (s +:+ bytes dquote)) cur = Ok t.
Proof.
  intros Hs Hp. split; [apply (string_compact _ (s +:+ bytes dquote) ""); by apply scan_plain_all|]. unfold dec_time.
  assert (is_null (String dquote (s +:+ bytes dquote)) = false) as -> by (unfold is_null; by apply bool_decide_eq_false_2).
  change (between_quotes (String dquote (s +:+ bytes dquote))) with (before_quote (s +:+ bytes dquote)).
  rw before_quote_app. cbn [mbind option_bind]. by rw Hp.
Qed.
Lemma time_roundtrip t s cur : time_text t = Ok s -> compact s /\ dec_time s cur = Ok t.
Proof.
  unfold time_text. destruct ((0 <=? year_of t) && (year_of t <? 10000)) eqn:Ey; [|done]. intros [= <-].
  apply (time_plain (format_nano t) t cur); [exact (date_plain t "Z" eq_refl)|apply parse_format; lia].
Qed.
Lemma time_in_roundtrip m t s cur : -1440 < m < 1440 -> time_text_in m t = Ok s -> compact s /\ dec_time s cur = Ok t.
Proof.
  intros Hm. unfold time_text_in. destruct (_ && _) eqn:Ey; [|done]. intros [= <-].
  apply (time_plain (format_nano_in m t) t cur); [exact (date_plain (t + m * Minute) (offset_text m) (offset_plain m))|apply parse_format_in; lia].
Qed.

(** Objects and arrays. *)
Definition member_ok (kv : string * string) : Prop := utf8_valid kv.1 = true /\ compact kv.2.

Lemma members_text_ok l : l <> [] -> Forall member_ok l -> members_ok (members_text l).
Proof.
  induction l as [|[k v] l IH]; [done|]. intros _ [[Hk Hv] Hl]%list.Forall_cons. cbn in Hk, Hv. apply quote_key in Hk.
  destruct l as [|kv l]; [by apply members_last|]. change (members_text ((k, v) :: kv :: l)) with
    ((member (quote_body k) v +:+ ",") +:+ members_text (kv :: l)). apply members_next; [done..|]. by apply IH.
Qed.
Lemma object_text_compact l : Forall member_ok l -> compact (object_text l).
Proof.
  intros Hl. destruct l as [|kv l]; [|apply object_compact; by apply members_text_ok].
  split; [done|]. intros [|m] rest Hm _; [vm_compute in Hm; lia|reflexivity].
Qed.

Lemma elements_text_ok l : l <> [] -> Forall compact l -> elements_ok (elements_text l).
Proof.
  induction l as [|v l IH]; [done|]. intros _ [Hv Hl]%list.Forall_cons. destruct l as [|v' l]; [by apply elements_last|].
  change (elements_text (v :: v' :: l)) with ((v +:+ ",") +:+ elements_text (v' :: l)). apply elements_next; [done|]. by apply IH.
Qed.
Lemma array_text_compact l : Forall compact l -> compact (array_text l).
Proof.
  intros Hl. destruct l as [|v l]; [|apply array_compact; by apply elements_text_ok].
  split; [done|]. intros [|m] rest Hm _; [vm_compute in Hm; lia|reflexivity].
Qed.

(** The scan of a value that is followed by a separator, and its text. *)
Lemma scan_here v rest :
  compact v -> stops rest = true -> scan (skip (v +:+ rest)) = Some (v, rest) /\ consumed (skip (v +:+ rest)) rest = v.
Proof. intros Hv Hr. rw starts_skip; [by apply c_starts|]. split; [by apply compact_scan|apply consumed_app]. Qed.

Lemma read_member n k v rest :
  utf8_valid k = true -> compact v -> stops rest = true ->
  read_members (S n) (member (quote_body k) v +:+ rest) =
    match expect "," rest with
    | Some s5 => l ← read_members n s5; Some ((k, v) :: l)
    | None => _ ← expect "}" rest; Some [(k, v)]
    end.
Proof.
  intros Hk Hv Hr. rw member_app. cbn [read_members]. rw expect_here //. cbn [mbind option_bind].
  rw scan_quote //. cbn [mbind option_bind]. rw unquote_quote //. cbn [mbind option_bind]. rw expect_here //. cbn [mbind option_bind].
  destruct (scan_here v rest Hv Hr) as [-> Hc]. cbn [mbind option_bind]. by rw Hc.
Qed.

Lemma read_members_text n l rest :
  l <> [] -> Forall member_ok l -> (length l <= n)%nat -> read_members n (members_text l +:+ rest) = Some l.
Proof.
  revert n. induction l as [|[k v] l IH]; [done|]. intros [|n] _ [[Hk Hv] Hl]%list.Forall_cons Hn; [cbn in Hn; lia|]. cbn in Hk, Hv, Hn.
  destruct l as [|kv l].
  - cbn [members_text]. by rw sapp_assoc read_member.
  - change (members_text ((k, v) :: kv :: l)) with ((member (quote_body k) v +:+ ",") +:+ members_text (kv :: l)).
    rw 2!sapp_assoc read_member // sapp_cons sapp_nil_l expect_here // IH //. lia.
Qed.

Lemma members_text_length l : (length l <= String.length (members_text l))%nat.
Proof.
  induction l as [|[k v] l IH]; [cbn; lia|]. destruct l as [|kv l]; [cbn [members_text]; rw slength_app /=; lia|].
  change (members_text ((k, v) :: kv :: l)) with ((member (quote_body k) v +:+ ",") +:+ members_text (kv :: l)).
  rw 2!slength_app. cbn in *. lia.
Qed.

Lemma object_members_text l rest : Forall member_ok l -> object_members (object_text l +:+ rest) = Some l.
Proof.
  intros Hl. unfold object_members, object_text. rw sapp_assoc sapp_cons sapp_nil_l expect_here //. cbn [mbind option_bind].
  destruct l as [|kv l]; [done|]. destruct (members_text_ok (kv :: l) ltac:(done) Hl) as [(t' & Et) _].
  rw {1}Et sapp_cons expect_other //. apply read_members_text; [done..|].
  rw slength_app. pose proof (members_text_length (kv :: l)). lia.
Qed.

Lemma read_elements_text n l rest :
  l <> [] -> Forall compact l -> (length l <= n)%nat -> read_elements n (elements_text l +:+ rest) = Some l.
Proof.
  revert n. induction l as [|v l IH]; [done|]. intros [|n] _ [Hv Hl]%list.Forall_cons Hn; [cbn in Hn; lia|]. cbn in Hn.
  destruct l as [|v' l].
  - cbn [elements_text]. rw sapp_assoc. cbn [read_elements]. destruct (scan_here v ("]" +:+ rest) Hv) as [-> Hc]; [done|].
    cbn [mbind option_bind]. by rw Hc.
  - change (elements_text (v :: v' :: l)) with ((v +:+ ",") +:+ elements_text (v' :: l)). rw 2!sapp_assoc. cbn [read_elements].
    destruct (scan_here v ("," +:+ (elements_text (v' :: l) +:+ rest)) Hv) as [-> Hc]; [done|]. cbn [mbind option_bind].
    rw Hc sapp_cons sapp_nil_l expect_here // IH //. lia.
Qed.

Lemma elements_text_length l : (length l <= String.length (elements_text l))%nat.
Proof.
  induction l as [|v l IH]; [cbn; lia|]. destruct l as [|v' l]; [cbn [elements_text]; rw slength_app /=; lia|].
  change (elements_text (v :: v' :: l)) with ((v +:+ ",") +:+ elements_text (v' :: l)). rw 2!slength_app. cbn in *. lia.
Qed.

Lemma array_elements_text l rest : Forall compact l -> array_elements (array_text l +:+ rest) = Some l.
Proof.
  intros Hl. unfold array_elements, array_text. rw sapp_assoc sapp_cons sapp_nil_l expect_here //. cbn [mbind option_bind].
  destruct l as [|v l]; [done|]. destruct (elements_text_ok (v :: l) ltac:(done) Hl) as [Hs _].
  rw starts_expect //. apply read_elements_text; [done..|]. rw slength_app. pose proof (elements_text_length (v :: l)). lia.
Qed.

Lemma is_null_object l : is_null (object_text l) = false.
Proof. done. Qed.

(** Structs: a member with the name of a field is its value. *)
Fixpoint assoc (name : string) (l : list (string * string)) : option string :=
  match l with [] => None | (k, v) :: l => if String.eqb k name then Some v else assoc name l end.

Lemma resolve_exact names key : key ∈ names -> resolve names key = Some key.
Proof.
  intros Hk. unfold resolve. destruct (List.find (String.eqb key) names) as [n|] eqn:E.
  - by apply List.find_some in E as [_ ->%String.eqb_eq].
  - apply (List.find_none _ _) with (x := key) in E; [by rw String.eqb_refl in E|by apply list_elem_of_In].
Qed.

Record members_of (names : list string) (l : list (string * string)) : Prop := {
  mo_ok : Forall member_ok l;
  mo_names : Forall (fun k => k ∈ names) l.*1;
  mo_nodup : NoDup l.*1;
}.

Lemma get_assoc {A} names l name (dec : decoder A) cur :
  members_of names l -> get names name dec l cur = match assoc name l with Some raw => dec raw cur | None => Ok cur end.
Proof.
  intros [_ Hn Hd]. revert cur Hn Hd. induction l as [|[k v] l IH]; intros cur; [done|].
  rw fmap_cons. intros [Hk Hn]%list.Forall_cons [Hkl Hd]%NoDup_cons. cbn [get assoc]. cbn in Hk, Hkl. rw resolve_exact //.
  destruct (String.eqb_spec k name) as [->|Hne].
  - rw bool_decide_eq_true_2 //. destruct (dec v cur) as [a|]; [|done]. cbn [mbind res_bind]. rw IH //.
    assert (assoc name l = None) as ->; [|done]. clear -Hkl. induction l as [|[k v'] l IH]; [done|]. cbn in *.
    apply not_elem_of_cons in Hkl as [Hne Hl]. destruct (String.eqb_spec k name); [done|by apply IH].
  - rw bool_decide_eq_false_2; [congruence|]. by apply IH.
Qed.

Lemma read_struct_text {S} strict names build l (cur : S) :
  members_of names l -> read_struct strict names build (object_text l) cur = build l.
Proof.
  intros [Ho Hn _]. unfold read_struct. rw is_null_object -(sapp_nil_r (object_text l)) object_members_text //. cbn [of_option mbind res_bind].
  assert (existsb (unknown_member names) l = false) as ->; [|by rw andb_false_r].
  apply not_true_iff_false. intros (kv & Hin & Hu)%existsb_exists. unfold unknown_member in Hu.
  rw list.Forall_forall in Hn. rw resolve_exact in Hu; [|done]. apply Hn, list_elem_of_fmap. exists kv. by rw list_elem_of_In.
Qed.

Lemma dec_slice_text {A B} zero (dec : decoder B) (text : A -> string) (f : A -> B) l cur :
  Forall (fun a => compact (text a) /\ dec (text a) zero = Ok (f a)) l ->
  compact (array_text (text <$> l)) /\ dec_slice zero dec (array_text (text <$> l)) cur = Ok (f <$> l).
Proof.
  intros Hl. assert (Hc : Forall compact (text <$> l)).
  { apply Forall_fmap. eapply Forall_impl; [exact Hl|]. by intros a []. }
  split; [by apply array_text_compact|]. unfold dec_slice. change (is_null (array_text (text <$> l))) with false. cbn iota.
  rw -(sapp_nil_r (array_text _)) array_elements_text //. cbn [of_option mbind res_bind]. clear Hc.
  induction Hl as [|a l [_ Ha] _ IH]; [done|]. rw !fmap_cons. cbn [dec_list]. by rw Ha; cbn [mbind res_bind]; rw IH.
Qed.

Lemma Unmarshal_compact {A} (zero : A) dec t : compact t -> Unmarshal zero dec t = dec t zero.
Proof.
  intros Ht. pose proof (compact_scan t "" Ht eq_refl) as Hs. destruct (scan_here t "" Ht eq_refl) as [_ Hc].
  rw sapp_nil_r in Hs Hc. unfold Unmarshal. rw Hs. cbn. by rw Hc.
Qed.
Lemma Decode_compact {A} (zero : A) dec t rest err :
  compact t -> stops rest = true ->
  Decode zero dec (mkStream (t +:+ rest) err) = (a ← dec t zero; Ok (a, mkStream rest err)).
Proof.
  intros Ht Hr. unfold Decode. cbn [st_bytes st_err]. rw compact_scan //. by destruct (scan_here t rest Ht Hr) as [_ ->].
Qed.
Lemma compact_Valid t : compact t -> Valid t = true.
Proof. intros Ht. unfold Valid, compact_text. rw -(sapp_nil_r t) compact_scan //. Qed.
Lemma compact_raw t : compact t -> raw_text t = Ok t.
Proof.
  intros Ht. unfold raw_text. rw bool_decide_eq_false_2; [intros ->; by destruct Ht|].
  unfold compact_text. rw -{1}(sapp_nil_r t) compact_scan // sapp_nil_r //.
Qed.
(** Maps of strings. *)
Lemma dec_entries_text (l : list (string * string)) m0 :
  NoDup l.*1 -> Forall (fun kv => utf8_valid kv.2 = true) l ->
  dec_entries ((fun kv => (kv.1, quote kv.2)) <$> l) m0 = Ok (list_to_map l ∪ m0).
Proof.
  revert m0. induction l as [|[k v] l IH]; intros m0.
  - intros _ _. cbn. by rw map_empty_union.
  - rw !fmap_cons. intros [Hk Hn]%NoDup_cons [Hv Hl]%list.Forall_cons. cbn in Hk, Hv. cbn [fst snd dec_entries].
    rw dec_string_quote //. cbn [mbind res_bind]. rw IH //. f_equal. cbn [list_to_map foldr].
    change (list_to_map ((k, v) :: l)) with (<[k := v]> (list_to_map l : gmap string string)).
    rw -insert_union_l insert_union_r //. by apply not_elem_of_list_to_map_1.
Qed.

Lemma string_map_roundtrip (m : gmap string string) :
  (forall k v, m !! k = Some v -> utf8_valid k = true /\ utf8_valid v = true) ->
  compact (string_map_text m) /\ dec_string_map (string_map_text m) ∅ = Ok m.
Proof.
  intros Hm. unfold string_map_text. set (l := order_by _ (map_to_list m)).
  assert (Hp : l ≡ₚ map_to_list m) by apply order_by_perm.
  assert (Hl : Forall (fun kv => utf8_valid kv.1 = true /\ utf8_valid kv.2 = true) l).
  { rw Hp. apply list.Forall_forall. intros [k v] E%elem_of_map_to_list. by apply (Hm k v). }
  assert (Hf : Forall member_ok ((fun kv => (kv.1, quote kv.2)) <$> l)).
  { apply Forall_fmap. eapply Forall_impl; [exact Hl|]. intros [k v] [Hk Hv]. split; [done|]. by apply quote_compact. }
  split; [by apply object_text_compact|]. unfold dec_string_map. rw is_null_object -(sapp_nil_r (object_text _)) object_members_text //.
  cbn [of_option mbind res_bind]. rw dec_entries_text.
  - rw Hp. apply NoDup_fst_map_to_list.
  - eapply Forall_impl; [exact Hl|]. by intros kv [].
  - f_equal. rw map_union_empty -(list_to_map_to_list m). apply list_to_map_proper; [|done].
    rw Hp. apply NoDup_fst_map_to_list.
Qed.
End JSONFacts.
