(* ===== verification/JSONIndent.v ===== *)
(** The layout of an indented json.Encoder, as the JSON reports are written.

    The encoder copies the compact text byte by byte and adds line breaks and spaces
    around punctuation outside strings.  The theorem of this file is that the layout is
    only that: scanning the result gives the compact text back. *)
From Stdlib Require Import Ascii ZArith Lia.
From Corelib Require Import ssreflect.
From stdpp Require Import base gmap strings list numbers pretty.
From S2P Require Import Prelude GoStrings GoTime GoEncoding GoNet GoDate GoJSON JSONFacts.

#[local] Open Scope Z_scope.

Module Indent.
Import Date JSON JSONFacts.

(** ** Definitions *)

(** A line break and two spaces per level. *)
Fixpoint spaces (depth : nat) : string :=
  match depth with O => EmptyString | S depth => String " " (String " " (spaces depth)) end.
Definition line (depth : nat) : string := String "010" (spaces depth).

Inductive place := Outside | InString | Escaped.

(** [need]: a bracket was opened and its line is not broken yet. *)
Fixpoint indented (p : place) (need : bool) (depth : nat) (s : string) : string :=
  match s with
  | EmptyString => EmptyString
  | String a s' =>
    match p with
    | Escaped => String a (indented InString need depth s')
    | InString =>
      String a (indented (if Ascii.eqb a backslash then Escaped else if Ascii.eqb a dquote then Outside else InString) need depth s')
    | Outside =>
      if Ascii.eqb a "}" || Ascii.eqb a "]" then
        if need then String a (indented Outside false depth s')
        else line (pred depth) +:+ String a (indented Outside false (pred depth) s')
      else
        let depth := if need then S depth else depth in
        (if need then line depth else EmptyString) +:+
        (if Ascii.eqb a "{" || Ascii.eqb a "[" then String a (indented Outside true depth s')
         else if Ascii.eqb a "," then String a (line depth +:+ indented Outside false depth s')
         else if Ascii.eqb a ":" then String a (String " " (indented Outside false depth s'))
         else String a (indented (if Ascii.eqb a dquote then InString else Outside) false depth s'))
    end
  end.

(** Encode with SetIndent("", "  "), the newline included. *)
Definition encode_indented (text : string) : string := indented Outside false 0 text +:+ String "010" EmptyString.

Example layout : indented Outside false 0 (array_text ["1"; "[]"; array_text ["true"]]) = "[
  1,
  [],
  [
    true
  ]
]".
Proof. vm_compute. reflexivity. Qed.

(** ** Copied texts *)

(** Bytes without a role in the layout. *)
Definition quiet (a : ascii) : bool :=
  negb (Ascii.eqb a "}" || Ascii.eqb a "]" || Ascii.eqb a "{" || Ascii.eqb a "[" || Ascii.eqb a "," || Ascii.eqb a ":" ||
        Ascii.eqb a dquote).

Lemma indented_quiet d t X : all_bytes quiet t = true -> indented Outside false d (t +:+ X) = t +:+ indented Outside false d X.
Proof.
  induction t as [|a t IH]; [done|]. cbn [all_bytes]. intros [Ha Ht]%andb_true_iff. rw !sapp_cons. cbn [indented].
  unfold quiet in Ha. apply negb_true_iff in Ha. rw !orb_false_iff in Ha. destruct Ha as ((((((-> & ->) & ->) & ->) & ->) & ->) & ->).
  cbn [orb]. by rw sapp_nil_l IH.
Qed.
Lemma digit_quiet a : is_digit a = true -> quiet a = true.
Proof. each_byte a. Qed.
Lemma digits_quiet s : all_bytes quiet (digits s).1 = true.
Proof. induction s as [|a s IH]; [done|]. cbn. destruct (is_digit a) eqn:E; [|done]. cbn. by rw digit_quiet. Qed.
Lemma number_quiet s t rest : scan_number s = Some (t, rest) -> all_bytes quiet t = true.
Proof.
  assert (He : forall s t, scan_exp s = Some (t, rest) -> all_bytes quiet t = true).
  { intros [|a s1] t0; cbn [scan_exp]; [by intros [= <- _]|]. destruct (_ || _) eqn:E; [|by intros [= <- _]].
    set (sg := match s1 with EmptyString => _ | String _ _ => _ end).
    assert (Hs : all_bytes quiet (String a sg.1) = true).
    { cbn. apply andb_true_iff. split; [revert E; clear; each_byte a|]. unfold sg. destruct s1 as [|b s2]; [done|].
      destruct (Ascii.eqb b "+" || Ascii.eqb b "-") eqn:Eb; [|done]. cbn. rw andb_true_r. revert Eb. clear. each_byte b. }
    destruct sg as [sign s2]. cbn [fst] in Hs. pose proof (digits_quiet s2) as Hd. destruct (digits s2) as [ds r].
    case_bool_decide; [done|]. intros [= <- _]. rw all_bytes_app Hs. exact Hd. }
  assert (Hf : forall s t, scan_frac s = Some (t, rest) -> all_bytes quiet t = true).
  { intros [|a s1] t0; cbn [scan_frac]; [by apply He|]. destruct (Ascii.eqb_spec a ".") as [->|_]; [|apply He].
    pose proof (digits_quiet s1) as Hd. destruct (digits s1) as [ds r]. case_bool_decide; [done|].
    intros (t' & E%He & ->)%emit_Some. rw sapp_cons. cbn. by rw all_bytes_app E andb_true_r. }
  assert (Hi : forall s t, scan_int s = Some (t, rest) -> all_bytes quiet t = true).
  { intros [|a s1] t0; cbn [scan_int]; [done|]. destruct (Ascii.eqb_spec a "0") as [->|_].
    - by intros (t' & E%Hf & ->)%emit_Some.
    - destruct (is_digit a) eqn:Ed; [|done]. intros (t' & E%Hf & ->)%emit_Some. rw sapp_cons. cbn.
      by rw all_bytes_app E digits_quiet digit_quiet. }
  destruct s as [|a s1]; [done|]. cbn [scan_number]. destruct (Ascii.eqb_spec a "-") as [->|_]; [|apply Hi].
  by intros (t' & E%Hi & ->)%emit_Some.
Qed.

(** A string is copied up to its closing quote. *)
Lemma indented_escape d n X : indented InString false d (u_escape n +:+ X) = u_escape n +:+ indented InString false d X.
Proof.
  unfold u_escape. assert (H : forall k, (k < 16)%N -> Ascii.eqb (hex_digit k) backslash = false /\ Ascii.eqb (hex_digit k) dquote = false).
  { intros k Hk. pose proof (is_hex_digit k Hk) as Hh. revert Hh. generalize (hex_digit k). intros a. each_byte a. }
  assert (Hm : forall k, (k mod 16 < 16)%N) by (intros k; apply N.mod_lt; done).
  pose proof (H _ (Hm (n / 4096)%N)) as [A1 B1]. pose proof (H _ (Hm (n / 256)%N)) as [A2 B2].
  pose proof (H _ (Hm (n / 16)%N)) as [A3 B3]. pose proof (H _ (Hm n)) as [A4 B4]. revert A1 B1 A2 B2 A3 B3 A4 B4.
  generalize (hex_digit (n / 4096 mod 16)), (hex_digit (n / 256 mod 16)), (hex_digit (n / 16 mod 16)), (hex_digit (n mod 16)).
  intros a b c e A1 B1 A2 B2 A3 B3 A4 B4. rw !sapp_assoc. rw !sapp_cons !sapp_nil_l. cbn [indented].
  change (Ascii.eqb "\" backslash) with true. cbn iota. by rw A1 B1 A2 B2 A3 B3 A4 B4.
Qed.

Lemma indented_string d s t rest X :
  scan_str s = Some (t, rest) -> indented InString false d (t +:+ X) = t +:+ indented Outside false d X.
Proof.
  revert s t. apply (str_ind (fun s => forall t, scan_str s = Some (t, rest) -> _)). intros [|a s1] IH t; [done|]. cbn [scan_str].
  destruct (Ascii.eqb a dquote) eqn:E1; [by intros [= <- <-]|]. destruct (Ascii.eqb a backslash) eqn:E2.
  - destruct s1 as [|e s2]; [done|]. destruct (simple_escape e) eqn:E3.
    + intros (t' & E & ->)%emit_Some. rw !sapp_assoc !sapp_cons !sapp_nil_l. cbn [indented]. rw E2 (IH s2) //. cbn; lia.
    + destruct (Ascii.eqb e "u") eqn:E4; [|done]. destruct s2 as [|h1 [|h2 [|h3 [|h4 s3]]]]; try done.
      destruct (_ && _ && _ && _) eqn:E5; [|done]. intros (t' & E & ->)%emit_Some. rw !sapp_assoc !sapp_cons !sapp_nil_l.
      assert (Hh : forall h, is_hex h = true -> Ascii.eqb h backslash = false /\ Ascii.eqb h dquote = false) by (intros h; each_byte h).
      rw !andb_true_iff in E5. destruct E5 as (((H1%Hh & H2%Hh) & H3%Hh) & H4%Hh).
      destruct H1 as [A1 B1], H2 as [A2 B2], H3 as [A3 B3], H4 as [A4 B4].
      cbn [indented]. rw E2 A1 B1 A2 B2 A3 B3 A4 B4 (IH s3) //. cbn; lia.
  - destruct (_ <? _)%N eqn:E3; [done|]. destruct (html a).
    { intros (t' & E & ->)%emit_Some. rw !sapp_assoc indented_escape (IH s1) //. cbn; lia. }
    assert (Hcopy : emit (bytes a) (scan_str s1) = Some (t, rest) -> indented InString false d (t +:+ X) = t +:+ indented Outside false d X).
    { intros (t' & E & ->)%emit_Some. rw !sapp_assoc !sapp_cons !sapp_nil_l. cbn [indented]. rw E1 E2 (IH s1) //. cbn; lia. }
    destruct s1 as [|b [|c s3]]; [exact Hcopy..|]. destruct (line_sep a b c); [|exact Hcopy].
    intros (t' & E & ->)%emit_Some. rw !sapp_assoc indented_escape (IH s3) //. cbn; lia.
Qed.

(** ** White space before a token *)

Lemma skip_line d s : skip (line d +:+ s) = skip s.
Proof. unfold line. rw sapp_cons. cbn [skip]. change (is_ws "010") with true. cbn iota. induction d as [|d IH]; [done|]. cbn [spaces]. by rw !sapp_cons. Qed.
Lemma expect_line c d s : expect c (line d +:+ s) = expect c s.
Proof. unfold expect. by rw skip_line. Qed.
Lemma scan_value_line n d s : scan_value n (line d +:+ s) = scan_value n s.
Proof. destruct n as [|n]; [done|]. cbn [scan_value]. by rw skip_line. Qed.
Lemma scan_members_line n d s : scan_members n (line d +:+ s) = scan_members n s.
Proof. destruct n as [|n]; [done|]. cbn [scan_members]. by rw expect_line. Qed.
Lemma scan_elements_line n d s : scan_elements n (line d +:+ s) = scan_elements n s.
Proof. destruct n as [|n]; [done|]. cbn [scan_elements]. by rw scan_value_line. Qed.
Lemma scan_value_space n s : scan_value n (String " " s) = scan_value n s.
Proof. by destruct n. Qed.

(** Concatenations to the right, without unfolding anything. *)
Ltac app_right := repeat match goal with
  | |- context [String ?a ?s +:+ ?t] => change (String a s +:+ t) with (String a (s +:+ t))
  | |- context [EmptyString +:+ ?t] => change (EmptyString +:+ t) with t
  | |- context [(?x +:+ ?y) +:+ ?z] => rw (sapp_assoc x y z)
  end.

(** ** The layout of values *)

(** The first byte is no white space and closes nothing. *)
Definition begins (t : string) : Prop :=
  match t with String a _ => is_ws a = false /\ Ascii.eqb a "]" = false /\ Ascii.eqb a "}" = false | EmptyString => False end.

Lemma begins_app t X : begins t -> begins (t +:+ X).
Proof. by destruct t. Qed.
Lemma begins_expect t X : begins t -> expect "]" (t +:+ X) = None /\ expect "}" (t +:+ X) = None.
Proof. destruct t as [|a t]; [done|]. intros (Hw & H1 & H2). rw sapp_cons. by rw !expect_other. Qed.

(** After an opening bracket the line is broken first. *)
Lemma indented_first d t X : begins t -> indented Outside true d (t +:+ X) = line (S d) +:+ indented Outside false (S d) (t +:+ X).
Proof. destruct t as [|a t]; [done|]. intros (_ & H1 & H2). rw sapp_cons. cbn [indented]. by rw H1 H2. Qed.

(** A text, and its layout at each depth. *)
Definition laid (t : string) : Prop :=
  begins t /\ forall d, exists u, begins u /\
    (forall X, indented Outside false d (t +:+ X) = u +:+ indented Outside false d X) /\
    (forall m X, (2 * String.length u <= m)%nat -> stops X = true -> scan_value m (u +:+ X) = Some (t, X)).
Definition laid_members (t : string) : Prop :=
  begins t /\ forall d, exists u, begins u /\
    (forall X, indented Outside false (S d) (t +:+ X) = u +:+ indented Outside false d X) /\
    (forall m X, (2 * String.length u + 1 <= m)%nat -> scan_members m (u +:+ X) = Some (t, X)).
Definition laid_elements (t : string) : Prop :=
  begins t /\ forall d, exists u, begins u /\
    (forall X, indented Outside false (S d) (t +:+ X) = u +:+ indented Outside false d X) /\
    (forall m X, (2 * String.length u + 1 <= m)%nat -> scan_elements m (u +:+ X) = Some (t, X)).

(** What is copied. *)
Lemma laid_copied t : compact t -> begins t -> (forall d X, indented Outside false d (t +:+ X) = t +:+ indented Outside false d X) -> laid t.
Proof. intros [_ Hc] Hb Hi. split; [done|]. intros d. exists t. split; [done|]. split; [apply Hi|]. intros m X. apply Hc. Qed.

Lemma laid_string key s rest : scan_str s = Some (key, rest) -> laid (String dquote key).
Proof.
  intros E. apply laid_copied; [by eapply string_compact|done|]. intros d X. rw !sapp_cons.
  change (indented Outside false d (String dquote (key +:+ X))) with (String dquote (indented InString false d (key +:+ X))).
  by rw (indented_string _ _ _ _ _ E).
Qed.
Lemma laid_number s t rest : scan_number s = Some (t, rest) -> laid t.
Proof.
  intros E. apply laid_copied; [by eapply number_compact| |].
  - destruct (number_head _ _ _ E) as (a & t' & -> & Ha). revert Ha. clear. unfold begins. each_byte a.
  - intros d X. apply indented_quiet. by eapply number_quiet.
Qed.
Lemma laid_word w s t rest : w ∈ ["true"; "false"; "null"] -> scan_word w s = Some (t, rest) -> laid t.
Proof.
  intros Hw E. pose proof (word_compact _ _ _ _ Hw E) as Hc. revert E. unfold scan_word. destruct (cut_prefix w s) as [r|]; [|done].
  intros [= <- _]. apply elem_of_cons in Hw as [->|[->|[->|[]%elem_of_nil]%elem_of_cons]%elem_of_cons];
    (apply laid_copied; [done|done|intros d X; by apply indented_quiet]).
Qed.
Lemma laid_empty t : t = "{}" \/ t = "[]" -> laid t.
Proof.
  intros Ht. split; [by destruct Ht as [->| ->]|]. intros d. exists t. split; [by destruct Ht as [->| ->]|].
  split; [by destruct Ht as [->| ->]|]. intros [|m] X Hm _; [|by destruct Ht as [->| ->]]. by destruct Ht as [->| ->]; cbn in Hm; lia.
Qed.

(** A member up to its separator. *)
Lemma indented_member d key value u X :
  (exists s rest, scan_str s = Some (key, rest)) ->
  (forall X, indented Outside false d (value +:+ X) = u +:+ indented Outside false d X) ->
  indented Outside false d (member key value +:+ X) = String dquote (key +:+ String ":" (String " " (u +:+ indented Outside false d X))).
Proof.
  intros (s & rest & E) Hv. rw member_app.
  change (indented Outside false d (String dquote ?Y)) with (String dquote (indented InString false d Y)).
  rw (indented_string _ _ _ _ _ E). change (indented Outside false d (String ":" ?Y)) with (String ":" (String " " (indented Outside false d Y))).
  by rw Hv.
Qed.
Lemma scan_member_laid m key value u X :
  key_ok key -> (forall m X, (2 * String.length u <= m)%nat -> stops X = true -> scan_value m (u +:+ X) = Some (value, X)) ->
  (2 * String.length u <= m)%nat -> stops X = true ->
  scan_members (S m) (String dquote (key +:+ String ":" (String " " (u +:+ X)))) =
    match expect "," X with
    | Some s5 => emit (member key value +:+ ",") (scan_members m s5)
    | None => s5 ← expect "}" X; Some (member key value +:+ "}", s5)
    end.
Proof.
  intros Hk Hv Hm HX. cbn [scan_members]. rw expect_here //. cbn [mbind option_bind]. rw Hk. cbn [mbind option_bind].
  rw expect_here //. cbn [mbind option_bind]. by rw scan_value_space Hv.
Qed.

Lemma laid_members_last key value s rest : scan_str s = Some (key, rest) -> laid value -> laid_members (member key value +:+ "}").
Proof.
  intros E [_ Hv]. assert (Hk : key_ok key) by (intros r; by eapply scan_str_compact).
  split; [done|]. intros d. destruct (Hv (S d)) as (u & _ & Hi & Hs).
  exists (String dquote (key +:+ String ":" (String " " (u +:+ line d +:+ "}")))). split; [done|]. split.
  - intros X. rw sapp_assoc (indented_member _ _ _ u); [by eauto|done|].
    rw sapp_cons sapp_nil_l. change (indented Outside false (S d) (String "}" X)) with (line d +:+ String "}" (indented Outside false d X)).
    by app_right.
  - intros m X Hm. cbn [String.length] in Hm. rw slength_app in Hm. cbn [String.length] in Hm. rw slength_app in Hm.
    destruct m as [|m]; [lia|]. app_right.
    rw (scan_member_laid m key value u) //; [lia|]. by rw !expect_line.
Qed.
Lemma laid_members_next key value s rest t :
  scan_str s = Some (key, rest) -> laid value -> laid_members t -> laid_members ((member key value +:+ ",") +:+ t).
Proof.
  intros E [_ Hv] [Hb Ht]. assert (Hk : key_ok key) by (intros r; by eapply scan_str_compact).
  split; [done|]. intros d. destruct (Hv (S d)) as (u & _ & Hi & Hs). destruct (Ht d) as (ut & _ & Hti & Hts).
  exists (String dquote (key +:+ String ":" (String " " (u +:+ String "," (line (S d) +:+ ut))))). split; [done|]. split.
  - intros X. rw 2!sapp_assoc (indented_member _ _ _ u); [by eauto|done|].
    rw sapp_cons sapp_nil_l. change (indented Outside false (S d) (String "," ?Y)) with (String "," (line (S d) +:+ indented Outside false (S d) Y)).
    rw Hti. by app_right.
  - intros m X Hm. cbn [String.length] in Hm. rw slength_app in Hm. cbn [String.length] in Hm. rw slength_app in Hm.
    cbn [String.length] in Hm. rw slength_app in Hm.
    destruct m as [|m]; [lia|]. app_right.
    rw (scan_member_laid m key value u) //; [lia|]. rw expect_here // scan_members_line Hts; [lia|].
    cbn. by rw sapp_assoc.
Qed.

Lemma laid_elements_last value : laid value -> laid_elements (value +:+ "]").
Proof.
  intros [Hb Hv]. split; [by apply begins_app|]. intros d. destruct (Hv (S d)) as (u & Hu & Hi & Hs).
  exists (u +:+ line d +:+ "]"). split; [by apply begins_app|]. split.
  - intros X. app_right. rw Hi. change (indented Outside false (S d) (String "]" X)) with (line d +:+ String "]" (indented Outside false d X)).
    by app_right.
  - intros m X Hm. rw slength_app in Hm. destruct m as [|m]; [lia|]. app_right. cbn [scan_elements]. rw Hs; [lia|done|].
    cbn [mbind option_bind]. by rw !expect_line.
Qed.
Lemma laid_elements_next value t : laid value -> laid_elements t -> laid_elements ((value +:+ ",") +:+ t).
Proof.
  intros [Hb Hv] [_ Ht]. split; [by apply begins_app, begins_app|]. intros d. destruct (Hv (S d)) as (u & Hu & Hi & Hs).
  destruct (Ht d) as (ut & _ & Hti & Hts). exists (u +:+ String "," (line (S d) +:+ ut)). split; [by apply begins_app|]. split.
  - intros X. app_right. rw Hi. change (indented Outside false (S d) (String "," ?Y)) with (String "," (line (S d) +:+ indented Outside false (S d) Y)).
    rw Hti. by app_right.
  - intros m X Hm. rw slength_app in Hm. cbn [String.length] in Hm. rw slength_app in Hm. destruct m as [|m]; [lia|]. app_right.
    cbn [scan_elements]. rw Hs; [lia|done|]. cbn [mbind option_bind]. rw expect_here // scan_elements_line Hts; [lia|].
    cbn. by rw sapp_assoc.
Qed.

(** Brackets around members and elements. *)
Lemma laid_object t : laid_members t -> laid ("{" +:+ t).
Proof.
  intros [Hb Ht]. split; [done|]. intros d. destruct (Ht d) as (u & Hu & Hi & Hs).
  exists (String "{" (line (S d) +:+ u)). split; [done|]. split.
  - intros X. app_right. change (indented Outside false d (String "{" ?Y)) with (String "{" (indented Outside true d Y)).
    rw indented_first // Hi. by app_right.
  - intros m X Hm _. cbn [String.length] in Hm. rw slength_app in Hm. destruct m as [|m]; [lia|]. app_right.
    transitivity (match expect "}" (line (S d) +:+ u +:+ X) with Some s2 => Some ("{}", s2)
                  | None => emit "{" (scan_members m (line (S d) +:+ u +:+ X)) end); [reflexivity|].
    rw expect_line (proj2 (begins_expect u X Hu)) scan_members_line Hs; [lia|done].
Qed.
Lemma laid_array t : laid_elements t -> laid ("[" +:+ t).
Proof.
  intros [Hb Ht]. split; [done|]. intros d. destruct (Ht d) as (u & Hu & Hi & Hs).
  exists (String "[" (line (S d) +:+ u)). split; [done|]. split.
  - intros X. app_right. change (indented Outside false d (String "[" ?Y)) with (String "[" (indented Outside true d Y)).
    rw indented_first // Hi. by app_right.
  - intros m X Hm _. cbn [String.length] in Hm. rw slength_app in Hm. destruct m as [|m]; [lia|]. app_right.
    transitivity (match expect "]" (line (S d) +:+ u +:+ X) with Some s2 => Some ("[]", s2)
                  | None => emit "[" (scan_elements m (line (S d) +:+ u +:+ X)) end); [reflexivity|].
    rw expect_line (proj1 (begins_expect u X Hu)) scan_elements_line Hs; [lia|done].
Qed.

(** Whatever the scanner produces can be laid out. *)
Lemma scan_laid n :
  (forall s t rest, scan_value n s = Some (t, rest) -> laid t) /\
  (forall s t rest, scan_members n s = Some (t, rest) -> laid_members t) /\
  (forall s t rest, scan_elements n s = Some (t, rest) -> laid_elements t).
Proof.
  induction n as [|n (IHv & IHm & IHe)]; [done|]. split_and!; intros s t rest.
  - cbn [scan_value]. destruct (skip s) as [|a s1]; [done|].
    destruct (Ascii.eqb a dquote); [intros (t' & E & ->)%emit_Some; by eapply laid_string|].
    destruct (Ascii.eqb a "{").
    { destruct (expect "}" s1); [intros [= <- _]; by apply laid_empty; left|].
      intros (t' & E & ->)%emit_Some. apply laid_object. by eapply IHm. }
    destruct (Ascii.eqb a "[").
    { destruct (expect "]" s1); [intros [= <- _]; by apply laid_empty; right|].
      intros (t' & E & ->)%emit_Some. apply laid_array. by eapply IHe. }
    repeat (case_match; [apply laid_word; set_solver|]). apply laid_number.
  - intros (s1 & key & s2 & s3 & value & s4 & _ & Hk & _ & Hv%IHv & Ht)%scan_members_Some.
    destruct Ht as [(s5 & t' & _ & Ht%IHm & ->)|(_ & _ & ->)]; [by eapply laid_members_next|by eapply laid_members_last].
  - intros (value & s1 & Hv%IHv & [(s2 & t' & _ & Ht%IHe & ->)|(_ & _ & ->)])%scan_elements_Some;
      [by apply laid_elements_next|by apply laid_elements_last].
Qed.

(** The indented text of a value is that value with white space. *)
Lemma indented_compact t : compact t -> compact_text (encode_indented t) = Some t.
Proof.
  intros Hc. assert (Hl : laid t).
  { pose proof (compact_scan t "" Hc eq_refl) as E. rw sapp_nil_r in E. by eapply scan_laid. }
  destruct Hl as [_ Hl]. destruct (Hl 0%nat) as (u & _ & Hi & Hs). pose proof (Hi "") as Hi'. rw !sapp_nil_r in Hi'.
  unfold encode_indented, compact_text, scan. rw Hi' Hs //. rw slength_app. lia.
Qed.
End Indent.
