(* ===== verification/GoFiles.v ===== *)
(** Parts of Go's standard library that write files: path/filepath on Unix,
    encoding/csv's Writer with a reference reader, decimal numerals, and a file
    system as a map from paths to contents. *)
From Stdlib Require Import Ascii ZArith Lia String.
From Corelib Require Import ssreflect.
From stdpp Require Import base gmap strings list numbers pretty.
From S2P Require Import Prelude GoStrings GoEncoding GoNet.



(** ** Paths *)

Definition slash : ascii := "/"%char.

Definition filepath_Base (path : string) : string :=
  if bool_decide (path = "") then "."
  else
    let path := List.last (Split (TrimRight path slash) slash) "" in
    if bool_decide (path = "") then "/" else path.

(** [filepath.Clean]: the components that remain, in order. *)
Definition clean_step (rooted : bool) (out : list string) (comp : string) : list string :=
  if bool_decide (comp = "") || bool_decide (comp = ".") then out
  else if bool_decide (comp = "..") then
    match rev out with
    | top :: rest => if bool_decide (top = "..") then out ++ [".."] else rev rest
    | [] => if rooted then out else out ++ [".."]
    end
  else out ++ [comp].

Definition clean_comps (path : string) : list string :=
  foldl (clean_step (HasPrefix path "/")) [] (Split path slash).

Definition render (rooted : bool) (comps : list string) : string :=
  if rooted then String slash (Join comps slash)
  else if bool_decide (comps = []) then "." else Join comps slash.

Definition filepath_Clean (path : string) : string := render (HasPrefix path "/") (clean_comps path).

Definition filepath_Join (dir name : string) : string :=
  if bool_decide (dir = "") then (if bool_decide (name = "") then "" else filepath_Clean name)
  else filepath_Clean (dir +:+ String slash name).

Example clean1 : filepath_Clean "./a//b/../c/." = "a/c".
Proof. reflexivity. Qed.
Example clean2 : filepath_Clean "/../a/../../b" = "/b".
Proof. reflexivity. Qed.
Example clean3 : filepath_Clean "a/../.." = "..".
Proof. reflexivity. Qed.
Example base1 : filepath_Base "../../etc/passwd//" = "passwd".
Proof. reflexivity. Qed.

(** A name that stands for itself in a directory. *)
Definition plain_name (name : string) : Prop :=
  name <> "" /\ name <> "." /\ name <> ".." /\ no_byte slash name = true.

Lemma Split_plain s c : no_byte c s = true -> Split s c = [s].
Proof.
  unfold no_byte. induction s as [|a s IH]; [done|]. cbn. rw andb_true_iff negb_true_iff. intros [-> Hs].
  by rw (IH Hs).
Qed.
Lemma Split_Join l c : l <> [] -> Forall (fun x => no_byte c x = true) l -> Split (Join l c) c = l.
Proof.
  induction l as [|x l IH]; [done|]. intros _ [Hx Hl]%list.Forall_cons. destruct l as [|y l]; [by apply Split_plain|].
  change (Join (x :: y :: l) c) with (x +:+ String c (Join (y :: l) c)). by rw Split_app IH // Split_plain.
Qed.

Lemma clean_step_plain rooted out name : plain_name name -> clean_step rooted out name = out ++ [name].
Proof. intros (H1 & H2 & H3 & _). unfold clean_step. by rw !bool_decide_eq_false_2. Qed.

Lemma HasPrefix_first dir t : dir <> "" -> HasPrefix (dir +:+ t) "/" = HasPrefix dir "/".
Proof. destruct dir as [|a dir]; [done|]. intros _. rw sapp_cons. unfold HasPrefix. cbn [cut_prefix]. by destruct (Ascii.eqb _ a). Qed.

(** A plain name lies directly in the directory it is joined to. *)
Lemma Join_plain dir name :
  dir <> "" -> plain_name name ->
  clean_comps (dir +:+ String slash name) = clean_comps dir ++ [name] /\
  filepath_Join dir name = render (HasPrefix dir "/") (clean_comps dir ++ [name]).
Proof.
  intros Hd Hn. assert (E : clean_comps (dir +:+ String slash name) = clean_comps dir ++ [name]).
  { unfold clean_comps. rw (HasPrefix_first dir _ Hd) Split_app foldl_app (Split_plain name); [by apply Hn|].
    cbn. by apply clean_step_plain. }
  split; [done|]. unfold filepath_Join. rw bool_decide_eq_false_2 //.
  unfold filepath_Clean. by rw (HasPrefix_first dir _ Hd) E.
Qed.

Lemma Split_pieces s c : Forall (fun x => no_byte c x = true) (Split s c).
Proof.
  induction s as [|a s IH]; cbn; [apply Forall_cons; split; [done|apply Forall_nil_2]|].
  destruct (Ascii.eqb_spec a c); [apply Forall_cons; by split|].
  destruct (Split s c) as [|x l] eqn:E; [by apply Split_not_nil in E|].
  apply Forall_cons in IH as [Hx Hl]. apply Forall_cons. split; [|done].
  unfold no_byte in *. cbn. apply andb_true_iff. split; [|done]. by apply negb_true_iff, Ascii.eqb_neq.
Qed.

Lemma filepath_Base_spec path :
  filepath_Base path = "/" \/ (filepath_Base path <> "" /\ no_byte slash (filepath_Base path) = true).
Proof.
  unfold filepath_Base. case_bool_decide; [by right|]. case_bool_decide as E; [by left|]. right. split; [done|].
  pose proof (Split_pieces (TrimRight path slash) slash) as Hp. revert Hp. generalize (Split (TrimRight path slash) slash).
  intros l Hp. induction Hp as [|x l Hx Hl IH]; [done|]. cbn. by destruct l.
Qed.

(** ** encoding/csv *)

Definition quote : ascii := "034"%char.
Definition comma : ascii := ","%char.
Definition LF : ascii := "010"%char.
Definition CR : ascii := "013"%char.

(** [Writer.fieldNeedsQuotes] with a comma: the empty field does not; a field with
    a separator, a quote or a line break, or that begins with white space, does. *)
Definition special (a : ascii) : bool :=
  Ascii.eqb a LF || Ascii.eqb a CR || Ascii.eqb a quote || Ascii.eqb a comma.

Definition fieldNeedsQuotes (field : string) : bool :=
  if bool_decide (field = "") then false
  else if bool_decide (field = "\.") then true
  else negb (all_bytes (fun a => negb (special a)) field) || match strip_space field with Some _ => true | None => false end.

Fixpoint double_quotes (field : string) : string :=
  match field with
  | "" => ""
  | String a s => if Ascii.eqb a quote then String quote (String quote (double_quotes s)) else String a (double_quotes s)
  end.

Definition csv_field (field : string) : string :=
  if fieldNeedsQuotes field then String quote (double_quotes field +:+ String quote "") else field.

(** [Writer.Write] of a record. *)
Definition csv_line (record : list string) : string := Join (map csv_field record) comma +:+ String LF "".

Definition csv_text (records : list (list string)) : string := foldr (fun r acc => csv_line r +:+ acc) "" records.

(** A reader after RFC 4180: at the start of a field, in a plain field, in a quoted
    field, and after a quote in a quoted field. *)
Inductive csv_state := FieldStart | Plain | Quoted | AfterQuote.

Fixpoint csv_run (s : string) (st : csv_state) (field : string) (row : list string) (rows : list (list string))
    : option (list (list string)) :=
  match s with
  | "" => match st with FieldStart => if bool_decide (row = []) then Some rows else None | _ => None end
  | String c s =>
    let next_field := csv_run s FieldStart "" (row ++ [field]) rows in
    let next_row := csv_run s FieldStart "" [] (rows ++ [row ++ [field]]) in
    match st with
    | FieldStart =>
      if Ascii.eqb c quote then csv_run s Quoted "" row rows
      else if Ascii.eqb c comma then next_field
      else if Ascii.eqb c LF then next_row
      else csv_run s Plain (String c "") row rows
    | Plain =>
      if Ascii.eqb c quote then None
      else if Ascii.eqb c comma then next_field
      else if Ascii.eqb c LF then next_row
      else csv_run s Plain (field +:+ String c "") row rows
    | Quoted =>
      if Ascii.eqb c quote then csv_run s AfterQuote field row rows
      else csv_run s Quoted (field +:+ String c "") row rows
    | AfterQuote =>
      if Ascii.eqb c quote then csv_run s Quoted (field +:+ String quote "") row rows
      else if Ascii.eqb c comma then next_field
      else if Ascii.eqb c LF then next_row
      else None
    end
  end.

Definition csv_parse (s : string) : option (list (list string)) := csv_run s FieldStart "" [] [].

(** *** What is written is read back *)

(** The two separators end a field alike. *)
Definition ends_field (c : ascii) (s : string) (field : string) (row : list string) (rows : list (list string)) :=
  if Ascii.eqb c comma then csv_run s FieldStart "" (row ++ [field]) rows
  else csv_run s FieldStart "" [] (rows ++ [row ++ [field]]).

Lemma run_plain c u s acc row rows :
  c = comma \/ c = LF -> all_bytes (fun a => negb (special a)) u = true ->
  csv_run (u +:+ String c s) Plain acc row rows = ends_field c s (acc +:+ u) row rows.
Proof.
  intros Hc. revert acc. induction u as [|a u IH]; intros acc.
  - intros _. rw sapp_nil_r. by destruct Hc as [-> | ->].
  - rw sapp_cons. cbn. rw andb_true_iff negb_true_iff. unfold special. rw !orb_false_iff.
    intros [[[[-> _] ->] ->] Hu]. rw IH //. by rw sapp_assoc.
Qed.

Lemma run_quoted c u s acc row rows :
  c = comma \/ c = LF ->
  csv_run (double_quotes u +:+ String quote (String c s)) Quoted acc row rows = ends_field c s (acc +:+ u) row rows.
Proof.
  intros Hc. revert acc. induction u as [|a u IH]; intros acc.
  - rw sapp_nil_r. by destruct Hc as [-> | ->].
  - cbn [double_quotes]. destruct (Ascii.eqb_spec a quote) as [->|Hne].
    + rw !sapp_cons. cbn [csv_run]. rw Ascii.eqb_refl. rw IH. by rw sapp_assoc.
    + rw sapp_cons. cbn [csv_run]. rw (proj2 (Ascii.eqb_neq _ _) Hne). rw IH. by rw sapp_assoc.
Qed.

Lemma run_field c f s row rows :
  c = comma \/ c = LF -> csv_run (csv_field f +:+ String c s) FieldStart "" row rows = ends_field c s f row rows.
Proof.
  intros Hc. unfold csv_field. destruct (fieldNeedsQuotes f) eqn:Eq.
  - rw sapp_cons sapp_assoc !sapp_cons sapp_nil_l. cbn [csv_run]. rw Ascii.eqb_refl. by rw run_quoted.
  - unfold fieldNeedsQuotes in Eq. destruct f as [|a f]; [by destruct Hc as [-> | ->]|].
    rw bool_decide_eq_false_2 // in Eq. case_bool_decide; [done|]. apply orb_false_iff in Eq as [Eq _].
    apply negb_false_iff in Eq. cbn in Eq. apply andb_true_iff in Eq as [Ea Ef]. apply negb_true_iff in Ea.
    unfold special in Ea. rw !orb_false_iff in Ea. destruct Ea as [[[El _] Eq] Ec].
    rw sapp_cons. cbn [csv_run]. rw El Eq Ec. by rw run_plain.
Qed.

Lemma run_line r s row rows :
  r <> [] -> csv_run (csv_line r +:+ s) FieldStart "" row rows = csv_run s FieldStart "" [] (rows ++ [row ++ r]).
Proof.
  intros Hr. revert row. induction r as [|f r IH]; intros row; [done|]. destruct r as [|f' r].
  - unfold csv_line. cbn. rw sapp_assoc sapp_cons sapp_nil_l run_field; [by right|]. done.
  - assert (E : csv_line (f :: f' :: r) +:+ s = csv_field f +:+ String comma (csv_line (f' :: r) +:+ s)).
    { unfold csv_line. cbn [map]. change (Join (?x :: ?y :: ?l) comma) with (x +:+ String comma (Join (y :: l) comma)).
      by repeat (rw sapp_assoc || rw sapp_cons). }
    rw E run_field; [by left|]. unfold ends_field. rw Ascii.eqb_refl IH //. by rw -app_assoc.
Qed.

Lemma csv_parse_text records : Forall (fun r => r <> []) records -> csv_parse (csv_text records) = Some records.
Proof.
  intros Hr. unfold csv_parse. assert (Hg : forall rows,
    csv_run (csv_text records) FieldStart "" [] rows = Some (rows ++ records)); [|exact (Hg [])].
  induction Hr as [|r records Hr _ IH]; intros rows; cbn [csv_text foldr].
  - cbn. by rw app_nil_r.
  - rw run_line //. cbn. unfold csv_text in IH. rw IH. by rw -app_assoc.
Qed.

Example csv1 : csv_line ["a"; "b,c"; ""; String quote "x"; " y"] =
  "a," +:+ String quote ("b,c" +:+ String quote (",," +:+ String quote (String quote (String quote ("x" +:+ String quote ("," +:+ String quote (" y" +:+ String quote (String LF "")))))))).
Proof. reflexivity. Qed.

(** ** Numerals *)

Lemma pretty_go_digits x s : all_bytes is_digit s = true -> all_bytes is_digit (pretty_N_go x s) = true.
Proof.
  revert s. induction (N.lt_wf_0 x) as [x _ IH]; intros s Hs.
  destruct (decide (x = 0%N)) as [->|Hx]; [by rw pretty_N_go_0|].
  rw pretty_N_go_step; [lia|]. apply IH; [apply N.div_lt; lia|]. cbn. rw Hs andb_true_r.
  pose proof (N.mod_lt x 10 ltac:(lia)) as Hm. revert Hm. generalize (x mod 10)%N.
  apply (N_below 10). by repeat constructor.
Qed.

(** A natural number is written with digits. *)
Lemma Itoa_digits n : (0 <= n)%Z -> all_bytes is_digit (Itoa n) = true /\ Itoa n <> "".
Proof.
  intros Hn. unfold Itoa, pretty, pretty_Z. destruct n as [|p|p]; [done| |lia].
  change (pretty p) with (pretty_N_go (N.pos p) ""). split; [by apply pretty_go_digits|].
  rw pretty_N_go_step; [lia|]. intros E.
  assert (Hl : forall x s, (String.length s <= String.length (pretty_N_go x s))%nat).
  { intros x. induction (N.lt_wf_0 x) as [x _ IH]; intros s.
    destruct (decide (x = 0%N)) as [->|Hx]; [by rw pretty_N_go_0|]. rw pretty_N_go_step; [lia|].
    pose proof (IH (x `div` 10)%N ltac:(apply N.div_lt; lia) (String (pretty_N_char (x `mod` 10)) s)). cbn in *. lia. }
  pose proof (Hl (N.pos p `div` 10)%N (String (pretty_N_char (N.pos p `mod` 10)) "")) as Hlen. rw E in Hlen. cbn in Hlen. lia.
Qed.

Lemma ends_with_app s t c : t <> "" -> ends_with (s +:+ t) c = ends_with t c.
Proof.
  intros Ht. induction s as [|a s IH]; [by rw sapp_nil_l|]. rw sapp_cons. cbn.
  destruct (s +:+ t) eqn:E; [|done]. apply sapp_eq_nil in E as [_ ->]. done.
Qed.

Lemma ends_with_all p s c : all_bytes p s = true -> p c = false -> ends_with s c = false.
Proof.
  intros Hs Hc. induction s as [|a s IH]; [done|]. cbn in Hs. apply andb_true_iff in Hs as [Ha Hs]. cbn.
  destruct s; [|by apply IH]. apply Ascii.eqb_neq. intros ->. congruence.
Qed.

(** ** Files *)

(** The effects on the file system: contents by path. *)
Abbreviation files := (gmap string string).

Inductive fs_op :=
| CreateFile (path : string)
| WriteFile (path data : string)
| RenameFile (from to : string)
| RemoveFile (path : string).

Definition fs_apply (f : files) (op : fs_op) : files :=
  match op with
  | CreateFile path => <[path := ""]> f
  | WriteFile path data => alter (fun c => c +:+ data) path f
  | RenameFile from to => match f !! from with Some c => <[to := c]> (delete from f) | None => f end
  | RemoveFile path => delete path f
  end.

Definition fs_run (f : files) (ops : list fs_op) : files := foldl fs_apply f ops.

(** A path is written by an operation. *)
Definition touches (path : string) (op : fs_op) : Prop :=
  match op with
  | CreateFile p | WriteFile p _ | RemoveFile p => p = path
  | RenameFile from to => from = path \/ to = path
  end.

Lemma fs_run_other f ops path : Forall (fun op => ~ touches path op) ops -> fs_run f ops !! path = f !! path.
Proof.
  intros Ho. revert f. induction Ho as [|op ops Hop _ IH]; intros f; [done|]. cbn. unfold fs_run in IH. rw IH.
  destruct op as [p|p data|from to|p]; cbn in *.
  - by rw lookup_insert_ne.
  - by rw lookup_alter_ne.
  - destruct (f !! from); [|done]. rw lookup_insert_ne; [by auto|]. rw lookup_delete_ne; by auto.
  - by rw lookup_delete_ne.
Qed.
