(* ===== verification/GoURL.v ===== *)
(** Path escaping of net/url: how a decoded path is written on the wire and read
    back.

    [escape], [unescape], [validEncoded] and [EscapedPath] are the functions of
    the same names of net/url, for the path encoding.  The lemmas say that what
    [EscapedPath] writes always decodes to the path. *)
From Stdlib Require Import Ascii ZArith Lia.
From Corelib Require Import ssreflect.
From stdpp Require Import base gmap strings list numbers pretty.
From S2P Require Import Prelude GoStrings GoEncoding GoNet.

#[local] Open Scope Z_scope.

Definition hex_digit_upper (n : N) : ascii := ascii_of_N (if n <? 10 then 48 + n else 55 + n)%N.

(** The digits a percent sign may introduce, of either case. *)
Definition unhex (a : ascii) : option N :=
  let n := byte_val a in
  if is_digit a then Some (n - 48)%N
  else if ((97 <=? n) && (n <=? 102))%N then Some (n - 87)%N
  else if ((65 <=? n) && (n <=? 70))%N then Some (n - 55)%N
  else None.

(** shouldEscape(c, encodePath). *)
Definition shouldEscape (a : ascii) : bool :=
  if is_lower a || is_upper a || is_digit a then false
  else negb (has_byte a "-_.~$&+,/:;=@").

Definition percent : ascii := "%"%char.

(** escape(s, encodePath). *)
Fixpoint path_escape (s : string) : string :=
  match s with
  | EmptyString => EmptyString
  | String a s' =>
    if shouldEscape a then
      String percent (String (hex_digit_upper (byte_val a / 16)%N)
        (String (hex_digit_upper (byte_val a mod 16)%N) (path_escape s')))
    else String a (path_escape s')
  end.

(** unescape(s, encodePath); [None] is an EscapeError. *)
Fixpoint path_unescape (s : string) : option string :=
  match s with
  | EmptyString => Some EmptyString
  | String a s' =>
    if Ascii.eqb a percent then
      match s' with
      | String x (String y s'') =>
        match unhex x, unhex y with
        | Some hi, Some lo => String (ascii_of_N (hi * 16 + lo)%N) <$> path_unescape s''
        | _, _ => None
        end
      | _ => None
      end
    else String a <$> path_unescape s'
  end.

(** validEncoded(s, encodePath). *)
Definition validEncoded (s : string) : bool :=
  all_bytes (fun a => has_byte a "!$&'()*+,;=:@[]%" || negb (shouldEscape a)) s.

(** [URL.EscapedPath] for a URL with these two fields. *)
Definition EscapedPath (Path RawPath : string) : string :=
  if bool_decide (RawPath <> "") && validEncoded RawPath && bool_decide (path_unescape RawPath = Some Path)
  then RawPath
  else if bool_decide (Path = "*") then "*"
  else path_escape Path.

(** ** Lemmas *)

Lemma unhex_digit n : (n < 16)%N -> unhex (hex_digit_upper n) = Some n.
Proof.
  intros Hn. pose (P n := bool_decide (unhex (hex_digit_upper n) = Some n)).
  apply (bool_decide_eq_true_1 (unhex (hex_digit_upper n) = Some n)).
  change (P n = true). by apply (below_16 P).
Qed.

Lemma unescape_percent a s :
  path_unescape (String percent (String (hex_digit_upper (byte_val a / 16)%N)
    (String (hex_digit_upper (byte_val a mod 16)%N) s))) = String a <$> path_unescape s.
Proof.
  cbn [path_unescape]. rw Ascii.eqb_refl. pose proof (byte_val_lt a).
  rw !unhex_digit; [apply N.Div0.div_lt_upper_bound; lia|apply N.mod_lt; lia|].
  by rw unpack_div of_byte_val.
Qed.

Lemma shouldEscape_percent : shouldEscape percent = true.
Proof. reflexivity. Qed.

Lemma unescape_escape s : path_unescape (path_escape s) = Some s.
Proof.
  induction s as [|a s IH]; [done|]. cbn [path_escape]. destruct (shouldEscape a) eqn:E.
  - by rw unescape_percent IH.
  - cbn [path_unescape]. destruct (Ascii.eqb_spec a percent) as [->|]; [by rw shouldEscape_percent in E|].
    by rw IH.
Qed.

(** Whatever form [EscapedPath] chooses, it decodes to the path. *)
Lemma EscapedPath_decodes Path RawPath : path_unescape (EscapedPath Path RawPath) = Some Path.
Proof.
  unfold EscapedPath. destruct (_ && _) eqn:E.
  - by apply andb_true_iff in E as [_ E%bool_decide_eq_true_1].
  - clear E. case_bool_decide as Hs; [by rw Hs|]. apply unescape_escape.
Qed.

Lemma unescape_empty s : path_unescape s = Some "" -> s = "".
Proof.
  destruct s as [|a s]; [done|]. cbn. destruct (Ascii.eqb a percent).
  - destruct s as [|b [|d s]]; [done..|]. destruct (unhex b), (unhex d); try done. by destruct (path_unescape s).
  - by destruct (path_unescape s).
Qed.

Lemma EscapedPath_nonempty Path RawPath : Path <> "" -> EscapedPath Path RawPath <> "".
Proof.
  intros H E. pose proof (EscapedPath_decodes Path RawPath) as D. rw E in D. cbn in D. congruence.
Qed.

Lemma EscapedPath_plain s : all_bytes (fun a => negb (shouldEscape a)) s = true ->
  EscapedPath s "" = s.
Proof.
  intros Hs. unfold EscapedPath. rw bool_decide_eq_false_2; [by intros []|]. cbn [andb].
  case_bool_decide as E; [by rw E|]. clear E. induction s as [|a s IH]; [done|].
  cbn in Hs |- *. apply andb_true_iff in Hs as [Ha Hs]. apply negb_true_iff in Ha. rw Ha. by f_equal; apply IH.
Qed.

Example encoded_slash_kept : EscapedPath "/a/b" "/a%2Fb" = "/a%2Fb".
Proof. reflexivity. Qed.
Example encoded_slash_lost : EscapedPath "/b/c" "/a/b%2Fc" = "/b/c".
Proof. reflexivity. Qed.
