(* ===== verification/Events.v ===== *)
(** The access event of internal/platform/events/gateway_access.go: its data and
    the validation both ends of the Kafka topic apply. *)
From Stdlib Require Import Ascii ZArith Lia.
From Corelib Require Import ssreflect.
From stdpp Require Import base strings list numbers pretty.
From S2P Require Import Prelude GoStrings GoTime GoEncoding.

#[local] Open Scope Z_scope.

(** ** Definitions *)

Definition GatewayAccessEventType : string := "gateway.access".
Definition GatewayAccessEventSchemaVersion : Z := 1.
Definition ClientTypeAPIKey : string := "api_key".
Definition ClientTypeIP : string := "ip".

Record GatewayAccessEvent := mkEvent {
  ev_SchemaVersion : Z;
  ev_EventID : string;
  ev_OccurredAt : Z;
  ev_RequestID : string;
  ev_ProjectID : string;
  ev_RouteName : string;
  ev_RoutePathPrefix : string;
  ev_Method : string;
  ev_RequestPath : string;
  ev_StatusCode : Z;
  ev_DurationMS : Z;
  ev_ResponseBytes : Z;
  ev_ClientType : string;
  ev_ClientID : string;
  ev_AuthRequired : bool;
  ev_RateLimitEnabled : bool;
  ev_RateLimited : bool
}.

Definition dash : ascii := "-"%char.

(** The index tests of a UUID in its canonical form. *)
Definition uuid_dashes (value : string) : bool :=
  byte_is value 8 dash && byte_is value 13 dash && byte_is value 18 dash && byte_is value 23 dash.

Definition isCanonicalUUID (value : string) : bool :=
  if negb (len value =? 36) || negb (uuid_dashes value) then false
  else
    let compact := remove_char dash value in
    if negb (len compact =? 32) then false
    else match hex_decode compact with Some _ => true | None => false end.

Definition event_Validate `{UnicodeTables} (e : GatewayAccessEvent) : res unit :=
  if negb (ev_SchemaVersion e =? GatewayAccessEventSchemaVersion) then
    Err (Opaque ("unsupported gateway access event schema version: " +:+ Itoa (ev_SchemaVersion e)))
  else if blank (ev_EventID e) then Err (Opaque "gateway access event id is required")
  else if IsZero (ev_OccurredAt e) then Err (Opaque "gateway access event occurred_at is required")
  else if blank (ev_RequestID e) then Err (Opaque "gateway access event request_id is required")
  else if negb (blank (ev_ProjectID e)) && negb (isCanonicalUUID (TrimSpace (ev_ProjectID e))) then
    Err (Opaque ("invalid gateway access event project_id: " +:+
                 strconv_Quote (TrimSpace (ev_ProjectID e))))
  else if blank (ev_Method e) then Err (Opaque "gateway access event method is required")
  else if blank (ev_RequestPath e) then Err (Opaque "gateway access event request_path is required")
  else if (ev_StatusCode e <? 100) || (599 <? ev_StatusCode e) then
    Err (Opaque ("invalid gateway access event status code: " +:+ Itoa (ev_StatusCode e)))
  else if ev_DurationMS e <? 0 then
    Err (Opaque "gateway access event duration must not be negative")
  else if ev_ResponseBytes e <? 0 then
    Err (Opaque "gateway access event response bytes must not be negative")
  else if negb (bool_decide (ev_ClientType e = ClientTypeAPIKey)) &&
          negb (bool_decide (ev_ClientType e = ClientTypeIP)) then
    Err (Opaque ("unsupported gateway access event client type: " +:+ strconv_Quote (ev_ClientType e)))
  else if blank (ev_ClientID e) then Err (Opaque "gateway access event client_id is required")
  else Ok tt.

(** ** Lemmas *)

(** The conjunction the validation decides. *)
Record event_valid (e : GatewayAccessEvent) : Prop := {
  va_version : ev_SchemaVersion e = GatewayAccessEventSchemaVersion;
  va_id : blank (ev_EventID e) = false;
  va_at : ev_OccurredAt e <> time_zero;
  va_request : blank (ev_RequestID e) = false;
  va_project : blank (ev_ProjectID e) = true \/ isCanonicalUUID (TrimSpace (ev_ProjectID e)) = true;
  va_method : blank (ev_Method e) = false;
  va_path : blank (ev_RequestPath e) = false;
  va_status : 100 <= ev_StatusCode e <= 599;
  va_duration : 0 <= ev_DurationMS e;
  va_bytes : 0 <= ev_ResponseBytes e;
  va_client_type : ev_ClientType e = ClientTypeAPIKey \/ ev_ClientType e = ClientTypeIP;
  va_client : blank (ev_ClientID e) = false;
}.

Lemma event_Validate_spec `{UnicodeTables} e : event_Validate e = Ok tt <-> event_valid e.
Proof.
  unfold event_Validate. split.
  - destruct (Z.eqb_spec (ev_SchemaVersion e) GatewayAccessEventSchemaVersion); [|done]; cbn [negb].
    destruct (blank (ev_EventID e)) eqn:?; [done|].
    destruct (Z.eqb_spec (ev_OccurredAt e) time_zero) as [E|?]; unfold IsZero.
    { by rw E. }
    rw (proj2 (Z.eqb_neq _ _)) //. destruct (blank (ev_RequestID e)) eqn:?; [done|].
    destruct (_ && _) eqn:Ep; [done|]. destruct (blank (ev_Method e)) eqn:?; [done|].
    destruct (blank (ev_RequestPath e)) eqn:?; [done|].
    destruct (Z.ltb_spec (ev_StatusCode e) 100); [done|].
    destruct (Z.ltb_spec 599 (ev_StatusCode e)); [done|]. cbn [orb].
    destruct (Z.ltb_spec (ev_DurationMS e) 0); [done|].
    destruct (Z.ltb_spec (ev_ResponseBytes e) 0); [done|].
    destruct (negb (bool_decide (ev_ClientType e = _)) && _) eqn:Ec; [done|].
    destruct (blank (ev_ClientID e)) eqn:?; [done|]. intros _. split; try done.
    + apply andb_false_iff in Ep as [?%negb_false_iff|?%negb_false_iff]; auto.
    + apply andb_false_iff in Ec as [?%negb_false_iff|?%negb_false_iff];
        [left|right]; by eapply bool_decide_eq_true_1.
  - intros []. rw va_version0 Z.eqb_refl va_id0 va_request0 va_method0 va_path0 va_client0.
    unfold IsZero. rw (proj2 (Z.eqb_neq _ _) va_at0) (proj2 (Z.ltb_ge _ _) va_duration0)
      (proj2 (Z.ltb_ge _ _) va_bytes0) (proj2 (Z.ltb_ge (ev_StatusCode e) 100)); [lia|].
    rw (proj2 (Z.ltb_ge 599 (ev_StatusCode e))); [lia|]. cbn [negb orb].
    replace (negb (blank (ev_ProjectID e)) && _) with false
      by (by destruct va_project0 as [-> | ->]; rw ?andb_false_r).
    replace (negb (bool_decide (ev_ClientType e = _)) && _) with false; [done|].
    by destruct va_client_type0 as [-> | ->].
Qed.

Lemma hex_blank s : s <> "" -> blank (hex_encode s) = false.
Proof.
  intros Hs. unfold blank. rw graphic_TrimSpace.
  { apply (all_bytes_impl token_byte); [apply token_graphic|apply hex_encode_token]. }
  apply bool_decide_eq_false_2. intros E. apply (f_equal String.length) in E.
  rw hex_encode_length in E. destruct s; [done|]. cbn in E. lia.
Qed.

(** A canonical UUID is a trimmed, non-blank string of 36 bytes. *)
Lemma isCanonicalUUID_len v : isCanonicalUUID v = true -> len v = 36.
Proof.
  unfold isCanonicalUUID. destruct (Z.eqb_spec (len v) 36); [done|]. done.
Qed.

Lemma hex_decode_token s t : hex_decode s = Some t -> all_bytes token_byte s = true.
Proof.
  remember (String.length s) as n eqn:Hn. revert s t Hn.
  induction n as [n IH] using lt_wf_ind. intros [|a [|b s]] t ->; [done..|]. cbn.
  destruct (hex_val a) eqn:Ea; [|done]. destruct (hex_val b) eqn:Eb; [|done].
  destruct (hex_decode s) eqn:Es; [|done]. intros _.
  assert (Ht : forall c x, hex_val c = Some x -> token_byte c = true).
  { intros c x. destruct c as [[] [] [] [] [] [] [] []]; vm_compute; congruence. }
  rw (Ht _ _ Ea) (Ht _ _ Eb) /=. eapply IH; [|done|done]. cbn. lia.
Qed.

Lemma remove_char_bytes p c s :
  p c = true -> all_bytes p (remove_char c s) = true -> all_bytes p s = true.
Proof.
  intros Hc. induction s as [|a s IH]; [done|]. cbn.
  destruct (Ascii.eqb_spec a c) as [->|]; cbn; [by rw Hc|].
  rw !andb_true_iff. intros [? ?]. auto.
Qed.

Lemma isCanonicalUUID_token v : isCanonicalUUID v = true -> all_bytes token_byte v = true.
Proof.
  unfold isCanonicalUUID. destruct (_ || _); [done|]. destruct (negb _); [done|].
  destruct (hex_decode _) eqn:E; [|done]. intros _.
  by apply (remove_char_bytes _ dash), (hex_decode_token _ _ E).
Qed.

Lemma isCanonicalUUID_trim v : isCanonicalUUID v = true -> TrimSpace v = v /\ v <> "".
Proof.
  intros H. split.
  - apply graphic_TrimSpace, (all_bytes_impl token_byte); [apply token_graphic|].
    by apply isCanonicalUUID_token.
  - intros ->. by apply isCanonicalUUID_len in H.
Qed.

Example uuid_ok : isCanonicalUUID "3f2504e0-4f89-11d3-9a0c-0305e82c3301" = true.
Proof. reflexivity. Qed.
Example uuid_bad : isCanonicalUUID "3f2504e04f89-11d3-9a0c-0305e82c33-01" = false.
Proof. reflexivity. Qed.
