(* ===== verification/GatewayRoutes.v ===== *)
(** The gateway's routes: internal/gateway/domain/route.go, the route resolution
    and snapshot refresh of internal/gateway/usecase, the in-memory repository of
    internal/gateway/infrastructure/memory with its slice aliasing, the refresh
    worker, the static YAML routes and the path joining of the proxy. *)
From Stdlib Require Import Ascii ZArith Lia.
From Corelib Require Import ssreflect.
From stdpp Require Import base gmap strings list numbers.
From S2P Require Import Prelude GoStrings GoTime.

#[local] Open Scope Z_scope.

(** ** Domain data (gateway/domain) *)

Record RateLimitPolicy := mkPolicy {
  rl_Enabled : bool;
  rl_Limit : Z;
  rl_Window : Z
}.

Record Route := mkRoute {
  rt_ProjectID : string;
  rt_Name : string;
  rt_PathPrefix : string;
  rt_UpstreamURL : string;
  rt_StripPrefix : bool;
  rt_Timeout : Z;
  rt_AuthRequired : bool;
  rt_RateLimit : RateLimitPolicy
}.

#[global] Instance RateLimitPolicy_eq_dec : EqDecision RateLimitPolicy.
Proof. solve_decision. Defined.
#[global] Instance Route_eq_dec : EqDecision Route.
Proof. solve_decision. Defined.

(** The zero values [RateLimitPolicy{}] and [Route{}]. *)
Definition zero_policy : RateLimitPolicy := mkPolicy false 0 0.
Definition zero_route : Route := mkRoute "" "" "" "" false 0 false zero_policy.

Definition ErrRouteNotFound : error := Sentinel "gateway/domain.ErrRouteNotFound" "route not found".

Definition slash : ascii := "/"%char.

Definition Matches (r : Route) (path : string) : bool :=
  if bool_decide (rt_PathPrefix r = "/") then true
  else
    let prefix := TrimRight (rt_PathPrefix r) slash in
    bool_decide (path = prefix) || HasPrefix path (prefix +:+ "/").

Definition UpstreamPath (r : Route) (originalPath : string) : string :=
  if negb (rt_StripPrefix r) then originalPath
  else
    let prefix := TrimRight (rt_PathPrefix r) slash in
    let path := TrimPrefix originalPath prefix in
    if bool_decide (path = "") then "/"
    else if negb (HasPrefix path "/") then "/" +:+ path
    else path.

(** ** The proxy's path join (gateway/infrastructure/proxy) *)

Definition joinPaths (a b : string) : string :=
  if bool_decide (a = "") then b
  else if bool_decide (b = "") then a
  else
    let aSlash := HasSuffix a "/" in
    let bSlash := HasPrefix b "/" in
    if aSlash && bSlash then a +:+ TrimPrefix b "/"
    else if negb aSlash && negb bSlash then a +:+ "/" +:+ b
    else a +:+ b.

(** ** Route resolution (gateway/usecase/resolve_route.go) *)

(** The loop of [ResolveRoute]: the state is [(matched, matchedLen)]. *)
Definition resolve_step (path : string) (st : Route * Z) (route : Route) : Route * Z :=
  if Matches route path && (st.2 <? len (rt_PathPrefix route))
  then (route, len (rt_PathPrefix route))
  else st.

Definition resolve_loop (path : string) (routes : list Route) : Route * Z :=
  fold_left (resolve_step path) routes (zero_route, -1).

Definition resolve_routes (routes : list Route) (path : string) : res Route :=
  let st := resolve_loop path routes in
  if st.2 =? -1 then Err ErrRouteNotFound else Ok st.1.

(** What the use case needs of the ports [RouteRepository] and [RouteSource]:
    a store whose listing returns the last snapshot put into it, and a source
    that may fail. *)
Class RouteRepository (W : Type) := {
  ListRoutes : W -> res (list Route) * W;
  ReplaceRoutes : list Route -> W -> W;
}.

Class RouteRepositoryLaws (W : Type) `{RouteRepository W} := {
  snapshot : W -> list Route;
  ListRoutes_snapshot w :
    (ListRoutes w).1 = Ok (snapshot w) /\ snapshot (ListRoutes w).2 = snapshot w;
  ReplaceRoutes_snapshot rs w : snapshot (ReplaceRoutes rs w) = rs;
}.

Definition ResolveRoute `{RouteRepository W} (path : string) (w : W) : res Route * W :=
  match ListRoutes w with
  | (Err e, w') => (Err e, w')
  | (Ok routes, w') => (resolve_routes routes path, w')
  end.

(** ** Snapshot refresh (gateway/usecase/refresh_routes.go) *)

Definition ErrRouteSourceNotConfigured : error :=
  Sentinel "gateway/usecase.ErrRouteSourceNotConfigured" "route source is not configured".

(** [routeSource] is [None] when the interface value is nil; the answer of its
    [ListRoutes] is the argument of [Some]. *)
Definition RefreshRoutes `{RouteRepository W}
    (routeSource : option (res (list Route))) (w : W) : res Z * W :=
  match routeSource with
  | None => (Err ErrRouteSourceNotConfigured, w)
  | Some (Err e) => (Err (wrapf "load route snapshot" e), w)
  | Some (Ok routes) => (Ok (Z.of_nat (length routes)), ReplaceRoutes routes w)
  end.

(** ** The refresh worker (gateway/worker/route_refresh.go) *)

(** What the [select] of [RunRoutesRefresh] receives: the cancelled context, or a
    tick, with the answer the source gives to the refresh of that tick and
    whether the context is cancelled when a failed refresh returns. *)
Inductive refresh_event :=
| CtxDone
| Tick (answer : res (list Route)) (cancelled : bool).

(** The log lines of the worker. *)
Inductive refresh_log :=
| LogWarn (e : error)
| LogRefreshed (count : Z).

(** The loop: it returns at [CtxDone]; a failed refresh is logged unless the
    context is cancelled, and the loop continues. *)
Fixpoint RunRoutesRefresh `{RouteRepository W} (evs : list refresh_event) (w : W)
    : list refresh_log * W :=
  match evs with
  | [] => ([], w)
  | CtxDone :: _ => ([], w)
  | Tick answer cancelled :: evs' =>
    match RefreshRoutes (Some answer) w with
    | (Err e, w') =>
      let '(logs, w'') := RunRoutesRefresh evs' w' in
      (if cancelled then logs else LogWarn e :: logs, w'')
    | (Ok count, w') =>
      let '(logs, w'') := RunRoutesRefresh evs' w' in
      (LogRefreshed count :: logs, w'')
    end
  end.

(** ** The in-memory repository (gateway/infrastructure/memory) *)

(** Slices are references to backing arrays, so that what a caller does to a
    slice it passed in or got back is visible: a slice is nil or a location, and
    the heap holds the array at each location. *)
Record mem_world := mkMem {
  mw_heap : gmap nat (list Route);
  mw_next : nat;
  mw_routes : option nat   (* RouteRepository.routes *)
}.

Definition contents (h : gmap nat (list Route)) (s : option nat) : list Route :=
  match s with
  | None => []
  | Some l => default [] (h !! l)
  end.

(** [make] followed by [copy], or nil for a nil slice. *)
Definition cloneRoutes (s : option nat) (w : mem_world) : option nat * mem_world :=
  match s with
  | None => (None, w)
  | Some _ =>
    (Some (mw_next w),
     mkMem (<[mw_next w := contents (mw_heap w) s]> (mw_heap w)) (S (mw_next w)) (mw_routes w))
  end.

Definition NewRouteRepository (s : option nat) (h : gmap nat (list Route)) (next : nat) : mem_world :=
  let '(s', w) := cloneRoutes s (mkMem h next None) in
  mkMem (mw_heap w) (mw_next w) s'.

Definition mem_ListRoutes (w : mem_world) : option nat * mem_world :=
  cloneRoutes (mw_routes w) w.

Definition mem_ReplaceRoutes (s : option nat) (w : mem_world) : mem_world :=
  let '(next, w') := cloneRoutes s w in
  mkMem (mw_heap w') (mw_next w') next.

(** The repository as the use case sees it: the caller of [ReplaceRoutes] passes
    a slice of its own making, and the result of [ListRoutes] is read at once. *)
Definition alloc_routes (rs : list Route) (w : mem_world) : option nat * mem_world :=
  (Some (mw_next w), mkMem (<[mw_next w := rs]> (mw_heap w)) (S (mw_next w)) (mw_routes w)).

#[global] Instance mem_repository : RouteRepository mem_world := {
  ListRoutes w := let '(s, w') := mem_ListRoutes w in (Ok (contents (mw_heap w') s), w');
  ReplaceRoutes rs w := let '(s, w') := alloc_routes rs w in mem_ReplaceRoutes s w';
}.

(** Programs over the repository: the caller keeps slices, numbered in the order
    it got them, and may overwrite elements of them; [None] is a Go panic. *)
Inductive mem_op :=
| OpNew (rs : list Route)              (* s := []Route{...} *)
| OpWrite (k i : nat) (r : Route)      (* s_k[i] = r *)
| OpReplace (k : nat)                  (* repo.ReplaceRoutes(s_k) *)
| OpList.                              (* s := repo.ListRoutes() *)

Definition mem_step (op : mem_op) (st : mem_world * list (option nat))
    : option (mem_world * list (option nat)) :=
  let '(w, held) := st in
  match op with
  | OpNew rs => let '(s, w') := alloc_routes rs w in Some (w', held ++ [s])
  | OpWrite k i r =>
    match held !! k with
    | Some (Some l) =>
      let v := contents (mw_heap w) (Some l) in
      if (i <? length v)%nat
      then Some (mkMem (<[l := <[i := r]> v]> (mw_heap w)) (mw_next w) (mw_routes w), held)
      else None
    | _ => None
    end
  | OpReplace k =>
    match held !! k with
    | Some s => Some (mem_ReplaceRoutes s w, held)
    | None => None
    end
  | OpList => let '(s, w') := mem_ListRoutes w in Some (w', held ++ [s])
  end.

(** The contract: every slice, and the repository's snapshot, is a value of its
    own.  The head of the list is the snapshot, the rest the caller's slices. *)
Definition spec_step (op : mem_op) (vs : list (list Route)) : option (list (list Route)) :=
  match op with
  | OpNew rs => Some (vs ++ [rs])
  | OpWrite k i r =>
    match vs !! S k with
    | Some v => if (i <? length v)%nat then Some (<[S k := <[i := r]> v]> vs) else None
    | None => None
    end
  | OpReplace k =>
    match vs !! S k with
    | Some v => Some (<[0%nat := v]> vs)
    | None => None
    end
  | OpList => match vs with v :: _ => Some (vs ++ [v]) | [] => None end
  end.

Definition mem_run (ops : list mem_op) (st : mem_world * list (option nat))
    : option (mem_world * list (option nat)) :=
  fold_left (fun o op => o ≫= mem_step op) ops (Some st).
Definition spec_run (ops : list mem_op) (vs : list (list Route)) : option (list (list Route)) :=
  fold_left (fun o op => o ≫= spec_step op) ops (Some vs).

(** The abstraction and the invariant: the slices alive are pairwise distinct
    allocated arrays. *)
Definition mem_slices (st : mem_world * list (option nat)) : list (option nat) :=
  mw_routes st.1 :: st.2.
Definition mem_abs (st : mem_world * list (option nat)) : list (list Route) :=
  contents (mw_heap st.1) <$> mem_slices st.
Record mem_inv (st : mem_world * list (option nat)) : Prop := {
  mi_alloc : forall i l, mem_slices st !! i = Some (Some l) ->
    (l < mw_next st.1)%nat /\ is_Some (mw_heap st.1 !! l);
  mi_sep : forall i j l, mem_slices st !! i = Some (Some l) ->
    mem_slices st !! j = Some (Some l) -> i = j;
}.

(** ** Lemmas on prefixes *)

(** A prefix as the control-plane client normalises it: "/" itself, or a path
    from the root without a trailing slash. *)
Definition normal_prefix (p : string) : Prop :=
  HasPrefix p "/" = true /\ (p = "/" \/ ends_with p slash = false).

Lemma normal_prefix_trim p :
  normal_prefix p -> p <> "/" -> TrimRight p slash = p.
Proof. intros [_ [?|H]] Hne; [done|]. by apply TrimRight_id. Qed.

Lemma Matches_root r path : rt_PathPrefix r = "/" -> Matches r path = true.
Proof. intros H. unfold Matches. by rw bool_decide_eq_true_2. Qed.

Lemma Matches_nonroot r path :
  rt_PathPrefix r <> "/" ->
  Matches r path = true <->
  path = TrimRight (rt_PathPrefix r) slash \/
  HasPrefix path (TrimRight (rt_PathPrefix r) slash +:+ "/") = true.
Proof.
  intros H. unfold Matches. rw bool_decide_eq_false_2 //.
  by rw orb_true_iff bool_decide_eq_true.
Qed.

Lemma Matches_extends r path :
  rt_PathPrefix r <> "/" -> Matches r path = true ->
  exists u, path = TrimRight (rt_PathPrefix r) slash +:+ u.
Proof.
  intros Hne. rw (Matches_nonroot _ _ Hne) HasPrefix_spec.
  intros [->|[t ->]]; [exists ""; by rw sapp_nil_r|]. rw sapp_assoc. eauto.
Qed.

(** Two routes with normalised prefixes of the same length that match one path
    have the same prefix. *)
Lemma Matches_same_length r1 r2 path :
  normal_prefix (rt_PathPrefix r1) -> normal_prefix (rt_PathPrefix r2) ->
  Matches r1 path = true -> Matches r2 path = true ->
  len (rt_PathPrefix r1) = len (rt_PathPrefix r2) ->
  rt_PathPrefix r1 = rt_PathPrefix r2.
Proof.
  assert (Hroot : forall p, normal_prefix p -> len p = 1 -> p = "/").
  { intros p [[t ->]%HasPrefix_char _]. unfold len. cbn.
    destruct t; [done|]. cbn. lia. }
  intros H1 H2 M1 M2 Hlen.
  destruct (decide (rt_PathPrefix r1 = "/")) as [E1|N1].
  { rw E1 in Hlen |- *. symmetry. apply Hroot; [done|]. symmetry. exact Hlen. }
  destruct (decide (rt_PathPrefix r2 = "/")) as [E2|N2].
  { rw E2 in Hlen |- *. apply Hroot; [done|]. exact Hlen. }
  apply Matches_extends in M1 as [u Hu]; [|done].
  apply Matches_extends in M2 as [v Hv]; [|done].
  rw normal_prefix_trim // in Hu. rw normal_prefix_trim // in Hv.
  eapply prefix_same_length; [exact Hu|exact Hv|]. unfold len in Hlen. lia.
Qed.

Lemma UpstreamPath_exact r path :
  rt_StripPrefix r = true -> path = TrimRight (rt_PathPrefix r) slash ->
  UpstreamPath r path = "/".
Proof.
  intros Hs H. unfold UpstreamPath. rw Hs. cbv zeta beta iota delta [negb].
  assert (TrimPrefix path (TrimRight (rt_PathPrefix r) slash) = "") as ->; [|done].
  rw -H -{1}(sapp_nil_r path). apply TrimPrefix_app.
Qed.

Lemma UpstreamPath_below r path t :
  rt_StripPrefix r = true -> path = TrimRight (rt_PathPrefix r) slash +:+ String slash t ->
  UpstreamPath r path = String slash t.
Proof.
  intros Hs ->. unfold UpstreamPath. rw Hs. cbv zeta beta iota delta [negb].
  by rw TrimPrefix_app.
Qed.

(** ** Lemmas on resolution *)

Lemma resolve_loop_snoc path routes r :
  resolve_loop path (routes ++ [r]) = resolve_step path (resolve_loop path routes) r.
Proof. unfold resolve_loop. by rw fold_left_app. Qed.

(** What the loop state records of the routes scanned so far. *)
Definition best_match (path : string) (routes : list Route) (st : Route * Z) : Prop :=
  (st = (zero_route, -1) /\ forall r, r ∈ routes -> Matches r path = false) \/
  (exists l1 l2, routes = l1 ++ st.1 :: l2 /\ Matches st.1 path = true /\
     st.2 = len (rt_PathPrefix st.1) /\
     (forall r, r ∈ l1 -> Matches r path = true -> len (rt_PathPrefix r) < st.2) /\
     (forall r, r ∈ l2 -> Matches r path = true -> len (rt_PathPrefix r) <= st.2)).

Lemma resolve_loop_best path routes : best_match path routes (resolve_loop path routes).
Proof.
  induction routes as [|r routes IH] using rev_ind.
  { left. split; [done|]. intros r Hr. by apply elem_of_nil in Hr. }
  rw resolve_loop_snoc. unfold resolve_step.
  generalize dependent (resolve_loop path routes). intros st IH.
  destruct (Matches r path) eqn:M; cbn [andb].
  2: { destruct IH as [[-> Hn]|(l1 & l2 & -> & H1 & H2 & H3 & H4)]; [left|right].
       - split; [done|]. by intros r' [?| ->%list_elem_of_singleton]%elem_of_app; [apply Hn|].
       - exists l1, (l2 ++ [r]). rw -app_assoc. do 4 (split; [done|]).
         by intros r' [?| ->%list_elem_of_singleton]%elem_of_app; [apply H4|rw M]. }
  destruct (Z.ltb_spec st.2 (len (rt_PathPrefix r))) as [Hlt|Hge].
  - right. exists routes, []. cbn. do 3 (split; [done|]). split; [|intros ? ?%elem_of_nil; done].
    intros r' Hr' Mr'. destruct IH as [[E Hn]|(l1 & l2 & -> & H1 & H2 & H3 & H4)].
    + rw Hn // in Mr'.
    + apply elem_of_app in Hr' as [Hr'|[->|Hr']%elem_of_cons]; [..|].
      * specialize (H3 _ Hr' Mr'). lia.
      * lia.
      * specialize (H4 _ Hr' Mr'). lia.
  - destruct IH as [[E Hn]|(l1 & l2 & E & H1 & H2 & H3 & H4)].
    + rw E in Hge. pose proof (len_nonneg (rt_PathPrefix r)). cbn in Hge. lia.
    + right. exists l1, (l2 ++ [r]). rw E -app_assoc. do 4 (split; [done|]).
      intros r'. rw elem_of_app list_elem_of_singleton. intros [?| ->] ?; [by apply H4|lia].
Qed.

Lemma resolve_routes_Ok path routes r :
  resolve_routes routes path = Ok r ->
  exists l1 l2, routes = l1 ++ r :: l2 /\ Matches r path = true /\
    (forall r', r' ∈ l1 -> Matches r' path = true -> len (rt_PathPrefix r') < len (rt_PathPrefix r)) /\
    (forall r', r' ∈ l2 -> Matches r' path = true -> len (rt_PathPrefix r') <= len (rt_PathPrefix r)).
Proof.
  unfold resolve_routes. destruct (resolve_loop_best path routes)
    as [[E _]|(l1 & l2 & E & H1 & H2 & H3 & H4)].
  - by rw E.
  - case_match; [done|]. intros [= <-]. exists l1, l2. by rw -H2.
Qed.

Lemma resolve_routes_Err path routes e :
  resolve_routes routes path = Err e ->
  e = ErrRouteNotFound /\ forall r, r ∈ routes -> Matches r path = false.
Proof.
  unfold resolve_routes. destruct (resolve_loop_best path routes)
    as [[E Hn]|(l1 & l2 & E & H1 & H2 & H3 & H4)].
  - rw E. cbn. by intros [= <-].
  - destruct (Z.eqb_spec (resolve_loop path routes).2 (-1)) as [Heq|]; [|done].
    pose proof (len_nonneg (rt_PathPrefix (resolve_loop path routes).1)). lia.
Qed.

(** The result of the scan is the only matching route of maximal length when the
    prefixes are normalised and distinct. *)
Lemma resolve_routes_longest path routes r :
  resolve_routes routes path = Ok r ->
  r ∈ routes /\ Matches r path = true /\
  forall r', r' ∈ routes -> Matches r' path = true -> len (rt_PathPrefix r') <= len (rt_PathPrefix r).
Proof.
  intros (l1 & l2 & -> & M & H1 & H2)%resolve_routes_Ok.
  split; [set_solver|]. split; [done|].
  intros r' [Hr|[->|Hr]%elem_of_cons]%elem_of_app Mr; [|lia|by apply H2].
  specialize (H1 _ Hr Mr). lia.
Qed.

Definition distinct_prefixes (routes : list Route) : Prop :=
  NoDup (rt_PathPrefix <$> routes) /\ Forall (fun r => normal_prefix (rt_PathPrefix r)) routes.

Lemma distinct_prefixes_inj routes r1 r2 :
  distinct_prefixes routes -> r1 ∈ routes -> r2 ∈ routes ->
  rt_PathPrefix r1 = rt_PathPrefix r2 -> r1 = r2.
Proof.
  intros [Hnd _] H1 H2 E.
  apply list_elem_of_lookup in H1 as [i Hi]. apply list_elem_of_lookup in H2 as [j Hj].
  assert (i = j) as ->.
  { eapply NoDup_lookup; [exact Hnd|..]; rw list_lookup_fmap; [by rw Hi|by rw Hj /= E]. }
  congruence.
Qed.

(** The answer depends only on which matching route has the longest prefix. *)
Lemma resolve_routes_unique path routes r :
  distinct_prefixes routes -> r ∈ routes -> Matches r path = true ->
  (forall r', r' ∈ routes -> Matches r' path = true -> len (rt_PathPrefix r') <= len (rt_PathPrefix r)) ->
  resolve_routes routes path = Ok r.
Proof.
  intros Hd Hr M Hmax. destruct (resolve_routes routes path) as [r'|e] eqn:E.
  - apply resolve_routes_longest in E as (Hr' & M' & Hmax').
    assert (Hlen : len (rt_PathPrefix r') = len (rt_PathPrefix r)).
    { specialize (Hmax _ Hr' M'). specialize (Hmax' _ Hr M). lia. }
    f_equal. apply (distinct_prefixes_inj routes); [exact Hd|exact Hr'|exact Hr|].
    destruct Hd as [_ Hn]. rw list.Forall_forall in Hn.
    apply (Matches_same_length _ _ path); auto.
  - apply resolve_routes_Err in E as [_ Hn]. rw Hn // in M.
Qed.

Lemma distinct_prefixes_perm routes routes' :
  routes ≡ₚ routes' -> distinct_prefixes routes -> distinct_prefixes routes'.
Proof. intros Hp [H1 H2]. split; by rw -Hp. Qed.

(** ** Lemmas on the repository *)

Lemma mem_cloneRoutes_contents s w :
  contents (mw_heap (cloneRoutes s w).2) (cloneRoutes s w).1 = contents (mw_heap w) s.
Proof. destruct s as [l|]; cbn; [|done]. by rw lookup_insert_eq. Qed.

(** A location below the allocation pointer keeps its contents. *)
Lemma contents_alloc h n l v : (l < n)%nat -> contents (<[n := v]> h) (Some l) = contents h (Some l).
Proof. intros H. cbn. rw lookup_insert_ne; [lia|done]. Qed.

Lemma mem_abs_alloc st v :
  mem_inv st ->
  contents (<[mw_next st.1 := v]> (mw_heap st.1)) <$> mem_slices st = mem_abs st.
Proof.
  intros Hi. unfold mem_abs. apply list_eq. intros i. rw !list_lookup_fmap.
  destruct (mem_slices st !! i) as [[l|]|] eqn:E; [|done..]. cbn.
  destruct (mi_alloc _ Hi _ _ E) as [Hl _]. rw lookup_insert_ne; [lia|done].
Qed.

(** Adding a freshly allocated slice keeps the invariant. *)
Lemma mem_inv_alloc w held v :
  mem_inv (w, held) ->
  mem_inv (mkMem (<[mw_next w := v]> (mw_heap w)) (S (mw_next w)) (mw_routes w),
           held ++ [Some (mw_next w)]).
Proof.
  intros [Ha Hs].
  assert (Hold : forall i l, (mem_slices (w, held) ++ [Some (mw_next w)]) !! i = Some (Some l) ->
    (mem_slices (w, held) !! i = Some (Some l) /\ (l < mw_next w)%nat) \/
    (i = length (mem_slices (w, held)) /\ l = mw_next w)).
  { intros i l [H|[H1 H2]]%lookup_app_Some; [left|right].
    - split; [done|]. by apply (Ha _ _ H).
    - apply list_lookup_singleton_Some in H2 as [? [= <-]]. split; [lia|done]. }
  split; cbn.
  - intros i l [[H Hl]|[-> ->]]%Hold; [|rw lookup_insert_eq; split; [lia|eauto]].
    destruct (Ha _ _ H) as [? ?]. rw lookup_insert_ne; [lia|]. by split; [lia|].
  - intros i j l [[Hi ?]|[-> ->]]%Hold [[Hj ?]|[-> ?]]%Hold; [by eapply Hs|lia..].
Qed.

Lemma mem_inv_nil w held : mem_inv (w, held) -> mem_inv (w, held ++ [None]).
Proof.
  intros [Ha Hs].
  assert (Hold : forall i l, (mem_slices (w, held) ++ [None]) !! i = Some (Some l) ->
    mem_slices (w, held) !! i = Some (Some l)).
  { by intros i l [H|[H1 [? [=]]%list_lookup_singleton_Some]]%lookup_app_Some. }
  split; cbn; intros; eauto using Hold.
Qed.

(** Overwriting an array through one slice changes the value of that slice only. *)
Lemma mem_abs_write st k l v :
  mem_inv st -> mem_slices st !! k = Some (Some l) ->
  contents (<[l := v]> (mw_heap st.1)) <$> mem_slices st = <[k := v]> (mem_abs st).
Proof.
  intros Hi Hk. unfold mem_abs. apply list_eq. intros i. rw list_lookup_fmap.
  destruct (decide (i = k)) as [->|Hne].
  - rw list_lookup_insert_eq; [rw length_fmap; by eapply lookup_lt_Some|].
    rw Hk. cbn. by rw lookup_insert_eq.
  - rw list_lookup_insert_ne // list_lookup_fmap.
    destruct (mem_slices st !! i) as [[l'|]|] eqn:E; [|done..]. cbn.
    rw lookup_insert_ne; [|done]. intros ->. apply Hne. by eapply (mi_sep _ Hi).
Qed.

Lemma mem_abs_snoc w held s :
  mem_abs (w, held ++ [s]) = mem_abs (w, held) ++ [contents (mw_heap w) s].
Proof. unfold mem_abs, mem_slices. cbn. by rw fmap_app. Qed.

Lemma mem_abs_held w held k :
  mem_abs (w, held) !! S k = contents (mw_heap w) <$> held !! k.
Proof. unfold mem_abs, mem_slices. cbn. by rw list_lookup_fmap. Qed.

(** Allocating a fresh slice extends the abstract state by its value. *)
Lemma mem_alloc_sim w held v :
  mem_inv (w, held) ->
  mem_abs (mkMem (<[mw_next w := v]> (mw_heap w)) (S (mw_next w)) (mw_routes w),
           held ++ [Some (mw_next w)]) = mem_abs (w, held) ++ [v].
Proof.
  intros Hi. rw mem_abs_snoc. f_equal.
  - exact (mem_abs_alloc (w, held) v Hi).
  - cbn. by rw lookup_insert_eq.
Qed.

(** Replacing the repository's slice by a clone changes the snapshot only. *)
Lemma mem_replace_sim w held s :
  mem_inv (w, held) ->
  mem_abs (mem_ReplaceRoutes s w, held) = <[0%nat := contents (mw_heap w) s]> (mem_abs (w, held)) /\
  mem_inv (mem_ReplaceRoutes s w, held).
Proof.
  intros Hi. unfold mem_ReplaceRoutes. destruct s as [l|]; cbn.
  - pose proof (mem_abs_alloc (w, held) (contents (mw_heap w) (Some l)) Hi) as Ha.
    pose proof (mem_inv_alloc w held (contents (mw_heap w) (Some l)) Hi) as [Ia Is].
    split.
    + unfold mem_abs, mem_slices in Ha |- *. cbn in Ha |- *. injection Ha as _ ->.
      by rw lookup_insert_eq.
    + split.
      * intros [|i] l'; [intros [= <-]; cbn; split; [lia|]; rw lookup_insert_eq; eauto|].
        intros H. apply (Ia (S i)). cbn in H |- *. by apply lookup_app_l_Some.
      * assert (Hnew : forall i, held !! i <> Some (Some (mw_next w))).
        { intros i H. destruct (mi_alloc _ Hi (S i) _ H) as [? _]. cbn in *. lia. }
        intros [|i] [|j] l'; [done|intros [= <-] H; by apply Hnew in H
                             |intros H [= <-]; by apply Hnew in H|].
        intros H1 H2. exact (mi_sep _ Hi (S i) (S j) l' H1 H2).
  - split; [done|]. split.
    + intros [|i] l' H; [done|]. exact (mi_alloc _ Hi (S i) l' H).
    + intros [|i] [|j] l' H1 H2; [done..|]. exact (mi_sep _ Hi (S i) (S j) l' H1 H2).
Qed.

(** One step of the concrete repository against one step of the contract. *)
Lemma mem_step_sim op st :
  mem_inv st ->
  match mem_step op st with
  | Some st' => mem_inv st' /\ spec_step op (mem_abs st) = Some (mem_abs st')
  | None => spec_step op (mem_abs st) = None
  end.
Proof.
  destruct st as [w held]. intros Hi. destruct op as [rs|k i r|k|]; cbn [mem_step spec_step].
  - split; [by apply mem_inv_alloc|]. by rw mem_alloc_sim.
  - rw mem_abs_held. destruct (held !! k) as [[l|]|] eqn:E; [|by destruct i|done].
    change (contents (mw_heap w) <$> Some (Some l)) with (Some (contents (mw_heap w) (Some l))).
    cbv beta iota. destruct (i <? _)%nat; [|done]. split; [|f_equal].
    + destruct Hi as [Ha Hs]. split; [|exact Hs]. cbn. intros j l' H'.
      destruct (Ha j l' H') as [? ?]. split; [done|]. rw lookup_insert.
      by case_decide; eauto.
    + symmetry. exact (mem_abs_write (w, held) (S k) l _ Hi E).
  - rw mem_abs_held. destruct (held !! k) as [s|] eqn:E; [|done].
    destruct (mem_replace_sim w held s Hi) as [-> ?]. by split.
  - unfold mem_ListRoutes. destruct w as [h n [l|]]; cbn -[mem_abs].
    + split; [exact (mem_inv_alloc (mkMem h n (Some l)) held _ Hi)|].
      by rw (mem_alloc_sim (mkMem h n (Some l)) held _ Hi).
    + split; [by apply mem_inv_nil|]. by rw mem_abs_snoc.
Qed.

Lemma mem_run_snoc ops op st : mem_run (ops ++ [op]) st = mem_run ops st ≫= mem_step op.
Proof. unfold mem_run. by rw fold_left_app. Qed.
Lemma spec_run_snoc ops op vs : spec_run (ops ++ [op]) vs = spec_run ops vs ≫= spec_step op.
Proof. unfold spec_run. by rw fold_left_app. Qed.

#[global] Instance mem_repository_laws : RouteRepositoryLaws mem_world.
Proof.
  refine {| snapshot w := contents (mw_heap w) (mw_routes w) |}.
  - intros [h n [l|]]; cbn; [|done]. rw lookup_insert_eq. split; [done|].
    rw lookup_insert. by case_decide.
  - intros rs [h n s]. cbn. by rw !lookup_insert_eq.
Defined.

(** ** Lemmas on the worker *)

(** The snapshots a run of the worker installs, in order. *)
Fixpoint served (evs : list refresh_event) : list (list Route) :=
  match evs with
  | [] | CtxDone :: _ => []
  | Tick (Ok rs) _ :: evs' => rs :: served evs'
  | Tick (Err _) _ :: evs' => served evs'
  end.

(** ** Properties *)

(** C1: [ResolveRoute] returns a route of the snapshot that matches the path and
    has the longest prefix among those that match, the first of them in snapshot
    order, and fails with [ErrRouteNotFound] exactly when no route matches; the
    snapshot itself is left alone. *)
Theorem ResolveRoute_longest_prefix `{RouteRepositoryLaws W} (path : string) (w : W) :
  let '(result, w') := ResolveRoute path w in
  snapshot w' = snapshot w /\
  match result with
  | Ok r =>
    exists before after, snapshot w = before ++ r :: after /\ Matches r path = true /\
      (forall r', r' ∈ snapshot w -> Matches r' path = true ->
         len (rt_PathPrefix r') <= len (rt_PathPrefix r)) /\
      (forall r', r' ∈ before -> Matches r' path = true ->
         len (rt_PathPrefix r') < len (rt_PathPrefix r))
  | Err e => e = ErrRouteNotFound /\ forall r, r ∈ snapshot w -> Matches r path = false
  end.
Proof.
  unfold ResolveRoute. destruct (ListRoutes_snapshot w) as [H1 H2].
  destruct (ListRoutes w) as [o w']. cbn in H1, H2. subst o. split; [done|].
  destruct (resolve_routes (snapshot w) path) as [r|e] eqn:E.
  - destruct (resolve_routes_Ok _ _ _ E) as (l1 & l2 & Hs & M & Hl & _).
    destruct (resolve_routes_longest _ _ _ E) as (_ & _ & Hmax). by exists l1, l2.
  - by apply resolve_routes_Err.
Qed.

Definition sample_route (name prefix : string) : Route :=
  mkRoute "project-1" name prefix "http://upstream" true (3 * Second) false zero_policy.

(** C1 at the snapshot of the repository's own test: the longest of three nested
    prefixes wins. *)
Lemma ResolveRoute_longest_prefix_witness :
  let w := ReplaceRoutes [sample_route "api" "/api"; sample_route "api-v1" "/api/v1";
                          sample_route "orders" "/api/v1/orders"] (mkMem ∅ 0 None) in
  (ResolveRoute "/api/v1/orders/ord_1" w).1 = Ok (sample_route "orders" "/api/v1/orders") /\
  snapshot (ResolveRoute "/api/v1/orders/ord_1" w).2 = snapshot w.
Proof.
  intros w. split; [vm_compute; reflexivity|].
  pose proof (ResolveRoute_longest_prefix "/api/v1/orders/ord_1" w) as H.
  destruct (ResolveRoute "/api/v1/orders/ord_1" w) as [o w'].
  exact (proj1 H).
Defined.

(** with normalised and pairwise distinct prefixes, as the control-plane
    client guarantees, resolution does not depend on the order of the snapshot. *)
Theorem resolve_routes_order_irrelevant (routes routes' : list Route) (path : string)
    (Hd : distinct_prefixes routes) (Hp : routes ≡ₚ routes') :
  resolve_routes routes' path = resolve_routes routes path.
Proof.
  destruct (resolve_routes routes path) as [r|e] eqn:E.
  - apply resolve_routes_longest in E as (Hr & M & Hmax).
    apply resolve_routes_unique; [by eapply distinct_prefixes_perm|by rw -Hp|done|].
    intros r'. rw -Hp. apply Hmax.
  - apply resolve_routes_Err in E as [-> Hn].
    destruct (resolve_routes routes' path) as [r|e'] eqn:E'.
    + apply resolve_routes_longest in E' as (Hr & M & _). rw -Hp in Hr. rw Hn // in M.
    + by apply resolve_routes_Err in E' as [-> _].
Qed.

Lemma resolve_routes_order_irrelevant_witness :
  resolve_routes [sample_route "b" "/api/v1"; sample_route "a" "/"] "/api/v1/x" =
  resolve_routes [sample_route "a" "/"; sample_route "b" "/api/v1"] "/api/v1/x".
Proof.
  apply (resolve_routes_order_irrelevant
           [sample_route "a" "/"; sample_route "b" "/api/v1"]).
  - split; [by apply (bool_decide_unpack _); vm_compute|].
    repeat constructor; (left + right); vm_compute; reflexivity.
  - constructor.
Defined.

(** a route whose prefix is not "/" matches exactly the paths whose first
    segments are the segments of its prefix (without trailing slashes). *)
Theorem Matches_segments (r : Route) (path : string) (Hr : rt_PathPrefix r <> "/") :
  Matches r path = true <->
  Split (TrimRight (rt_PathPrefix r) slash) slash `prefix_of` Split path slash.
Proof. by rw Matches_nonroot // Split_prefix. Qed.

Lemma Matches_segments_witness :
  ~ Split "/api/v1" slash `prefix_of` Split "/api/v10/orders" slash.
Proof.
  rw -(Matches_segments (sample_route "v1" "/api/v1/") "/api/v10/orders"); [done|].
  vm_compute. discriminate.
Defined.

(** when the prefix is stripped, the upstream path of a matching request
    path is a rooted path, and it is the request path without the prefix ("/"
    when nothing is left). *)
Theorem UpstreamPath_strips_prefix (r : Route) (path : string)
    (Hs : rt_StripPrefix r = true) (Hm : Matches r path = true) (Hp : HasPrefix path "/" = true) :
  HasPrefix (UpstreamPath r path) "/" = true /\
  ((path = TrimRight (rt_PathPrefix r) slash /\ UpstreamPath r path = "/") \/
   path = TrimRight (rt_PathPrefix r) slash +:+ UpstreamPath r path).
Proof.
  assert (Hcases : path = TrimRight (rt_PathPrefix r) slash \/
    exists t, path = TrimRight (rt_PathPrefix r) slash +:+ String slash t).
  { destruct (decide (rt_PathPrefix r = "/")) as [E|N].
    - right. rw E. by apply HasPrefix_char in Hp as [t ->]; exists t.
    - apply Matches_nonroot in Hm as [->|[t ->]%HasPrefix_spec]; [by left| |done].
      right. exists t. by rw sapp_assoc. }
  destruct Hcases as [H|[t H]].
  - rw (UpstreamPath_exact r path Hs H). split; [done|]. by left.
  - rw (UpstreamPath_below r path t Hs H). split; [done|]. by right.
Qed.

Lemma UpstreamPath_strips_prefix_witness :
  HasPrefix (UpstreamPath (sample_route "v1" "/api/v1/") "/api/v1/orders") "/" = true.
Proof.
  exact (proj1 (UpstreamPath_strips_prefix (sample_route "v1" "/api/v1/") "/api/v1/orders"
                  eq_refl eq_refl eq_refl)).
Defined.

(** C13: after any sequence of worker events the repository holds the last
    snapshot the source served before the context was cancelled, or the initial
    one: a failing source never changes or clears it. *)
Theorem RunRoutesRefresh_last_good `{RouteRepositoryLaws W} (evs : list refresh_event) (w : W) :
  snapshot (RunRoutesRefresh evs w).2 = default (snapshot w) (list.last (served evs)).
Proof.
  revert w. induction evs as [|[|[rs|e] c] evs IH]; intros w; [done..| |].
  - cbn. destruct (RunRoutesRefresh evs (ReplaceRoutes rs w)) as [logs w'] eqn:E.
    change w' with (logs, w').2. rw -E IH ReplaceRoutes_snapshot.
    rw last_cons. by destruct (list.last (served evs)).
  - cbn. destruct (RunRoutesRefresh evs w) as [logs w'] eqn:E.
    change w' with (logs, w').2. by rw -E IH.
Qed.

Lemma RunRoutesRefresh_last_good_witness :
  let good := [sample_route "new" "/new"] in
  snapshot (RunRoutesRefresh [Tick (Ok good) false; Tick (Err (Opaque "down")) false; CtxDone]
              (mkMem ∅ 0 None)).2 = good.
Proof.
  intros good.
  exact (RunRoutesRefresh_last_good
           [Tick (Ok good) false; Tick (Err (Opaque "down")) false; CtxDone] (mkMem ∅ 0 None)).
Defined.

(** C14: the in-memory repository keeps its snapshot apart from every slice its
    callers hold: any program of calls and element writes behaves as the contract
    says in which each slice is a value of its own, panics included. *)
Theorem mem_repository_isolated (ops : list mem_op) (st : mem_world * list (option nat))
    (Hi : mem_inv st) :
  match mem_run ops st with
  | Some st' => mem_inv st' /\ spec_run ops (mem_abs st) = Some (mem_abs st')
  | None => spec_run ops (mem_abs st) = None
  end.
Proof.
  induction ops as [|op ops IH] using rev_ind; [done|].
  rw mem_run_snoc spec_run_snoc. destruct (mem_run ops st) as [st'|].
  - destruct IH as [Hi' ->]. cbn. by apply mem_step_sim.
  - by rw IH.
Qed.

(** C14 at a program that writes to the slice it put in and to the slice it got
    back. *)
Lemma mem_repository_isolated_witness :
  let a := sample_route "a" "/a" in let b := sample_route "b" "/b" in
  let ops := [OpNew [a]; OpReplace 0; OpWrite 0 0 b; OpList; OpWrite 1 0 b; OpList] in
  match mem_run ops (mkMem ∅ 0 None, []) with
  | Some st' => spec_run ops [[]] = Some (mem_abs st') /\ mem_abs st' !! 0%nat = Some [a]
  | None => False
  end.
Proof.
  intros a b ops.
  assert (Hi : mem_inv (mkMem ∅ 0 None, [])).
  { split; [intros [|i] l H; discriminate H|].
    intros [|i] [|j] l H; discriminate H. }
  pose proof (mem_repository_isolated ops (mkMem ∅ 0 None, []) Hi) as H.
  destruct (mem_run ops (mkMem ∅ 0 None, [])) as [st'|] eqn:E; [|discriminate E].
  split; [exact (proj2 H)|]. injection E as <-. vm_compute. reflexivity.
Defined.
