(* ===== verification/RateLimit.v ===== *)
(** Rate limiting: the use case of internal/gateway/usecase/rate_limit.go and the
    Redis fixed-window limiter of internal/gateway/infrastructure/ratelimit.

    Redis itself is a parameter, the class [Redis]: its three commands of the Lua
    script, with their documented effect on the state of a key as the laws of
    [RedisLaws]. *)
From Stdlib Require Import Ascii ZArith Lia.
From Corelib Require Import ssreflect.
From stdpp Require Import base gmap strings list numbers pretty.
From S2P Require Import Prelude GoStrings GoTime GoEncoding GatewayRoutes.

#[local] Open Scope Z_scope.

(** ** Data (gateway/domain/rate_limit.go) *)

Record RateLimitRequest := mkRLReq {
  rq_RouteKey : string;
  rq_ClientID : string;
  rq_Policy : RateLimitPolicy
}.

Record RateLimitResult := mkRLRes {
  rs_Enabled : bool;
  rs_Allowed : bool;
  rs_Limit : Z;
  rs_Remaining : Z;
  rs_ResetAt : Z;
  rs_RetryAfter : Z
}.

Definition ErrRateLimiterNotConfigured : error :=
  Sentinel "gateway/domain.ErrRateLimiterNotConfigured" "rate limiter is not configured".
Definition ErrInvalidRateLimitPolicy : error :=
  Sentinel "gateway/domain.ErrInvalidRateLimitPolicy" "invalid rate limit policy".
Definition ErrInvalidRateLimitClient : error :=
  Sentinel "gateway/domain.ErrInvalidRateLimitClient" "invalid rate limit client".

(** ** Use case (gateway/usecase/rate_limit.go) *)

Definition NUL : string := String "000"%char EmptyString.

Definition route_key (route : Route) : string :=
  rt_ProjectID route +:+ NUL +:+ rt_Name route +:+ NUL +:+ rt_PathPrefix route.

(** [rateLimiter] is the interface value of the use case ([None] is nil), with the
    state [RS] behind it. *)
Definition CheckRateLimit {RS}
    (rateLimiter : option (RateLimitRequest -> RS -> res RateLimitResult * RS))
    (route : Route) (clientID : string) (rs : RS) : res RateLimitResult * RS :=
  if negb (rl_Enabled (rt_RateLimit route)) then
    (Ok (mkRLRes false true 0 0 time_zero 0), rs)
  else if (rl_Limit (rt_RateLimit route) <=? 0) || (rl_Window (rt_RateLimit route) <=? 0) then
    (Err ErrInvalidRateLimitPolicy, rs)
  else
    let clientID := TrimSpace clientID in
    if bool_decide (clientID = "") then (Err ErrInvalidRateLimitClient, rs)
    else match rateLimiter with
         | None => (Err ErrRateLimiterNotConfigured, rs)
         | Some allow => allow (mkRLReq (route_key route) clientID (rt_RateLimit route)) rs
         end.

(** ** Redis *)

(** The state of a key: absent, a counter without expiry, or a counter that
    expires after the given server time (in milliseconds). *)
Inductive key_state :=
| Absent
| Persistent (v : Z)
| Expiring (v d : Z).

(** The state a command executed at server time [t] sees: a key is expired when
    the server time is past its deadline. *)
Definition live (t : Z) (k : key_state) : key_state :=
  match k with
  | Expiring v d => if d <? t then Absent else k
  | _ => k
  end.

Definition key_value (k : key_state) : Z :=
  match k with Absent => 0 | Persistent v | Expiring v _ => v end.

Definition key_set_value (k : key_state) (v : Z) : key_state :=
  match k with Absent | Persistent _ => Persistent v | Expiring _ d => Expiring v d end.

Class Redis (RS : Type) := {
  INCR : Z -> string -> RS -> Z * RS;
  PEXPIRE : Z -> string -> Z -> RS -> RS;
  PTTL : Z -> string -> RS -> Z;
}.

(** The documented behaviour of the commands, on an observation [r_key] of the
    keyspace: INCR creates the key at 0 when it is absent, adds one and keeps the
    expiry (it fails at the largest 64-bit integer, which the laws leave open); PEXPIRE with a positive time sets the expiry of an existing key; PTTL
    returns -2 for an absent key, -1 for a key without expiry and the remaining
    time otherwise; no command touches another key. *)
Class RedisLaws (RS : Type) `{Redis RS} := {
  r_key : RS -> string -> key_state;
  INCR_result t k rs : key_value (live t (r_key rs k)) < max_int64 ->
    (INCR t k rs).1 = key_value (live t (r_key rs k)) + 1;
  INCR_key t k rs : key_value (live t (r_key rs k)) < max_int64 ->
    r_key (INCR t k rs).2 k =
    key_set_value (live t (r_key rs k)) (key_value (live t (r_key rs k)) + 1);
  INCR_other t k k' rs : k' <> k -> r_key (INCR t k rs).2 k' = r_key rs k';
  PEXPIRE_key t k ms rs : 0 < ms ->
    r_key (PEXPIRE t k ms rs) k =
    match live t (r_key rs k) with
    | Absent => Absent
    | Persistent v | Expiring v _ => Expiring v (t + ms)
    end;
  PEXPIRE_other t k k' ms rs : k' <> k -> r_key (PEXPIRE t k ms rs) k' = r_key rs k';
  PTTL_result t k rs :
    PTTL t k rs =
    match live t (r_key rs k) with
    | Absent => -2
    | Persistent _ => -1
    | Expiring _ d => d - t
    end;
}.

(** The constant [fixedWindowScript]: one atomic evaluation. *)
Definition fixedWindowScript `{Redis RS} (t : Z) (key : string) (ttl : Z) (rs : RS)
    : (Z * Z) * RS :=
  let '(current, rs1) := INCR t key rs in
  let rs2 := if current =? 1 then PEXPIRE t key ttl rs1 else rs1 in
  let remaining := PTTL t key rs2 in
  ((current, remaining), rs2).

(** ** The limiter (gateway/infrastructure/ratelimit/redis_limiter.go) *)

(** The reply of [Eval], a Go value of type [any]. *)
Inductive reply :=
| RInt64 (z : Z)
| RInt (z : Z)
| RArray (items : list reply)
| ROther (go_type : string).

(** The verb [%T]. *)
Definition reply_type (v : reply) : string :=
  match v with
  | RInt64 _ => "int64"
  | RInt _ => "int"
  | RArray _ => "[]interface {}"
  | ROther ty => ty
  end.

Definition integerValue (value : reply) : res Z :=
  match value with
  | RInt64 typed => Ok typed
  | RInt typed => Ok typed
  | _ => Err (Opaque ("expected integer, got " +:+ reply_type value))
  end.

Definition parseScriptResult (value : reply) : res (Z * Z) :=
  match value with
  | RArray [a; b] =>
    match integerValue a with
    | Err e => Err (wrapf "decode redis rate limit counter" e)
    | Ok current =>
      match integerValue b with
      | Err e => Err (wrapf "decode redis rate limit ttl" e)
      | Ok ttl => Ok (current, ttl)
      end
    end
  | _ => Err (Opaque ("unexpected redis rate limit response: " +:+ reply_type value))
  end.

(** [hex.EncodeToString(digest[:16])]. *)
Definition hashKeyPart (value : string) : string :=
  hex_encode (String.substring 0 16 (Sha256.Sum256 value)).

Definition redisKey (keyPrefix routeKey clientID : string) (window : Z) : string :=
  keyPrefix +:+ ":" +:+ hashKeyPart routeKey +:+ ":" +:+ hashKeyPart clientID +:+ ":" +:+ Itoa window.

Definition maxDuration (left right : Z) : Z := if right <? left then left else right.

(** The parts of [Allow] before the script call: the guards, the window and the
    argument of PEXPIRE. *)
Definition currentWindow (now windowMilliseconds : Z) : Z :=
  Z.quot (UnixMilli now) windowMilliseconds.
Definition window_reset (now windowMilliseconds : Z) : Z :=
  of_UnixMilli (wrap64 (wrap64 (currentWindow now windowMilliseconds + 1) * windowMilliseconds)).
Definition window_ttl (now windowMilliseconds : Z) : Z :=
  let ttl := Sub (window_reset now windowMilliseconds) now in
  if ttl <? Millisecond then Millisecond else ttl.

(** What [Allow] computes from the script's reply. *)
Definition allow_result (request : RateLimitRequest) (now resetAt : Z) (reply : Z * Z)
    : RateLimitResult :=
  let '(current, redisTTL) := reply in
  let resetAt := if 0 <? redisTTL then Add now (wrap64 (redisTTL * Millisecond)) else resetAt in
  let limit := rl_Limit (rq_Policy request) in
  let remaining := if current <? limit then wrap64 (limit - current) else 0 in
  mkRLRes true (current <=? limit) limit remaining resetAt
    (maxDuration (Sub resetAt now) Millisecond).

(** [Allow] on a limiter whose evaluator is [eval key ttl]. *)
Definition Allow {RS} (keyPrefix : string) (eval : string -> Z -> RS -> res reply * RS)
    (now : Z) (request : RateLimitRequest) (rs : RS) : res RateLimitResult * RS :=
  if (rl_Limit (rq_Policy request) <=? 0) || (rl_Window (rq_Policy request) <=? 0) then
    (Err ErrInvalidRateLimitPolicy, rs)
  else if blank (rq_RouteKey request) || blank (rq_ClientID request) then
    (Err ErrInvalidRateLimitClient, rs)
  else
    let windowMilliseconds := Milliseconds (rl_Window (rq_Policy request)) in
    if windowMilliseconds <=? 0 then (Err ErrInvalidRateLimitPolicy, rs)
    else
      let key := redisKey keyPrefix (rq_RouteKey request) (rq_ClientID request)
                   (currentWindow now windowMilliseconds) in
      match eval key (Milliseconds (window_ttl now windowMilliseconds)) rs with
      | (Err e, rs') => (Err (wrapf "execute redis rate limit script" e), rs')
      | (Ok value, rs') =>
        (match parseScriptResult value with
         | Err e => Err e
         | Ok reply => Ok (allow_result request now (window_reset now windowMilliseconds) reply)
         end, rs')
      end.

(** [redisEvaluator.Eval] against a Redis server whose clock reads [t]: the two
    integers come back as [int64]s. *)
Definition redisEvaluator_Eval `{Redis RS} (t : Z) (key : string) (ttl : Z) (rs : RS)
    : res reply * RS :=
  let '((current, remaining), rs') := fixedWindowScript t key ttl rs in
  (Ok (RArray [RInt64 current; RInt64 remaining]), rs').

(** [New]: the key prefix of a limiter; [parseURL] is redis.ParseURL. *)
Definition defaultKeyPrefix : string := "edgeguard:rate-limit".
Definition New_limiter (parseURL : string -> res unit) (redisURL keyPrefix : string) : res string :=
  let redisURL := TrimSpace redisURL in
  if bool_decide (redisURL = "") then Err (Opaque "redis url is required")
  else match parseURL redisURL with
       | Err e => Err (wrapf "parse redis url" e)
       | Ok _ =>
         let keyPrefix := TrimSpace keyPrefix in
         Ok (if bool_decide (keyPrefix = "") then defaultKeyPrefix else keyPrefix)
       end.

(** ** Window arithmetic *)

(** Instants between the epoch and the year 146 million, in which no
    millisecond count of the limiter leaves the range of an [int64]. *)
Definition clock_range (now : Z) : Prop :=
  unix_epoch <= now <= unix_epoch + 2 ^ 62 * Millisecond.

(** A policy the guards of [Allow] let through, with an [int64] window. *)
Definition valid_policy (p : RateLimitPolicy) : Prop :=
  0 < rl_Limit p <= max_int64 /\ Millisecond <= rl_Window p <= max_int64.

Section window.
Context (now : Z) (p : RateLimitPolicy).
Context (Hnow : clock_range now) (Hp : valid_policy p).
Abbreviation wms := (Milliseconds (rl_Window p)).
Abbreviation t := (UnixMilli now).

Lemma window_ms_bounds : 0 < wms /\ wms * Millisecond <= rl_Window p.
Proof using Hp.
  destruct Hp as [_ ?]. unfold Milliseconds. unfold_time. lia.
Qed.

Lemma clock_ms_bounds : 0 <= t <= 2 ^ 62.
Proof using Hnow. revert Hnow. unfold clock_range, UnixMilli. unfold_time. lia. Qed.

(** The request lies in its window. *)
Lemma currentWindow_bounds :
  currentWindow now wms * wms <= t < (currentWindow now wms + 1) * wms /\
  0 <= currentWindow now wms.
Proof using Hnow Hp.
  destruct window_ms_bounds as [Hw _]. destruct clock_ms_bounds as [Ht _].
  unfold currentWindow. rw Z.quot_div_nonneg; [lia..|].
  pose proof (Z.mul_div_le t wms Hw). pose proof (Z.mul_succ_div_gt t wms Hw).
  pose proof (Z.div_pos t wms Ht Hw). nia.
Qed.

Lemma window_reset_eq :
  window_reset now wms = of_UnixMilli ((currentWindow now wms + 1) * wms).
Proof using Hnow Hp.
  destruct window_ms_bounds as [Hw1 Hw2]. destruct clock_ms_bounds as [Ht1 Ht2].
  destruct currentWindow_bounds as [[H1 H2] H3]. destruct Hp as [_ Hwin].
  assert (Hms : wms <= 2 ^ 62) by (unfold_time; lia).
  assert (Hle : (currentWindow now wms + 1) * wms <= t + wms) by nia.
  assert (Hcw : currentWindow now wms + 1 <= (currentWindow now wms + 1) * wms) by nia.
  unfold window_reset. rw (wrap64_id (currentWindow now wms + 1)).
  { unfold int64_range. unfold_time. lia. }
  rw wrap64_id //. unfold int64_range. unfold_time. lia.
Qed.

(** The expiry given to a key reaches to the last millisecond of its window
    and not beyond the window's length. *)
Lemma window_ttl_bounds :
  let ttl := Milliseconds (window_ttl now wms) in
  1 <= ttl <= wms /\ (currentWindow now wms + 1) * wms - 1 <= t + ttl.
Proof using Hnow Hp.
  destruct window_ms_bounds as [Hw1 Hw2]. destruct clock_ms_bounds as [Ht1 Ht2].
  destruct currentWindow_bounds as [[H1 H2] H3]. destruct Hp as [_ Hwin].
  cbn zeta. unfold window_ttl. rw window_reset_eq.
  set (e := (currentWindow now wms + 1) * wms) in *.
  assert (He : e <= t + wms) by (unfold e; nia).
  assert (Hd : e * Millisecond - (now - unix_epoch) <= rl_Window p).
  { unfold UnixMilli in *. unfold_time. lia. }
  rw Sub_exact.
  { unfold int64_range, of_UnixMilli, UnixMilli in *. unfold_time. lia. }
  destruct (Z.ltb_spec (of_UnixMilli e - now) Millisecond) as [Hlt|Hge];
    unfold Milliseconds, of_UnixMilli, UnixMilli in *; unfold_time; lia.
Qed.
End window.

(** ** Keys *)

Lemma hashKeyPart_length v : String.length (hashKeyPart v) = 32%nat.
Proof. unfold hashKeyPart. by rw hex_encode_length. Qed.

Lemma sapp_inj_length s s' u u' :
  String.length s = String.length s' -> s +:+ u = s' +:+ u' -> s = s' /\ u = u'.
Proof.
  revert s'. induction s as [|a s IH]; intros [|b s'] Hl; [done..|].
  rw !sapp_cons. intros [= -> H]. injection Hl as Hl. by destruct (IH s' Hl H) as [-> ->].
Qed.

(** A key determines the hashes it is made of and the window. *)
Lemma redisKey_inj kp r c w r' c' w' :
  redisKey kp r c w = redisKey kp r' c' w' ->
  hashKeyPart r = hashKeyPart r' /\ hashKeyPart c = hashKeyPart c' /\ w = w'.
Proof.
  unfold redisKey. intros H. apply sapp_inj_l in H. apply sapp_inj_l in H.
  apply sapp_inj_length in H as [Hr H]; [|by rw !hashKeyPart_length].
  apply sapp_inj_l in H.
  apply sapp_inj_length in H as [Hc H]; [|by rw !hashKeyPart_length].
  apply sapp_inj_l in H. split; [done|]. split; [done|]. exact (inj pretty _ _ H).
Qed.

(** ** Runs of calls *)

(** A call of [Allow] by some gateway at the instant [c_now]. *)
Record call := mkCall { c_now : Z; c_req : RateLimitRequest }.

Definition call_window (c : call) : Z :=
  currentWindow (c_now c) (Milliseconds (rl_Window (rq_Policy (c_req c)))).
Definition call_key (kp : string) (c : call) : string :=
  redisKey kp (rq_RouteKey (c_req c)) (rq_ClientID (c_req c)) (call_window c).

(** The calls of all gateways against one Redis, in the order Redis executes
    them; the server's clock agrees with the gateways' to the millisecond. *)
Fixpoint run_calls `{Redis RS} (kp : string) (calls : list call) (rs : RS)
    : list (res RateLimitResult) * RS :=
  match calls with
  | [] => ([], rs)
  | c :: calls' =>
    let '(r, rs1) := Allow kp (redisEvaluator_Eval (UnixMilli (c_now c))) (c_now c) (c_req c) rs in
    let '(l, rs2) := run_calls kp calls' rs1 in
    (r :: l, rs2)
  end.

(** A call that passes the guards, under a window of length [win]. *)
Definition valid_call (win : Z) (c : call) : Prop :=
  clock_range (c_now c) /\ valid_policy (rq_Policy (c_req c)) /\
  rl_Window (rq_Policy (c_req c)) = win /\
  blank (rq_RouteKey (c_req c)) = false /\ blank (rq_ClientID (c_req c)) = false.

(** The earlier calls that share the counter of [c]. *)
Definition same_counter (kp : string) (past : list call) (c : call) : Z :=
  Z.of_nat (length (filter (fun c' => call_key kp c' = call_key kp c) past)).

(** The abstract fixed-window counter: the answer to [c] after [past]. *)
Definition spec_allowed (kp : string) (past : list call) (c : call) : bool :=
  same_counter kp past c + 1 <=? rl_Limit (rq_Policy (c_req c)).
Definition spec_remaining (kp : string) (past : list call) (c : call) : Z :=
  Z.max 0 (rl_Limit (rq_Policy (c_req c)) - (same_counter kp past c + 1)).

Lemma Allow_valid {RS} kp (eval : string -> Z -> RS -> res reply * RS) win c rs :
  valid_call win c ->
  Allow kp eval (c_now c) (c_req c) rs =
  let wms := Milliseconds (rl_Window (rq_Policy (c_req c))) in
  match eval (call_key kp c) (Milliseconds (window_ttl (c_now c) wms)) rs with
  | (Err e, rs') => (Err (wrapf "execute redis rate limit script" e), rs')
  | (Ok value, rs') =>
    (match parseScriptResult value with
     | Err e => Err e
     | Ok reply => Ok (allow_result (c_req c) (c_now c) (window_reset (c_now c) wms) reply)
     end, rs')
  end.
Proof.
  intros (Hc & Hp & _ & H1 & H2). unfold Allow. pose proof Hp as [Hl Hw].
  destruct (window_ms_bounds _ Hp) as [Hm _].
  rw (proj2 (Z.leb_gt _ _) (proj1 Hl)).
  rw (proj2 (Z.leb_gt (rl_Window _) 0)); [unfold_time; lia|].
  rw H1 H2 (proj2 (Z.leb_gt _ _) Hm). done.
Qed.

Section counting.
Context `{RedisLaws RS} (kp : string) (win : Z).

(** What Redis holds after the calls [past] on an empty keyspace: each counter
    with its number of calls, alive until the end of its window. *)
Record counters (past : list call) (rs : RS) : Prop := {
  ct_used : forall c, c ∈ past -> exists d,
    r_key rs (call_key kp c) = Expiring (same_counter kp past c) d /\
    (call_window c + 1) * Milliseconds win - 1 <= d;
  ct_unused : forall k, (forall c, c ∈ past -> call_key kp c <> k) -> r_key rs k = Absent;
}.

Lemma same_counter_snoc past c c' :
  same_counter kp (past ++ [c']) c =
  same_counter kp past c + (if bool_decide (call_key kp c' = call_key kp c) then 1 else 0).
Proof.
  unfold same_counter. rw filter_app length_app filter_cons filter_nil.
  case_bool_decide as E; case_decide; cbn [length]; try done; lia.
Qed.

Lemma same_counter_key past c c' :
  call_key kp c = call_key kp c' -> same_counter kp past c = same_counter kp past c'.
Proof. unfold same_counter. by intros ->. Qed.

Lemma call_key_window c c' : call_key kp c = call_key kp c' -> call_window c = call_window c'.
Proof. unfold call_key. by intros (_ & _ & ?)%redisKey_inj. Qed.

Lemma same_counter_zero past c :
  (forall c', c' ∈ past -> call_key kp c' <> call_key kp c) -> same_counter kp past c = 0.
Proof.
  intros Hn. unfold same_counter.
  destruct (filter _ past) as [|c' l] eqn:E; [done|exfalso].
  assert (Hf : c' ∈ filter (fun c0 => call_key kp c0 = call_key kp c) past)
    by (rw E; apply list_elem_of_here).
  apply list_elem_of_filter in Hf as [Hk Hin]. by apply (Hn c').
Qed.

Lemma same_counter_pos past c c' :
  c' ∈ past -> call_key kp c' = call_key kp c -> 0 < same_counter kp past c.
Proof.
  intros Hin Hk. unfold same_counter.
  assert (Hf : c' ∈ filter (fun c0 => call_key kp c0 = call_key kp c) past)
    by (by apply list_elem_of_filter).
  destruct (filter _ past); [by apply elem_of_nil in Hf|]. cbn. lia.
Qed.

Lemma same_counter_le past c : same_counter kp past c <= Z.of_nat (length past).
Proof.
  unfold same_counter. pose proof (length_filter (fun c' => call_key kp c' = call_key kp c) past). lia.
Qed.

(** Counting one more call on its own key, everything else unchanged. *)
Lemma counters_step past c rs rs' d :
  counters past rs ->
  r_key rs' (call_key kp c) = Expiring (same_counter kp past c + 1) d ->
  (call_window c + 1) * Milliseconds win - 1 <= d ->
  (forall k, k <> call_key kp c -> r_key rs' k = r_key rs k) ->
  counters (past ++ [c]) rs'.
Proof.
  intros [Hu Hn] Hk Hd Ho. split.
  - intros c0 Hc0. rw same_counter_snoc. case_bool_decide as Ek.
    + exists d. rw -Ek Hk -(same_counter_key past c c0 Ek) -(call_key_window c c0 Ek). done.
    + rw Z.add_0_r Ho; [congruence|]. apply elem_of_app in Hc0 as [?|Hc0]; [by apply Hu|].
      by apply list_elem_of_singleton in Hc0 as ->.
  - intros k' Hk'. rw Ho.
    { intros ->. apply (Hk' c); [|done]. set_solver. }
    apply Hn. intros c0 Hc0. apply Hk'. set_solver.
Qed.

(** One script evaluation counts the call. *)
Lemma script_counts past c rs :
  counters past rs -> valid_call win c -> Z.of_nat (length past) < max_int64 ->
  let ttl := Milliseconds (window_ttl (c_now c) (Milliseconds win)) in
  exists rem rs',
    fixedWindowScript (UnixMilli (c_now c)) (call_key kp c) ttl rs =
    ((same_counter kp past c + 1, rem), rs') /\ counters (past ++ [c]) rs'.
Proof.
  intros Hct (Hclock & Hpol & Hwin & _ & _) Hlen ttl.
  pose proof (same_counter_le past c) as Hle.
  pose proof (window_ttl_bounds _ _ Hclock Hpol) as Httl.
  destruct (currentWindow_bounds _ _ Hclock Hpol) as [[_ Hend] _].
  rw Hwin in Httl, Hend. fold ttl in Httl. cbn zeta in Httl. destruct Httl as [[Ht1 Ht2] Ht3].
  assert (Hcw : call_window c = currentWindow (c_now c) (Milliseconds win))
    by (unfold call_window; by rw Hwin).
  rw -Hcw in Hend, Ht3. set (t := UnixMilli (c_now c)) in *.
  unfold fixedWindowScript.
  pose proof (INCR_result t (call_key kp c) rs) as I1.
  pose proof (INCR_key t (call_key kp c) rs) as I2.
  pose proof (fun k' => INCR_other t (call_key kp c) k' rs) as I3.
  destruct (INCR t _ rs) as [cur rs1]. cbn in I1, I2, I3.
  destruct (decide (Exists (fun c' => call_key kp c' = call_key kp c) past)) as [He|Hne].
  - apply list.Exists_exists in He as (c' & Hc' & Hk).
    destruct (ct_used _ _ Hct c' Hc') as (d & Hd & Hdl).
    rw Hk (same_counter_key past _ _ Hk) in Hd. rw (call_key_window _ _ Hk) in Hdl.
    pose proof (same_counter_pos past c c' Hc' Hk).
    assert (Hlive : live t (r_key rs (call_key kp c)) = Expiring (same_counter kp past c) d).
    { rw Hd. cbn. rw (proj2 (Z.ltb_ge d t)) //. lia. }
    rw Hlive in I1, I2. cbn in I1, I2. specialize (I1 ltac:(lia)). specialize (I2 ltac:(lia)).
    rw (proj2 (Z.eqb_neq cur 1)); [lia|]. rw I1. do 2 eexists. split; [reflexivity|].
    by eapply counters_step.
  - assert (Hfresh : forall c', c' ∈ past -> call_key kp c' <> call_key kp c).
    { intros c' Hc' E. apply Hne, list.Exists_exists. eauto. }
    rw (ct_unused _ _ Hct _ Hfresh) in I1, I2. cbn in I1, I2.
    specialize (I1 eq_refl). specialize (I2 eq_refl). rw I1. cbn [Z.eqb Pos.eqb].
    pose proof (PEXPIRE_key t (call_key kp c) ttl rs1 ltac:(lia)) as P1. rw I2 in P1. cbn in P1.
    pose proof (same_counter_zero past c Hfresh) as Hz. rw Hz.
    do 2 eexists. split; [reflexivity|].
    eapply (counters_step _ _ rs _ (t + ttl)); [done|by rw Hz P1|lia|].
    intros k' Hk'. by rw PEXPIRE_other // I3.
Qed.

(** The answer of the abstract counter, as [Allow] reports it. *)
Definition window_answer (past : list call) (c : call) (r : RateLimitResult) : Prop :=
  rs_Enabled r = true /\ rs_Limit r = rl_Limit (rq_Policy (c_req c)) /\
  rs_Allowed r = spec_allowed kp past c /\ rs_Remaining r = spec_remaining kp past c.

Lemma allow_result_answer past c reset rem :
  valid_call win c ->
  window_answer past c
    (allow_result (c_req c) (c_now c) reset (same_counter kp past c + 1, rem)).
Proof.
  intros (_ & [Hl _] & _). unfold window_answer, spec_allowed, spec_remaining. cbn.
  set (n := same_counter kp past c).
  assert (0 <= n) by (unfold n, same_counter; lia).
  repeat split. destruct (Z.ltb_spec (n + 1) (rl_Limit (rq_Policy (c_req c)))); [|lia].
  rw wrap64_id; [unfold int64_range; unfold_time; lia|lia].
Qed.

Lemma run_calls_counts calls past rs :
  counters past rs -> (forall c, c ∈ calls -> valid_call win c) ->
  Z.of_nat (length past + length calls) <= max_int64 ->
  forall i c, calls !! i = Some c -> exists r,
    (run_calls kp calls rs).1 !! i = Some (Ok r) /\ window_answer (past ++ take i calls) c r.
Proof.
  revert past rs. induction calls as [|c0 calls IH]; intros past rs Hct Hv Hlen i c Hi; [done|].
  assert (Hv0 : valid_call win c0) by (apply Hv; set_solver). cbn in Hlen.
  destruct (script_counts past c0 rs Hct Hv0 ltac:(lia)) as (rem & rs' & Hs & Hct').
  cbn [run_calls]. rw (Allow_valid _ _ win) //. cbn zeta.
  rw (proj1 (proj2 (proj2 Hv0))). unfold redisEvaluator_Eval. rw Hs. cbn.
  destruct (run_calls kp calls rs') as [l rs2] eqn:Er. cbn.
  destruct i as [|i]; cbn in Hi |- *.
  - injection Hi as <-. eexists. split; [reflexivity|].
    rw app_nil_r. by apply allow_result_answer.
  - specialize (IH (past ++ [c0]) rs' Hct'). rw Er in IH. cbn in IH.
    rw cons_middle (assoc_L app). apply IH; [|rw length_app; cbn; lia|done].
    intros c1 Hc1. apply Hv. set_solver.
Qed.
End counting.

(** ** An executable Redis *)

(** The keyspace as a map, with the three commands executed on it. *)
Definition redis_key (rs : gmap string key_state) (k : string) : key_state :=
  default Absent (rs !! k).

#[export] Instance map_redis : Redis (gmap string key_state) := {|
  INCR t k rs :=
    let s := live t (redis_key rs k) in
    (key_value s + 1, <[k := key_set_value s (key_value s + 1)]> rs);
  PEXPIRE t k ms rs :=
    match live t (redis_key rs k) with
    | Absent => <[k := Absent]> rs
    | Persistent v | Expiring v _ => <[k := Expiring v (t + ms)]> rs
    end;
  PTTL t k rs :=
    match live t (redis_key rs k) with
    | Absent => -2
    | Persistent _ => -1
    | Expiring _ d => d - t
    end;
|}.

#[export] Program Instance map_redis_laws : RedisLaws (gmap string key_state) := {|
  r_key := redis_key;
|}.
Next Obligation. done. Qed.
Next Obligation. intros t k rs _. unfold redis_key at 1. cbn. by rw lookup_insert_eq. Qed.
Next Obligation. intros t k k' rs Hne. unfold redis_key. cbn. by rw lookup_insert_ne. Qed.
Next Obligation.
  intros t k ms rs _. cbn. unfold redis_key at 1.
  destruct (live t (redis_key rs k)); by rw lookup_insert_eq.
Qed.
Next Obligation.
  intros t k k' ms rs Hne. cbn. unfold redis_key at 1.
  destruct (live t (redis_key rs k)); by rw lookup_insert_ne.
Qed.
Next Obligation. done. Qed.

(** ** Properties *)


Definition sample_policy : RateLimitPolicy := mkPolicy true 2 (10 * Second).
Definition sample_call (ms : Z) : call :=
  mkCall (of_UnixMilli ms) (mkRLReq "p/api" "user:1" sample_policy).

Lemma sample_call_valid ms : 0 <= ms <= 2 ^ 40 -> valid_call (10 * Second) (sample_call ms).
Proof.
  intros ?. unfold valid_call, clock_range, valid_policy, sample_call, of_UnixMilli.
  cbn -[Z.mul]. unfold_time. repeat split; lia.
Qed.


(** The three identifying fields of a route, free of the separator of its key. *)
Definition route_ident (r : Route) : string * string * string :=
  (rt_ProjectID r, rt_Name r, rt_PathPrefix r).
Definition ident_ok (r : Route) : bool :=
  no_byte "000"%char (rt_ProjectID r) && no_byte "000"%char (rt_Name r).

Lemma route_key_inj r r' :
  ident_ok r = true -> ident_ok r' = true -> route_key r = route_key r' ->
  route_ident r = route_ident r'.
Proof.
  unfold ident_ok, route_key, NUL, route_ident.
  intros [H1 H2]%andb_prop [H1' H2']%andb_prop. rw !sapp_cons !sapp_nil_l. intros E.
  apply sapp_sep_inj in E as [-> E]; [|done..].
  apply sapp_sep_inj in E as [-> ->]; done.
Qed.

(** C8: Two checks reach the same Redis counter only when they are for the same
    route (project, name and prefix, none with a NUL byte in the first two), the
    same client and the same window, unless the 128-bit hash of their route keys
    or of their client ids collides. *)
Theorem rate_limit_counters_isolated (kp : string) (r r' : Route) (c c' : string) (w w' : Z) :
  ident_ok r = true -> ident_ok r' = true ->
  redisKey kp (route_key r) c w = redisKey kp (route_key r') c' w' ->
  (route_ident r = route_ident r' /\ c = c' /\ w = w') \/
  (route_key r <> route_key r' /\ hashKeyPart (route_key r) = hashKeyPart (route_key r')) \/
  (c <> c' /\ hashKeyPart c = hashKeyPart c').
Proof.
  intros Hr Hr' (Ek & Ec & ->)%redisKey_inj.
  destruct (decide (route_key r = route_key r')) as [E|]; [|by auto].
  destruct (decide (c = c')) as [->|]; [|by auto].
  left. split; [by apply route_key_inj|done].
Qed.

(** C8 at two routes that differ in their name only: their counters are apart. *)
Lemma rate_limit_counters_isolated_witness :
  let r := sample_route "api" "/api" in
  let r' := sample_route "other" "/api" in
  redisKey "k" (route_key r) "c" 5 <> redisKey "k" (route_key r') "c" 5.
Proof.
  intros r r' E.
  destruct (rate_limit_counters_isolated "k" r r' "c" "c" 5 5 eq_refl eq_refl E)
    as [(E1 & _)|[(_ & E1)|(E1 & _)]]; clear E.
  - discriminate E1.
  - vm_compute in E1. discriminate E1.
  - by apply E1.
Defined.

(** The request [CheckRateLimit] sends for an enabled route passes every guard of
    [Allow]: its key holds NUL bytes, so it is not blank, and its client id is
    trimmed and not empty. *)
Lemma route_key_not_blank r : blank (route_key r) = false.
Proof.
  destruct (blank (route_key r)) eqn:E; [|done].
  apply blank_bytes in E. unfold route_key, NUL in E.
  by rw !sapp_cons !all_bytes_app /= !andb_false_r in E.
Qed.

Definition check_call (now : Z) (route : Route) (clientID : string) : call :=
  mkCall now (mkRLReq (route_key route) (TrimSpace clientID) (rt_RateLimit route)).

Lemma check_call_valid now route clientID :
  clock_range now -> valid_policy (rt_RateLimit route) -> blank clientID = false ->
  valid_call (rl_Window (rt_RateLimit route)) (check_call now route clientID).
Proof.
  intros Hnow Hv Hb. split; [done|]. split; [done|]. split; [done|].
  split; [apply route_key_not_blank|]. cbn. by rw blank_TrimSpace.
Qed.

(** Past the guards the use case is the call of its limiter. *)
Lemma CheckRateLimit_on {RS} l route clientID (rs : RS) :
  rl_Enabled (rt_RateLimit route) = true -> valid_policy (rt_RateLimit route) ->
  blank clientID = false ->
  CheckRateLimit l route clientID rs =
  match l with
  | None => (Err ErrRateLimiterNotConfigured, rs)
  | Some allow => allow (mkRLReq (route_key route) (TrimSpace clientID) (rt_RateLimit route)) rs
  end.
Proof.
  intros He Hv Hb. unfold CheckRateLimit.
  assert ((rl_Limit (rt_RateLimit route) <=? 0) || (rl_Window (rt_RateLimit route) <=? 0) = false) as ->
    by (destruct Hv; unfold_time; lia).
  rw He /=. unfold blank in Hb. by rw Hb.
Qed.

(** The use case and the limiter compose: for a route whose policy is on,
    with a positive limit and a window of at least a millisecond, and a client id
    that is not blank, [CheckRateLimit] over the limiter is one call of the
    window counter, with a request that meets all the preconditions of the
    counter; with the policy off the limiter is not consulted, and a blank client
    or an invalid policy is an error that counts nothing. *)
Theorem CheckRateLimit_one_call {RS} (kp : string) (eval : string -> Z -> RS -> res reply * RS)
    (now : Z) (rs : RS) (route : Route) (clientID : string) :
  clock_range now ->
  let p := rt_RateLimit route in
  (rl_Enabled p = true -> valid_policy p -> blank clientID = false ->
   valid_call (rl_Window p) (check_call now route clientID) /\
   CheckRateLimit (Some (Allow kp eval now)) route clientID rs =
     Allow kp eval now (c_req (check_call now route clientID)) rs) /\
  (rl_Enabled p = false -> forall l,
   CheckRateLimit l route clientID rs = (Ok (mkRLRes false true 0 0 time_zero 0), rs)) /\
  (rl_Enabled p = true -> valid_policy p -> blank clientID = true -> forall l,
   CheckRateLimit l route clientID rs = (Err ErrInvalidRateLimitClient, rs)) /\
  (rl_Enabled p = true -> rl_Limit p <= 0 \/ rl_Window p <= 0 -> forall l,
   CheckRateLimit l route clientID rs = (Err ErrInvalidRateLimitPolicy, rs)).
Proof.
  intros Hnow p. split; [|split; [|split]].
  - intros He Hv Hb. split; [by apply check_call_valid|]. by rw CheckRateLimit_on.
  - intros Hd l. unfold CheckRateLimit. fold p. by rw Hd.
  - intros He Hv Hb l. unfold CheckRateLimit. fold p.
    assert ((rl_Limit p <=? 0) || (rl_Window p <=? 0) = false) as ->
      by (destruct Hv; unfold_time; lia).
    rw He /=. unfold blank in Hb. by rw Hb.
  - intros He Hor l. unfold CheckRateLimit. fold p. rw He /=.
    by replace ((rl_Limit p <=? 0) || (rl_Window p <=? 0)) with true by lia.
Qed.

(** At a route limited to two requests per ten seconds. *)
Lemma CheckRateLimit_one_call_witness :
  let route := mkRoute "p" "api" "/api" "http://u" true Second false sample_policy in
  valid_call (10 * Second) (check_call (of_UnixMilli 1000) route " user:1 ") /\
  is_ok (CheckRateLimit (Some (Allow "k" (redisEvaluator_Eval 1000) (of_UnixMilli 1000)))
           route " user:1 " (∅ : gmap string key_state)).1 = true.
Proof.
  intros route.
  destruct (CheckRateLimit_one_call "k" (redisEvaluator_Eval 1000) (of_UnixMilli 1000)
    (∅ : gmap string key_state) route " user:1 ") as [[Hv Hc] _].
  - unfold clock_range, of_UnixMilli. unfold_time. lia.
  - done.
  - unfold valid_policy. cbn. unfold_time. lia.
  - by vm_compute.
  - split; [exact Hv|]. rw Hc. by vm_compute.
Defined.

(** C9: What a client is told is consistent: for a counter value of at least one
    and a time to live within the window, [Remaining] is between 0 and the limit,
    is 0 for a refused request, the reset time is in the future and at most one
    window away, and [RetryAfter] is a positive duration that reaches it. *)
Theorem allow_result_bounds (req : RateLimitRequest) (now current redisTTL : Z) :
  clock_range now -> valid_policy (rq_Policy req) -> 1 <= current ->
  redisTTL <= Milliseconds (rl_Window (rq_Policy req)) ->
  let r := allow_result req now (window_reset now (Milliseconds (rl_Window (rq_Policy req))))
             (current, redisTTL) in
  0 <= rs_Remaining r < rs_Limit r /\
  (rs_Allowed r = false -> rs_Remaining r = 0) /\
  now < rs_ResetAt r <= now + rl_Window (rq_Policy req) /\
  Millisecond <= rs_RetryAfter r <= rl_Window (rq_Policy req) /\
  rs_ResetAt r <= now + rs_RetryAfter r.
Proof.
  intros Hnow Hp Hc Httl. pose proof Hp as [Hl Hw].
  destruct (window_ms_bounds _ Hp) as [Hm1 Hm2].
  destruct (currentWindow_bounds _ _ Hnow Hp) as [[He1 He2] _].
  unfold allow_result. rw (window_reset_eq _ _ Hnow Hp).
  set (wms := Milliseconds (rl_Window (rq_Policy req))) in *.
  set (e := (currentWindow now wms + 1) * wms) in *.
  assert (He : e <= UnixMilli now + wms) by (unfold e; nia).
  cbn. set (reset := if 0 <? redisTTL then _ else _).
  assert (Hr : now < reset <= now + rl_Window (rq_Policy req)).
  { unfold reset. destruct (Z.ltb_spec 0 redisTTL).
    + unfold Add. rw wrap64_id; [unfold int64_range; unfold_time; lia|unfold_time; lia].
    + unfold of_UnixMilli, UnixMilli in *. unfold_time. lia. }
  split; [|split]; [| |split; [done|]].
  - destruct (Z.ltb_spec current (rl_Limit (rq_Policy req))); [|lia].
    rw wrap64_id; [unfold int64_range; unfold_time; lia|lia].
  - intros Hf%Z.leb_gt. destruct (Z.ltb_spec current (rl_Limit (rq_Policy req))); lia.
  - rw Sub_exact; [unfold int64_range; unfold_time; lia|].
    unfold maxDuration. destruct (Z.ltb_spec Millisecond (reset - now)); unfold_time; lia.
Qed.

(** C9 at the third request of a limit of two. *)
Lemma allow_result_bounds_witness :
  let req := mkRLReq "r" "c" sample_policy in
  let now := of_UnixMilli 1000 in
  let r := allow_result req now (window_reset now 10000) (3, 9000) in
  rs_Allowed r = false /\ rs_Remaining r = 0 /\ Millisecond <= rs_RetryAfter r <= 10 * Second.
Proof.
  intros req now r.
  destruct (allow_result_bounds req now 3 9000) as (_ & Hrem & _ & Hretry & _).
  - unfold clock_range, now, of_UnixMilli. unfold_time. lia.
  - unfold valid_policy. cbn. unfold_time. lia.
  - lia.
  - by vm_compute.
  - split; [done|]. split; [by apply Hrem|exact Hretry].
Defined.
