(* ===== verification/RouteSources.v ===== *)
(** Where the gateway's routes come from: the control-plane client of
    internal/gateway/infrastructure/controlplane (dto.go, client.go) and the YAML
    file of internal/gateway/infrastructure/config.

    The HTTP exchange, url.Parse and the YAML decoder are parameters, the JSON decoder
    is an instance of [JSONDecoder] (Wire.v); everything the package does with their
    results is here. *)
From Stdlib Require Import Ascii ZArith Lia.
From Corelib Require Import ssreflect.
From stdpp Require Import base gmap strings list numbers pretty.
From S2P Require Import Prelude GoStrings GoTime GoNet GatewayRoutes RateLimit.

#[local] Open Scope Z_scope.

(** ** Wire format (controlplane/dto.go) *)

Record routeResponse := mkRouteResponse {
  rr_ProjectID : string;
  rr_Name : string;
  rr_PathPrefix : string;
  rr_UpstreamURL : string;
  rr_StripPrefix : bool;
  rr_TimeoutMS : Z;
  rr_AuthRequired : bool;
  rr_RateLimitEnabled : bool;
  rr_RateLimitRequests : Z;
  rr_RateLimitWindowSeconds : Z
}.

Definition normalizePathPrefix (pathPrefix : string) : string :=
  let pathPrefix := TrimSpace pathPrefix in
  if bool_decide (pathPrefix = "/") then pathPrefix else TrimRight pathPrefix slash.

Definition toRateLimitPolicy (r : routeResponse) : res RateLimitPolicy :=
  if negb (rr_RateLimitEnabled r) then
    if negb (rr_RateLimitRequests r =? 0) || negb (rr_RateLimitWindowSeconds r =? 0) then
      Err (Opaque "disabled rate limit must have zero requests and window")
    else Ok zero_policy
  else if rr_RateLimitRequests r <=? 0 then
    Err (Opaque "rate_limit_requests must be greater than zero")
  else if rr_RateLimitWindowSeconds r <=? 0 then
    Err (Opaque "rate_limit_window_seconds must be greater than zero")
  else Ok (mkPolicy true (rr_RateLimitRequests r) (wrap64 (rr_RateLimitWindowSeconds r * Second))).

(** The test on a parsed upstream URL. *)
Definition http_scheme (u : URL) : bool :=
  bool_decide (u_Scheme u = "http") || bool_decide (u_Scheme u = "https").

Definition toDomain `{NetURL} (r : routeResponse) : res Route :=
  let projectID := TrimSpace (rr_ProjectID r) in
  if bool_decide (projectID = "") then Err (Opaque "project_id is required") else
  let name := TrimSpace (rr_Name r) in
  if bool_decide (name = "") then Err (Opaque "name is required") else
  let pathPrefix := normalizePathPrefix (rr_PathPrefix r) in
  if bool_decide (pathPrefix = "") || negb (HasPrefix pathPrefix "/") then
    Err (Opaque "path prefix must start with /") else
  let upstreamURL := TrimSpace (rr_UpstreamURL r) in
  match url_Parse upstreamURL with
  | Err e => Err (wrapf "parse upstream url" e)
  | Ok parsedUpstream =>
    if negb (http_scheme parsedUpstream) || bool_decide (u_Host parsedUpstream = "") then
      Err (Opaque "upstream url must be an absolute http or https url")
    else if rr_TimeoutMS r <=? 0 then Err (Opaque "timeout_ms must be greater than zero")
    else
      rateLimit ← toRateLimitPolicy r;
      Ok (mkRoute projectID name pathPrefix upstreamURL (rr_StripPrefix r)
            (wrap64 (rr_TimeoutMS r * Millisecond)) (rr_AuthRequired r) rateLimit)
  end.

(** The loop of [responseToDomain] from index [i], with the set of prefixes seen
    and the routes appended so far. *)
Fixpoint responseToDomain_loop `{NetURL} `{UnicodeTables} (i : Z) (pathPrefixes : gset string)
    (routes : list Route) (response : list routeResponse) : res (list Route) :=
  match response with
  | [] => Ok routes
  | item :: response' =>
    match toDomain item with
    | Err e => Err (wrapf ("invalid route at index " +:+ Itoa i) e)
    | Ok route =>
      if bool_decide (rt_PathPrefix route ∈ pathPrefixes) then
        Err (Opaque ("invalid route at index " +:+ Itoa i +:+ ": duplicate path prefix " +:+
                     strconv_Quote (rt_PathPrefix route)))
      else responseToDomain_loop (i + 1) ({[rt_PathPrefix route]} ∪ pathPrefixes)
             (routes ++ [route]) response'
    end
  end.

Definition responseToDomain `{NetURL} `{UnicodeTables} (response : list routeResponse)
    : res (list Route) :=
  responseToDomain_loop 0 ∅ [] response.

(** ** Client (controlplane/client.go) *)

Definition routesPath : string := "internal/v1/routes".
Definition maxResponseSize : N := 1048576.

(** [New]: the URL the client requests. *)
Definition New_client `{NetURL} (baseURL : string) : res string :=
  let baseURL := TrimSpace baseURL in
  if bool_decide (baseURL = "") then Err (Opaque "control plane base url is required") else
  match url_Parse baseURL with
  | Err e => Err (wrapf "parse control plane base url" e)
  | Ok parsedURL =>
    if negb (http_scheme parsedURL) then Err (Opaque "control plane base url must use http or https")
    else if bool_decide (u_Host parsedURL = "") then
      Err (Opaque "control plane base url host is required")
    else match url_JoinPath (url_String parsedURL) routesPath with
         | Err e => Err (wrapf "build control plane routes url" e)
         | Ok routesURL => Ok routesURL
         end
  end.

Definition ensureJSONEOF (t : trailing) : res unit :=
  match t with
  | AtEOF => Ok tt
  | Malformed e => Err (wrapf "decode trailing control plane routes response" e)
  | MoreValues => Err (Opaque "control plane routes response contains multiple json values")
  end.

(** [ListRoutes] on the outcome of [http.NewRequest] and of [httpClient.Do]. *)
Definition client_ListRoutes `{NetURL} `{UnicodeTables} `{JSONDecoder (list routeResponse)}
    (newRequest : res unit) (Do : res Response) : res (list Route) :=
  match newRequest with
  | Err e => Err (wrapf "create routes request" e)
  | Ok _ =>
    match Do with
    | Err e => Err (wrapf "request control plane routes" e)
    | Ok res =>
      if negb (res_StatusCode res =? 200) then
        match ReadAll (LimitReader (res_Body res) maxResponseSize) with
        | Err e => Err (wrapf ("control plane routes returned status " +:+ Itoa (res_StatusCode res)
                               +:+ " and response body could not be read") e)
        | Ok body =>
          let message := TrimSpace body in
          if bool_decide (message = "") then
            Err (Opaque ("control plane routes returned status " +:+ Itoa (res_StatusCode res)))
          else Err (Opaque ("control plane routes returned status " +:+ Itoa (res_StatusCode res)
                            +:+ ": " +:+ message))
        end
      else
        match json_Decode (LimitReader (res_Body res) maxResponseSize) with
        | Err e => Err (wrapf "decode control plane routes response" e)
        | Ok (response, rest) =>
          _ ← ensureJSONEOF (json_more rest);
          responseToDomain response
        end
    end
  end.

(** ** YAML configuration (gateway/infrastructure/config/yaml_loader.go) *)

Record RouteConfig := mkRouteConfig {
  rc_ProjectID : string;
  rc_Name : string;
  rc_PathPrefix : string;
  rc_UpstreamURL : string;
  rc_StripPrefix : bool;
  rc_TimeoutMS : Z;
  rc_AuthRequired : bool;
  rc_RateLimitEnabled : bool;
  rc_RateLimitRequests : Z;
  rc_RateLimitWindowSeconds : Z
}.

Record YamlConfig := mkYaml {
  yc_Addr : string;
  yc_Routes : list RouteConfig
}.

(** [Load] on the results of os.ReadFile and yaml.Unmarshal. *)
Definition Load_yaml (readFile : res string) (unmarshal : string -> res YamlConfig) : res YamlConfig :=
  data ← readFile;
  cfg ← unmarshal data;
  Ok (if bool_decide (yc_Addr cfg = "") then mkYaml ":8080" (yc_Routes cfg) else cfg).

Definition yaml_route (route : RouteConfig) : Route :=
  let timeout := wrap64 (rc_TimeoutMS route * Millisecond) in
  let timeout := if timeout <=? 0 then 5 * Second else timeout in
  let rateLimit :=
    if rc_RateLimitEnabled route && (0 <? rc_RateLimitRequests route)
       && (0 <? rc_RateLimitWindowSeconds route)
    then mkPolicy true (rc_RateLimitRequests route) (wrap64 (rc_RateLimitWindowSeconds route * Second))
    else zero_policy in
  mkRoute (rc_ProjectID route) (rc_Name route) (rc_PathPrefix route) (rc_UpstreamURL route)
    (rc_StripPrefix route) timeout (rc_AuthRequired route) rateLimit.

Definition DomainRoutes (c : YamlConfig) : list Route := yaml_route <$> yc_Routes c.

(** ** Lemmas *)

Lemma normalizePathPrefix_normal p :
  HasPrefix (normalizePathPrefix p) "/" = true -> normal_prefix (normalizePathPrefix p).
Proof.
  unfold normal_prefix, normalizePathPrefix. case_bool_decide as E; [by auto|].
  intros H. split; [done|]. right. apply TrimRight_not_ends.
Qed.

Lemma normal_prefix_not_nil p : normal_prefix p -> p <> "".
Proof. by intros [H _] ->. Qed.

(** A stored, already normalised prefix comes out unchanged. *)
Lemma normalizePathPrefix_id p :
  normal_prefix p -> TrimSpace p = p -> normalizePathPrefix p = p.
Proof.
  intros [H Hs] Ht. unfold normalizePathPrefix. rw Ht.
  case_bool_decide as E; [done|]. destruct Hs as [?|Hs]; [done|]. by apply TrimRight_id.
Qed.

(** Wire integers of 32 bits, as the control plane's columns hold. *)
Definition wire_range (r : routeResponse) : Prop :=
  rr_TimeoutMS r <= max_int32 /\ rr_RateLimitRequests r <= max_int32 /\
  rr_RateLimitWindowSeconds r <= max_int32.

(** What the gateway relies on of a route: a trimmed identity, a normalised
    prefix, an absolute http(s) upstream, a positive timeout and a policy that is
    off or valid. *)
Record route_ok `{NetURL} (r : Route) : Prop := {
  ro_project : rt_ProjectID r <> "" /\ TrimSpace (rt_ProjectID r) = rt_ProjectID r;
  ro_name : rt_Name r <> "" /\ TrimSpace (rt_Name r) = rt_Name r;
  ro_prefix : normal_prefix (rt_PathPrefix r);
  ro_upstream : exists u, url_Parse (rt_UpstreamURL r) = Ok u /\ http_scheme u = true /\ u_Host u <> "";
  ro_timeout : Millisecond <= rt_Timeout r <= max_int64;
  ro_policy : rt_RateLimit r = zero_policy \/
              (rl_Enabled (rt_RateLimit r) = true /\ valid_policy (rt_RateLimit r));
}.

Lemma toRateLimitPolicy_ok r p :
  wire_range r -> toRateLimitPolicy r = Ok p ->
  p = zero_policy \/ (rl_Enabled p = true /\ valid_policy p).
Proof.
  intros (_ & H1 & H2). unfold toRateLimitPolicy.
  destruct (rr_RateLimitEnabled r); cbn [negb].
  - destruct (Z.leb_spec (rr_RateLimitRequests r) 0); [done|].
    destruct (Z.leb_spec (rr_RateLimitWindowSeconds r) 0); [done|].
    intros [= <-]. right. split; [done|]. unfold valid_policy. cbn -[Z.mul].
    unfold max_int32 in *. rw wrap64_id; [unfold int64_range; unfold_time; lia|].
    unfold_time. lia.
  - destruct (_ || _); [done|]. intros [= <-]. by left.
Qed.

(** The guards of [toDomain], each met. *)
Lemma toDomain_Ok `{NetURL} r route :
  toDomain r = Ok route <->
  exists u p,
    TrimSpace (rr_ProjectID r) <> "" /\ TrimSpace (rr_Name r) <> "" /\
    HasPrefix (normalizePathPrefix (rr_PathPrefix r)) "/" = true /\
    url_Parse (TrimSpace (rr_UpstreamURL r)) = Ok u /\ http_scheme u = true /\ u_Host u <> "" /\
    0 < rr_TimeoutMS r /\ toRateLimitPolicy r = Ok p /\
    route = mkRoute (TrimSpace (rr_ProjectID r)) (TrimSpace (rr_Name r))
              (normalizePathPrefix (rr_PathPrefix r)) (TrimSpace (rr_UpstreamURL r))
              (rr_StripPrefix r) (wrap64 (rr_TimeoutMS r * Millisecond)) (rr_AuthRequired r) p.
Proof.
  unfold toDomain. split.
  - do 2 (case_bool_decide; [done|]).
    destruct (bool_decide _ || negb _) eqn:Ep; [done|].
    apply orb_false_elim in Ep as [_ Ep%negb_false_iff].
    destruct (url_Parse _) as [u|] eqn:Eu; [|done].
    destruct (negb _ || bool_decide _) eqn:Eh; [done|].
    apply orb_false_elim in Eh as [Eh1%negb_false_iff Eh2%bool_decide_eq_false_1].
    destruct (Z.leb_spec (rr_TimeoutMS r) 0) as [|Ht]; [done|].
    destruct (toRateLimitPolicy r) as [p|] eqn:Er; [|done]. intros [= <-]. by exists u, p.
  - intros (u & p & H1 & H2 & H3 & -> & H4 & H5 & H6 & -> & ->).
    assert (H0 : normalizePathPrefix (rr_PathPrefix r) <> "") by (intros E; by rw E in H3).
    rw (bool_decide_eq_false_2 _ H1) (bool_decide_eq_false_2 _ H2) (bool_decide_eq_false_2 _ H0) H3 /=.
    rw H4 (bool_decide_eq_false_2 _ H5) /=. by rw (proj2 (Z.leb_gt _ _) H6).
Qed.

Lemma toDomain_ok `{NetURL} r route :
  wire_range r -> toDomain r = Ok route -> route_ok route.
Proof.
  intros Hw (u & p & H1 & H2 & H3 & H4 & H5 & H6 & H7 & H8 & ->)%toDomain_Ok.
  pose proof (toRateLimitPolicy_ok _ _ Hw H8) as Hp. destruct Hw as [Ht' _].
  split; cbn [rt_ProjectID rt_Name rt_PathPrefix rt_UpstreamURL rt_Timeout rt_RateLimit].
  - by rw TrimSpace_idemp.
  - by rw TrimSpace_idemp.
  - by apply normalizePathPrefix_normal.
  - eauto.
  - unfold max_int32 in *. rw wrap64_id; [unfold int64_range; unfold_time; lia|].
    unfold_time. lia.
  - done.
Qed.

(** The loop succeeds exactly when every item converts and the prefixes are
    pairwise distinct; its result is the list of conversions. *)
Lemma responseToDomain_loop_spec `{NetURL} `{UnicodeTables} response i seen acc routes :
  responseToDomain_loop i seen acc response = Ok routes <->
  exists new, routes = acc ++ new /\ Forall2 (fun item r => toDomain item = Ok r) response new /\
    NoDup (rt_PathPrefix <$> new) /\ Forall (fun r => rt_PathPrefix r ∉ seen) new.
Proof.
  revert i seen acc. induction response as [|item response IH]; intros i seen acc; cbn.
  - split.
    + intros [= <-]. exists []. rw app_nil_r. by repeat constructor.
    + intros (new & -> & Hf & _). inversion Hf. by rw app_nil_r.
  - destruct (toDomain item) as [route|e] eqn:E.
    2:{ split; [done|]. intros (new & _ & Hf & _). inversion Hf; subst. congruence. }
    case_bool_decide as Hin.
    { split; [done|]. intros (new & _ & Hf & _ & Hs). inversion Hf; subst.
      apply Forall_cons in Hs as [Hs _]. destruct Hs. congruence. }
    rw IH. split.
    + intros (new & -> & Hf & Hn & Hs). exists (route :: new).
      rw -app_assoc. split; [done|]. split; [by constructor|].
      rw list.Forall_forall in Hs. split; cbn.
      * constructor; [|done]. intros (r & Hr & Hin')%list_elem_of_fmap.
        specialize (Hs r Hin'). set_solver.
      * constructor; [done|]. apply list.Forall_forall. set_solver.
    + intros (new & -> & Hf & Hn & Hs). inversion Hf as [|? r ? new' Hr Hf']; subst.
      assert (r = route) as -> by congruence. cbn in Hn. apply NoDup_cons in Hn as [Hn1 Hn2].
      apply Forall_cons in Hs as [_ Hs]. exists new'. rw -app_assoc.
      split; [done|]. split; [done|]. split; [done|].
      rw list.Forall_forall in Hs. apply list.Forall_forall. intros r' Hr' [?%elem_of_singleton|?]%elem_of_union.
      * apply Hn1, list_elem_of_fmap. exists r'. by split.
      * by apply (Hs r').
Qed.

Lemma responseToDomain_spec `{NetURL} `{UnicodeTables} response routes :
  responseToDomain response = Ok routes <->
  Forall2 (fun item r => toDomain item = Ok r) response routes /\ NoDup (rt_PathPrefix <$> routes).
Proof.
  unfold responseToDomain. rw responseToDomain_loop_spec. split.
  - intros (new & -> & Hf & Hn & _). by split.
  - intros [Hf Hn]. exists routes. repeat split; [done..|].
    apply list.Forall_forall. set_solver.
Qed.

Lemma client_ListRoutes_Ok `{NetURL} `{UnicodeTables} `{JSONDecoder (list routeResponse)} nr d routes :
  client_ListRoutes nr d = Ok routes ->
  exists body rest response, d = Ok (mkResponse 200 body) /\
    json_Decode (LimitReader body maxResponseSize) = Ok (response, rest) /\
    json_more rest = AtEOF /\ responseToDomain response = Ok routes.
Proof.
  unfold client_ListRoutes. destruct nr; [|done]. destruct d as [[code body]|]; [|done].
  cbn [res_StatusCode res_Body]. destruct (Z.eqb_spec code 200) as [->|]; cbn [negb].
  - destruct (json_Decode _) as [[response rest]|] eqn:E; [|done]. cbn.
    destruct (json_more rest) eqn:Em; cbn; try done. intros Hr. naive_solver.
  - by destruct (ReadAll _); [case_bool_decide|].
Qed.

(** ** Properties *)


(** A decoder that returns a fixed response, and tables for ASCII. *)
Definition const_decoder {A} (a : A) : JSONDecoder A := {|
  json_Decode s := Ok (a, mkStream "" None);
  json_more s := AtEOF;
|}.
Definition ascii_tables : UnicodeTables := {|
  unicode_lower s := s; unicode_upper s := s; strconv_Quote s := s
|}.

Definition sample_response : list routeResponse :=
  [ mkRouteResponse "project-1" " api " "/api/ " "http://orders:8080" true 3000 true true 100 60;
    mkRouteResponse "project-1" "root" "/" "https://web" false 1000 false false 0 0 ].

