(* ===== verification/Postgres.v ===== *)
(** What the repositories rely on of PostgreSQL and pgx: the errors of failed
    statements, the casts and encodings of parameters, and ORDER BY.

    A table is the list of its rows in insertion order; the statements of the
    repositories are functions on tables in the files of the components, which
    check the constraints of the migrations.  A statement takes a [fault]: the
    error of a statement that fails for a reason outside the program (connection,
    timeout, cancellation), in which case nothing is written.  A statement that took effect
    but whose reply was lost needs no case of its own in the step relations: their steps
    are the effects on the tables, whatever the caller learns. *)
From Stdlib Require Import Ascii ZArith Lia String.
From Corelib Require Import ssreflect.
From stdpp Require Import base strings list numbers pretty.
From S2P Require Import Prelude GoStrings GoTime GoEncoding Events.

#[local] Open Scope Z_scope.

(** ** Errors and parameters *)

Definition fault : Type := option error.

(** Run a statement unless it faults. *)
Definition with_fault {A} (f : fault) (r : res A) : res A :=
  match f with Some e => Err e | None => r end.

Definition unique_violation (constraint : string) : error :=
  PgError "23505" constraint "duplicate key value violates unique constraint".
Definition foreign_key_violation (constraint : string) : error :=
  PgError "23503" constraint "insert or update violates foreign key constraint".
Definition check_violation (constraint : string) : error :=
  PgError "23514" constraint "new row violates check constraint".
Definition invalid_uuid : error := PgError "22P02" "" "invalid input syntax for type uuid".
Definition invalid_text : error := PgError "22021" "" "invalid byte sequence for encoding".
Definition int4_overflow : error := Opaque "value is out of range for int4".

(** [$n::uuid]: the canonical text of the UUID a string denotes. *)
Class PgUUID := { pg_uuid : string -> option string }.

(** Documented: the text of a UUID is in its canonical form, which denotes the
    same UUID. *)
Class PgUUIDLaws `{PgUUID} := {
  pg_uuid_canonical s u : pg_uuid s = Some u -> isCanonicalUUID u = true;
  pg_uuid_text s u : pg_uuid s = Some u -> pg_uuid u = Some u;
}.

(** The text of a UUID the database made. *)
Definition uuid_text `{PgUUID} (s : string) : Prop := pg_uuid s = Some s.

Definition cast_uuid `{PgUUID} (s : string) : res string :=
  match pg_uuid s with Some u => Ok u | None => Err invalid_uuid end.

(** TEXT is well-formed UTF-8 without a NUL byte; INT holds 32 bits. *)
Definition pg_text (s : string) : bool := no_byte "000"%char s && utf8_valid s.
Definition encode_text (s : string) : res string :=
  if pg_text s then Ok s else Err invalid_text.
Definition encode_int4 (z : Z) : res Z :=
  if bool_decide (int32_range z) then Ok z else Err int4_overflow.

Lemma encode_text_Ok s s' : encode_text s = Ok s' -> s' = s /\ pg_text s = true.
Proof. unfold encode_text. destruct (pg_text s) eqn:E; naive_solver. Qed.

Lemma token_pg_text s : all_bytes token_byte s = true -> pg_text s = true.
Proof.
  intros Hs. unfold pg_text. apply andb_true_iff. split.
  - eapply all_bytes_impl; [|exact Hs]. intros a Ha. apply negb_true_iff, Ascii.eqb_neq. by intros ->.
  - apply utf8_ascii. eapply all_bytes_impl; [|exact Hs]. intros a.
    destruct a as [[] [] [] [] [] [] [] []]; vm_compute; congruence.
Qed.
Lemma encode_int4_Ok z z' : encode_int4 z = Ok z' -> z' = z /\ int32_range z.
Proof. unfold encode_int4. case_bool_decide; naive_solver. Qed.

(** [pgx.ErrNoRows]: Scan of an empty result. *)
Definition ErrNoRows : error := Sentinel "pgx.ErrNoRows" "no rows in result set".

Definition query_row {A} (row : option A) : res A :=
  match row with Some a => Ok a | None => Err ErrNoRows end.

(** [errors.As(err, &pgErr)]: the first PgError of the wrapping tree. *)
Fixpoint as_pg (e : error) : option (string * string) :=
  match e with
  | PgError code constraint _ => Some (code, constraint)
  | Wrap _ causes =>
    (fix first (l : list error) : option (string * string) :=
       match l with
       | [] => None
       | c :: l' => match as_pg c with Some x => Some x | None => first l' end
       end) causes
  | PermanentError inner => as_pg inner
  | _ => None
  end.

(** TIMESTAMPTZ holds microseconds. *)
Definition pg_time (t : Z) : Z := Truncate t Microsecond.

(** UPDATE ... WHERE p RETURNING: the rows rewritten, [None] when none matches. *)
Definition update_where {A} (p : A -> bool) (f : A -> A) (l : list A) : option (list A) :=
  if existsb p l then Some (map (fun a => if p a then f a else a) l) else None.

(** The outcome of COMMIT: after an error the transaction may or may not have
    been applied. *)
Inductive commit_outcome :=
| Committed
| CommitFailed (e : error) (applied : bool).

Lemma with_fault_Ok {A} f (r : res A) a : with_fault f r = Ok a <-> f = None /\ r = Ok a.
Proof. destruct f; naive_solver. Qed.
Lemma query_row_Ok {A} (o : option A) a : query_row o = Ok a <-> o = Some a.
Proof. destruct o; naive_solver. Qed.

(** ** Constraints *)

Lemma existsb_false {A} (f : A -> bool) l :
  existsb f l = false <-> forall a, a ∈ l -> f a = false.
Proof.
  rw -not_true_iff_false existsb_exists. split.
  - intros Hn a Ha. destruct (f a) eqn:E; [|done]. destruct Hn. exists a.
    by rw -list_elem_of_In.
  - intros Hf (a & Ha & E). apply list_elem_of_In in Ha. by rw (Hf a Ha) in E.
Qed.

Lemma existsb_key {A K} `{EqDecision K} (key : A -> K) k l :
  existsb (fun a => bool_decide (key a = k)) l = false <-> k ∉ (key <$> l).
Proof.
  rw existsb_false list_elem_of_fmap. split.
  - intros Hf (a & -> & Ha). specialize (Hf a Ha). by apply bool_decide_eq_false_1 in Hf.
  - intros Hn a Ha. apply bool_decide_eq_false_2. intros <-. apply Hn. by exists a.
Qed.

Lemma existsb_key2 {A K L} `{EqDecision K, EqDecision L} (f : A -> K) (g : A -> L) k m l :
  existsb (fun a => bool_decide (f a = k) && bool_decide (g a = m)) l = false <->
  (k, m) ∉ ((fun a => (f a, g a)) <$> l).
Proof.
  rw -(existsb_key (fun a => (f a, g a)) (k, m)) !existsb_false.
  split; intros Hf a Ha; specialize (Hf a Ha).
  - apply bool_decide_eq_false_2. intros [= E1 E2]. by rw !bool_decide_eq_true_2 in Hf.
  - apply bool_decide_eq_false_1 in Hf. do 2 case_bool_decide; naive_solver.
Qed.

Lemma NoDup_snoc {A} (l : list A) a : NoDup l -> a ∉ l -> NoDup (l ++ [a]).
Proof.
  intros Hl Ha. apply NoDup_app. split; [done|]. split; [|apply NoDup_singleton].
  intros b Hb ->%list_elem_of_singleton. done.
Qed.

(** ** Tables that evolve *)

(** Rows stay at their place and change by [R] only; new rows are appended. *)
Definition evolves {A} (R : A -> A -> Prop) (l l' : list A) : Prop :=
  forall i a, l !! i = Some a -> exists b, l' !! i = Some b /\ R a b.

Section evolves.
Context {A : Type} (R : A -> A -> Prop) `{!PreOrder R}.

Lemma evolves_refl l : evolves R l l.
Proof. intros i a H. by exists a. Qed.

Lemma evolves_trans l1 l2 l3 : evolves R l1 l2 -> evolves R l2 l3 -> evolves R l1 l3.
Proof.
  intros H12 H23 i a Ha. destruct (H12 i a Ha) as (b & Hb & Rab).
  destruct (H23 i b Hb) as (c & Hc & Rbc). exists c. split; [done|]. by etrans.
Qed.

Lemma evolves_snoc l a : evolves R l (l ++ [a]).
Proof. intros i b Hb. exists b. split; [by apply lookup_app_l_Some|done]. Qed.

Lemma evolves_update p f l l' :
  (forall a, R a (f a)) -> update_where p f l = Some l' -> evolves R l l'.
Proof.
  unfold update_where. intros Hf. destruct (existsb p l); [|done]. intros [= <-] i a Ha.
  exists (if p a then f a else a). split; [|by destruct (p a)].
  change (map ?g l) with (g <$> l). by rw list_lookup_fmap Ha.
Qed.
End evolves.

(** An update that keeps a column keeps the whole column. *)
Lemma update_column {A K} (key : A -> K) p f l l' :
  (forall a, key (f a) = key a) -> update_where p f l = Some l' -> key <$> l' = key <$> l.
Proof.
  unfold update_where. intros Hf. destruct (existsb p l); [|done]. intros [= <-].
  change (map ?g l) with (g <$> l). rw -list_fmap_compose. apply list_fmap_ext.
  intros i a _. cbn. by destruct (p a).
Qed.

Lemma update_where_Some {A} p (f : A -> A) l l' :
  update_where p f l = Some l' -> exists a, a ∈ l /\ p a = true.
Proof.
  unfold update_where. destruct (existsb p l) eqn:E; [|done]. intros _.
  apply existsb_exists in E as (a & Ha & Hp). exists a. by rw list_elem_of_In.
Qed.

Lemma update_where_lookup {A} p (f : A -> A) l l' i a :
  update_where p f l = Some l' -> l !! i = Some a -> l' !! i = Some (if p a then f a else a).
Proof.
  unfold update_where. destruct (existsb p l); [|done]. intros [= <-] Hi.
  change (map ?g l) with (g <$> l). by rw list_lookup_fmap Hi.
Qed.

(** An update of the only row that satisfies its condition. *)
Lemma update_where_one {A} (p : A -> bool) f (l : list A) i a :
  l !! i = Some a -> p a = true -> (forall j b, l !! j = Some b -> p b = true -> j = i) ->
  update_where p f l = Some (<[i := f a]> l).
Proof.
  intros Hi Hp Hu. unfold update_where. destruct (existsb p l) eqn:E.
  - f_equal. apply list_eq. intros j. change (map ?g l) with (g <$> l). rw list_lookup_fmap.
    destruct (decide (i = j)) as [<-|Hne].
    + rw list_lookup_insert_eq; [by eapply lookup_lt_Some|]. by rw Hi /= Hp.
    + rw list_lookup_insert_ne //. destruct (l !! j) as [b|] eqn:Hj; [|done]. cbn.
      destruct (p b) eqn:Hb; [|done]. by destruct (Hne (eq_sym (Hu j b Hj Hb))).
  - apply existsb_false with (a := a) in E; [congruence|]. by eapply list_elem_of_lookup_2.
Qed.

(** A unique column identifies a row. *)
Lemma unique_row {A K} (key : A -> K) l i j a b :
  NoDup (key <$> l) -> l !! i = Some a -> l !! j = Some b -> key a = key b -> i = j.
Proof.
  intros Hnd Ha Hb E. apply (NoDup_lookup _ i j (key a) Hnd); rw list_lookup_fmap.
  - by rw Ha.
  - by rw Hb E.
Qed.

Lemma find_unique {A K} `{EqDecision K} (key : A -> K) l i a :
  NoDup (key <$> l) -> l !! i = Some a ->
  List.find (fun b => bool_decide (key b = key a)) l = Some a.
Proof.
  intros Hnd Ha. destruct (List.find _ l) as [b|] eqn:E.
  - apply List.find_some in E as [Hb E]. apply bool_decide_eq_true_1 in E. apply list_elem_of_In in Hb.
    apply list_elem_of_lookup in Hb as [j Hj].
    assert (i = j) as -> by (by eapply unique_row). congruence.
  - apply (List.find_none _ _) with (x := a) in E.
    + by rw bool_decide_eq_true_2 in E.
    + apply list_elem_of_In. by eapply list_elem_of_lookup_2.
Qed.

(** ** Sorting *)

(** created_at ASC, id ASC. *)
Definition by_created {A} (created : A -> Z) (id : A -> string) (a b : A) : bool :=
  (created a <? created b) || ((created a =? created b) && String.leb (id a) (id b)).

(** A UUID type that knows canonical texts only. *)
#[export] Instance canonical_uuids : PgUUID := {|
  pg_uuid s := if isCanonicalUUID s then Some s else None
|}.
#[export] Instance canonical_uuids_laws : PgUUIDLaws.
Proof. split; intros s u; cbn; destruct (isCanonicalUUID s) eqn:E; try done; intros [= <-]; by rw ?E. Qed.
