(* ===== verification/ControlPlane.v ===== *)
(** The control plane (internal/controlplane): domain constructors, use case,
    PostgreSQL repository with the constraints of migrations 000001-000003, and
    the HTTP handlers; and the snapshot it publishes to the gateway. *)
From Stdlib Require Import Ascii ZArith Lia String.
From Corelib Require Import ssreflect.
From stdpp Require Import base gmap strings list numbers pretty.
From S2P Require Import Prelude GoStrings GoTime GoNet Events Postgres GatewayRoutes RateLimit RouteSources.

#[local] Open Scope Z_scope.

Module CP.

(** ** Domain (controlplane/domain) *)

Definition ErrInvalidName : error := Sentinel "controlplane/domain.ErrInvalidName" "invalid name".
Definition ErrInvalidProjectID : error :=
  Sentinel "controlplane/domain.ErrInvalidProjectID" "invalid project id".
Definition ErrInvalidServiceID : error :=
  Sentinel "controlplane/domain.ErrInvalidServiceID" "invalid service id".
Definition ErrInvalidUpstreamURL : error :=
  Sentinel "controlplane/domain.ErrInvalidUpstreamURL" "invalid upstream url".
Definition ErrInvalidPathPrefix : error :=
  Sentinel "controlplane/domain.ErrInvalidPathPrefix" "invalid path prefix".
Definition ErrInvalidRateLimitRequests : error :=
  Sentinel "controlplane/domain.ErrInvalidRateLimitRequests" "invalid rate limit requests".
Definition ErrInvalidRateLimitWindow : error :=
  Sentinel "controlplane/domain.ErrInvalidRateLimitWindow" "invalid rate limit window".

Record Project := mkProject { p_ID : string; p_Name : string; p_CreatedAt : Z; p_UpdatedAt : Z }.

Definition NewProject (name : string) : res Project :=
  let name := TrimSpace name in
  if bool_decide (name = "") then Err ErrInvalidName
  else Ok (mkProject "" name time_zero time_zero).

Record Service := mkService {
  s_ID : string; s_ProjectID : string; s_Name : string; s_UpstreamURL : string;
  s_CreatedAt : Z; s_UpdatedAt : Z
}.

Definition NewService `{NetURL} (projectID name upstreamURL : string) : res Service :=
  let projectID := TrimSpace projectID in
  let name := TrimSpace name in
  let upstreamURL := TrimSpace upstreamURL in
  if bool_decide (projectID = "") then Err ErrInvalidProjectID
  else if bool_decide (name = "") then Err ErrInvalidName
  else match url_Parse upstreamURL with
       | Err _ => Err ErrInvalidUpstreamURL
       | Ok parsed =>
         if bool_decide (u_Scheme parsed = "") || bool_decide (u_Host parsed = "")
         then Err ErrInvalidUpstreamURL
         else Ok (mkService "" projectID name upstreamURL time_zero time_zero)
       end.

Record RateLimitPolicy := mkRatePolicy { rp_Enabled : bool; rp_Requests : Z; rp_WindowSeconds : Z }.

Definition NewRateLimitPolicy (enabled : bool) (requests windowSeconds : Z) : res RateLimitPolicy :=
  if negb enabled then Ok (mkRatePolicy false 0 0)
  else if requests <=? 0 then Err ErrInvalidRateLimitRequests
  else if windowSeconds <=? 0 then Err ErrInvalidRateLimitWindow
  else Ok (mkRatePolicy true requests windowSeconds).

Definition DefaultRouteTimeoutMS : Z := 3000.

Record Route := mkRoute {
  r_ID : string; r_ServiceID : string; r_Name : string; r_PathPrefix : string;
  r_StripPrefix : bool; r_TimeoutMS : Z; r_Enabled : bool; r_AuthRequired : bool;
  r_RateLimit : RateLimitPolicy; r_CreatedAt : Z; r_UpdatedAt : Z
}.

Definition NewRoute (serviceID name pathPrefix : string) (stripPrefix : bool) (timeoutMS : Z)
    (enabled authRequired : bool) (rateLimit : RateLimitPolicy) : res Route :=
  let serviceID := TrimSpace serviceID in
  let name := TrimSpace name in
  let pathPrefix := TrimSpace pathPrefix in
  if bool_decide (serviceID = "") then Err ErrInvalidServiceID
  else if bool_decide (name = "") then Err ErrInvalidName
  else if bool_decide (pathPrefix = "") || negb (HasPrefix pathPrefix "/") then Err ErrInvalidPathPrefix
  else
    let timeoutMS := if timeoutMS <=? 0 then DefaultRouteTimeoutMS else timeoutMS in
    rateLimit ← NewRateLimitPolicy (rp_Enabled rateLimit) (rp_Requests rateLimit)
                  (rp_WindowSeconds rateLimit);
    Ok (mkRoute "" serviceID name pathPrefix stripPrefix timeoutMS enabled authRequired rateLimit
          time_zero time_zero).

(** The read model published to the gateway (gateway_route.go). *)
Record GatewayRoute := mkGatewayRoute {
  g_ProjectID : string; g_Name : string; g_PathPrefix : string; g_UpstreamURL : string;
  g_StripPrefix : bool; g_TimeoutMS : Z; g_AuthRequired : bool; g_RateLimit : RateLimitPolicy
}.

(** ** Tables and statements (infrastructure/postgres, migrations) *)

Record db := mkDB { projects : list Project; services : list Service; routes : list Route }.
Definition empty_db : db := mkDB [] [] [].

Section repository.
Context `{PgUUID}.

(** [createProjectQuery]; [id] and [now] are the column defaults. *)
Definition insert_project (id : string) (now : Z) (name : string) (d : db) : res (Project * db) :=
  name ← encode_text name;
  if existsb (fun p => bool_decide (p_ID p = id)) (projects d) then
    Err (unique_violation "projects_pkey")
  else if existsb (fun p => bool_decide (p_Name p = name)) (projects d) then
    Err (unique_violation "projects_name_key")
  else
    let p := mkProject id name now now in
    Ok (p, mkDB (projects d ++ [p]) (services d) (routes d)).

(** [createServiceQuery]. *)
Definition insert_service (id : string) (now : Z) (projectID name upstreamURL : string) (d : db)
    : res (Service * db) :=
  projectID ← cast_uuid projectID;
  name ← encode_text name;
  upstreamURL ← encode_text upstreamURL;
  if existsb (fun s => bool_decide (s_ID s = id)) (services d) then
    Err (unique_violation "services_pkey")
  else if existsb (fun s => bool_decide (s_ProjectID s = projectID) && bool_decide (s_Name s = name)) (services d)
  then Err (unique_violation "services_project_id_name_key")
  else if negb (existsb (fun p => bool_decide (p_ID p = projectID)) (projects d)) then
    Err (foreign_key_violation "services_project_id_fkey")
  else
    let s := mkService id projectID name upstreamURL now now in
    Ok (s, mkDB (projects d) (services d ++ [s]) (routes d)).

(** routes_rate_limit_policy_check. *)
Definition rate_limit_check (p : RateLimitPolicy) : bool :=
  (negb (rp_Enabled p) && (rp_Requests p =? 0) && (rp_WindowSeconds p =? 0)) ||
  (rp_Enabled p && (0 <? rp_Requests p) && (0 <? rp_WindowSeconds p)).

(** [createRouteQuery]. *)
Definition insert_route (id : string) (now : Z) (route : Route) (d : db) : res (Route * db) :=
  serviceID ← cast_uuid (r_ServiceID route);
  name ← encode_text (r_Name route);
  pathPrefix ← encode_text (r_PathPrefix route);
  timeoutMS ← encode_int4 (r_TimeoutMS route);
  requests ← encode_int4 (rp_Requests (r_RateLimit route));
  windowSeconds ← encode_int4 (rp_WindowSeconds (r_RateLimit route));
  let policy := mkRatePolicy (rp_Enabled (r_RateLimit route)) requests windowSeconds in
  if negb (rate_limit_check policy) then Err (check_violation "routes_rate_limit_policy_check")
  else if existsb (fun r => bool_decide (r_ID r = id)) (routes d) then
    Err (unique_violation "routes_pkey")
  else if existsb (fun r => bool_decide (r_ServiceID r = serviceID) && bool_decide (r_Name r = name)) (routes d)
  then Err (unique_violation "routes_service_id_name_key")
  else if existsb (fun r => bool_decide (r_ServiceID r = serviceID) &&
                            bool_decide (r_PathPrefix r = pathPrefix)) (routes d)
  then Err (unique_violation "routes_service_id_path_prefix_key")
  else if negb (existsb (fun s => bool_decide (s_ID s = serviceID)) (services d)) then
    Err (foreign_key_violation "routes_service_id_fkey")
  else
    let r := mkRoute id serviceID name pathPrefix (r_StripPrefix route) timeoutMS (r_Enabled route)
               (r_AuthRequired route) policy now now in
    Ok (r, mkDB (projects d) (services d) (routes d ++ [r])).

(** The repository methods: a statement with its fault and the wrapping of its
    error. *)
Definition repo_CreateProject (f : fault) (id : string) (now : Z) (project : Project) (d : db)
    : res (Project * db) :=
  map_err (wrapf "create project") (with_fault f (insert_project id now (p_Name project) d)).

Definition repo_CreateService (f : fault) (id : string) (now : Z) (service : Service) (d : db)
    : res (Service * db) :=
  map_err (wrapf "create service")
    (with_fault f (insert_service id now (s_ProjectID service) (s_Name service) (s_UpstreamURL service) d)).

Definition repo_CreateRoute (f : fault) (id : string) (now : Z) (route : Route) (d : db)
    : res (Route * db) :=
  map_err (wrapf "create route") (with_fault f (insert_route id now route d)).

Definition ListProjects (f : fault) (d : db) : res (list Project) :=
  map_err (wrapf "list projects")
    (with_fault f (Ok (order_by (by_created p_CreatedAt p_ID) (projects d)))).

Definition ListServicesByProjectID (f : fault) (projectID : string) (d : db) : res (list Service) :=
  map_err (wrapf "list services by project id")
    (with_fault f (
      projectID ← cast_uuid projectID;
      Ok (order_by (by_created s_CreatedAt s_ID)
            (base.filter (fun s => s_ProjectID s = projectID) (services d))))).

Definition ListRoutesByServiceID (f : fault) (serviceID : string) (d : db) : res (list Route) :=
  map_err (wrapf "list routes by service id")
    (with_fault f (
      serviceID ← cast_uuid serviceID;
      Ok (order_by (by_created r_CreatedAt r_ID)
            (base.filter (fun r => r_ServiceID r = serviceID) (routes d))))).

(** [listGatewayRoutesQuery]: the enabled routes joined with their services. The
    ordering uses the collation of the database, so [order] is any sort: a
    function that permutes. *)
Definition join_route (d : db) (r : Route) : list GatewayRoute :=
  (fun s => mkGatewayRoute (s_ProjectID s) (r_Name r) (r_PathPrefix r) (s_UpstreamURL s)
              (r_StripPrefix r) (r_TimeoutMS r) (r_AuthRequired r) (r_RateLimit r)) <$>
  base.filter (fun s => s_ID s = r_ServiceID r) (services d).

Definition gateway_rows (d : db) : list GatewayRoute :=
  flat_map (join_route d) (base.filter (fun r => r_Enabled r = true) (routes d)).

Definition ListGatewayRoutes (order : list GatewayRoute -> list GatewayRoute) (f : fault) (d : db)
    : res (list GatewayRoute) :=
  map_err (wrapf "list gateway routes") (with_fault f (Ok (order (gateway_rows d)))).

(** ** Use case (controlplane/usecase) *)

(** The database's answers during one call: a fault, and the defaults of the row
    an INSERT creates. *)
Record pg_env := mkEnv { e_fault : fault; e_id : string; e_now : Z }.

Definition CreateProject (e : pg_env) (name : string) (d : db) : res (Project * db) :=
  project ← NewProject name;
  repo_CreateProject (e_fault e) (e_id e) (e_now e) project d.

Definition CreateService `{NetURL} (e : pg_env) (projectID name upstreamURL : string) (d : db)
    : res (Service * db) :=
  service ← NewService projectID name upstreamURL;
  repo_CreateService (e_fault e) (e_id e) (e_now e) service d.

Record CreateRouteInput := mkCreateRoute {
  ci_ServiceID : string; ci_Name : string; ci_PathPrefix : string; ci_StripPrefix : bool;
  ci_TimeoutMS : Z; ci_Enabled : bool; ci_AuthRequired : bool; ci_RateLimitEnabled : bool;
  ci_RateLimitRequests : Z; ci_RateLimitWindowSeconds : Z
}.

Definition CreateRoute (e : pg_env) (input : CreateRouteInput) (d : db) : res (Route * db) :=
  route ← NewRoute (ci_ServiceID input) (ci_Name input) (ci_PathPrefix input) (ci_StripPrefix input)
            (ci_TimeoutMS input) (ci_Enabled input) (ci_AuthRequired input)
            (mkRatePolicy (ci_RateLimitEnabled input) (ci_RateLimitRequests input)
               (ci_RateLimitWindowSeconds input));
  repo_CreateRoute (e_fault e) (e_id e) (e_now e) route d.

Definition ListServices (f : fault) (projectID : string) (d : db) : res (list Service) :=
  let projectID := TrimSpace projectID in
  if bool_decide (projectID = "") then Err ErrInvalidProjectID
  else ListServicesByProjectID f projectID d.

Definition ListRoutes (f : fault) (serviceID : string) (d : db) : res (list Route) :=
  let serviceID := TrimSpace serviceID in
  if bool_decide (serviceID = "") then Err ErrInvalidServiceID
  else ListRoutesByServiceID f serviceID d.

(** ** HTTP handlers (delivery/http/v1) *)

Definition isValidationError (err : error) : bool :=
  errors_Is err ErrInvalidName || errors_Is err ErrInvalidProjectID ||
  errors_Is err ErrInvalidServiceID || errors_Is err ErrInvalidUpstreamURL ||
  errors_Is err ErrInvalidPathPrefix || errors_Is err ErrInvalidRateLimitRequests ||
  errors_Is err ErrInvalidRateLimitWindow.

Definition handleError {A} (err : error) : json_reply A :=
  if isValidationError err then JSONError 400 (Error err) else JSONError 500 "internal error".

(** Responses (dto.go). *)
Record projectResponse := mkProjectResponse {
  pr_ID : string; pr_Name : string; pr_CreatedAt : Z; pr_UpdatedAt : Z
}.
Record serviceResponse := mkServiceResponse {
  sv_ID : string; sv_ProjectID : string; sv_Name : string; sv_UpstreamURL : string; sv_CreatedAt : Z; sv_UpdatedAt : Z
}.
Record cpRouteResponse := mkCPRouteResponse {
  ro_ID : string; ro_ServiceID : string; ro_Name : string; ro_PathPrefix : string; ro_StripPrefix : bool;
  ro_TimeoutMS : Z; ro_Enabled : bool; ro_AuthRequired : bool; ro_RateLimitEnabled : bool; ro_RateLimitRequests : Z;
  ro_RateLimitWindowSeconds : Z; ro_CreatedAt : Z; ro_UpdatedAt : Z
}.
Record gatewayRouteResponse := mkGatewayRouteResponse {
  gr_ProjectID : string; gr_Name : string; gr_PathPrefix : string; gr_UpstreamURL : string; gr_StripPrefix : bool;
  gr_TimeoutMS : Z; gr_AuthRequired : bool; gr_RateLimitEnabled : bool; gr_RateLimitRequests : Z;
  gr_RateLimitWindowSeconds : Z
}.

Definition newProjectResponse (p : Project) : projectResponse :=
  mkProjectResponse (p_ID p) (p_Name p) (p_CreatedAt p) (p_UpdatedAt p).
Definition newServiceResponse (s : Service) : serviceResponse :=
  mkServiceResponse (s_ID s) (s_ProjectID s) (s_Name s) (s_UpstreamURL s) (s_CreatedAt s) (s_UpdatedAt s).
Definition newRouteResponse (r : Route) : cpRouteResponse :=
  mkCPRouteResponse (r_ID r) (r_ServiceID r) (r_Name r) (r_PathPrefix r) (r_StripPrefix r) (r_TimeoutMS r)
    (r_Enabled r) (r_AuthRequired r) (rp_Enabled (r_RateLimit r)) (rp_Requests (r_RateLimit r))
    (rp_WindowSeconds (r_RateLimit r)) (r_CreatedAt r) (r_UpdatedAt r).
Definition newGatewayRouteResponse (g : GatewayRoute) : gatewayRouteResponse :=
  mkGatewayRouteResponse (g_ProjectID g) (g_Name g) (g_PathPrefix g) (g_UpstreamURL g) (g_StripPrefix g)
    (g_TimeoutMS g) (g_AuthRequired g) (rp_Enabled (g_RateLimit g)) (rp_Requests (g_RateLimit g))
    (rp_WindowSeconds (g_RateLimit g)).

Definition newProjectListResponse (l : list Project) : list projectResponse := newProjectResponse <$> l.
Definition newServiceListResponse (l : list Service) : list serviceResponse := newServiceResponse <$> l.
Definition newRouteListResponse (l : list Route) : list cpRouteResponse := newRouteResponse <$> l.
Definition newGatewayRouteListResponse (l : list GatewayRoute) : list gatewayRouteResponse :=
  newGatewayRouteResponse <$> l.

(** Reply to a creation: the row with 201 and the new tables, or an error with
    the tables as they were. *)
Definition created {A B} (resp : A -> B) (d : db) (r : res (A * db)) : json_reply B * db :=
  match r with
  | Err err => (handleError err, d)
  | Ok (a, d') => (JSONOk 201 (resp a), d')
  end.

Definition listed {A B} (resp : A -> B) (r : res A) : json_reply B :=
  match r with
  | Err err => handleError err
  | Ok a => JSONOk 200 (resp a)
  end.

(** Handlers on the decoded request body ([Err] when json.Decode fails) and the
    path parameter. *)
Definition createProject (e : pg_env) (body : res string) (d : db) : json_reply projectResponse * db :=
  match body with
  | Err _ => (JSONError 400 "invalid request body", d)
  | Ok name => created newProjectResponse d (CreateProject e name d)
  end.

Record createServiceRequest := mkServiceRequest { sr_Name : string; sr_UpstreamURL : string }.

Definition createService `{NetURL} (e : pg_env) (project_id : string)
    (body : res createServiceRequest) (d : db) : json_reply serviceResponse * db :=
  match body with
  | Err _ => (JSONError 400 "invalid request body", d)
  | Ok request =>
    created newServiceResponse d
      (CreateService e project_id (sr_Name request) (sr_UpstreamURL request) d)
  end.

Record createRouteRequest := mkRouteRequest {
  cr_Name : string; cr_PathPrefix : string; cr_StripPrefix : option bool; cr_TimeoutMS : Z;
  cr_Enabled : option bool; cr_AuthRequired : bool; cr_RateLimitEnabled : bool;
  cr_RateLimitRequests : Z; cr_RateLimitWindowSeconds : Z
}.

Definition createRoute (e : pg_env) (service_id : string) (body : res createRouteRequest) (d : db)
    : json_reply cpRouteResponse * db :=
  match body with
  | Err _ => (JSONError 400 "invalid request body", d)
  | Ok request =>
    let stripPrefix := default true (cr_StripPrefix request) in
    let enabled := default true (cr_Enabled request) in
    created newRouteResponse d
      (CreateRoute e (mkCreateRoute service_id (cr_Name request) (cr_PathPrefix request) stripPrefix
         (cr_TimeoutMS request) enabled (cr_AuthRequired request) (cr_RateLimitEnabled request)
         (cr_RateLimitRequests request) (cr_RateLimitWindowSeconds request)) d)
  end.

Definition listProjects (f : fault) (d : db) : json_reply (list projectResponse) :=
  listed newProjectListResponse (ListProjects f d).
Definition listServices (f : fault) (project_id : string) (d : db) : json_reply (list serviceResponse) :=
  listed newServiceListResponse (ListServices f project_id d).
Definition listRoutes (f : fault) (service_id : string) (d : db) : json_reply (list cpRouteResponse) :=
  listed newRouteListResponse (ListRoutes f service_id d).
Definition listGatewayRoutes (order : list GatewayRoute -> list GatewayRoute) (f : fault) (d : db)
    : json_reply (list gatewayRouteResponse) :=
  listed newGatewayRouteListResponse (ListGatewayRoutes order f d).

End repository.

(** ** Invariant *)

Section invariant.
Context `{PgUUIDLaws} `{NetURL}.

Definition nonblank (s : string) : Prop := s <> "" /\ TrimSpace s = s.
Definition storable (s : string) : Prop := pg_text s = true.

Record service_ok (s : Service) : Prop := {
  so_project : isCanonicalUUID (s_ProjectID s) = true;
  so_name : nonblank (s_Name s) /\ storable (s_Name s);
  so_upstream : exists u, url_Parse (s_UpstreamURL s) = Ok u /\ u_Scheme u <> "" /\ u_Host u <> "";
  so_trim : TrimSpace (s_UpstreamURL s) = s_UpstreamURL s;
  so_url_text : storable (s_UpstreamURL s);
}.

Record croute_ok (r : Route) : Prop := {
  co_name : nonblank (r_Name r) /\ storable (r_Name r);
  co_prefix : TrimSpace (r_PathPrefix r) = r_PathPrefix r /\ HasPrefix (r_PathPrefix r) "/" = true;
  co_prefix_text : storable (r_PathPrefix r);
  co_timeout : 0 < r_TimeoutMS r <= max_int32;
  co_policy : rate_limit_check (r_RateLimit r) = true;
  co_int4 : int32_range (rp_Requests (r_RateLimit r)) /\ int32_range (rp_WindowSeconds (r_RateLimit r));
}.

(** What holds of the tables after any history. *)
Record db_ok (d : db) : Prop := {
  ok_services : Forall service_ok (services d);
  ok_routes : Forall croute_ok (routes d);
  ok_service_ids : NoDup (s_ID <$> services d);
  ok_service_fk : Forall (fun s => s_ProjectID s ∈ (p_ID <$> projects d)) (services d);
  ok_route_fk : Forall (fun r => r_ServiceID r ∈ (s_ID <$> services d)) (routes d);
  ok_route_names : NoDup ((fun r => (r_ServiceID r, r_Name r)) <$> routes d);
  ok_route_prefixes : NoDup ((fun r => (r_ServiceID r, r_PathPrefix r)) <$> routes d);
}.

(** One request to the control plane. *)
Inductive step (d : db) : db -> Prop :=
| step_project e body : step d (createProject e body d).2
| step_service e project_id body : step d (createService e project_id body d).2
| step_route e service_id body : step d (createRoute e service_id body d).2.

Lemma created_db {A B} (resp : A -> B) d r :
  (created resp d r).2 = match r with Ok (_, d') => d' | Err _ => d end.
Proof. by destruct r as [[]|]. Qed.

(** The constructors' guarantees. *)
Lemma NewService_ok p n u s :
  NewService p n u = Ok s ->
  nonblank (s_Name s) /\ TrimSpace (s_UpstreamURL s) = s_UpstreamURL s /\
  exists url, url_Parse (s_UpstreamURL s) = Ok url /\ u_Scheme url <> "" /\ u_Host url <> "".
Proof.
  unfold NewService. do 2 (case_bool_decide; [done|]).
  destruct (url_Parse (TrimSpace u)) as [url|] eqn:Eu; [|done].
  do 2 (case_bool_decide; [done|]). cbn [orb]. intros [= <-]. cbn [s_Name s_UpstreamURL].
  unfold nonblank. rw !TrimSpace_idemp. eauto 10.
Qed.

Lemma NewRoute_ok sid n pp st t en au rl r :
  NewRoute sid n pp st t en au rl = Ok r ->
  nonblank (r_Name r) /\ TrimSpace (r_PathPrefix r) = r_PathPrefix r /\
  HasPrefix (r_PathPrefix r) "/" = true /\ 0 < r_TimeoutMS r.
Proof.
  unfold NewRoute. do 2 (case_bool_decide; [done|]).
  case_bool_decide; [done|]. destruct (HasPrefix _ "/") eqn:Hp; [|done]. cbn [orb negb].
  destruct (NewRateLimitPolicy _ _ _); [|done]. intros [= <-].
  cbn [r_Name r_PathPrefix r_TimeoutMS]. unfold nonblank. rw !TrimSpace_idemp.
  split; [done|]. split; [done|]. split; [done|].
  destruct (Z.leb_spec t 0); unfold DefaultRouteTimeoutMS; lia.
Qed.

Lemma insert_project_ok id now n d p d' :
  insert_project id now n d = Ok (p, d') -> db_ok d -> db_ok d'.
Proof.
  unfold insert_project. destruct (encode_text n) as [n'|]; [|done]. cbn.
  destruct (existsb _ _); [done|]. destruct (existsb _ _); [done|]. intros [= <- <-] [].
  split; try done. cbn. eapply Forall_impl; [done|]. intros s Hs. cbn. rw fmap_app. set_solver.
Qed.

Lemma insert_service_ok id now s d s' d' :
  insert_service id now (s_ProjectID s) (s_Name s) (s_UpstreamURL s) d = Ok (s', d') ->
  nonblank (s_Name s) -> TrimSpace (s_UpstreamURL s) = s_UpstreamURL s ->
  (exists url, url_Parse (s_UpstreamURL s) = Ok url /\ u_Scheme url <> "" /\ u_Host url <> "") ->
  db_ok d -> db_ok d'.
Proof.
  unfold insert_service, cast_uuid. destruct (pg_uuid _) as [pid|] eqn:Eu; [|done]. cbn.
  destruct (encode_text (s_Name s)) as [n|] eqn:En; [|done].
  destruct (encode_text (s_UpstreamURL s)) as [up|] eqn:Ep; [|done]. cbn.
  apply encode_text_Ok in En as [-> Hn]. apply encode_text_Ok in Ep as [-> Hp].
  destruct (existsb _ (services d)) eqn:E1; [done|]. apply (existsb_key s_ID) in E1.
  destruct (existsb _ (services d)); [done|].
  destruct (existsb _ (projects d)) eqn:E2; [|done]. cbn. intros [= <- <-] Hb Ht Hurl [].
  split; cbn; try done.
  - apply Forall_app. split; [done|]. apply Forall_cons. split; [|done].
    split; cbn; try done. by apply (pg_uuid_canonical _ _ Eu).
  - rw fmap_app. by apply NoDup_snoc.
  - apply Forall_app. split; [done|]. apply Forall_cons. split; [|done]. cbn.
    apply dec_stable. intros Hn'. apply (existsb_key p_ID) in Hn'. by rw Hn' in E2.
  - eapply Forall_impl; [done|]. intros r Hr. cbn. rw fmap_app. set_solver.
Qed.

Lemma insert_route_ok id now r d r' d' :
  insert_route id now r d = Ok (r', d') ->
  nonblank (r_Name r) -> TrimSpace (r_PathPrefix r) = r_PathPrefix r ->
  HasPrefix (r_PathPrefix r) "/" = true -> 0 < r_TimeoutMS r -> db_ok d -> db_ok d'.
Proof.
  unfold insert_route, cast_uuid. destruct (pg_uuid _) as [sid|] eqn:Eu; [|done]. cbn.
  destruct (encode_text (r_Name r)) as [n|] eqn:En; [|done].
  destruct (encode_text (r_PathPrefix r)) as [pp|] eqn:Ep; [|done].
  destruct (encode_int4 (r_TimeoutMS r)) as [t|] eqn:Et; [|done].
  destruct (encode_int4 (rp_Requests _)) as [q|] eqn:Eq; [|done].
  destruct (encode_int4 (rp_WindowSeconds _)) as [w|] eqn:Ew; [|done]. cbn.
  apply encode_text_Ok in En as [-> Hn]. apply encode_text_Ok in Ep as [-> Hp].
  apply encode_int4_Ok in Et as [-> Ht]. apply encode_int4_Ok in Eq as [-> Hq].
  apply encode_int4_Ok in Ew as [-> Hw].
  destruct (rate_limit_check _) eqn:Ec; [|done]. cbn [negb].
  destruct (existsb _ (routes d)); [done|].
  destruct (existsb _ (routes d)) eqn:E1; [done|]. apply existsb_key2 in E1.
  destruct (existsb _ (routes d)) eqn:E2; [done|]. apply existsb_key2 in E2.
  destruct (existsb _ (services d)) eqn:E3; [|done]. cbn. intros [= <- <-] Hb Htr Hpre Hpos [].
  split; cbn; try done.
  - apply Forall_app. split; [done|]. apply Forall_cons. split; [|done]. split; cbn; try done.
    unfold int32_range, max_int32 in *. lia.
  - apply Forall_app. split; [done|]. apply Forall_cons. split; [|done]. cbn.
    apply dec_stable. intros Hn'. apply (existsb_key s_ID) in Hn'. by rw Hn' in E3.
  - rw fmap_app. by apply NoDup_snoc.
  - rw fmap_app. by apply NoDup_snoc.
Qed.

Lemma step_ok d d' : step d d' -> db_ok d -> db_ok d'.
Proof.
  intros [e [n|]|e pid [req|]|e sid [req|]] Hd; try done; cbn; rw created_db.
  - destruct (CreateProject e n d) as [[p d1]|] eqn:E; [|done]. revert E. unfold CreateProject.
    destruct (NewProject n); [|done]. cbn. unfold repo_CreateProject.
    rw map_err_Ok with_fault_Ok. intros [_ E]. by apply insert_project_ok in E.
  - destruct (CreateService _ _ _ _ d) as [[s d1]|] eqn:E; [|done]. revert E. unfold CreateService.
    destruct (NewService _ _ _) as [s0|] eqn:En; [|done]. cbn. unfold repo_CreateService.
    rw map_err_Ok with_fault_Ok. intros [_ E]. apply NewService_ok in En as (? & ? & ?).
    by apply insert_service_ok in E.
  - destruct (CreateRoute _ _ d) as [[r d1]|] eqn:E; [|done]. revert E. unfold CreateRoute.
    destruct (NewRoute _ _ _ _ _ _ _ _) as [r0|] eqn:En; [|done]. cbn. unfold repo_CreateRoute.
    rw map_err_Ok with_fault_Ok. intros [_ E]. apply NewRoute_ok in En as (? & ? & ? & ?).
    by apply insert_route_ok in E.
Qed.

Lemma reachable_ok d : rtc step empty_db d -> db_ok d.
Proof.
  intros Hr. assert (Hi : db_ok empty_db) by (split; cbn; constructor).
  revert Hi. induction Hr as [|d1 d2 d3 Hs _ IH]; [done|]. intros Hd. by apply IH, (step_ok d1).
Qed.

(** C15: Whatever requests the control plane has served, its tables are well
    formed: every service has a canonical project id that refers to a project, a
    trimmed name and a parseable upstream; every route refers to a service, has a
    trimmed name, a prefix that starts with a slash, a positive 32-bit timeout and
    a consistent rate limit; names and prefixes are unique within a service. *)
Theorem controlplane_invariant (d : db) : rtc step empty_db d -> db_ok d.
Proof. apply reachable_ok. Qed.

(** ** The published snapshot *)

(** What the gateway's own [routeResponse] holds after it has read a
    [gatewayRouteResponse]: the fields have the same JSON names (shown in Wire.v). *)
Definition received (r : gatewayRouteResponse) : routeResponse :=
  mkRouteResponse (gr_ProjectID r) (gr_Name r) (gr_PathPrefix r) (gr_UpstreamURL r) (gr_StripPrefix r) (gr_TimeoutMS r)
    (gr_AuthRequired r) (gr_RateLimitEnabled r) (gr_RateLimitRequests r) (gr_RateLimitWindowSeconds r).
Definition received_row (g : GatewayRoute) : routeResponse := received (newGatewayRouteResponse g).

(** What the gateway additionally demands of a row: an http(s) upstream, and a
    prefix that is not only slashes. *)
Definition publishable_row (g : GatewayRoute) : Prop :=
  (exists u, url_Parse (g_UpstreamURL g) = Ok u /\ http_scheme u = true) /\
  normalizePathPrefix (g_PathPrefix g) <> "".

Definition publishable (d : db) : Prop :=
  Forall publishable_row (gateway_rows d) /\
  NoDup ((fun g => normalizePathPrefix (g_PathPrefix g)) <$> gateway_rows d).

(** The route the gateway should serve for a row. *)
Definition to_policy (p : RateLimitPolicy) : GatewayRoutes.RateLimitPolicy :=
  if rp_Enabled p then mkPolicy true (rp_Requests p) (rp_WindowSeconds p * Second) else zero_policy.
Definition to_route (g : GatewayRoute) : GatewayRoutes.Route :=
  GatewayRoutes.mkRoute (g_ProjectID g) (g_Name g) (normalizePathPrefix (g_PathPrefix g))
    (g_UpstreamURL g) (g_StripPrefix g) (g_TimeoutMS g * Millisecond) (g_AuthRequired g)
    (to_policy (g_RateLimit g)).

Lemma gateway_rows_elem d g :
  g ∈ gateway_rows d -> exists r s, r ∈ routes d /\ s ∈ services d /\
    g = mkGatewayRoute (s_ProjectID s) (r_Name r) (r_PathPrefix r) (s_UpstreamURL s)
          (r_StripPrefix r) (r_TimeoutMS r) (r_AuthRequired r) (r_RateLimit r).
Proof.
  unfold gateway_rows, join_route. rw list_elem_of_In in_flat_map.
  intros (r & Hr & Hg). apply list_elem_of_In, list_elem_of_filter in Hr as [_ Hr].
  apply list_elem_of_In, list_elem_of_fmap in Hg as (s & -> & Hs).
  apply list_elem_of_filter in Hs as [_ Hs]. by exists r, s.
Qed.

(** Every enabled route is published exactly once. *)
Lemma gateway_rows_length d :
  db_ok d ->
  length (gateway_rows d) = length (base.filter (fun r => r_Enabled r = true) (routes d)).
Proof.
  intros [_ _ Hnd _ Hfk _ _]. unfold gateway_rows.
  assert (Hf : Forall (fun r => r_ServiceID r ∈ (s_ID <$> services d))
                 (base.filter (fun r => r_Enabled r = true) (routes d))).
  { apply list.Forall_forall. intros r [_ Hr]%list_elem_of_filter.
    rw list.Forall_forall in Hfk. by apply Hfk. }
  induction Hf as [|r l Hr _ IH]; [done|]. cbn. rw length_app IH. f_equal.
  unfold join_route. rw length_fmap. clear -Hnd Hr. revert Hnd Hr.
  generalize (services d) as ss. induction ss as [|s ss IH]; [set_solver|].
  rw fmap_cons filter_cons. intros [Hs Hnd]%NoDup_cons Hr. case_decide as E.
  - cbn [length]. f_equal. destruct (base.filter _ ss) as [|s' l'] eqn:Ef; [done|exfalso].
    assert (Hin : s' ∈ base.filter (fun s => s_ID s = r_ServiceID r) ss) by (rw Ef; left).
    apply list_elem_of_filter in Hin as [E' Hin]. apply Hs. rw E -E'.
    apply list_elem_of_fmap. by exists s'.
  - apply IH; [done|]. apply elem_of_cons in Hr as [Hr|Hr]; [by rw Hr in E|done].
Qed.

Lemma policy_published p :
  rate_limit_check p = true -> int32_range (rp_Requests p) /\ int32_range (rp_WindowSeconds p) ->
  forall g, g_RateLimit g = p -> toRateLimitPolicy (received_row g) = Ok (to_policy p).
Proof.
  intros Hc [Hq Hw] g <-. unfold toRateLimitPolicy, to_policy. cbn -[Z.mul].
  unfold rate_limit_check in Hc. destruct (rp_Enabled (g_RateLimit g)); cbn [negb] in *.
  - destruct (Z.ltb_spec 0 (rp_Requests (g_RateLimit g))) as [H1'|]; [|done].
    destruct (Z.ltb_spec 0 (rp_WindowSeconds (g_RateLimit g))) as [H2'|]; [|done].
    rw (proj2 (Z.leb_gt _ _) H1') (proj2 (Z.leb_gt _ _) H2') wrap64_id //.
    unfold int64_range, int32_range in *. unfold_time. lia.
  - destruct (rp_Requests (g_RateLimit g) =? 0); [|done].
    by destruct (rp_WindowSeconds (g_RateLimit g) =? 0).
Qed.

Lemma normalize_slash p :
  HasPrefix p "/" = true -> TrimSpace p = p -> normalizePathPrefix p <> "" ->
  HasPrefix (normalizePathPrefix p) "/" = true.
Proof.
  unfold normalizePathPrefix. intros Hp Ht. rw Ht. case_bool_decide as E; [by rw E|].
  destruct (TrimRight p slash) as [|a t] eqn:Et; [done|]. intros _.
  apply TrimRight_head in Et as [u ->]. apply HasPrefix_char in Hp as [v [= -> _]].
  apply HasPrefix_char. by eexists.
Qed.

(** A stored row is accepted by the gateway exactly when it is publishable, and
    then as the route it stands for. *)
Lemma row_toDomain d g r :
  db_ok d -> g ∈ gateway_rows d ->
  toDomain (received_row g) = Ok r <-> publishable_row g /\ r = to_route g.
Proof.
  intros [Hss Hrs _ _ _ _ _] (cr & s & Hr & Hs & ->)%gateway_rows_elem.
  rw list.Forall_forall in Hss. rw list.Forall_forall in Hrs.
  destruct (Hss s Hs) as [Spid _ (u & Su & _ & Shost) Strim _].
  destruct (Hrs cr Hr) as [[[Rne Rtrim] _] [Rpt Rps] _ Rto Rpol Rint].
  apply isCanonicalUUID_trim in Spid as [Sptrim Spne].
  rw toDomain_Ok. cbn [received_row received newGatewayRouteResponse gr_ProjectID gr_Name gr_PathPrefix gr_UpstreamURL gr_StripPrefix gr_TimeoutMS
    gr_AuthRequired rr_ProjectID rr_Name rr_PathPrefix rr_UpstreamURL
    rr_StripPrefix rr_TimeoutMS rr_AuthRequired g_ProjectID g_Name g_PathPrefix g_UpstreamURL
    g_StripPrefix g_TimeoutMS g_AuthRequired].
  rw Sptrim Rtrim Strim Su. rw (policy_published _ Rpol Rint); [done|].
  rw wrap64_id; [unfold int64_range, max_int32 in *; unfold_time; lia|].
  unfold publishable_row, to_route.
  cbn [g_ProjectID g_Name g_PathPrefix g_UpstreamURL g_StripPrefix g_TimeoutMS g_AuthRequired g_RateLimit].
  split.
  - intros (u' & p & _ & _ & Hn & [= <-] & Hh & _ & _ & [= <-] & ->). split; [|done].
    split; [by exists u|]. intros E. by rw E in Hn.
  - intros [[(u' & Eu & Hh) Hn] ->]. rw Su in Eu. injection Eu as <-.
    eexists _, _. split; [done|]. split; [done|]. split; [by apply normalize_slash|].
    split; [done|]. split; [done|]. split; [done|]. split; [lia|]. by split.
Qed.

Lemma rows_toDomain d rows rs :
  db_ok d -> Forall (fun g => g ∈ gateway_rows d) rows ->
  Forall2 (fun item r => toDomain item = Ok r) (received <$> newGatewayRouteListResponse rows) rs <->
  Forall publishable_row rows /\ rs = to_route <$> rows.
Proof.
  intros Hd Hin. unfold newGatewayRouteListResponse. rw -list_fmap_compose. revert rs.
  induction Hin as [|g rows Hg _ IH]; intros rs; rw ?fmap_cons ?fmap_nil.
  - split; [intros Hf; inversion Hf; by split|]. intros [_ ->]. constructor.
  - rw Forall_cons. split.
    + intros Hf. inversion Hf as [|? r ? rs' Hr Hf']; subst.
      apply (row_toDomain d) in Hr as [Hp ->]; [|done..]. apply IH in Hf' as [Hps ->]. done.
    + intros [[Hp Hps] ->]. constructor; [by apply (row_toDomain d)|]. by apply IH.
Qed.

Lemma row_wire_range d g :
  db_ok d -> g ∈ gateway_rows d -> wire_range (received_row g).
Proof.
  intros Hd (cr & s & Hr & _ & ->)%gateway_rows_elem.
  pose proof (ok_routes _ Hd) as Hrs. rw list.Forall_forall in Hrs.
  destruct (Hrs cr Hr) as [_ _ _ Rto _ [Rq Rw]]. unfold wire_range, int32_range, max_int32 in *. cbn. lia.
Qed.

(** The control plane and the gateway agree on the snapshot, or the gateway
    rejects all of it. After any history of requests, the published list has each
    enabled route once; if every published upstream is http(s), no prefix is only
    slashes and the normalised prefixes are pairwise distinct, the gateway accepts
    the list, in any order the database returns it, as exactly the routes it
    stands for, all of them well formed with distinct prefixes; otherwise the
    gateway returns an error and keeps its previous snapshot. *)
Theorem snapshot_published `{UnicodeTables} (d : db)
    (order : list GatewayRoute -> list GatewayRoute) :
  rtc step empty_db d -> (forall l, order l ≡ₚ l) ->
  let response := received <$> newGatewayRouteListResponse (order (gateway_rows d)) in
  length response = length (base.filter (fun r => r_Enabled r = true) (routes d)) /\
  (publishable d ->
     responseToDomain response = Ok (to_route <$> order (gateway_rows d)) /\
     distinct_prefixes (to_route <$> order (gateway_rows d)) /\
     Forall route_ok (to_route <$> order (gateway_rows d))) /\
  (~ publishable d -> exists e, responseToDomain response = Err e).
Proof.
  intros Hr%reachable_ok Ho response.
  assert (Hin : Forall (fun g => g ∈ gateway_rows d) (order (gateway_rows d))).
  { apply list.Forall_forall. intros g Hg. by rw Ho in Hg. }
  assert (Hperm : publishable d <-> Forall publishable_row (order (gateway_rows d)) /\
    NoDup (rt_PathPrefix <$> (to_route <$> order (gateway_rows d)))).
  { unfold publishable. rw -list_fmap_compose. by rw Ho. }
  pose proof (fun rs => rows_toDomain d (order (gateway_rows d)) rs Hr Hin) as Hrows.
  split; [|split].
  - unfold response, newGatewayRouteListResponse. rw !length_fmap Ho. by apply gateway_rows_length.
  - intros [Hp Hnd]%Hperm.
    assert (Hf : Forall2 (fun item r => toDomain item = Ok r) response
      (to_route <$> order (gateway_rows d))) by (by apply Hrows).
    split; [by apply responseToDomain_spec|].
    assert (Hok : Forall route_ok (to_route <$> order (gateway_rows d))).
    { apply Forall_fmap, list.Forall_forall. intros g Hg.
      rw list.Forall_forall in Hp. rw list.Forall_forall in Hin.
      apply (toDomain_ok (received_row g)); [by apply (row_wire_range d), Hin|].
      apply (row_toDomain d); auto. }
    split.
    + split; [done|]. apply (Forall_impl route_ok); [done|]. by intros r [].
    + done.
  - intros Hn. destruct (responseToDomain response) as [rs|e] eqn:E; [|by exists e].
    exfalso. apply Hn, Hperm. apply responseToDomain_spec in E as [Hf Hnd].
    apply Hrows in Hf as [Hp ->]. done.
Qed.

(** ** Replies *)

(** The only texts an error reply can carry. *)
Definition client_messages : list string :=
  ["invalid request body"; "invalid name"; "invalid project id"; "invalid service id";
   "invalid upstream url"; "invalid path prefix"; "invalid rate limit requests";
   "invalid rate limit window"].

(** A creation either stores one row and returns it with 201, or changes nothing
    and says no more than its validation error or "internal error". *)
Definition reply_safe {A B} (table : db -> list A) (resp : A -> B) (d : db) (out : json_reply B * db) : Prop :=
  match out.1 with
  | JSONOk status body => status = 201 /\ exists row, table out.2 = table d ++ [row] /\ body = resp row
  | JSONError status message =>
    out.2 = d /\
    ((status = 400 /\ message ∈ client_messages) \/ (status = 500 /\ message = "internal error"))
  end.

(** An error of the database holds no validation error. *)
Definition pg_foreign (e : error) : Prop := isValidationError e = false.

Lemma isValidationError_wrapf ctx e : isValidationError (wrapf ctx e) = isValidationError e.
Proof. unfold isValidationError. by rw !errors_Is_wrapf. Qed.

Lemma created_safe {A B} (table : db -> list A) (resp : A -> B) d r :
  (forall a d', r = Ok (a, d') -> table d' = table d ++ [a]) ->
  (forall e, r = Err e -> pg_foreign e \/ Error e ∈ client_messages) ->
  reply_safe table resp d (created resp d r).
Proof.
  intros Hok Herr. destruct r as [[a d']|e]; cbn; unfold reply_safe; cbn.
  - split; [done|]. exists a. split; [by apply Hok|done].
  - unfold handleError. destruct (isValidationError e) eqn:Ev; cbn.
    + split; [done|]. left. split; [done|]. destruct (Herr e eq_refl) as [Hf|]; [|done].
      unfold pg_foreign in Hf. by rw Ev in Hf.
    + split; [done|]. by right.
Qed.

Lemma repo_err {A} ctx f (r : res A) e :
  map_err (wrapf ctx) (with_fault f r) = Err e ->
  (forall x, f = Some x -> pg_foreign x) -> (forall x, r = Err x -> pg_foreign x) -> pg_foreign e.
Proof.
  unfold pg_foreign. intros E Hf Hr. destruct f as [x|]; cbn in E.
  - injection E as <-. rw isValidationError_wrapf. by apply Hf.
  - destruct r as [|x] eqn:Er; [done|]. injection E as <-. rw isValidationError_wrapf. by apply Hr.
Qed.

(** Case analysis of a statement: every branch is a row or a database error. *)
Ltac statement_cases :=
  repeat match goal with
  | |- context [encode_text ?s] => unfold encode_text; destruct (pg_text s); cbn
  | |- context [encode_int4 ?z] => unfold encode_int4; case_bool_decide; cbn
  | |- context [pg_uuid ?s] => destruct (pg_uuid s); cbn
  | |- context [if ?b then _ else _] => destruct b; cbn
  end.

Lemma bad_body_safe {A B} (table : db -> list A) (resp : A -> B) d :
  reply_safe table resp d (JSONError 400 "invalid request body", d).
Proof. split; [done|]. left. split; [done|]. unfold client_messages. set_solver. Qed.

Lemma message_known x :
  x ∈ [ErrInvalidName; ErrInvalidProjectID; ErrInvalidServiceID; ErrInvalidUpstreamURL;
       ErrInvalidPathPrefix; ErrInvalidRateLimitRequests; ErrInvalidRateLimitWindow] ->
  Error x ∈ client_messages.
Proof. unfold client_messages. intros Hx. set_unfold. naive_solver. Qed.

Lemma createProject_safe e body d :
  (forall x, e_fault e = Some x -> pg_foreign x) -> reply_safe projects newProjectResponse d (createProject e body d).
Proof.
  intros Hf. revert body.
  intros [n|]; [|apply bad_body_safe]. cbn. apply created_safe;
    unfold CreateProject, repo_CreateProject.
  + intros p d'. destruct (NewProject n) as [p0|]; [|done]. cbn.
    rw map_err_Ok with_fault_Ok. intros [_ E]. revert E.
    unfold insert_project. statement_cases; try done. by intros [= <- <-].
  + intros x. destruct (NewProject n) as [p0|] eqn:En; cbn.
    * intros Hx. left. eapply repo_err; [done..|].
      intros y. unfold insert_project. statement_cases; by intros [= <-].
    * intros [= <-]. right. apply message_known. revert En. unfold NewProject. statement_cases; set_solver.
Qed.

Lemma createService_safe e project_id body d :
  (forall x, e_fault e = Some x -> pg_foreign x) ->
  reply_safe services newServiceResponse d (createService e project_id body d).
Proof.
  intros Hf. revert project_id body.
  intros pid [req|]; [|apply bad_body_safe]. cbn. apply created_safe;
    unfold CreateService, repo_CreateService.
  + intros s d'. destruct (NewService _ _ _) as [s0|]; [|done]. cbn.
    rw map_err_Ok with_fault_Ok. intros [_ E]. revert E.
    unfold insert_service, cast_uuid. statement_cases; try done. by intros [= <- <-].
  + intros x. destruct (NewService _ _ _) as [s0|] eqn:En; cbn.
    * intros Hx. left. eapply repo_err; [done..|].
      intros y. unfold insert_service, cast_uuid. statement_cases; by intros [= <-].
    * intros [= <-]. right. apply message_known. revert En. unfold NewService.
      destruct (url_Parse _); statement_cases; set_solver.
Qed.

Lemma createRoute_safe e service_id body d :
  (forall x, e_fault e = Some x -> pg_foreign x) ->
  reply_safe routes newRouteResponse d (createRoute e service_id body d).
Proof.
  intros Hf. revert service_id body.
  intros sid [req|]; [|apply bad_body_safe]. cbn. apply created_safe;
    unfold CreateRoute, repo_CreateRoute.
  + intros r d'. destruct (NewRoute _ _ _ _ _ _ _ _) as [r0|]; [|done]. cbn.
    rw map_err_Ok with_fault_Ok. intros [_ E]. revert E.
    unfold insert_route, cast_uuid. statement_cases; try done. by intros [= <- <-].
  + intros x. destruct (NewRoute _ _ _ _ _ _ _ _) as [r0|] eqn:En; cbn.
    * intros Hx. left. eapply repo_err; [done..|].
      intros y. unfold insert_route, cast_uuid. statement_cases; by intros [= <-].
    * intros [= <-]. right. apply message_known. revert En. unfold NewRoute, NewRateLimitPolicy.
      statement_cases; set_solver.
Qed.

(** No reply to a creation leaks an internal error, and none is half done:
    with 201 exactly the returned row has been added to its table; with 400 the
    text is one of the validation messages; anything else (constraint violations,
    faults of the database) is 500 with "internal error"; an error leaves the
    tables as they were. *)
Theorem create_replies_safe (e : pg_env) (d : db) :
  (forall x, e_fault e = Some x -> pg_foreign x) ->
  (forall body, reply_safe projects newProjectResponse d (createProject e body d)) /\
  (forall project_id body, reply_safe services newServiceResponse d (createService e project_id body d)) /\
  (forall service_id body, reply_safe routes newRouteResponse d (createRoute e service_id body d)).
Proof.
  intros Hf. split; [|split]; intros;
    by first [apply createProject_safe|apply createService_safe|apply createRoute_safe].
Qed.

End invariant.

(** ** Examples and witnesses *)

Definition env_at (id : string) (now : Z) : pg_env := mkEnv None id now.
Definition uuid_n (n : string) : string := "00000000-0000-0000-0000-00000000000" +:+ n.

(** Three requests: a project, a service and a route in it. *)
Definition with_project (d : db) : db := (createProject (env_at (uuid_n "1") 1) (Ok "shop") d).2.
Definition with_service `{NetURL} (id name upstream : string) (d : db) : db :=
  (createService (env_at id 2) (uuid_n "1") (Ok (mkServiceRequest name upstream)) d).2.
Definition with_route (id service name prefix : string) (d : db) : db :=
  (createRoute (env_at id 3) service
     (Ok (mkRouteRequest name prefix None 0 None true true 100 60)) d).2.

Definition shop `{NetURL} (upstream prefix : string) : db :=
  with_route (uuid_n "5") (uuid_n "2") "orders" prefix
    (with_service (uuid_n "2") "orders" upstream (with_project empty_db)).

Lemma shop_reachable `{NetURL} upstream prefix : rtc step empty_db (shop upstream prefix).
Proof.
  eapply rtc_l; [apply step_project|]. eapply rtc_l; [apply step_service|].
  eapply rtc_l; [apply step_route|]. apply rtc_refl.
Qed.

(** C15 at a project with a service and a route. *)
Lemma controlplane_invariant_witness :
  @db_ok plain_url (@shop plain_url "http://orders" "/orders") /\
  length (routes (@shop plain_url "http://orders" "/orders")) = 1%nat.
Proof.
  split; [|reflexivity]. apply (@controlplane_invariant _ _ plain_url).
  apply (@shop_reachable plain_url).
Defined.

(** At the same tables: the gateway receives the route. *)
Lemma snapshot_published_witness :
  let d := @shop plain_url "http://orders" "/orders/" in
  @responseToDomain plain_url ascii_tables (received <$> newGatewayRouteListResponse (gateway_rows d)) =
  Ok [GatewayRoutes.mkRoute (uuid_n "1") "orders" "/orders" "http://orders" true
        (3000 * Millisecond) true (mkPolicy true 100 (60 * Second))].
Proof.
  intros d.
  destruct (@snapshot_published _ _ plain_url ascii_tables d (fun l => l)) as (_ & H & _).
  - apply (@shop_reachable plain_url).
  - done.
  - destruct H as [H _]; [|exact H]. split.
    + change (gateway_rows d) with [mkGatewayRoute (uuid_n "1") "orders" "/orders/" "http://orders" true
        3000 true (mkRatePolicy true 100 60)].
      apply Forall_cons. split; [|apply Forall_nil_2].
      split; [by eexists; split; [vm_compute; reflexivity|]|by vm_compute].
    + change (NoDup ["/orders"]). apply NoDup_singleton.
Defined.

(** At a duplicate project and a failing database. *)
Lemma create_replies_safe_witness :
  reply_safe projects newProjectResponse (with_project empty_db)
    (createProject (mkEnv (Some (Opaque "connection reset")) (uuid_n "9") 4) (Ok "blog")
       (with_project empty_db)).
Proof.
  destruct (@create_replies_safe _ _ plain_url (mkEnv (Some (Opaque "connection reset")) (uuid_n "9") 4)
    (with_project empty_db)) as (H & _).
  - intros x [= <-]. reflexivity.
  - apply H.
Defined.

End CP.
