(* ===== verification/AuthSecurity.v ===== *)
(** The security services of internal/auth/infrastructure/security: API keys,
    access and refresh tokens, password hashing; with the domain roles and the
    configuration of internal/auth/config.

    The random source is an input ([res string]: the bytes read or the error),
    the JWT library is the class [JWT] and bcrypt the class [Bcrypt]. *)
From Stdlib Require Import Ascii ZArith Lia.
From Corelib Require Import ssreflect.
From stdpp Require Import base strings list numbers pretty.
From S2P Require Import Prelude GoStrings GoTime GoEncoding GoNet GoDate GoConv.

#[local] Open Scope Z_scope.

Module Security.

Definition ErrInvalidBcryptCost : error :=
  Sentinel "security.ErrInvalidBcryptCost" "invalid bcrypt cost".
Definition ErrJWTSecretTooShort : error :=
  Sentinel "security.ErrJWTSecretTooShort" "jwt secret must contain at least 32 bytes".
Definition ErrInvalidAccessTokenTTL : error :=
  Sentinel "security.ErrInvalidAccessTokenTTL" "invalid access token ttl".
Definition ErrInvalidRefreshTokenSize : error :=
  Sentinel "security.ErrInvalidRefreshTokenSize" "invalid refresh token size".
Definition ErrInvalidTokenUser : error :=
  Sentinel "security.ErrInvalidTokenUser" "invalid token user".
Definition ErrInvalidAccessToken : error :=
  Sentinel "security.ErrInvalidAccessToken" "invalid access token".
Definition ErrInvalidAPIKey : error := Sentinel "security.ErrInvalidAPIKey" "invalid api key".

(** ** Roles (auth/domain/role.go) *)

Abbreviation Role := string (only parsing).
Definition RoleAdmin : Role := "admin".
Definition RoleMember : Role := "member".
Definition Role_IsValid (r : Role) : bool :=
  bool_decide (r = RoleAdmin) || bool_decide (r = RoleMember).

(** ** API keys (api_key_service.go) *)

Definition apiKeyEnvironment : string := "live".
Definition apiKeyPrefixSize : Z := 8.
Definition apiKeySecretSize : Z := 32.

Record GeneratedAPIKey := mkGenerated { gk_Value : string; gk_Prefix : string; gk_Hash : string }.
Record ParsedAPIKey := mkParsed { pk_Prefix : string; pk_Hash : string }.

Definition hashAPIKey (rawAPIKey : string) : string := sha256_hex rawAPIKey.

(** The two reads of the random source, of [apiKeyPrefixSize] and
    [apiKeySecretSize] bytes. *)
Definition GenerateAPIKey (prefixRead secretRead : res string) : res GeneratedAPIKey :=
  match prefixRead with
  | Err e => Err (wrapf "generate api key prefix" e)
  | Ok prefixBytes =>
    match secretRead with
    | Err e => Err (wrapf "generate api key secret" e)
    | Ok secretBytes =>
      let prefix := hex_encode prefixBytes in
      let secret := b64_encode secretBytes in
      let value := "eg_" +:+ apiKeyEnvironment +:+ "_" +:+ prefix +:+ "_" +:+ secret in
      Ok (mkGenerated value prefix (hashAPIKey value))
    end
  end.

Definition underscore : ascii := "_"%char.

Definition ParseAPIKey (rawAPIKey : string) : res ParsedAPIKey :=
  let rawAPIKey := TrimSpace rawAPIKey in
  match SplitN rawAPIKey underscore 4 with
  | [part0; part1; prefix; secret] =>
    if negb (bool_decide (part0 = "eg")) || negb (bool_decide (part1 = apiKeyEnvironment)) then
      Err ErrInvalidAPIKey
    else match hex_decode prefix with
         | None => Err ErrInvalidAPIKey
         | Some prefixBytes =>
           if negb (len prefixBytes =? apiKeyPrefixSize) then Err ErrInvalidAPIKey
           else match b64_decode secret with
                | None => Err ErrInvalidAPIKey
                | Some secretBytes =>
                  if negb (len secretBytes =? apiKeySecretSize) then Err ErrInvalidAPIKey
                  else Ok (mkParsed prefix (hashAPIKey rawAPIKey))
                end
         end
  | _ => Err ErrInvalidAPIKey
  end.

(** The comparison is of the decoded bytes, in constant time. *)
Definition MatchAPIKeyHash (actualHash expectedHash : string) : bool :=
  match hex_decode actualHash with
  | None => false
  | Some actual =>
    match hex_decode expectedHash with
    | None => false
    | Some expected => if negb (len actual =? len expected) then false else bool_decide (actual = expected)
    end
  end.

(** ** Tokens (token_service.go) *)

Record TokenServiceConfig := mkTSConfig {
  tc_JWTSecret : string;
  tc_JWTIssuer : string;
  tc_JWTAudience : string;
  tc_AccessTokenTTL : Z;
  tc_RefreshTokenSize : Z
}.

Record TokenService := mkTS {
  ts_secret : string;
  ts_issuer : string;
  ts_audience : string;
  ts_accessTokenTTL : Z;
  ts_refreshTokenSize : Z
}.

Definition DefaultAccessTokenTTL : Z := 15 * Minute.
Definition DefaultRefreshTokenSize : Z := 32.

Definition NewTokenService (config : TokenServiceConfig) : res TokenService :=
  if len (tc_JWTSecret config) <? 32 then Err ErrJWTSecretTooShort else
  let issuer := TrimSpace (tc_JWTIssuer config) in
  let issuer := if bool_decide (issuer = "") then "edgeguard-auth" else issuer in
  let audience := TrimSpace (tc_JWTAudience config) in
  let audience := if bool_decide (audience = "") then "edgeguard" else audience in
  let ttl := tc_AccessTokenTTL config in
  let ttl := if ttl =? 0 then DefaultAccessTokenTTL else ttl in
  if ttl <? 0 then Err ErrInvalidAccessTokenTTL else
  let size := tc_RefreshTokenSize config in
  let size := if size =? 0 then DefaultRefreshTokenSize else size in
  if (size <? 16) || (128 <? size) then Err ErrInvalidRefreshTokenSize
  else Ok (mkTS (tc_JWTSecret config) issuer audience ttl size).

(** The claims of a token; dates have the precision of jwt.NewNumericDate. *)
Record AccessTokenClaims := mkClaims {
  cl_Role : Role;
  cl_Issuer : string;
  cl_Subject : string;
  cl_Audience : list string;
  cl_ExpiresAt : option Z;
  cl_IssuedAt : option Z;
  cl_NotBefore : option Z
}.

Definition NewNumericDate (t : Z) : Z := Truncate t Second.

(** github.com/golang-jwt/jwt: signing with HS256, and ParseWithClaims with the
    options of ParseAccessToken. *)
Class JWT := {
  jwt_sign : string -> AccessTokenClaims -> res string;
  jwt_parse : string -> string -> string -> Z -> string -> res AccessTokenClaims;
}.

(** The validation of the registered claims. *)
Definition claims_valid (issuer audience : string) (now : Z) (c : AccessTokenClaims) : bool :=
  bool_decide (cl_Issuer c = issuer) && bool_decide (audience ∈ cl_Audience c) &&
  match cl_ExpiresAt c with Some e => now <? e | None => false end &&
  match cl_NotBefore c with Some n => n <=? now | None => false end &&
  match cl_IssuedAt c with Some i => i <=? now | None => true end.

(** Texts that JSON encodes without change. *)
Definition claims_ascii (c : AccessTokenClaims) : bool :=
  all_bytes is_ascii_byte (cl_Role c) && all_bytes is_ascii_byte (cl_Issuer c) &&
  all_bytes is_ascii_byte (cl_Subject c) && forallb (all_bytes is_ascii_byte) (cl_Audience c).

(** Documented: a token signed with the secret parses to its claims when they are
    valid and is refused otherwise; its text is a compact serialisation without
    white space. *)
Class JWTLaws `{JWT} := {
  jwt_parse_sign secret issuer audience now c raw :
    claims_ascii c = true -> jwt_sign secret c = Ok raw ->
    if claims_valid issuer audience now c then jwt_parse secret issuer audience now raw = Ok c
    else exists e, jwt_parse secret issuer audience now raw = Err e;
  jwt_sign_text secret c raw :
    jwt_sign secret c = Ok raw -> TrimSpace raw = raw /\ raw <> "";
}.

(** What the service reads of a user. *)
Record IssuedAccessToken := mkIssued { ia_Value : string; ia_ExpiresAt : Z }.
Record AccessTokenPrincipal := mkATP { at_UserID : string; at_Role : Role; at_ExpiresAt : Z }.

Definition IssueAccessToken `{JWT} (s : TokenService) (id : string) (role : Role) (enabled : bool)
    (now : Z) : res IssuedAccessToken :=
  let userID := TrimSpace id in
  if bool_decide (userID = "") || negb (Role_IsValid role) || negb enabled || IsZero now then
    Err ErrInvalidTokenUser
  else
    let expiresAt := Add now (ts_accessTokenTTL s) in
    let claims := mkClaims role (ts_issuer s) userID [ts_audience s]
                    (Some (NewNumericDate expiresAt)) (Some (NewNumericDate now))
                    (Some (NewNumericDate now)) in
    match jwt_sign (ts_secret s) claims with
    | Err e => Err (wrapf "sign access token" e)
    | Ok rawToken => Ok (mkIssued rawToken expiresAt)
    end.

Definition ParseAccessToken `{JWT} (s : TokenService) (rawToken : string) (now : Z)
    : res AccessTokenPrincipal :=
  let rawToken := TrimSpace rawToken in
  if bool_decide (rawToken = "") || IsZero now then Err ErrInvalidAccessToken
  else match jwt_parse (ts_secret s) (ts_issuer s) (ts_audience s) now rawToken with
       | Err e => Err (Wrap (Error ErrInvalidAccessToken +:+ ": " +:+ Error e) [ErrInvalidAccessToken])
       | Ok claims =>
         let userID := TrimSpace (cl_Subject claims) in
         if bool_decide (userID = "") || negb (Role_IsValid (cl_Role claims)) then
           Err ErrInvalidAccessToken
         else match cl_ExpiresAt claims with
              | None => Err ErrInvalidAccessToken
              | Some e => Ok (mkATP userID (cl_Role claims) e)
              end
       end.

Definition HashRefreshToken (rawToken : string) : string := sha256_hex rawToken.

(** [randomRead] is the read of [refreshTokenSize] bytes. *)
Definition GenerateRefreshToken (randomRead : res string) : res (string * string) :=
  match randomRead with
  | Err e => Err (wrapf "generate refresh token" e)
  | Ok randomBytes =>
    let rawToken := b64_encode randomBytes in
    Ok (rawToken, HashRefreshToken rawToken)
  end.

(** ** Passwords (password_hasher.go) *)

Class Bcrypt := {
  bcrypt_generate : Z -> string -> res string;
  bcrypt_compare : string -> string -> bool;
}.

(** Documented: the password a hash was made of matches it; a hash is printable. *)
Class BcryptLaws `{Bcrypt} := {
  bcrypt_match cost password h : bcrypt_generate cost password = Ok h -> bcrypt_compare h password = true;
  bcrypt_text cost password h : bcrypt_generate cost password = Ok h -> TrimSpace h = h;
}.

Definition NewPasswordHasher (cost : Z) : res Z :=
  let cost := if cost =? 0 then 10 else cost in
  if (cost <? 4) || (31 <? cost) then Err ErrInvalidBcryptCost else Ok cost.
Definition Hash `{Bcrypt} (cost : Z) (password : string) : res string := bcrypt_generate cost password.
Definition PasswordMatches `{Bcrypt} (passwordHash password : string) : bool :=
  bcrypt_compare passwordHash password.

(** ** Configuration (auth/config/config.go) *)

Record Config := mkConfig {
  cf_HTTPAddr : string;
  cf_JWTSecret : string;
  cf_JWTIssuer : string;
  cf_JWTAudience : string;
  cf_AccessTokenTTL : Z;
  cf_RefreshTokenTTL : Z;
  cf_RefreshTokenSize : Z;
  cf_BcryptCost : Z
}.

Section config.
Context `{UnicodeTables} (getenv : string -> string).

Definition stringFromEnv (key fallback : string) : string :=
  let value := TrimSpace (getenv key) in
  if bool_decide (value = "") then fallback else value.

Definition durationFromEnv (key : string) (fallback : Z) : res Z :=
  let value := TrimSpace (getenv key) in
  if bool_decide (value = "") then Ok fallback
  else match Duration.ParseDuration value with
       | Err e => Err (wrapf ("parse " +:+ key) e)
       | Ok parsed => if parsed <=? 0 then Err (Opaque (key +:+ " must be positive")) else Ok parsed
       end.

Definition intFromEnv (key : string) (fallback : Z) : res Z :=
  let value := TrimSpace (getenv key) in
  if bool_decide (value = "") then Ok fallback
  else map_err (wrapf ("parse " +:+ key)) (Atoi value).

Definition Load_auth_config : res Config :=
  let jwtSecret := TrimSpace (getenv "AUTH_JWT_SECRET") in
  if bool_decide (jwtSecret = "") then Err (Opaque "AUTH_JWT_SECRET is required") else
  accessTokenTTL ← durationFromEnv "AUTH_ACCESS_TOKEN_TTL" DefaultAccessTokenTTL;
  refreshTokenTTL ← durationFromEnv "AUTH_REFRESH_TOKEN_TTL" (30 * 24 * Hour);
  refreshTokenSize ← intFromEnv "AUTH_REFRESH_TOKEN_SIZE" DefaultRefreshTokenSize;
  bcryptCost ← intFromEnv "AUTH_BCRYPT_COST" 10;
  Ok (mkConfig (stringFromEnv "AUTH_HTTP_ADDR" ":8083") jwtSecret
        (stringFromEnv "AUTH_JWT_ISSUER" "edgeguard-auth")
        (stringFromEnv "AUTH_JWT_AUDIENCE" "edgeguard") accessTokenTTL refreshTokenTTL
        refreshTokenSize bcryptCost).
End config.

(** ** Lemmas *)

Lemma SplitN_last s c : SplitN s c 1 = [s].
Proof. by destruct s. Qed.

Lemma SplitN_step a s c n :
  SplitN (String a s) c (S (S n)) =
  if Ascii.eqb a c then EmptyString :: SplitN s c (S n)
  else match SplitN s c (S (S n)) with
       | [] => [String a EmptyString]
       | x :: xs => String a x :: xs
       end.
Proof. reflexivity. Qed.

(** The parts before the first separators are free of it; the last keeps the
    rest, separators included. *)
Lemma SplitN_cons s t c n :
  no_byte c s = true -> (0 < n)%nat -> SplitN (s +:+ String c t) c (S n) = s :: SplitN t c n.
Proof.
  intros Hs Hn. destruct n as [|n]; [lia|].
  induction s as [|a s IH].
  - by rw sapp_nil_l SplitN_step Ascii.eqb_refl.
  - cbn in Hs. apply andb_prop in Hs as [Ha Hs]. apply negb_true_iff in Ha.
    by rw sapp_cons SplitN_step Ha IH.
Qed.

Lemma hex_no_underscore s : no_byte underscore (hex_encode s) = true.
Proof.
  unfold no_byte. induction s as [|a s IH]; [done|]. cbn [hex_encode all_bytes].
  pose proof (byte_val_lt a).
  assert (Hd : forall n, (n < 16)%N -> negb (Ascii.eqb (hex_digit n) underscore) = true).
  { apply (below_16 (fun n => negb (Ascii.eqb (hex_digit n) underscore))). vm_compute. reflexivity. }
  by rw !Hd; [lia..|].
Qed.

(** The text of a key, as the service prints it. *)
Definition key_text (prefixBytes secretBytes : string) : string :=
  "eg_live_" +:+ hex_encode prefixBytes +:+ "_" +:+ b64_encode secretBytes.

Lemma key_text_split p s :
  SplitN (key_text p s) underscore 4 = ["eg"; "live"; hex_encode p; b64_encode s].
Proof.
  unfold key_text.
  change ("eg_live_" +:+ hex_encode p +:+ "_" +:+ b64_encode s) with
    ("eg" +:+ String underscore ("live" +:+ String underscore (hex_encode p +:+ String underscore (b64_encode s)))).
  rw SplitN_cons; [done|lia|]. rw SplitN_cons; [done|lia|].
  rw SplitN_cons; [apply hex_no_underscore|lia|]. by rw SplitN_last.
Qed.

Lemma key_text_graphic p s : all_bytes graphic_byte (key_text p s) = true.
Proof.
  unfold key_text. rw !all_bytes_app.
  assert (Ht : forall t, all_bytes token_byte t = true -> all_bytes graphic_byte t = true)
    by (intros t; apply all_bytes_impl, token_graphic).
  rw (Ht _ (hex_encode_token p)) (Ht _ (b64_encode_token s)). done.
Qed.

Lemma GenerateAPIKey_text p s :
  GenerateAPIKey (Ok p) (Ok s) =
  Ok (mkGenerated (key_text p s) (hex_encode p) (hashAPIKey (key_text p s))).
Proof. done. Qed.

(** [MatchAPIKeyHash] against a hash the service computed. *)
Lemma MatchAPIKeyHash_spec a v :
  MatchAPIKeyHash (hashAPIKey a) (hashAPIKey v) = bool_decide (Sha256.Sum256 a = Sha256.Sum256 v).
Proof.
  unfold MatchAPIKeyHash, hashAPIKey, sha256_hex. rw !hex_decode_encode.
  unfold len. by rw !Sha256.Sum256_length Z.eqb_refl.
Qed.

(** ** Properties *)

(** The API keys the service generates are the keys it recognises: for any
    random bytes (the secret part may hold the separator), parsing the printed
    value, also with white space around it, yields the prefix and the hash that
    were generated. *)
Theorem api_key_roundtrip (prefixBytes secretBytes : string) (g : GeneratedAPIKey) :
  len prefixBytes = apiKeyPrefixSize -> len secretBytes = apiKeySecretSize ->
  GenerateAPIKey (Ok prefixBytes) (Ok secretBytes) = Ok g ->
  forall raw, TrimSpace raw = gk_Value g ->
  ParseAPIKey raw = Ok (mkParsed (gk_Prefix g) (gk_Hash g)) /\
  MatchAPIKeyHash (hashAPIKey (TrimSpace raw)) (gk_Hash g) = true.
Proof.
  intros Hp Hs. rw GenerateAPIKey_text. intros [= <-] raw. cbn [gk_Value gk_Prefix gk_Hash]. intros E.
  split; [|by rw E MatchAPIKeyHash_spec bool_decide_eq_true_2].
  unfold ParseAPIKey. rw E key_text_split. cbn [negb orb].
  rw !bool_decide_eq_true_2 // hex_decode_encode b64_decode_encode. cbn [negb orb].
  by rw Hp Hs.
Qed.

(** At fixed bytes, with a trailing newline. *)
Lemma api_key_roundtrip_witness :
  exists g, GenerateAPIKey (Ok "prefix__") (Ok "secret-secret-secret-secret-1234") = Ok g /\
    ParseAPIKey (gk_Value g +:+ String "010"%char EmptyString) = Ok (mkParsed (gk_Prefix g) (gk_Hash g)).
Proof.
  eexists. split; [reflexivity|].
  apply (api_key_roundtrip "prefix__" "secret-secret-secret-secret-1234"); [done|done|reflexivity|].
  by vm_compute.
Defined.
End Security.
