(* ===== verification/Auth.v ===== *)
(** The auth service (internal/auth): domain, PostgreSQL repository with the
    constraints of migration 000002, use cases and HTTP handlers.

    Each repository method is one atomic statement (or transaction) on the
    tables; use cases are written as the sequence of their statements, so that the
    statements of concurrent calls can interleave (AuthHistory.v, AuthSessions.v). *)
From Stdlib Require Import Ascii ZArith Lia.
From Corelib Require Import ssreflect.
From stdpp Require Import base gmap strings list numbers relations pretty.
From S2P Require Import Prelude GoStrings GoTime GoEncoding GoNet Events Postgres AuthSecurity.

#[local] Open Scope Z_scope.

Module Auth.
Import Security.

(** ** Errors (auth/domain/errors.go, auth/usecase/errors.go) *)

Definition derr (n t : string) : error := Sentinel ("auth/domain." +:+ n) t.
Definition uerr (n t : string) : error := Sentinel ("auth/usecase." +:+ n) t.

Definition ErrInvalidEmail := derr "ErrInvalidEmail" "invalid email".
Definition ErrInvalidPasswordHash := derr "ErrInvalidPasswordHash" "invalid password hash".
Definition ErrInvalidRole := derr "ErrInvalidRole" "invalid role".
Definition ErrInvalidUserID := derr "ErrInvalidUserID" "invalid user id".
Definition ErrInvalidProjectID := derr "ErrInvalidProjectID" "invalid project id".
Definition ErrInvalidName := derr "ErrInvalidName" "invalid name".
Definition ErrInvalidTokenHash := derr "ErrInvalidTokenHash" "invalid token hash".
Definition ErrInvalidKeyPrefix := derr "ErrInvalidKeyPrefix" "invalid key prefix".
Definition ErrInvalidKeyHash := derr "ErrInvalidKeyHash" "invalid key hash".
Definition ErrInvalidExpiration := derr "ErrInvalidExpiration" "invalid expiration".

Definition ErrInvalidPassword := uerr "ErrInvalidPassword" "invalid password".
Definition ErrInvalidCredentials := uerr "ErrInvalidCredentials" "invalid credentials".
Definition ErrUserDisabled := uerr "ErrUserDisabled" "user disabled".
Definition ErrEmailAlreadyExists := uerr "ErrEmailAlreadyExists" "email already exists".
Definition ErrUserNotFound := uerr "ErrUserNotFound" "user not found".
Definition ErrInvalidRefreshToken := uerr "ErrInvalidRefreshToken" "invalid refresh token".
Definition ErrInvalidAccessToken := uerr "ErrInvalidAccessToken" "invalid access token".
Definition ErrRefreshTokenNotFound := uerr "ErrRefreshTokenNotFound" "refresh token not found".
Definition ErrInvalidAPIKey := uerr "ErrInvalidAPIKey" "invalid api key".
Definition ErrInvalidAPIKeyID := uerr "ErrInvalidAPIKeyID" "invalid api key id".
Definition ErrAPIKeyNotFound := uerr "ErrAPIKeyNotFound" "api key not found".
Definition ErrAPIKeyNameAlreadyExists := uerr "ErrAPIKeyNameAlreadyExists" "api key name already exists".
Definition ErrProjectNotFound := uerr "ErrProjectNotFound" "project not found".

(** ** Domain (auth/domain) *)

Record User := mkUser {
  u_ID : string; u_Email : string; u_PasswordHash : string; u_Role : Role; u_Enabled : bool;
  u_CreatedAt : Z; u_UpdatedAt : Z
}.

Record RefreshToken := mkToken {
  t_ID : string; t_UserID : string; t_TokenHash : string; t_ExpiresAt : Z;
  t_RevokedAt : option Z; t_CreatedAt : Z
}.

Record APIKey := mkKey {
  k_ID : string; k_ProjectID : string; k_Name : string; k_KeyPrefix : string; k_KeyHash : string;
  k_Enabled : bool; k_ExpiresAt : option Z; k_LastUsedAt : option Z; k_CreatedAt : Z; k_UpdatedAt : Z
}.

(** net/mail.ParseAddress: the address it finds. *)
Class NetMail := { mail_ParseAddress : string -> res string }.

Definition normalizeEmail `{UnicodeTables} (value : string) : string := ToLower (TrimSpace value).

Definition isValidEmail `{NetMail} (value : string) : bool :=
  match mail_ParseAddress value with Err _ => false | Ok address => bool_decide (address = value) end.

Definition NewUser `{UnicodeTables} `{NetMail} (email passwordHash : string) (role : Role) : res User :=
  let email := normalizeEmail email in
  let passwordHash := TrimSpace passwordHash in
  if negb (isValidEmail email) then Err ErrInvalidEmail
  else if bool_decide (passwordHash = "") then Err ErrInvalidPasswordHash
  else if negb (Role_IsValid role) then Err ErrInvalidRole
  else Ok (mkUser "" email passwordHash role true time_zero time_zero).

Definition NewRefreshToken (userID tokenHash : string) (expiresAt now : Z) : res RefreshToken :=
  let userID := TrimSpace userID in
  let tokenHash := TrimSpace tokenHash in
  if bool_decide (userID = "") then Err ErrInvalidUserID
  else if bool_decide (tokenHash = "") then Err ErrInvalidTokenHash
  else if negb (After expiresAt now) then Err ErrInvalidExpiration
  else Ok (mkToken "" userID tokenHash expiresAt None time_zero).

Definition token_IsActive (t : RefreshToken) (now : Z) : bool :=
  match t_RevokedAt t with None => Before now (t_ExpiresAt t) | Some _ => false end.

Definition NewAPIKey (projectID name keyPrefix keyHash : string) (expiresAt : option Z) (now : Z)
    : res APIKey :=
  let projectID := TrimSpace projectID in
  let name := TrimSpace name in
  let keyPrefix := TrimSpace keyPrefix in
  let keyHash := TrimSpace keyHash in
  if bool_decide (projectID = "") then Err ErrInvalidProjectID
  else if bool_decide (name = "") then Err ErrInvalidName
  else if bool_decide (keyPrefix = "") then Err ErrInvalidKeyPrefix
  else if bool_decide (keyHash = "") then Err ErrInvalidKeyHash
  else if match expiresAt with Some t => negb (After t now) | None => false end then Err ErrInvalidExpiration
  else Ok (mkKey "" projectID name keyPrefix keyHash true expiresAt None time_zero time_zero).

Definition key_IsActive (k : APIKey) (now : Z) : bool :=
  if negb (k_Enabled k) then false
  else match k_ExpiresAt k with None => true | Some t => Before now t end.

(** ** Tables and repository (infrastructure/postgres, migration 000002) *)

Record adb := mkADB {
  project_ids : list string; users : list User; tokens : list RefreshToken; keys : list APIKey
}.
Definition set_users (l : list User) (d : adb) : adb := mkADB (project_ids d) l (tokens d) (keys d).
Definition set_tokens (l : list RefreshToken) (d : adb) : adb := mkADB (project_ids d) (users d) l (keys d).
Definition set_keys (l : list APIKey) (d : adb) : adb := mkADB (project_ids d) (users d) (tokens d) l.

(** lower() of the database. *)
Class PgText := { pg_lower : string -> string }.

Section repository.
Context `{PgUUID} `{PgText}.

Definition uniqueViolationCode : string := "23505".
Definition foreignKeyViolationCode : string := "23503".

Definition isUniqueViolation (err : error) : bool :=
  match as_pg err with Some (code, _) => bool_decide (code = uniqueViolationCode) | None => false end.
Definition isUniqueConstraintViolation (err : error) (constraintName : string) : bool :=
  match as_pg err with
  | Some (code, constraint) =>
    bool_decide (code = uniqueViolationCode) && bool_decide (constraint = constraintName)
  | None => false
  end.
Definition isForeignKeyViolation (err : error) : bool :=
  match as_pg err with Some (code, _) => bool_decide (code = foreignKeyViolationCode) | None => false end.

(** *** Users *)

(** [createUserQuery]; [id] and [now] are the column defaults. *)
Definition insert_user (id : string) (now : Z) (u : User) (d : adb) : res (User * adb) :=
  email ← encode_text (u_Email u);
  passwordHash ← encode_text (u_PasswordHash u);
  role ← encode_text (u_Role u);
  if bool_decide (passwordHash = "") then Err (check_violation "users_password_hash_check")
  else if negb (Role_IsValid role) then Err (check_violation "users_role_check")
  else if existsb (fun x => bool_decide (u_ID x = id)) (users d) then Err (unique_violation "users_pkey")
  else if existsb (fun x => bool_decide (pg_lower (u_Email x) = pg_lower email)) (users d) then
    Err (unique_violation "idx_users_email_normalized")
  else
    let row := mkUser id email passwordHash role (u_Enabled u) now now in
    Ok (row, set_users (users d ++ [row]) d).

Definition CreateUser (f : fault) (id : string) (now : Z) (u : User) (d : adb) : res (User * adb) :=
  map_err (fun err => if isUniqueViolation err then ErrEmailAlreadyExists else wrapf "create user" err)
    (with_fault f (insert_user id now u d)).

(** A lookup that maps an empty result to [notFound]. *)
Definition lookup_row {A} (notFound : error) (ctx : string) (r : res A) : res A :=
  map_err (fun err => if errors_Is err ErrNoRows then notFound else wrapf ctx err) r.

Definition GetUserByEmail (f : fault) (email : string) (d : adb) : res User :=
  lookup_row ErrUserNotFound "get user by email"
    (with_fault f (email ← encode_text email;
                   query_row (List.find (fun u => bool_decide (pg_lower (u_Email u) = pg_lower email)) (users d)))).

Definition GetUserByID (f : fault) (id : string) (d : adb) : res User :=
  lookup_row ErrUserNotFound "get user by id"
    (with_fault f (id ← cast_uuid id;
                   query_row (List.find (fun u => bool_decide (u_ID u = id)) (users d)))).

(** *** Refresh tokens *)

(** [createRefreshTokenQuery]. *)
Definition insert_token (id : string) (now : Z) (t : RefreshToken) (d : adb) : res (RefreshToken * adb) :=
  userID ← cast_uuid (t_UserID t);
  tokenHash ← encode_text (t_TokenHash t);
  let expiresAt := pg_time (t_ExpiresAt t) in
  if negb (now <? expiresAt) then Err (check_violation "refresh_tokens_check")
  else if existsb (fun x => bool_decide (t_ID x = id)) (tokens d) then
    Err (unique_violation "refresh_tokens_pkey")
  else if existsb (fun x => bool_decide (t_TokenHash x = tokenHash)) (tokens d) then
    Err (unique_violation "refresh_tokens_token_hash_key")
  else if negb (existsb (fun u => bool_decide (u_ID u = userID)) (users d)) then
    Err (foreign_key_violation "refresh_tokens_user_id_fkey")
  else
    let row := mkToken id userID tokenHash expiresAt None now in
    Ok (row, set_tokens (tokens d ++ [row]) d).

(** The insertion with its scan, in the pool or in a transaction. *)
Definition insertRefreshToken (f : fault) (id : string) (now : Z) (t : RefreshToken) (d : adb) : res (RefreshToken * adb) :=
  with_fault f (insert_token id now t d).

Definition CreateRefreshToken (f : fault) (id : string) (now : Z) (t : RefreshToken) (d : adb)
    : res (RefreshToken * adb) :=
  map_err (wrapf "create refresh token") (insertRefreshToken f id now t d).

Definition GetRefreshTokenByHash (f : fault) (tokenHash : string) (d : adb) : res RefreshToken :=
  lookup_row ErrRefreshTokenNotFound "get refresh token by hash"
    (with_fault f (tokenHash ← encode_text tokenHash;
                   query_row (List.find (fun t => bool_decide (t_TokenHash t = tokenHash)) (tokens d)))).

Definition revoke_token (at_ : Z) (t : RefreshToken) : RefreshToken :=
  mkToken (t_ID t) (t_UserID t) (t_TokenHash t) (t_ExpiresAt t) (Some at_) (t_CreatedAt t).

(** [revokeRefreshTokenByIDQuery]. *)
Definition revoke_by_id (id : string) (revokedAt : Z) (d : adb) : res adb :=
  id ← cast_uuid id;
  let at_ := pg_time revokedAt in
  l ← query_row (update_where
        (fun t => bool_decide (t_ID t = id) && bool_decide (t_RevokedAt t = None) && (at_ <? t_ExpiresAt t))
        (revoke_token at_) (tokens d));
  Ok (set_tokens l d).

(** One transaction: begin, revoke, insert, commit; an error before the commit
    rolls everything back. *)
Record rotation_env := mkRotation {
  ro_begin : fault; ro_revoke : fault; ro_insert : fault; ro_id : string; ro_now : Z;
  ro_commit : commit_outcome
}.

Definition RotateRefreshToken (e : rotation_env) (currentTokenID : string) (replacement : RefreshToken)
    (revokedAt : Z) (d : adb) : res RefreshToken * adb :=
  match ro_begin e with
  | Some err => (Err (wrapf "begin refresh token rotation" err), d)
  | None =>
    match with_fault (ro_revoke e) (revoke_by_id currentTokenID revokedAt d) with
    | Err err =>
      (Err (if errors_Is err ErrNoRows then ErrInvalidRefreshToken
            else wrapf "revoke current refresh token" err), d)
    | Ok d1 =>
      match insertRefreshToken (ro_insert e) (ro_id e) (ro_now e) replacement d1 with
      | Err err => (Err (wrapf "create replacement refresh token" err), d)
      | Ok (created, d2) =>
        match ro_commit e with
        | Committed => (Ok created, d2)
        | CommitFailed err applied =>
          (Err (wrapf "commit refresh token rotation" err), if applied then d2 else d)
        end
      end
    end
  end.

(** [revokeRefreshTokenByHashQuery]: an earlier revocation is kept. *)
Definition revoke_by_hash (tokenHash : string) (revokedAt : Z) (d : adb) : res adb :=
  tokenHash ← encode_text tokenHash;
  l ← query_row (update_where (fun t => bool_decide (t_TokenHash t = tokenHash))
        (fun t => revoke_token (default (pg_time revokedAt) (t_RevokedAt t)) t) (tokens d));
  Ok (set_tokens l d).

Definition RevokeRefreshTokenByHash (f : fault) (tokenHash : string) (revokedAt : Z) (d : adb) : res adb :=
  lookup_row ErrRefreshTokenNotFound "revoke refresh token by hash"
    (with_fault f (revoke_by_hash tokenHash revokedAt d)).

(** *** API keys *)

(** [createAPIKeyQuery]. *)
Definition insert_key (id : string) (now : Z) (k : APIKey) (d : adb) : res (APIKey * adb) :=
  projectID ← cast_uuid (k_ProjectID k);
  name ← encode_text (k_Name k);
  keyPrefix ← encode_text (k_KeyPrefix k);
  keyHash ← encode_text (k_KeyHash k);
  let expiresAt := pg_time <$> k_ExpiresAt k in
  if match expiresAt with Some t => negb (now <? t) | None => false end then
    Err (check_violation "api_keys_check")
  else if existsb (fun x => bool_decide (k_ID x = id)) (keys d) then Err (unique_violation "api_keys_pkey")
  else if existsb (fun x => bool_decide (k_KeyPrefix x = keyPrefix)) (keys d) then
    Err (unique_violation "api_keys_key_prefix_key")
  else if existsb (fun x => bool_decide (k_KeyHash x = keyHash)) (keys d) then
    Err (unique_violation "api_keys_key_hash_key")
  else if existsb (fun x => bool_decide (k_ProjectID x = projectID) && bool_decide (k_Name x = name)) (keys d)
  then Err (unique_violation "api_keys_project_id_name_key")
  else if negb (existsb (fun p => bool_decide (p = projectID)) (project_ids d)) then
    Err (foreign_key_violation "api_keys_project_id_fkey")
  else
    let row := mkKey id projectID name keyPrefix keyHash (k_Enabled k) expiresAt None now now in
    Ok (row, set_keys (keys d ++ [row]) d).

Definition apiKeyProjectNameConstraint : string := "api_keys_project_id_name_key".

Definition repo_CreateAPIKey (f : fault) (id : string) (now : Z) (k : APIKey) (d : adb)
    : res (APIKey * adb) :=
  map_err (fun err =>
      if isUniqueConstraintViolation err apiKeyProjectNameConstraint then ErrAPIKeyNameAlreadyExists
      else if isForeignKeyViolation err then ErrProjectNotFound
      else wrapf "create api key" err)
    (with_fault f (insert_key id now k d)).

(** created_at DESC, id DESC. *)
Definition ListAPIKeysByProjectID (f : fault) (projectID : string) (d : adb) : res (list APIKey) :=
  map_err (wrapf "list api keys by project id")
    (with_fault f (
      projectID ← cast_uuid projectID;
      Ok (rev (order_by (by_created k_CreatedAt k_ID)
                 (base.filter (fun k => k_ProjectID k = projectID) (keys d)))))).

Definition GetAPIKeyByPrefix (f : fault) (keyPrefix : string) (d : adb) : res APIKey :=
  lookup_row ErrAPIKeyNotFound "get api key by prefix"
    (with_fault f (keyPrefix ← encode_text keyPrefix;
                   query_row (List.find (fun k => bool_decide (k_KeyPrefix k = keyPrefix)) (keys d)))).

(** [disableAPIKeyQuery]. *)
Definition disable_key (projectID apiKeyID : string) (disabledAt : Z) (d : adb) : res adb :=
  apiKeyID ← cast_uuid apiKeyID;
  projectID ← cast_uuid projectID;
  l ← query_row (update_where
        (fun k => bool_decide (k_ID k = apiKeyID) && bool_decide (k_ProjectID k = projectID))
        (fun k => mkKey (k_ID k) (k_ProjectID k) (k_Name k) (k_KeyPrefix k) (k_KeyHash k) false
                    (k_ExpiresAt k) (k_LastUsedAt k) (k_CreatedAt k) (pg_time disabledAt)) (keys d));
  Ok (set_keys l d).

Definition DisableAPIKey (f : fault) (projectID apiKeyID : string) (disabledAt : Z) (d : adb) : res adb :=
  lookup_row ErrAPIKeyNotFound "disable api key"
    (with_fault f (disable_key projectID apiKeyID disabledAt d)).

(** [updateAPIKeyLastUsedAtQuery]: only an enabled key is touched. *)
Definition touch_key (apiKeyID : string) (usedAt : Z) (d : adb) : res adb :=
  apiKeyID ← cast_uuid apiKeyID;
  l ← query_row (update_where
        (fun k => bool_decide (k_ID k = apiKeyID) && k_Enabled k)
        (fun k => mkKey (k_ID k) (k_ProjectID k) (k_Name k) (k_KeyPrefix k) (k_KeyHash k) (k_Enabled k)
                    (k_ExpiresAt k) (Some (pg_time usedAt)) (k_CreatedAt k) (k_UpdatedAt k)) (keys d));
  Ok (set_keys l d).

Definition UpdateAPIKeyLastUsedAt (f : fault) (apiKeyID : string) (usedAt : Z) (d : adb) : res adb :=
  lookup_row ErrAPIKeyNotFound "update api key last used at"
    (with_fault f (touch_key apiKeyID usedAt d)).
End repository.

(** ** Use cases (auth/usecase)

    The dependencies of app.go are all present, so the guards for missing ones are
    left out.  A call reads its clock once and gets its faults, generated ids and
    random bytes from [call_env]. *)
Record call_env := mkCall {
  v_now : Z;
  v_f1 : fault;
  v_f2 : fault;
  v_id : string;
  v_dbnow : Z;
  v_rand1 : res string;
  v_rand2 : res string;
  v_rotation : rotation_env
}.

(** [New]: the time to live of refresh tokens. *)
Definition DefaultRefreshTokenTTL : Z := 30 * 24 * Hour.
Definition New_refreshTokenTTL (configured : Z) : Z :=
  if configured <=? 0 then DefaultRefreshTokenTTL else configured.

Record UserInfo := mkUserInfo {
  ui_ID : string; ui_Email : string; ui_Role : Role; ui_Enabled : bool; ui_CreatedAt : Z; ui_UpdatedAt : Z
}.
Definition userInfoFromDomain (u : User) : UserInfo :=
  mkUserInfo (u_ID u) (u_Email u) (u_Role u) (u_Enabled u) (u_CreatedAt u) (u_UpdatedAt u).

Record TokenPair := mkTokenPair {
  tp_TokenType : string; tp_AccessToken : string; tp_AccessTokenExpiresAt : Z;
  tp_RefreshToken : string; tp_RefreshTokenExpiresAt : Z
}.
Record Session := mkSession { se_User : UserInfo; se_Tokens : TokenPair }.

Definition tokenPair (accessToken : IssuedAccessToken) (rawRefreshToken : string)
    (refreshTokenExpiresAt : Z) : TokenPair :=
  mkTokenPair "Bearer" (ia_Value accessToken) (ia_ExpiresAt accessToken) rawRefreshToken
    refreshTokenExpiresAt.

Record APIKeyInfo := mkKeyInfo {
  ki_ID : string; ki_ProjectID : string; ki_Name : string; ki_KeyPrefix : string; ki_Enabled : bool;
  ki_ExpiresAt : option Z; ki_LastUsedAt : option Z; ki_CreatedAt : Z; ki_UpdatedAt : Z
}.
Definition apiKeyInfoFromDomain (k : APIKey) : APIKeyInfo :=
  mkKeyInfo (k_ID k) (k_ProjectID k) (k_Name k) (k_KeyPrefix k) (k_Enabled k) (k_ExpiresAt k)
    (k_LastUsedAt k) (k_CreatedAt k) (k_UpdatedAt k).
Record CreatedAPIKey := mkCreatedKey { ck_APIKey : APIKeyInfo; ck_Value : string }.
Record APIKeyPrincipal := mkKeyPrincipal { kp_APIKeyID : string; kp_ProjectID : string }.

(** *** Responses (delivery/http/v1/dto.go) *)

Record userResponse := mkUserResponse {
  ur_ID : string; ur_Email : string; ur_Role : string; ur_Enabled : bool; ur_CreatedAt : Z; ur_UpdatedAt : Z
}.
Definition newUserResponse (user : UserInfo) : userResponse :=
  mkUserResponse (ui_ID user) (ui_Email user) (ui_Role user) (ui_Enabled user) (ui_CreatedAt user) (ui_UpdatedAt user).

Record tokenPairResponse := mkTokenPairResponse {
  tr_TokenType : string; tr_AccessToken : string; tr_AccessTokenExpiresAt : Z;
  tr_RefreshToken : string; tr_RefreshTokenExpiresAt : Z
}.
Definition newTokenPairResponse (tokens : TokenPair) : tokenPairResponse :=
  mkTokenPairResponse (tp_TokenType tokens) (tp_AccessToken tokens) (tp_AccessTokenExpiresAt tokens)
    (tp_RefreshToken tokens) (tp_RefreshTokenExpiresAt tokens).

Record sessionResponse := mkSessionResponse { sr_User : userResponse; sr_Tokens : tokenPairResponse }.
Definition newSessionResponse (session : Session) : sessionResponse :=
  mkSessionResponse (newUserResponse (se_User session)) (newTokenPairResponse (se_Tokens session)).

Record apiKeyResponse := mkAPIKeyResponse {
  kr_ID : string; kr_ProjectID : string; kr_Name : string; kr_KeyPrefix : string; kr_Enabled : bool;
  kr_ExpiresAt : option Z; kr_LastUsedAt : option Z; kr_CreatedAt : Z; kr_UpdatedAt : Z
}.
Definition newAPIKeyResponse (key : APIKeyInfo) : apiKeyResponse :=
  mkAPIKeyResponse (ki_ID key) (ki_ProjectID key) (ki_Name key) (ki_KeyPrefix key) (ki_Enabled key)
    (ki_ExpiresAt key) (ki_LastUsedAt key) (ki_CreatedAt key) (ki_UpdatedAt key).

Record createdAPIKeyResponse := mkCreatedAPIKeyResponse { cr_APIKey : apiKeyResponse; cr_Value : string }.
Definition newCreatedAPIKeyResponse (created : CreatedAPIKey) : createdAPIKeyResponse :=
  mkCreatedAPIKeyResponse (newAPIKeyResponse (ck_APIKey created)) (ck_Value created).

Record apiKeyPrincipalResponse := mkPrincipalResponse { pr_APIKeyID : string; pr_ProjectID : string }.

Section usecase.
Context `{PgUUID} `{PgText} `{JWT} `{Bcrypt} `{UnicodeTables} `{NetMail}.
Context (ts : TokenService) (cost refreshTokenTTL : Z).

Definition isValidPassword (password : string) : bool :=
  (8 <=? len password) && (len password <=? 72).

Definition Register (e : call_env) (email password : string) (d : adb) : res (UserInfo * adb) :=
  if negb (isValidPassword password) then Err ErrInvalidPassword else
  passwordHash ← Hash cost password;
  user ← NewUser email passwordHash RoleMember;
  '(created, d') ← CreateUser (v_f1 e) (v_id e) (v_dbnow e) user d;
  Ok (userInfoFromDomain created, d').

Definition buildTokens (randomRead : res string) (user : User) (now : Z)
    : res (IssuedAccessToken * string * RefreshToken) :=
  accessToken ← IssueAccessToken ts (u_ID user) (u_Role user) (u_Enabled user) now;
  '(rawRefreshToken, refreshTokenHash) ← GenerateRefreshToken randomRead;
  refreshToken ← NewRefreshToken (u_ID user) refreshTokenHash (Add now refreshTokenTTL) now;
  Ok (accessToken, rawRefreshToken, refreshToken).

(** Map the not-found error of a lookup, as the [if err != nil] blocks do. *)
Definition not_found_as {A} (notFound target : error) (r : res A) : res A :=
  map_err (fun err => if errors_Is err notFound then target else err) r.

Definition Login (e : call_env) (email password : string) (d : adb) : res (Session * adb) :=
  let email := ToLower (TrimSpace email) in
  user ← not_found_as ErrUserNotFound ErrInvalidCredentials (GetUserByEmail (v_f1 e) email d);
  if negb (u_Enabled user) then Err ErrUserDisabled
  else if negb (PasswordMatches (u_PasswordHash user) password) then Err ErrInvalidCredentials
  else
    '(accessToken, rawRefreshToken, refreshToken) ← buildTokens (v_rand1 e) user (v_now e);
    '(created, d') ← CreateRefreshToken (v_f2 e) (v_id e) (v_dbnow e) refreshToken d;
    Ok (mkSession (userInfoFromDomain user) (tokenPair accessToken rawRefreshToken (t_ExpiresAt created)), d').

(** [Refresh] up to its transaction: the reads and the new tokens. *)
Record pending := mkPending {
  pd_current : RefreshToken;
  pd_access : IssuedAccessToken;
  pd_raw : string;
  pd_replacement : RefreshToken;
  pd_now : Z
}.

Definition Refresh_read (e : call_env) (refreshToken : string) (d : adb) : res pending :=
  let rawRefreshToken := TrimSpace refreshToken in
  if bool_decide (rawRefreshToken = "") then Err ErrInvalidRefreshToken else
  let tokenHash := HashRefreshToken rawRefreshToken in
  if bool_decide (tokenHash = "") then Err ErrInvalidRefreshToken else
  currentToken ← not_found_as ErrRefreshTokenNotFound ErrInvalidRefreshToken
                   (GetRefreshTokenByHash (v_f1 e) tokenHash d);
  let now := v_now e in
  if negb (token_IsActive currentToken now) then Err ErrInvalidRefreshToken else
  user ← not_found_as ErrUserNotFound ErrInvalidRefreshToken
           (GetUserByID (v_f2 e) (t_UserID currentToken) d);
  if negb (u_Enabled user) then Err ErrUserDisabled else
  '(accessToken, replacementRawToken, replacementToken) ← buildTokens (v_rand1 e) user now;
  Ok (mkPending currentToken accessToken replacementRawToken replacementToken now).

Definition Refresh_rotate (r : rotation_env) (p : pending) (d : adb) : res TokenPair * adb :=
  let '(created, d') := RotateRefreshToken r (t_ID (pd_current p)) (pd_replacement p) (pd_now p) d in
  (match created with
   | Err err => Err err
   | Ok c => Ok (tokenPair (pd_access p) (pd_raw p) (t_ExpiresAt c))
   end, d').

Definition Refresh (e : call_env) (refreshToken : string) (d : adb) : res TokenPair * adb :=
  match Refresh_read e refreshToken d with
  | Err err => (Err err, d)
  | Ok p => Refresh_rotate (v_rotation e) p d
  end.

Definition Logout (e : call_env) (refreshToken : string) (d : adb) : res adb :=
  let rawRefreshToken := TrimSpace refreshToken in
  if bool_decide (rawRefreshToken = "") then Err ErrInvalidRefreshToken else
  let tokenHash := HashRefreshToken rawRefreshToken in
  if bool_decide (tokenHash = "") then Err ErrInvalidRefreshToken else
  not_found_as ErrRefreshTokenNotFound ErrInvalidRefreshToken
    (RevokeRefreshTokenByHash (v_f1 e) tokenHash (v_now e) d).

Definition AuthenticateAccessToken (e : call_env) (rawAccessToken : string) (d : adb)
    : res AccessTokenPrincipal :=
  let rawAccessToken := TrimSpace rawAccessToken in
  if bool_decide (rawAccessToken = "") then Err ErrInvalidAccessToken else
  principal ← map_err (fun _ => ErrInvalidAccessToken) (ParseAccessToken ts rawAccessToken (v_now e));
  user ← not_found_as ErrUserNotFound ErrInvalidAccessToken (GetUserByID (v_f1 e) (at_UserID principal) d);
  if negb (u_Enabled user) then Err ErrUserDisabled
  else if negb (bool_decide (u_Role user = at_Role principal)) then Err ErrInvalidAccessToken
  else Ok principal.

Definition CreateAPIKey (e : call_env) (projectID name : string) (expiresAt : option Z) (d : adb)
    : res (CreatedAPIKey * adb) :=
  let now := v_now e in
  let projectID := TrimSpace projectID in
  if bool_decide (projectID = "") then Err ErrInvalidProjectID else
  let name := TrimSpace name in
  if bool_decide (name = "") then Err ErrInvalidName
  else if match expiresAt with Some t => negb (After t now) | None => false end then Err ErrInvalidExpiration
  else
    generated ← map_err (wrapf "generate api key") (GenerateAPIKey (v_rand1 e) (v_rand2 e));
    key ← NewAPIKey projectID name (gk_Prefix generated) (gk_Hash generated) expiresAt now;
    '(created, d') ← repo_CreateAPIKey (v_f1 e) (v_id e) (v_dbnow e) key d;
    Ok (mkCreatedKey (apiKeyInfoFromDomain created) (gk_Value generated), d').

Definition ListAPIKeys (e : call_env) (projectID : string) (d : adb) : res (list APIKeyInfo) :=
  let projectID := TrimSpace projectID in
  if bool_decide (projectID = "") then Err ErrInvalidProjectID
  else keys ← ListAPIKeysByProjectID (v_f1 e) projectID d;
       Ok (map apiKeyInfoFromDomain keys).

Definition RevokeAPIKey (e : call_env) (projectID apiKeyID : string) (d : adb) : res adb :=
  let projectID := TrimSpace projectID in
  if bool_decide (projectID = "") then Err ErrInvalidProjectID else
  let apiKeyID := TrimSpace apiKeyID in
  if bool_decide (apiKeyID = "") then Err ErrInvalidAPIKeyID
  else DisableAPIKey (v_f1 e) projectID apiKeyID (v_now e) d.

(** [ValidateAPIKey]: the lookup, then the update that records the use. *)
Definition Validate_read (e : call_env) (rawAPIKey : string) (d : adb) : res APIKey :=
  parsed ← map_err (fun _ => ErrInvalidAPIKey) (ParseAPIKey rawAPIKey);
  key ← not_found_as ErrAPIKeyNotFound ErrInvalidAPIKey (GetAPIKeyByPrefix (v_f1 e) (pk_Prefix parsed) d);
  if negb (MatchAPIKeyHash (pk_Hash parsed) (k_KeyHash key)) || negb (key_IsActive key (v_now e)) then
    Err ErrInvalidAPIKey
  else Ok key.

Definition Validate_touch (e : call_env) (key : APIKey) (d : adb) : res (APIKeyPrincipal * adb) :=
  d' ← not_found_as ErrAPIKeyNotFound ErrInvalidAPIKey
         (UpdateAPIKeyLastUsedAt (v_f2 e) (k_ID key) (v_now e) d);
  Ok (mkKeyPrincipal (k_ID key) (k_ProjectID key), d').

(** The two statements may see different states of the tables: [d1] and [d2]. *)
Definition ValidateAPIKey_at (e : call_env) (rawAPIKey : string) (d1 d2 : adb) : res (APIKeyPrincipal * adb) :=
  key ← Validate_read e rawAPIKey d1;
  Validate_touch e key d2.

Definition ValidateAPIKey (e : call_env) (rawAPIKey : string) (d : adb) : res (APIKeyPrincipal * adb) :=
  ValidateAPIKey_at e rawAPIKey d d.

(** ** HTTP handlers (delivery/http/v1) *)

Definition errInvalidRequestBody : error := Sentinel "auth/http.errInvalidRequestBody" "invalid request body".

(** [decodeRequest]: one value of the request's type, and then the end. *)
Definition decodeRequest {A} `{JSONDecoder A} (body : stream) : res A :=
  match json_Decode body with
  | Err _ => Err errInvalidRequestBody
  | Ok (a, rest) => match json_more rest with AtEOF => Ok a | _ => Err errInvalidRequestBody end
  end.

(** The cases of [authError], in order. *)
Definition auth_errors : list (error * Z) :=
  [ (errInvalidRequestBody, 400); (ErrInvalidEmail, 400); (ErrInvalidPassword, 400);
    (ErrEmailAlreadyExists, 409); (ErrInvalidCredentials, 401); (ErrInvalidRefreshToken, 401);
    (ErrInvalidAccessToken, 401); (ErrInvalidAPIKey, 401); (ErrInvalidProjectID, 400);
    (ErrInvalidName, 400); (ErrInvalidExpiration, 400); (ErrInvalidAPIKeyID, 400);
    (ErrAPIKeyNameAlreadyExists, 409); (ErrProjectNotFound, 404); (ErrAPIKeyNotFound, 404);
    (ErrUserDisabled, 403) ].

Definition authError (err : error) : option (Z * string) :=
  match List.find (fun c => errors_Is err c.1) auth_errors with
  | Some (target, status) => Some (status, Error target)
  | None => None
  end.

Definition handleError {A} (err : error) : json_reply A :=
  match authError err with
  | Some (status, message) => JSONError status message
  | None => JSONError 500 "internal error"
  end.

(** A handler's end: the body on success, [handleError] otherwise; the tables of
    a failed call are those [d] it leaves. *)
Definition respond {A B} (status : Z) (body : A -> B) (d : adb) (r : res (A * adb)) : json_reply B * adb :=
  match r with
  | Err err => (handleError err, d)
  | Ok (a, d') => (JSONOk status (body a), d')
  end.

Definition register (e : call_env) (request : res (string * string)) (d : adb) : json_reply userResponse * adb :=
  match request with
  | Err err => (handleError err, d)
  | Ok (email, password) => respond 201 newUserResponse d (Register e email password d)
  end.

Definition login (e : call_env) (request : res (string * string)) (d : adb) : json_reply sessionResponse * adb :=
  match request with
  | Err err => (handleError err, d)
  | Ok (email, password) => respond 200 newSessionResponse d (Login e email password d)
  end.

Definition refresh (e : call_env) (request : res string) (d : adb) : json_reply tokenPairResponse * adb :=
  match request with
  | Err err => (handleError err, d)
  | Ok token =>
    let '(r, d') := Refresh e token d in
    (match r with Err err => handleError err | Ok tokens => JSONOk 200 (newTokenPairResponse tokens) end, d')
  end.

Definition logout (e : call_env) (request : res string) (d : adb) : json_reply unit * adb :=
  match request with
  | Err err => (handleError err, d)
  | Ok token => respond 204 id d (d' ← Logout e token d; Ok (tt, d'))
  end.

Definition bearerToken (header : string) : option string :=
  match Fields header with
  | [scheme; credentials] =>
    if negb (EqualFold_ascii scheme "Bearer") then None
    else let token := TrimSpace credentials in
         if bool_decide (token = "") then None else Some token
  | _ => None
  end.

(** The middleware of the /projects group. *)
Definition requireAccessToken {A} (e : call_env) (header : string) (next : adb -> json_reply A * adb)
    (d : adb) : json_reply A * adb :=
  match bearerToken header with
  | None => (handleError ErrInvalidAccessToken, d)
  | Some rawToken =>
    match AuthenticateAccessToken e rawToken d with
    | Err err => (handleError err, d)
    | Ok _ => next d
    end
  end.

Definition createAPIKey (e : call_env) (project_id : string) (request : res (string * option Z)) (d : adb)
    : json_reply createdAPIKeyResponse * adb :=
  match request with
  | Err err => (handleError err, d)
  | Ok (name, expiresAt) => respond 201 newCreatedAPIKeyResponse d (CreateAPIKey e project_id name expiresAt d)
  end.

Definition listAPIKeys (e : call_env) (project_id : string) (d : adb) : json_reply (list apiKeyResponse) * adb :=
  respond 200 (map newAPIKeyResponse) d (keys ← ListAPIKeys e project_id d; Ok (keys, d)).

Definition revokeAPIKey (e : call_env) (project_id api_key_id : string) (d : adb) : json_reply unit * adb :=
  respond 204 id d (d' ← RevokeAPIKey e project_id api_key_id d; Ok (tt, d')).

Definition validateAPIKey (e : call_env) (headers : Header) (d : adb) : json_reply apiKeyPrincipalResponse * adb :=
  let rawAPIKey := TrimSpace (Header_Get headers "X-API-Key") in
  respond 200 (fun p => mkPrincipalResponse (kp_APIKeyID p) (kp_ProjectID p)) d (ValidateAPIKey e rawAPIKey d).
End usecase.
End Auth.
