(* ===== verification/AuthUsecase.v ===== *)
(** The auth use case as it is put together (internal/auth/usecase/usecase.go): its
    dependencies, the defaults of [New], and the methods that refuse to work without a
    dependency (access_tokens.go, api_keys.go).

    An interface field is nil or set; what a set one does is modelled by the statements
    and services that Auth.v calls.  The methods without a guard call a nil interface
    only in a use case the application does not build. *)
From Stdlib Require Import Ascii ZArith Lia.
From Corelib Require Import ssreflect.
From stdpp Require Import base gmap strings list numbers relations pretty.
From S2P Require Import Prelude GoStrings GoTime GoEncoding GoNet GoDate GoConv Events Postgres AuthSecurity Auth.

#[local] Open Scope Z_scope.

Module AuthUsecase.
Import Security Auth.

Definition ErrAPIKeyDependenciesMissing : error :=
  Sentinel "auth/usecase.ErrAPIKeyDependenciesMissing" "api key dependencies missing".
Definition ErrAccessTokenDependenciesMissing : error :=
  Sentinel "auth/usecase.ErrAccessTokenDependenciesMissing" "access token dependencies missing".

Record UsecaseConfig := mkUsecaseConfig { uc_RefreshTokenTTL : Z }.

Record Dependencies := mkDependencies {
  dp_UserRepository : bool; dp_RefreshTokenRepository : bool; dp_APIKeyRepository : bool; dp_PasswordHasher : bool;
  dp_TokenService : bool; dp_APIKeyService : bool; dp_Clock : option (unit -> Z)
}.
Record Usecase := mkUsecase {
  us_userRepository : bool; us_refreshTokenRepository : bool; us_apiKeyRepository : bool; us_passwordHasher : bool;
  us_tokenService : bool; us_apiKeyService : bool; us_clock : unit -> Z; us_refreshTokenTTL : Z
}.

Section usecase.
(** The clock of the system. *)
Context (systemClock : unit -> Z).

Definition New_usecase (dependencies : Dependencies) (cfg : UsecaseConfig) : Usecase :=
  let refreshTokenTTL := New_refreshTokenTTL (uc_RefreshTokenTTL cfg) in
  let clock := match dp_Clock dependencies with None => systemClock | Some clock => clock end in
  mkUsecase (dp_UserRepository dependencies) (dp_RefreshTokenRepository dependencies) (dp_APIKeyRepository dependencies)
    (dp_PasswordHasher dependencies) (dp_TokenService dependencies) (dp_APIKeyService dependencies) clock refreshTokenTTL.
End usecase.

Section methods.
Context `{PgUUID} `{PgText} `{JWT} `{Bcrypt} `{UnicodeTables} `{NetMail}.
Context (ts : TokenService) (u : Usecase).

Definition usecase_AuthenticateAccessToken (e : call_env) (rawAccessToken : string) (d : adb) : res AccessTokenPrincipal :=
  if negb (us_tokenService u) || negb (us_userRepository u) then Err ErrAccessTokenDependenciesMissing
  else AuthenticateAccessToken ts e rawAccessToken d.

Definition usecase_CreateAPIKey (e : call_env) (projectID name : string) (expiresAt : option Z) (d : adb) : res (CreatedAPIKey * adb) :=
  if negb (us_apiKeyRepository u) || negb (us_apiKeyService u) then Err ErrAPIKeyDependenciesMissing
  else CreateAPIKey e projectID name expiresAt d.

Definition usecase_ListAPIKeys (e : call_env) (projectID : string) (d : adb) : res (list APIKeyInfo) :=
  if negb (us_apiKeyRepository u) then Err ErrAPIKeyDependenciesMissing else ListAPIKeys e projectID d.

Definition usecase_RevokeAPIKey (e : call_env) (projectID apiKeyID : string) (d : adb) : res adb :=
  if negb (us_apiKeyRepository u) then Err ErrAPIKeyDependenciesMissing else RevokeAPIKey e projectID apiKeyID d.

Definition usecase_ValidateAPIKey (e : call_env) (rawAPIKey : string) (d : adb) : res (APIKeyPrincipal * adb) :=
  if negb (us_apiKeyRepository u) || negb (us_apiKeyService u) then Err ErrAPIKeyDependenciesMissing
  else ValidateAPIKey e rawAPIKey d.
End methods.

(** What auth/app/app.go passes: everything but a clock. *)
Definition app_dependencies : Dependencies := mkDependencies true true true true true true None.

Lemma configured_ttl `{UnicodeTables} getenv c : Load_auth_config getenv = Ok c -> 0 < cf_RefreshTokenTTL c.
Proof.
  unfold Load_auth_config. case_bool_decide; [done|].
  assert (Hd : forall k f x, 0 < f -> durationFromEnv getenv k f = Ok x -> 0 < x).
  { intros k f x Hf. unfold durationFromEnv. case_bool_decide; [by intros [= <-]|]. destruct (Duration.ParseDuration _) as [a|]; [|done].
    destruct (Z.leb_spec a 0); [done|]. by intros [= <-]. }
  destruct (durationFromEnv _ "AUTH_ACCESS_TOKEN_TTL" _) as [a|]; [|done]. cbn [mbind res_bind].
  destruct (durationFromEnv _ "AUTH_REFRESH_TOKEN_TTL" _) as [t|] eqn:E; [|done]. cbn [mbind res_bind]. apply Hd in E; [|done].
  destruct (intFromEnv _ "AUTH_REFRESH_TOKEN_SIZE" _) as [n|]; [|done]. cbn [mbind res_bind].
  destruct (intFromEnv _ "AUTH_BCRYPT_COST" _) as [b|]; [|done]. by intros [= <-].
Qed.

(** The use case of the application keeps sessions as long as it is configured to, and
    none of its guards answers. *)
Theorem assembled_usecase `{PgUUID} `{PgText} `{JWT} `{Bcrypt} `{UnicodeTables} `{NetMail} getenv c systemClock ts :
  Load_auth_config getenv = Ok c ->
  let u := New_usecase systemClock app_dependencies (mkUsecaseConfig (cf_RefreshTokenTTL c)) in
  us_refreshTokenTTL u = cf_RefreshTokenTTL c /\ us_clock u = systemClock /\
  (forall e token d, usecase_AuthenticateAccessToken ts u e token d = AuthenticateAccessToken ts e token d) /\
  (forall e p n x d, usecase_CreateAPIKey u e p n x d = CreateAPIKey e p n x d) /\
  (forall e p d, usecase_ListAPIKeys u e p d = ListAPIKeys e p d) /\
  (forall e p k d, usecase_RevokeAPIKey u e p k d = RevokeAPIKey e p k d) /\
  (forall e k d, usecase_ValidateAPIKey u e k d = ValidateAPIKey e k d).
Proof.
  intros Hc%configured_ttl u. split; [|done]. cbn. unfold New_refreshTokenTTL. by destruct (Z.leb_spec (cf_RefreshTokenTTL c) 0); [lia|].
Qed.
End AuthUsecase.
