(* ===== verification/AuthHistory.v ===== *)
(** Histories of the auth service: interleavings of the statements of Auth.v, and
    the properties of keys and tokens along them. *)
From Stdlib Require Import Ascii ZArith Lia.
From Corelib Require Import ssreflect.
From stdpp Require Import base gmap strings list numbers relations pretty.
From S2P Require Import Prelude GoStrings GoTime GoEncoding GoNet Events Postgres AuthSecurity Auth.

#[local] Open Scope Z_scope.

Module History.
Import Security Auth.

Section history.
Context `{PgUUIDLaws} `{PgText}.

(** ** Steps *)

(** One statement of some call, with any arguments; rows get generated ids. The
    control plane adds projects. *)
Inductive dbstep (d : adb) : adb -> Prop :=
| st_user f id now u r d' : uuid_text id -> CreateUser f id now u d = Ok (r, d') -> dbstep d d'
| st_token f id now t r d' : uuid_text id -> CreateRefreshToken f id now t d = Ok (r, d') -> dbstep d d'
| st_rotate e id t at_ : uuid_text (ro_id e) -> dbstep d (RotateRefreshToken e id t at_ d).2
| st_revoke f h at_ d' : RevokeRefreshTokenByHash f h at_ d = Ok d' -> dbstep d d'
| st_key f id now k r d' : uuid_text id -> repo_CreateAPIKey f id now k d = Ok (r, d') -> dbstep d d'
| st_disable f p i at_ d' : DisableAPIKey f p i at_ d = Ok d' -> dbstep d d'
| st_touch f i at_ d' : UpdateAPIKeyLastUsedAt f i at_ d = Ok d' -> dbstep d d'
| st_project p : dbstep d (mkADB (p :: project_ids d) (users d) (tokens d) (keys d)).

(** ** How rows change *)

Definition key_id (k : APIKey) := (k_ID k, k_ProjectID k, k_KeyPrefix k, k_KeyHash k, k_ExpiresAt k).
Definition key_le (k k' : APIKey) : Prop :=
  key_id k = key_id k' /\ (k_Enabled k' = true -> k_Enabled k = true).

Definition token_id (t : RefreshToken) := (t_ID t, t_UserID t, t_TokenHash t, t_ExpiresAt t).
Definition token_le (t t' : RefreshToken) : Prop :=
  token_id t = token_id t' /\ (t_RevokedAt t' = None -> t_RevokedAt t = None).

#[global] Instance key_le_pre : PreOrder key_le.
Proof. unfold key_le. split; [by intros k|]. intros k1 k2 k3 [-> ?] [-> ?]. auto. Qed.
#[global] Instance token_le_pre : PreOrder token_le.
Proof. unfold token_le. split; [by intros k|]. intros k1 k2 k3 [-> ?] [-> ?]. auto. Qed.

(** Unique columns of the tables. *)
Record wf (d : adb) : Prop := {
  wf_key_ids : NoDup (k_ID <$> keys d);
  wf_key_prefixes : NoDup (k_KeyPrefix <$> keys d);
  wf_key_uuid : Forall (fun k => uuid_text (k_ID k)) (keys d);
  wf_key_project : Forall (fun k => uuid_text (k_ProjectID k)) (keys d);
  wf_token_ids : NoDup (t_ID <$> tokens d);
  wf_token_hashes : NoDup (t_TokenHash <$> tokens d);
  wf_token_uuid : Forall (fun t => uuid_text (t_ID t)) (tokens d);
  wf_user_ids : NoDup (u_ID <$> users d);
  wf_user_emails : NoDup ((fun u => pg_lower (u_Email u)) <$> users d);
  wf_user_uuid : Forall (fun u => uuid_text (u_ID u)) (users d);
}.

(** What one statement may do to the tables. *)
Record moves (d d' : adb) : Prop := {
  mv_wf : wf d -> wf d';
  mv_keys : evolves key_le (keys d) (keys d');
  mv_tokens : evolves token_le (tokens d) (tokens d');
  mv_users : evolves eq (users d) (users d');
}.

Lemma moves_refl d : moves d d.
Proof. split; [done|apply evolves_refl, _..]. Qed.
Lemma moves_trans d1 d2 d3 : moves d1 d2 -> moves d2 d3 -> moves d1 d3.
Proof.
  intros [W1 K1 T1 U1] [W2 K2 T2 U2]. split; [by auto|..].
  - exact (evolves_trans key_le _ _ _ K1 K2).
  - exact (evolves_trans token_le _ _ _ T1 T2).
  - exact (evolves_trans eq _ _ _ U1 U2).
Qed.

Lemma lookup_row_Ok {A} nf ctx (r : res A) a : lookup_row nf ctx r = Ok a <-> r = Ok a.
Proof. unfold lookup_row. destruct r; naive_solver. Qed.

(** ** Statements *)

Lemma insert_key_Ok id now k d r d' :
  insert_key id now k d = Ok (r, d') ->
  exists pid, pg_uuid (k_ProjectID k) = Some pid /\
  r = mkKey id pid (k_Name k) (k_KeyPrefix k) (k_KeyHash k) (k_Enabled k) (pg_time <$> k_ExpiresAt k)
        None now now /\
  d' = set_keys (keys d ++ [r]) d /\ (id ∉ (k_ID <$> keys d)) /\ (k_KeyPrefix k ∉ (k_KeyPrefix <$> keys d)).
Proof.
  unfold insert_key, cast_uuid. destruct (pg_uuid _) as [pid|]; [|done]. cbn.
  destruct (encode_text (k_Name k)) as [n|] eqn:En; [|done].
  destruct (encode_text (k_KeyPrefix k)) as [p|] eqn:Ep; [|done].
  destruct (encode_text (k_KeyHash k)) as [h|] eqn:Eh; [|done]. cbn.
  apply encode_text_Ok in En as [-> _]. apply encode_text_Ok in Ep as [-> _].
  apply encode_text_Ok in Eh as [-> _]. destruct (match _ with Some _ => _ | None => _ end); [done|].
  destruct (existsb _ (keys d)) eqn:E1; [done|]. apply (existsb_key k_ID) in E1.
  destruct (existsb _ (keys d)) eqn:E2; [done|]. apply (existsb_key k_KeyPrefix) in E2.
  destruct (existsb _ (keys d)); [done|]. destruct (existsb _ (keys d)); [done|].
  destruct (negb _); [done|]. intros [= <- <-]. by exists pid.
Qed.

Lemma insert_token_Ok id now t d r d' :
  insert_token id now t d = Ok (r, d') ->
  exists uid, pg_uuid (t_UserID t) = Some uid /\
  r = mkToken id uid (t_TokenHash t) (pg_time (t_ExpiresAt t)) None now /\
  d' = set_tokens (tokens d ++ [r]) d /\ (id ∉ (t_ID <$> tokens d)) /\
  (t_TokenHash t ∉ (t_TokenHash <$> tokens d)).
Proof.
  unfold insert_token, cast_uuid. destruct (pg_uuid _) as [uid|]; [|done]. cbn.
  destruct (encode_text (t_TokenHash t)) as [h|] eqn:Eh; [|done]. cbn.
  apply encode_text_Ok in Eh as [-> _]. destruct (negb (now <? _)); [done|].
  destruct (existsb _ (tokens d)) eqn:E1; [done|]. apply (existsb_key t_ID) in E1.
  destruct (existsb _ (tokens d)) eqn:E2; [done|]. apply (existsb_key t_TokenHash) in E2.
  destruct (negb _); [done|]. intros [= <- <-]. by exists uid.
Qed.

Lemma insert_user_Ok id now u d r d' :
  insert_user id now u d = Ok (r, d') ->
  r = mkUser id (u_Email u) (u_PasswordHash u) (u_Role u) (u_Enabled u) now now /\
  d' = set_users (users d ++ [r]) d /\ (id ∉ (u_ID <$> users d)) /\
  (pg_lower (u_Email u) ∉ ((fun x => pg_lower (u_Email x)) <$> users d)).
Proof.
  unfold insert_user. destruct (encode_text (u_Email u)) as [m|] eqn:Em; [|done].
  destruct (encode_text (u_PasswordHash u)) as [h|] eqn:Eh; [|done].
  destruct (encode_text (u_Role u)) as [r0|] eqn:Er; [|done]. cbn.
  apply encode_text_Ok in Em as [-> _]. apply encode_text_Ok in Eh as [-> _].
  apply encode_text_Ok in Er as [-> _]. case_bool_decide; [done|]. destruct (negb _); [done|].
  destruct (existsb _ (users d)) eqn:E1; [done|]. apply (existsb_key u_ID) in E1.
  destruct (existsb _ (users d)) eqn:E2; [done|].
  apply (existsb_key (fun x => pg_lower (u_Email x))) in E2. intros [= <- <-]. done.
Qed.

Lemma moves_insert_key id now k d r d' :
  uuid_text id -> insert_key id now k d = Ok (r, d') -> moves d d'.
Proof.
  intros Hid (pid & Hpid & -> & -> & Hi & Hp)%insert_key_Ok. apply pg_uuid_text in Hpid. split; cbn.
  - intros []. split; cbn; rw ?fmap_app; try done; try by apply NoDup_snoc.
    all: apply Forall_app; split; [done|]; by apply Forall_cons.
  - apply evolves_snoc, _.
  - apply evolves_refl, _.
  - apply evolves_refl, _.
Qed.

Lemma moves_insert_token id now t d r d' :
  uuid_text id -> insert_token id now t d = Ok (r, d') -> moves d d'.
Proof.
  intros Hid (uid & _ & -> & -> & Hi & Hp)%insert_token_Ok. split; cbn.
  - intros []. split; cbn; rw ?fmap_app; try done; try by apply NoDup_snoc.
    apply Forall_app. split; [done|]. by apply Forall_cons.
  - apply evolves_refl, _.
  - apply evolves_snoc, _.
  - apply evolves_refl, _.
Qed.

Lemma update_Forall_column {A K} (key : A -> K) (Q : K -> Prop) p f l l' :
  (forall a, key (f a) = key a) -> update_where p f l = Some l' ->
  Forall (fun a => Q (key a)) l -> Forall (fun a => Q (key a)) l'.
Proof.
  intros Hf Hu Hl. apply (Forall_fmap key Q). rw (update_column key _ _ _ _ Hf Hu). by apply Forall_fmap.
Qed.

Lemma moves_update_keys p f d l :
  (forall k, key_le k (f k)) -> update_where p f (keys d) = Some l -> moves d (set_keys l d).
Proof.
  intros Hf Hu. assert (Hid : forall k, key_id (f k) = key_id k) by (intros k; symmetry; apply Hf).
  split; cbn.
  - intros []. split; cbn; try done.
    + rw (update_column k_ID _ _ _ _ _ Hu) //. intros k. by injection (Hid k).
    + rw (update_column k_KeyPrefix _ _ _ _ _ Hu) //. intros k. by injection (Hid k).
    + apply (update_Forall_column k_ID uuid_text _ _ _ _) with (1 := fun k => ltac:(by injection (Hid k))) (2 := Hu).
      done.
    + apply (update_Forall_column k_ProjectID uuid_text p f (keys d)); [intros k; by injection (Hid k)|exact Hu|done].
  - by eapply evolves_update; [apply _| |].
  - apply evolves_refl, _.
  - apply evolves_refl, _.
Qed.

Lemma moves_update_tokens p f d l :
  (forall t, token_le t (f t)) -> update_where p f (tokens d) = Some l -> moves d (set_tokens l d).
Proof.
  intros Hf Hu. assert (Hid : forall t, token_id (f t) = token_id t) by (intros t; symmetry; apply Hf).
  split; cbn.
  - intros []. split; cbn; try done.
    + rw (update_column t_ID _ _ _ _ _ Hu) //. intros t. by injection (Hid t).
    + rw (update_column t_TokenHash _ _ _ _ _ Hu) //. intros t. by injection (Hid t).
    + apply (update_Forall_column t_ID uuid_text _ _ _ _) with (1 := fun t => ltac:(by injection (Hid t))) (2 := Hu).
      done.
  - apply evolves_refl, _.
  - by eapply evolves_update; [apply _| |].
  - apply evolves_refl, _.
Qed.

Lemma revoke_by_id_Ok id at_ d d' :
  revoke_by_id id at_ d = Ok d' -> exists i l, pg_uuid id = Some i /\ d' = set_tokens l d /\
  update_where (fun t => bool_decide (t_ID t = i) && bool_decide (t_RevokedAt t = None) &&
                         (pg_time at_ <? t_ExpiresAt t))
    (revoke_token (pg_time at_)) (tokens d) = Some l.
Proof.
  unfold revoke_by_id, cast_uuid. destruct (pg_uuid id) as [i|]; [|done]. cbn.
  destruct (update_where _ _ _) as [l|] eqn:Hu; [|done]. cbn. intros [= <-]. by exists i, l.
Qed.

Lemma moves_revoke_by_id id at_ d d' : revoke_by_id id at_ d = Ok d' -> moves d d'.
Proof. intros (i & l & _ & -> & Hu)%revoke_by_id_Ok. refine (moves_update_tokens _ _ _ _ _ Hu). by intros t; split. Qed.

Lemma moves_revoke_by_hash h at_ d d' : revoke_by_hash h at_ d = Ok d' -> moves d d'.
Proof.
  unfold revoke_by_hash. destruct (encode_text h); [|done]. cbn.
  destruct (update_where _ _ _) as [l|] eqn:Hu; [|done]. intros [= <-].
  refine (moves_update_tokens _ _ _ _ _ Hu). by intros t; split.
Qed.

Lemma moves_disable p i at_ d d' : disable_key p i at_ d = Ok d' -> moves d d'.
Proof.
  unfold disable_key, cast_uuid. destruct (pg_uuid i); [|done]. destruct (pg_uuid p); [|done]. cbn.
  destruct (update_where _ _ _) as [l|] eqn:Hu; [|done]. intros [= <-].
  refine (moves_update_keys _ _ _ _ _ Hu). by intros k; split.
Qed.

Lemma moves_touch i at_ d d' : touch_key i at_ d = Ok d' -> moves d d'.
Proof.
  unfold touch_key, cast_uuid. destruct (pg_uuid i); [|done]. cbn.
  destruct (update_where _ _ _) as [l|] eqn:Hu; [|done]. intros [= <-].
  refine (moves_update_keys _ _ _ _ _ Hu). by intros k; split.
Qed.

Lemma moves_rotate e id t at_ d : uuid_text (ro_id e) -> moves d (RotateRefreshToken e id t at_ d).2.
Proof.
  intros Hid. unfold RotateRefreshToken, insertRefreshToken. destruct (ro_begin e); [apply moves_refl|].
  destruct (with_fault _ _) as [d1|] eqn:E1; [|apply moves_refl].
  apply with_fault_Ok in E1 as [_ E1]. apply moves_revoke_by_id in E1.
  destruct (with_fault _ _) as [[c d2]|] eqn:E2; [|apply moves_refl].
  apply with_fault_Ok in E2 as [_ E2]. apply moves_insert_token in E2; [|done].
  destruct (ro_commit e) as [|err []]; cbn; [|by apply moves_trans with d1|apply moves_refl].
  by apply moves_trans with d1.
Qed.

Lemma moves_insert_user id now u d r d' :
  uuid_text id -> insert_user id now u d = Ok (r, d') -> moves d d'.
Proof.
  intros Hid (-> & -> & Hi & He)%insert_user_Ok. split; cbn.
  - intros []. split; cbn; rw ?fmap_app; try done; try by apply NoDup_snoc.
    apply Forall_app. split; [done|]. by apply Forall_cons.
  - apply evolves_refl, _.
  - apply evolves_refl, _.
  - apply evolves_snoc, _.
Qed.

Lemma dbstep_moves d d' : dbstep d d' -> moves d d'.
Proof.
  intros [f id now u r d1 Hid E|f id now t r d1 Hid E|e id t at_ Hid|f h at_ d1 E|f id now k r d1 Hid E
         |f p i at_ d1 E|f i at_ d1 E|p].
  - apply map_err_Ok, with_fault_Ok in E as [_ E]. by eapply moves_insert_user.
  - apply map_err_Ok, with_fault_Ok in E as [_ E]. by eapply moves_insert_token.
  - by apply moves_rotate.
  - apply lookup_row_Ok, with_fault_Ok in E as [_ E]. by eapply moves_revoke_by_hash.
  - apply map_err_Ok, with_fault_Ok in E as [_ E]. by eapply moves_insert_key.
  - apply lookup_row_Ok, with_fault_Ok in E as [_ E]. by eapply moves_disable.
  - apply lookup_row_Ok, with_fault_Ok in E as [_ E]. by eapply moves_touch.
  - split; cbn; [by intros []|apply evolves_refl, _..].
Qed.

Lemma history_moves d d' : rtc dbstep d d' -> moves d d'.
Proof.
  induction 1 as [|d1 d2 d3 Hs _ IH]; [apply moves_refl|].
  apply moves_trans with d2; [by apply dbstep_moves|done].
Qed.

Definition empty_adb : adb := mkADB [] [] [] [].
Lemma wf_empty : wf empty_adb.
Proof. split; cbn; constructor. Qed.
Lemma wf_reachable d : rtc dbstep empty_adb d -> wf d.
Proof. intros Hr. apply (mv_wf _ _ (history_moves _ _ Hr)), wf_empty. Qed.
End history.
End History.
