(* ===== verification/AuthKeys.v ===== *)
(** API keys of the auth service along a history: what their validation accepts,
    and the life of a key from its creation to its revocation. *)
From Stdlib Require Import Ascii ZArith Lia.
From Corelib Require Import ssreflect.
From stdpp Require Import base gmap strings list numbers relations pretty.
From S2P Require Import Prelude GoStrings GoTime GoEncoding GoNet Events Postgres AuthSecurity Auth AuthHistory.

#[local] Open Scope Z_scope.

Module Keys.
Import Security Auth History.

Section keys.
Context `{PgUUIDLaws} `{PgText}.

(** ** Lemmas *)

Lemma key_follow d d' i k :
  rtc dbstep d d' -> keys d !! i = Some k -> exists k', keys d' !! i = Some k' /\ key_le k k'.
Proof. intros Hr Hk. exact (mv_keys _ _ (history_moves _ _ Hr) _ _ Hk). Qed.

Lemma wf_follow d d' : rtc dbstep d d' -> wf d -> wf d'.
Proof. intros Hr. exact (mv_wf _ _ (history_moves _ _ Hr)). Qed.

Lemma key_uuid d i k : wf d -> keys d !! i = Some k -> pg_uuid (k_ID k) = Some (k_ID k).
Proof. intros Hwf Hk. exact (proj1 (Forall_lookup _ _) (wf_key_uuid _ Hwf) _ _ Hk). Qed.

(** A successful lookup by prefix. *)
Lemma GetAPIKeyByPrefix_Ok f p d k :
  GetAPIKeyByPrefix f p d = Ok k -> exists i, keys d !! i = Some k /\ k_KeyPrefix k = p.
Proof.
  intros [_ E]%lookup_row_Ok%with_fault_Ok. revert E.
  destruct (encode_text p) as [p'|] eqn:Ep; [|done]. apply encode_text_Ok in Ep as [-> _]. cbn.
  intros E%query_row_Ok. apply List.find_some in E as [Hk Hp]. apply bool_decide_eq_true_1 in Hp.
  apply list_elem_of_In in Hk. apply list_elem_of_lookup in Hk as [i Hi]. by exists i.
Qed.

Lemma GetAPIKeyByPrefix_hit d i k :
  wf d -> keys d !! i = Some k -> pg_text (k_KeyPrefix k) = true ->
  GetAPIKeyByPrefix None (k_KeyPrefix k) d = Ok k.
Proof.
  intros Hwf Hk Hb. unfold GetAPIKeyByPrefix, encode_text. rw Hb. cbn.
  by rw (find_unique k_KeyPrefix _ _ _ (wf_key_prefixes _ Hwf) Hk).
Qed.

(** Recording the use of a row that is still enabled, and of one that is not. *)
Definition touched (at_ : Z) (k : APIKey) : APIKey :=
  mkKey (k_ID k) (k_ProjectID k) (k_Name k) (k_KeyPrefix k) (k_KeyHash k) (k_Enabled k)
    (k_ExpiresAt k) (Some (pg_time at_)) (k_CreatedAt k) (k_UpdatedAt k).

Lemma touch_disabled d i k at_ :
  wf d -> keys d !! i = Some k -> k_Enabled k = false -> touch_key (k_ID k) at_ d = Err ErrNoRows.
Proof.
  intros Hwf Hk He. unfold touch_key, cast_uuid. rw (key_uuid d i k) //. cbn.
  destruct (update_where _ _ _) as [l|] eqn:Hu; [|done]. exfalso.
  apply update_where_Some in Hu as (b & Hb & [E1 E2]%andb_prop). apply bool_decide_eq_true_1 in E1.
  apply list_elem_of_lookup in Hb as [j Hj].
  assert (i = j) as -> by exact (unique_row k_ID _ _ _ _ _ (wf_key_ids _ Hwf) Hk Hj (eq_sym E1)).
  congruence.
Qed.

Lemma touch_enabled d i k at_ :
  wf d -> keys d !! i = Some k -> k_Enabled k = true ->
  exists d', touch_key (k_ID k) at_ d = Ok d' /\ keys d' !! i = Some (touched at_ k).
Proof.
  intros Hwf Hk He. unfold touch_key, cast_uuid. rw (key_uuid d i k) //. cbn.
  destruct (update_where _ _ _) as [l|] eqn:Hu.
  - eexists. split; [reflexivity|]. cbn. rw (update_where_lookup _ _ _ _ _ _ Hu Hk).
    by rw bool_decide_eq_true_2 // /touched He.
  - exfalso. revert Hu. unfold update_where. destruct (existsb _ _) eqn:E; [done|]. intros _.
    apply existsb_false with (a := k) in E; [|by eapply list_elem_of_lookup_2].
    by rw bool_decide_eq_true_2 // He in E.
Qed.

Lemma Validate_touch_at e k1 d i k :
  wf d -> keys d !! i = Some k -> key_le k1 k -> v_f2 e = None ->
  (k_Enabled k = true ->
   exists d', Validate_touch e k1 d = Ok (mkKeyPrincipal (k_ID k) (k_ProjectID k), d') /\
              keys d' !! i = Some (touched (v_now e) k)) /\
  (k_Enabled k = false -> Validate_touch e k1 d = Err ErrInvalidAPIKey).
Proof.
  intros Hwf Hk [[= E1 E2 _ _ _] _] Hf. unfold Validate_touch, UpdateAPIKeyLastUsedAt.
  rw E1 E2 Hf. cbn [with_fault]. split; intros He.
  - destruct (touch_enabled d i k (v_now e) Hwf Hk He) as (d' & -> & Hd'). by exists d'.
  - by rw (touch_disabled d i k _ Hwf Hk He).
Qed.

(** A row of the life of a generated key. *)
Definition row_of (raw : string) (k : APIKey) : Prop :=
  ParseAPIKey raw = Ok (mkParsed (k_KeyPrefix k) (k_KeyHash k)) /\
  MatchAPIKeyHash (k_KeyHash k) (k_KeyHash k) = true /\
  pg_text (k_KeyPrefix k) = true.

Lemma row_of_le raw k k' : key_le k k' -> row_of raw k -> row_of raw k'.
Proof. intros [[= _ _ E1 E2 _] _]. unfold row_of. by rw E1 E2. Qed.

Lemma Validate_read_at e raw d i k :
  wf d -> keys d !! i = Some k -> row_of raw k -> v_f1 e = None ->
  Validate_read e raw d = if key_IsActive k (v_now e) then Ok k else Err ErrInvalidAPIKey.
Proof.
  intros Hwf Hk (Hp & Hm & Hb) Hf. unfold Validate_read. rw Hp. cbn [map_err mbind res_bind pk_Prefix pk_Hash].
  rw Hf (GetAPIKeyByPrefix_hit d i k Hwf Hk Hb). cbn [not_found_as map_err mbind res_bind].
  rw Hm. cbn. by destruct (key_IsActive _ _).
Qed.

Lemma CreateAPIKey_Ok e pid name exp d ck d' p s :
  v_rand1 e = Ok p -> v_rand2 e = Ok s -> len p = apiKeyPrefixSize -> len s = apiKeySecretSize ->
  CreateAPIKey e pid name exp d = Ok (ck, d') ->
  ck_Value ck = key_text p s /\
  exists f key created, repo_CreateAPIKey f (v_id e) (v_dbnow e) key d = Ok (created, d') /\
    keys d' = keys d ++ [created] /\ ck_APIKey ck = apiKeyInfoFromDomain created /\
    k_Enabled created = true /\ k_ExpiresAt created = (pg_time <$> exp) /\
    k_KeyPrefix created = hex_encode p /\ k_KeyHash created = hashAPIKey (key_text p s).
Proof.
  intros Hp Hs Lp Ls. unfold CreateAPIKey. case_bool_decide; [done|]. case_bool_decide; [done|].
  destruct (match exp with Some _ => _ | None => _ end) eqn:Ee; [done|].
  rw Hp Hs GenerateAPIKey_text. cbn [map_err mbind res_bind gk_Prefix gk_Hash gk_Value].
  unfold NewAPIKey. rw Ee. repeat (case_bool_decide; [done|]). cbn [mbind res_bind].
  destruct (repo_CreateAPIKey _ _ _ _ _) as [[created d1]|] eqn:Er; [|done]. cbn. intros [= <- <-].
  split; [done|]. pose proof Er as Er'. apply map_err_Ok, with_fault_Ok in Er' as [_ Ei].
  apply insert_key_Ok in Ei as (pid' & _ & -> & -> & _). do 3 eexists. split; [exact Er|].
  cbn. assert (Hg : forall t, all_bytes token_byte t = true -> TrimSpace t = t).
  { intros t Ht. apply graphic_TrimSpace. revert Ht. apply all_bytes_impl, token_graphic. }
  rw (Hg _ (hex_encode_token p)). by rw (Hg _ (hex_encode_token (Sha256.Sum256 _))).
Qed.

Lemma created_row e pid name exp d ck d' p s raw :
  wf d -> v_rand1 e = Ok p -> v_rand2 e = Ok s -> len p = apiKeyPrefixSize -> len s = apiKeySecretSize ->
  uuid_text (v_id e) -> CreateAPIKey e pid name exp d = Ok (ck, d') -> TrimSpace raw = ck_Value ck ->
  wf d' /\ exists i k, keys d' !! i = Some k /\ row_of raw k /\ k_Enabled k = true /\
    k_ID k = ki_ID (ck_APIKey ck) /\ k_ProjectID k = ki_ProjectID (ck_APIKey ck) /\
    k_ExpiresAt k = (pg_time <$> exp).
Proof.
  intros Hwf Hp Hs Lp Ls Hid Hc Ht. apply (CreateAPIKey_Ok _ _ _ _ _ _ _ p s) in Hc; [|done..].
  destruct Hc as (Ev & f & key & k & Hr & Hk & Ei & He & Hx & Epre & Eh).
  split; [by apply (wf_follow d); [apply rtc_once; by eapply st_key|]|].
  exists (length (keys d)), k. rw Hk lookup_app_r // Nat.sub_diag Ei. split; [done|].
  split; [|done]. unfold row_of. rw Epre Eh MatchAPIKeyHash_spec bool_decide_eq_true_2 //.
  split; [|split; [done|]].
  - unfold ParseAPIKey. rw Ht Ev key_text_split. cbn [negb orb].
    rw !bool_decide_eq_true_2 // hex_decode_encode b64_decode_encode. cbn [negb orb]. by rw Lp Ls.
  - apply token_pg_text, hex_encode_token.
Qed.

Lemma revoked_row e q kid d d' i k :
  wf d -> RevokeAPIKey e q kid d = Ok d' -> keys d !! i = Some k ->
  pg_uuid (TrimSpace kid) = Some (k_ID k) ->
  dbstep d d' /\ exists k', keys d' !! i = Some k' /\ key_le k k' /\ k_Enabled k' = false.
Proof.
  intros Hwf Hv Hk Ek. unfold RevokeAPIKey in Hv. revert Hv. case_bool_decide; [done|].
  case_bool_decide; [done|]. intros Hv. split; [by eapply st_disable|].
  apply lookup_row_Ok, with_fault_Ok in Hv as [_ Hv]. revert Hv. unfold disable_key, cast_uuid.
  rw Ek. destruct (pg_uuid (TrimSpace q)) as [q'|]; [|done]. cbn.
  destruct (update_where _ _ _) as [l|] eqn:Hu; [|done]. intros [= <-].
  pose proof (update_where_Some _ _ _ _ Hu) as (b & Hb & [E1 E2]%andb_prop).
  apply bool_decide_eq_true_1 in E1. apply list_elem_of_lookup in Hb as [j Hj].
  assert (i = j) as -> by exact (unique_row k_ID _ _ _ _ _ (wf_key_ids _ Hwf) Hk Hj (eq_sym E1)).
  assert (b = k) as -> by congruence. cbn [set_keys keys]. rw (update_where_lookup _ _ _ _ _ _ Hu Hk).
  rw bool_decide_eq_true_2 // E2. eexists. split; [reflexivity|]. by split.
Qed.

Lemma ParseAPIKey_hash raw pk : ParseAPIKey raw = Ok pk -> pk_Hash pk = hashAPIKey (TrimSpace raw).
Proof.
  unfold ParseAPIKey. destruct (SplitN _ _ _) as [|a [|b [|c [|t []]]]]; try done.
  destruct (negb _ || negb _); [done|]. destruct (hex_decode c); [|done].
  destruct (negb _); [done|]. destruct (b64_decode t); [|done]. destruct (negb _); [done|].
  by intros [= <-].
Qed.

(** ** Properties *)

(** C20: An API key works exactly as long as its row says.  After [CreateAPIKey]
    returned a key, and after any statements of any other calls before and between
    the two statements of a validation, presenting the printed value (with white
    space around it or not) identifies the key and its project, and records the
    use, when the key was active at the lookup and is still enabled at the update;
    in every other case the answer is [ErrInvalidAPIKey]. *)
Theorem api_key_lifecycle (e0 e : call_env) pid name exp d ck d0 d1 d2 p s raw :
  wf d -> v_rand1 e0 = Ok p -> v_rand2 e0 = Ok s -> len p = apiKeyPrefixSize -> len s = apiKeySecretSize ->
  uuid_text (v_id e0) -> CreateAPIKey e0 pid name exp d = Ok (ck, d0) -> TrimSpace raw = ck_Value ck ->
  rtc dbstep d0 d1 -> rtc dbstep d1 d2 -> v_f1 e = None -> v_f2 e = None ->
  exists i k1 k2, keys d1 !! i = Some k1 /\ keys d2 !! i = Some k2 /\
    k_ID k2 = ki_ID (ck_APIKey ck) /\ k_ProjectID k2 = ki_ProjectID (ck_APIKey ck) /\
    k_ExpiresAt k1 = (pg_time <$> exp) /\
    (key_IsActive k1 (v_now e) && k_Enabled k2 = true ->
     exists d3, ValidateAPIKey_at e raw d1 d2 = Ok (mkKeyPrincipal (k_ID k2) (k_ProjectID k2), d3) /\
                keys d3 !! i = Some (touched (v_now e) k2)) /\
    (key_IsActive k1 (v_now e) && k_Enabled k2 = false ->
     ValidateAPIKey_at e raw d1 d2 = Err ErrInvalidAPIKey).
Proof.
  intros Hwf Hp Hs Lp Ls Hid Hc Ht R1 R2 F1 F2.
  destruct (created_row _ _ _ _ _ _ _ p s raw Hwf Hp Hs Lp Ls Hid Hc Ht)
    as (W0 & i & k & Hk & Hrow & _ & EI & EP & EX).
  destruct (key_follow _ _ _ _ R1 Hk) as (k1 & Hk1 & L1).
  destruct (key_follow _ _ _ _ R2 Hk1) as (k2 & Hk2 & L2).
  pose proof (wf_follow _ _ R1 W0) as W1. pose proof (wf_follow _ _ R2 W1) as W2.
  exists i, k1, k2. destruct L1 as [[= I1 P1 A1 B1 X1] N1]. pose proof L2 as [[= I2 P2 _ _ _] _].
  rw -I2 -I1 -P2 -P1 -X1. do 5 (split; [done|]).
  assert (Hrow1 : row_of raw k1) by (unfold row_of in *; by rw -A1 -B1).
  unfold ValidateAPIKey_at. rw (Validate_read_at e raw d1 i k1 W1 Hk1 Hrow1 F1).
  pose proof (Validate_touch_at e k1 d2 i k2 W2 Hk2 L2 F2) as [Hy Hn].
  rw I1 I2 P1 P2. destruct (key_IsActive k1 _); cbn; [|done]. split; [exact Hy|exact Hn].
Qed.

(** A revoked key stays revoked: once [RevokeAPIKey] returned for a key that
    [CreateAPIKey] made, no validation that starts later accepts its value, in any
    state the tables reach. *)
Theorem revoked_key_stays_invalid (e0 e1 e : call_env) pid name exp d ck d0 d1 d2 d3 d4 p s q kid raw :
  wf d -> v_rand1 e0 = Ok p -> v_rand2 e0 = Ok s -> len p = apiKeyPrefixSize -> len s = apiKeySecretSize ->
  uuid_text (v_id e0) -> CreateAPIKey e0 pid name exp d = Ok (ck, d0) -> TrimSpace raw = ck_Value ck ->
  rtc dbstep d0 d1 -> RevokeAPIKey e1 q kid d1 = Ok d2 -> pg_uuid (TrimSpace kid) = Some (ki_ID (ck_APIKey ck)) ->
  rtc dbstep d2 d3 -> v_f1 e = None ->
  ValidateAPIKey_at e raw d3 d4 = Err ErrInvalidAPIKey.
Proof.
  intros Hwf Hp Hs Lp Ls Hid Hc Ht R1 Hv Ek R2 F1.
  destruct (created_row _ _ _ _ _ _ _ p s raw Hwf Hp Hs Lp Ls Hid Hc Ht)
    as (W0 & i & k & Hk & Hrow & _ & EI & _ & _).
  destruct (key_follow _ _ _ _ R1 Hk) as (k1 & Hk1 & L1). pose proof (wf_follow _ _ R1 W0) as W1.
  assert (Hd : dbstep d1 d2 /\ exists k2, keys d2 !! i = Some k2 /\ key_le k1 k2 /\ k_Enabled k2 = false).
  { apply (revoked_row e1 q kid); [done..|]. rw Ek -EI. f_equal. by destruct L1 as [[= ->] _]. }
  destruct Hd as (Hst & k2 & Hk2 & L2 & Hoff). pose proof (wf_follow _ _ (rtc_once _ _ Hst) W1) as W2.
  destruct (key_follow _ _ _ _ R2 Hk2) as (k3 & Hk3 & L3). pose proof (wf_follow _ _ R2 W2) as W3.
  assert (L : key_le k k3) by (etrans; [exact L1|]; by etrans).
  unfold ValidateAPIKey_at. rw (Validate_read_at e raw d3 i k3 W3 Hk3 (row_of_le _ _ _ L Hrow) F1).
  unfold key_IsActive. destruct (k_Enabled k3) eqn:E3; [|done]. destruct L3 as [_ L3].
  by rw (L3 E3) in Hoff.
Qed.

(** Only keys that exist are accepted: when a validation answers with a
    principal, whatever other calls do between its statements, there is a row
    that was active at the lookup and still enabled at the update, whose stored
    hash is the hash of the presented value, and the principal is the key and the
    project of that row. *)
Theorem validate_sound (e : call_env) raw d1 d2 prin d3 :
  wf d1 -> rtc dbstep d1 d2 -> ValidateAPIKey_at e raw d1 d2 = Ok (prin, d3) ->
  exists i k1 k2, keys d1 !! i = Some k1 /\ keys d2 !! i = Some k2 /\
    key_IsActive k1 (v_now e) = true /\ k_Enabled k2 = true /\
    MatchAPIKeyHash (hashAPIKey (TrimSpace raw)) (k_KeyHash k2) = true /\
    prin = mkKeyPrincipal (k_ID k2) (k_ProjectID k2).
Proof.
  intros W1 R. unfold ValidateAPIKey_at, Validate_read.
  destruct (ParseAPIKey raw) as [pk|] eqn:Ep; [|done]. apply ParseAPIKey_hash in Ep. cbn [map_err mbind res_bind].
  destruct (not_found_as _ _ _) as [k1|] eqn:Eg; [|done]. apply map_err_Ok in Eg. cbn [mbind res_bind].
  apply GetAPIKeyByPrefix_Ok in Eg as (i & Hk1 & _).
  destruct (MatchAPIKeyHash _ _) eqn:Em; [|done]. destruct (key_IsActive k1 _) eqn:Ea; [|done]. cbn.
  destruct (key_follow _ _ _ _ R Hk1) as (k2 & Hk2 & L). pose proof (wf_follow _ _ R W1) as W2.
  unfold Validate_touch. destruct (not_found_as _ _ _) as [d'|] eqn:Et; [|done]. cbn. intros [= <- <-].
  apply map_err_Ok, lookup_row_Ok, with_fault_Ok in Et as [_ Et].
  pose proof L as [[= EI EP _ EH _] _]. rw EI in Et.
  exists i, k1, k2. do 3 (split; [done|]). split; [|by rw -EH -Ep EI EP].
  destruct (k_Enabled k2) eqn:E2; [done|]. by rw (touch_disabled d2 i k2) in Et.
Qed.
End keys.

(** ** Examples *)

#[local] Instance ascii_lower : PgText := {| pg_lower := smap lower_byte |}.

Definition project1 : string := "11111111-1111-1111-1111-111111111111".
Definition key1 : string := "22222222-2222-2222-2222-222222222222".
Definition secret1 : string := "secret-secret-secret-secret-1234".
Definition call1 : call_env :=
  mkCall (unix_epoch + Hour) None None key1 (unix_epoch + Hour) (Ok "prefix__") (Ok secret1)
    (mkRotation None None None "" 0 Committed).
Definition one_project : adb := mkADB [project1] [] [] [].

Lemma wf_one_project : wf one_project.
Proof. split; cbn; constructor. Qed.

Definition created1 : CreatedAPIKey * adb :=
  match CreateAPIKey call1 project1 " ci " None one_project with
  | Ok x => x
  | Err _ => (mkCreatedKey (mkKeyInfo "" "" "" "" false None None 0 0) "", one_project)
  end.

(** C20 at a key that is presented with a trailing newline: it is accepted. *)
Lemma api_key_lifecycle_witness :
  CreateAPIKey call1 project1 " ci " None one_project = Ok created1 /\
  exists d3, ValidateAPIKey_at call1 (ck_Value created1.1 +:+ String "010"%char EmptyString) created1.2 created1.2
             = Ok (mkKeyPrincipal key1 project1, d3).
Proof.
  split; [vm_compute; reflexivity|].
  destruct (api_key_lifecycle call1 call1 project1 " ci " None one_project created1.1 created1.2
      created1.2 created1.2 "prefix__" secret1 (ck_Value created1.1 +:+ String "010"%char EmptyString))
    as (i & k1 & k2 & H1 & H2 & EI & EP & EX & Hy & _);
    [exact wf_one_project|reflexivity|reflexivity|reflexivity|reflexivity|unfold uuid_text; vm_compute; reflexivity
    |vm_compute; reflexivity|vm_compute; reflexivity|reflexivity|reflexivity|reflexivity|reflexivity|].
  assert (Some k1 = keys created1.2 !! 0%nat /\ k2 = k1) as [E ->].
  { destruct i as [|i]; [|destruct i; vm_compute in H1; discriminate H1].
    rw H1 in H2. injection H2 as ->. split; [exact (eq_sym H1)|reflexivity]. }
  destruct Hy as (d3 & Hv & _); [vm_compute in E; injection E as ->; vm_compute; reflexivity|].
  exists d3. rw Hv EI EP. vm_compute. reflexivity.
Defined.

Definition revoked1 : adb :=
  match RevokeAPIKey call1 project1 key1 created1.2 with Ok d => d | Err _ => created1.2 end.

(** At the key of [call1]. *)
Lemma revoked_key_stays_invalid_witness :
  RevokeAPIKey call1 project1 key1 created1.2 = Ok revoked1 /\
  ValidateAPIKey_at call1 (ck_Value created1.1) revoked1 revoked1 = Err ErrInvalidAPIKey.
Proof.
  split; [vm_compute; reflexivity|].
  apply (revoked_key_stays_invalid call1 call1 call1 project1 " ci " None one_project created1.1 created1.2
      created1.2 revoked1 revoked1 revoked1 "prefix__" secret1 project1 key1);
    [exact wf_one_project|reflexivity|reflexivity|reflexivity|reflexivity|unfold uuid_text; vm_compute; reflexivity
    |vm_compute; reflexivity|vm_compute; reflexivity|reflexivity|vm_compute; reflexivity
    |vm_compute; reflexivity|reflexivity|reflexivity].
Defined.

(** At the key of [call1]. *)
Lemma validate_sound_witness :
  exists prin d3, ValidateAPIKey_at call1 (ck_Value created1.1) created1.2 created1.2 = Ok (prin, d3) /\
  exists i k1 k2, keys created1.2 !! i = Some k1 /\ keys created1.2 !! i = Some k2 /\
    key_IsActive k1 (v_now call1) = true /\ k_Enabled k2 = true /\
    MatchAPIKeyHash (hashAPIKey (TrimSpace (ck_Value created1.1))) (k_KeyHash k2) = true /\
    prin = mkKeyPrincipal (k_ID k2) (k_ProjectID k2).
Proof.
  eexists _, _. split; [vm_compute; reflexivity|].
  eapply (validate_sound call1 (ck_Value created1.1) created1.2 created1.2).
  - split; vm_compute; repeat constructor; set_solver.
  - reflexivity.
  - vm_compute. reflexivity.
Defined.
End Keys.
