(* ===== verification/AuthSessions.v ===== *)
(** Sessions of the auth service: refresh tokens redeemed under concurrency, access
    tokens from issue to use, and accounts from registration to login. *)
From Stdlib Require Import Ascii ZArith Lia.
From Corelib Require Import ssreflect.
From stdpp Require Import base gmap strings list numbers relations pretty.
From S2P Require Import Prelude GoStrings GoTime GoEncoding GoNet Events Postgres AuthSecurity Auth AuthHistory.

#[local] Open Scope Z_scope.

Module Sessions.
Import Security Auth History.

(** ** Concurrent refreshes *)

Section refresh.
Context `{PgUUIDLaws} `{PgText} `{JWT}.
Context (ts : TokenService) (refreshTokenTTL : Z).

(** What clients were answered, latest first; a token is named by its hash. *)
Inductive answer :=
| Redeemed (tokenHash : string)
| LoggedOut (tokenHash : string).

(** The service: the tables, the refreshes between their reads and their
    transaction, and the answers given so far. *)
Record sys := mkSys { s_db : adb; s_pending : list (string * pending); s_log : list answer }.

Definition presented (raw : string) : string := HashRefreshToken (TrimSpace raw).

(** Any number of refreshes are under way at once; a refresh that began finishes
    at most once, and other statements run at any time. *)
Inductive sstep : sys -> sys -> Prop :=
| ss_read e raw p d ps log :
  Refresh_read ts refreshTokenTTL e raw d = Ok p ->
  sstep (mkSys d ps log) (mkSys d ((presented raw, p) :: ps) log)
| ss_rotate r h p d ps1 ps2 log :
  uuid_text (ro_id r) ->
  sstep (mkSys d (ps1 ++ (h, p) :: ps2) log)
    (mkSys (Refresh_rotate r p d).2 (ps1 ++ ps2)
       (if is_ok (Refresh_rotate r p d).1 then Redeemed h :: log else log))
| ss_logout e raw d d' ps log :
  Logout e raw d = Ok d' -> sstep (mkSys d ps log) (mkSys d' ps (LoggedOut (presented raw) :: log))
| ss_other d d' ps log : dbstep d d' -> sstep (mkSys d ps log) (mkSys d' ps log).

Definition log_hash (a : answer) : string := match a with Redeemed h | LoggedOut h => h end.

(** The rows behind the answers are revoked; those behind the pending refreshes
    exist. *)
Definition spent (d : adb) (h : string) : Prop :=
  exists i t, tokens d !! i = Some t /\ t_TokenHash t = h /\ t_RevokedAt t <> None.
Definition known (d : adb) (hp : string * pending) : Prop :=
  exists i t, tokens d !! i = Some t /\ t_TokenHash t = hp.1 /\ t_ID t = t_ID (pd_current hp.2).

(** A token is redeemed at most once, and never after a logout with it. *)
Definition once (log : list answer) : Prop :=
  forall l1 h l2, log = l1 ++ Redeemed h :: l2 -> (Redeemed h ∉ l2) /\ (LoggedOut h ∉ l2).

Record sinv (s : sys) : Prop := {
  si_wf : wf (s_db s);
  si_spent : Forall (fun a => spent (s_db s) (log_hash a)) (s_log s);
  si_known : Forall (known (s_db s)) (s_pending s);
  si_once : once (s_log s);
}.

Lemma spent_moves d d' h : moves d d' -> spent d h -> spent d' h.
Proof.
  intros M (i & t & Hi & Eh & Hr). destruct (mv_tokens _ _ M i t Hi) as (t' & Hi' & [E L]).
  injection E as _ _ E _. exists i, t'. split; [done|]. split; [congruence|]. tauto.
Qed.
Lemma known_moves d d' hp : moves d d' -> known d hp -> known d' hp.
Proof.
  intros M (i & t & Hi & Eh & Ei). destruct (mv_tokens _ _ M i t Hi) as (t' & Hi' & [E _]).
  injection E as E1 _ E2 _. exists i, t'. split; [done|]. split; congruence.
Qed.

Lemma sinv_moves d d' ps log : moves d d' -> sinv (mkSys d ps log) -> sinv (mkSys d' ps log).
Proof.
  intros M []. split; cbn in *; [by apply (mv_wf _ _ M)| | |done].
  - eapply Forall_impl; [done|]. intros a. by apply spent_moves.
  - eapply Forall_impl; [done|]. intros hp. by apply known_moves.
Qed.

(** The reads find the row of the presented token. *)
Lemma Refresh_read_Ok e raw d p :
  Refresh_read ts refreshTokenTTL e raw d = Ok p -> known d (presented raw, p).
Proof.
  unfold Refresh_read. case_bool_decide; [done|]. case_bool_decide; [done|].
  destruct (not_found_as _ _ _) as [t|] eqn:Et; [|done]. apply map_err_Ok, lookup_row_Ok, with_fault_Ok in Et as [_ Et].
  cbn [mbind res_bind]. destruct (negb (token_IsActive _ _)); [done|].
  destruct (not_found_as _ _ _) as [u|]; [|done]. cbn [mbind res_bind]. destruct (negb (u_Enabled u)); [done|].
  destruct (buildTokens _ _ _ _ _) as [[[a b] c]|]; [|done]. cbn [mbind res_bind]. intros [= <-]. revert Et.
  destruct (encode_text _) as [h|] eqn:Eh; [|done]. apply encode_text_Ok in Eh as [-> _]. cbn.
  intros E%query_row_Ok. apply List.find_some in E as [Ht Eh]. apply bool_decide_eq_true_1 in Eh.
  apply list_elem_of_In in Ht. apply list_elem_of_lookup in Ht as [i Hi]. by exists i, t.
Qed.

(** A transaction that answers with tokens revoked a row that was not revoked. *)
Lemma Rotate_Ok r id t at_ d c :
  (RotateRefreshToken r id t at_ d).1 = Ok c ->
  exists i l, pg_uuid id = Some i /\
    update_where (fun t => bool_decide (t_ID t = i) && bool_decide (t_RevokedAt t = None) &&
                           (pg_time at_ <? t_ExpiresAt t)) (revoke_token (pg_time at_)) (tokens d) = Some l /\
    exists row, tokens (RotateRefreshToken r id t at_ d).2 = l ++ [row].
Proof.
  unfold RotateRefreshToken, insertRefreshToken. destruct (ro_begin r); [done|].
  destruct (with_fault _ _) as [d1|] eqn:E1; [|done].
  apply with_fault_Ok in E1 as [_ E1]. apply revoke_by_id_Ok in E1 as (i & l & Hi & -> & Hu).
  destruct (with_fault _ _) as [[c' d2]|] eqn:E2; [|done].
  apply with_fault_Ok in E2 as [_ E2]. apply insert_token_Ok in E2 as (u & _ & -> & -> & _).
  destruct (ro_commit r); [|done]. intros _. exists i, l. split; [done|]. split; [done|]. by eexists.
Qed.

(** The transaction of a pending refresh: the row it revokes is that of the
    presented token. *)
Lemma rotate_spends r p h d c :
  wf d -> known d (h, p) -> (Refresh_rotate r p d).1 = Ok c ->
  ~ spent d h /\ spent (Refresh_rotate r p d).2 h.
Proof.
  intros Hwf (i & t & Hi & Eh & Et). cbn in Eh, Et. unfold Refresh_rotate.
  pose proof (Rotate_Ok r (t_ID (pd_current p)) (pd_replacement p) (pd_now p) d) as HR.
  destruct (RotateRefreshToken _ _ _ _ _) as [[c'|] d'] eqn:E; [|done]. intros _. cbn in *.
  destruct (HR c' eq_refl) as (id & l & Hid & Hu & row & Hl).
  pose proof (proj1 (Forall_lookup _ _) (wf_token_uuid _ Hwf) _ _ Hi) as Hut. cbn in Hut.
  unfold uuid_text in Hut. rw Et Hid in Hut. injection Hut as Hut.
  pose proof (update_where_Some _ _ _ _ Hu) as (b & Hb & Hp).
  apply andb_prop in Hp as [Hp Hlt]. apply andb_prop in Hp as [E1 E2].
  apply bool_decide_eq_true_1 in E1, E2. apply list_elem_of_lookup in Hb as [j Hj].
  assert (i = j) as <- by (apply (unique_row t_ID _ _ _ _ _ (wf_token_ids _ Hwf) Hi Hj); congruence).
  assert (b = t) as -> by congruence. split.
  - intros (j & t' & Hj' & Eh' & Hr).
    assert (i = j) as <- by (apply (unique_row t_TokenHash _ _ _ _ _ (wf_token_hashes _ Hwf) Hi Hj'); congruence).
    congruence.
  - exists i, (revoke_token (pg_time (pd_now p)) t). split; [|done]. rw Hl. apply lookup_app_l_Some.
    rw (update_where_lookup _ _ _ _ _ _ Hu Hi). by rw E1 E2 !bool_decide_eq_true_2 // Hlt.
Qed.

Lemma logout_spends e raw d d' :
  Logout e raw d = Ok d' -> moves d d' /\ spent d' (presented raw).
Proof.
  unfold Logout. case_bool_decide; [done|]. case_bool_decide; [done|]. intros E%map_err_Ok.
  apply lookup_row_Ok, with_fault_Ok in E as [_ E]. split; [by eapply moves_revoke_by_hash|].
  revert E. unfold revoke_by_hash. destruct (encode_text _) as [h|] eqn:Eh; [|done].
  apply encode_text_Ok in Eh as [-> _]. cbn. destruct (update_where _ _ _) as [l|] eqn:Hu; [|done].
  intros [= <-]. pose proof (update_where_Some _ _ _ _ Hu) as (t & Ht & Hp).
  apply list_elem_of_lookup in Ht as [i Hi]. pose proof (update_where_lookup _ _ _ _ _ _ Hu Hi) as Hl.
  cbn in Hl. rw Hp in Hl. apply bool_decide_eq_true_1 in Hp. by eexists i, _.
Qed.

Lemma once_cons a log d :
  Forall (fun a => spent d (log_hash a)) log -> once log ->
  (forall h, a = Redeemed h -> ~ spent d h) -> once (a :: log).
Proof.
  intros Hs Ho Ha [|b l1] h l2; cbn; intros [= -> ->]; [|by eapply Ho].
  pose proof (proj1 (list.Forall_forall _ _) Hs) as Hs'. split; intros Hin; by apply (Ha h eq_refl), (Hs' _ Hin).
Qed.

Lemma rotate_moves r p d : uuid_text (ro_id r) -> moves d (Refresh_rotate r p d).2.
Proof.
  intros Hr. unfold Refresh_rotate.
  pose proof (moves_rotate r (t_ID (pd_current p)) (pd_replacement p) (pd_now p) d Hr) as M.
  by destruct (RotateRefreshToken _ _ _ _ _) as [[]].
Qed.

Lemma sinv_step s s' : sstep s s' -> sinv s -> sinv s'.
Proof.
  intros [e raw p d ps log Hp|r h p d ps1 ps2 log Hr|e raw d d' ps log Hl|d d' ps log Hs] Hi.
  - destruct Hi. split; cbn in *; try done. apply Forall_cons. split; [by eapply Refresh_read_Ok|done].
  - pose proof Hi as [W Sp Kn _]. cbn in W, Sp, Kn. apply Forall_app in Kn as [K1 [Kh K2]%Forall_cons].
    pose proof (rotate_moves r p d Hr) as M. apply (sinv_moves _ _ _ _ M) in Hi as [W' S' K' O'].
    cbn in *. apply Forall_app in K' as [K1' [_ K2']%Forall_cons].
    destruct (is_ok _) eqn:E; split; cbn; try done; try by apply Forall_app.
    + destruct ((Refresh_rotate r p d).1) eqn:E'; [|done].
      apply Forall_cons. split; [|done]. exact (proj2 (rotate_spends r p h d _ W Kh E')).
    + destruct ((Refresh_rotate r p d).1) eqn:E'; [|done].
      apply (once_cons _ _ d); [done|done|]. intros h' [= <-]. exact (proj1 (rotate_spends r p h d _ W Kh E')).
  - destruct (logout_spends _ _ _ _ Hl) as [M Hsp]. apply (sinv_moves _ _ _ _ M) in Hi as [W S' K' O'].
    split; cbn in *; try done; [by apply Forall_cons|]. by apply (once_cons _ _ d').
  - by apply (sinv_moves d); [apply dbstep_moves|].
Qed.

Lemma sinv_history s s' : rtc sstep s s' -> sinv s -> sinv s'.
Proof. induction 1; eauto using sinv_step. Qed.

(** C18: A refresh token buys one pair of tokens.  However refreshes, logouts and
    all other statements of the service interleave, from empty tables on, each
    token is redeemed at most once, also by refreshes that read it at the same time,
    and never after a logout with it has returned. *)
Theorem refresh_redeemed_once s : rtc sstep (mkSys empty_adb [] []) s -> once (s_log s).
Proof.
  intros Hr. apply si_once. apply (sinv_history _ _ Hr).
  split; cbn; [apply wf_empty|apply Forall_nil_2..|]. intros [] ? ? ?; discriminate.
Qed.
End refresh.

(** ** Accounts and access tokens *)

Section accounts.
Context `{PgUUIDLaws} `{PgText} `{JWTLaws} `{BcryptLaws} `{UnicodeTables} `{NetMail}.
Context (ts : TokenService) (cost refreshTokenTTL : Z).

Lemma user_id d i u : wf d -> users d !! i = Some u ->
  pg_uuid (u_ID u) = Some (u_ID u) /\ TrimSpace (u_ID u) = u_ID u /\ u_ID u <> "" /\
  all_bytes is_ascii_byte (u_ID u) = true.
Proof.
  intros Hwf Hu. pose proof (proj1 (Forall_lookup _ _) (wf_user_uuid _ Hwf) _ _ Hu) as Hid. cbn in Hid.
  pose proof (pg_uuid_canonical _ _ Hid) as Hc. destruct (isCanonicalUUID_trim _ Hc).
  split; [done|]. do 2 (split; [done|]). eapply all_bytes_impl; [|by apply isCanonicalUUID_token].
  intros a Ha%token_graphic. unfold graphic_byte, is_ascii_byte in *. lia.
Qed.

Lemma GetUserByID_hit d i u :
  wf d -> users d !! i = Some u -> GetUserByID None (u_ID u) d = Ok u.
Proof.
  intros Hwf Hu. destruct (user_id d i u Hwf Hu) as (Hid & _). unfold GetUserByID, cast_uuid.
  rw Hid. cbn. by rw (find_unique u_ID _ _ _ (wf_user_ids _ Hwf) Hu).
Qed.

Lemma GetUserByEmail_hit d i u email :
  wf d -> users d !! i = Some u -> pg_text email = true ->
  pg_lower email = pg_lower (u_Email u) -> GetUserByEmail None email d = Ok u.
Proof.
  intros Hwf Hu Hb E. unfold GetUserByEmail, encode_text. rw Hb. cbn. rw E.
  by rw (find_unique (fun u => pg_lower (u_Email u)) _ _ _ (wf_user_emails _ Hwf) Hu).
Qed.

(** Tokens of the service for a user. *)
Lemma role_ascii r : Role_IsValid r = true -> all_bytes is_ascii_byte r = true.
Proof. unfold Role_IsValid. by repeat case_bool_decide; subst. Qed.

Lemma Register_Ok e email pw d ui d' :
  uuid_text (v_id e) -> Register cost e email pw d = Ok (ui, d') ->
  exists h i u, Hash cost pw = Ok h /\ dbstep d d' /\ users d' !! i = Some u /\ ui = userInfoFromDomain u /\
    u_Email u = normalizeEmail email /\ u_PasswordHash u = h /\ u_Role u = RoleMember /\ u_Enabled u = true /\
    pg_text (normalizeEmail email) = true.
Proof.
  intros Hid. unfold Register. destruct (isValidPassword pw); [|done]. cbn.
  destruct (Hash cost pw) as [h|] eqn:Eh; [|done]. pose proof (bcrypt_text _ _ _ Eh) as Ht. cbn [mbind res_bind].
  unfold NewUser. rw Ht. destruct (isValidEmail _); [|done]. case_bool_decide; [done|]. cbn [negb mbind res_bind].
  change (negb (Role_IsValid RoleMember)) with false. cbn [mbind res_bind].
  destruct (CreateUser _ _ _ _ _) as [[u d1]|] eqn:Ec; [|done]. cbn. intros [= <- <-].
  pose proof Ec as Ei.
  apply map_err_Ok, with_fault_Ok in Ei as [_ Ei]. pose proof Ei as Eb.
  apply insert_user_Ok in Ei as (-> & -> & _). exists h, (length (users d)). eexists.
  split; [done|]. split; [by eapply st_user|]. cbn. rw lookup_app_r // Nat.sub_diag. split; [done|].
  do 5 (split; [done|]). revert Eb. unfold insert_user.
  cbn [u_Email]. destruct (encode_text (normalizeEmail email)) as [m|] eqn:Em; [|done]. intros _. exact (proj2 (encode_text_Ok _ _ Em)).
Qed.

(** What a login needs of its environment besides the credentials: no fault, a
    clock that is set, random bytes, a signature, and fresh values for the unique
    columns of the new row. *)
Record can_login (e : call_env) (d : adb) (bytes : string) : Prop := {
  cl_fault : v_f2 e = None;
  cl_now : IsZero (v_now e) = false;
  cl_bytes : v_rand1 e = Ok bytes;
  cl_sign : forall c, is_ok (jwt_sign (ts_secret ts) c) = true;
  cl_ttl : 0 < refreshTokenTTL;
  cl_expiry : v_dbnow e < pg_time (Add (v_now e) refreshTokenTTL);
  cl_id : v_id e ∉ (t_ID <$> tokens d);
  cl_hash : HashRefreshToken (b64_encode bytes) ∉ (t_TokenHash <$> tokens d);
}.

Lemma insert_token_fresh id now t d i u :
  wf d -> users d !! i = Some u -> t_UserID t = u_ID u -> pg_text (t_TokenHash t) = true ->
  now < pg_time (t_ExpiresAt t) -> (id ∉ (t_ID <$> tokens d)) -> (t_TokenHash t ∉ (t_TokenHash <$> tokens d)) ->
  let row := mkToken id (u_ID u) (t_TokenHash t) (pg_time (t_ExpiresAt t)) None now in
  insert_token id now t d = Ok (row, set_tokens (tokens d ++ [row]) d).
Proof.
  intros Hwf Hu Eu Hb Ht Hi Hh. destruct (user_id d i u Hwf Hu) as (Hid & _).
  unfold insert_token, cast_uuid, encode_text. rw Eu Hid Hb. cbn [mbind res_bind].
  rw (proj2 (Z.ltb_lt _ _) Ht). cbn [negb].
  rw (proj2 (existsb_key t_ID _ _) Hi) (proj2 (existsb_key t_TokenHash _ _) Hh).
  destruct (existsb (fun x => bool_decide (u_ID x = u_ID u)) (users d)) eqn:E; [done|].
  apply existsb_false with (a := u) in E; [|by eapply list_elem_of_lookup_2].
  by rw bool_decide_eq_true_2 in E.
Qed.

Lemma hash_text raw : TrimSpace (HashRefreshToken raw) = HashRefreshToken raw /\
  HashRefreshToken raw <> "" /\ pg_text (HashRefreshToken raw) = true.
Proof.
  unfold HashRefreshToken, sha256_hex. pose proof (hex_encode_token (Sha256.Sum256 raw)) as Ht. split; [|split].
  - apply graphic_TrimSpace. revert Ht. apply all_bytes_impl, token_graphic.
  - intros E. pose proof (hex_encode_length (Sha256.Sum256 raw)) as L. rw E Sha256.Sum256_length in L. done.
  - by apply token_pg_text.
Qed.

(** The tokens of a session. *)
Lemma buildTokens_ok e d bytes i u :
  wf d -> users d !! i = Some u -> u_Enabled u = true -> Role_IsValid (u_Role u) = true ->
  IsZero (v_now e) = false -> v_rand1 e = Ok bytes -> (forall c, is_ok (jwt_sign (ts_secret ts) c) = true) ->
  0 < refreshTokenTTL ->
  exists a, buildTokens ts refreshTokenTTL (v_rand1 e) u (v_now e) =
    Ok (a, b64_encode bytes,
        mkToken "" (u_ID u) (HashRefreshToken (b64_encode bytes)) (Add (v_now e) refreshTokenTTL) None time_zero).
Proof.
  intros Hwf Hu He Hr Hz Hb Hs Httl. destruct (user_id d i u Hwf Hu) as (_ & Et & En & _).
  unfold buildTokens, IssueAccessToken. rw Et (bool_decide_eq_false_2 (u_ID u = "")) // Hr He Hz. cbn [negb orb].
  match goal with |- context [jwt_sign ?k ?c] => specialize (Hs c); destruct (jwt_sign k c) as [raw|]; [|done] end.
  cbn [mbind res_bind]. rw Hb. cbn [GenerateRefreshToken mbind res_bind].
  destruct (hash_text (b64_encode bytes)) as (T1 & T2 & _).
  unfold NewRefreshToken. rw Et T1 !bool_decide_eq_false_2 //.
  assert (After (Add (v_now e) refreshTokenTTL) (v_now e) = true) as -> by (unfold After, Add; lia).
  by eexists.
Qed.

(** When the claims of an issued token are valid. *)
Lemma issued_claims_valid issuer audience now role subject expires issued :
  claims_valid issuer audience now (mkClaims role issuer subject [audience] (Some expires) (Some issued) (Some issued)) =
  (issued <=? now) && (now <? expires).
Proof. unfold claims_valid. cbn. rw !bool_decide_eq_true_2 //; [set_solver|]. lia. Qed.

(** C22: An access token stands for its user while it is valid: presented between
    the second it was issued in and the second its lifetime ends in, it
    authenticates the user if the account is enabled and still has the role of the
    token; it is refused outside of that time, for a disabled account and after a
    change of role, each with the error the handlers map. *)
Theorem access_token_roundtrip e d i u role enabled issued tok raw :
  wf d -> users d !! i = Some u ->
  all_bytes is_ascii_byte (ts_issuer ts) = true -> all_bytes is_ascii_byte (ts_audience ts) = true ->
  IssueAccessToken ts (u_ID u) role enabled issued = Ok tok -> TrimSpace raw = ia_Value tok ->
  v_f1 e = None -> IsZero (v_now e) = false ->
  AuthenticateAccessToken ts e raw d =
    if (NewNumericDate issued <=? v_now e) && (v_now e <? NewNumericDate (ia_ExpiresAt tok)) then
      if negb (u_Enabled u) then Err ErrUserDisabled
      else if bool_decide (u_Role u = role) then Ok (mkATP (u_ID u) role (NewNumericDate (ia_ExpiresAt tok)))
      else Err ErrInvalidAccessToken
    else Err ErrInvalidAccessToken.
Proof.
  intros Hwf Hu Hi Ha Ht Hr Hf Hz. destruct (user_id d i u Hwf Hu) as (_ & Et & Ene & Has).
  revert Ht. unfold IssueAccessToken. rw Et (bool_decide_eq_false_2 (u_ID u = "")) //. cbn [orb].
  destruct (Role_IsValid role) eqn:Hrole; [|done]. destruct enabled; [|done].
  destruct (IsZero issued); [done|]. cbn [negb orb]. destruct (jwt_sign _ _) as [t|] eqn:Es; [|done].
  intros [= <-]. cbn [ia_Value ia_ExpiresAt] in *. destruct (jwt_sign_text _ _ _ Es) as [Tt Tn].
  unfold AuthenticateAccessToken. rw Hr (bool_decide_eq_false_2 (t = "")) //.
  unfold ParseAccessToken. rw Tt (bool_decide_eq_false_2 (t = "")) // Hz. cbn [orb].
  assert (Hc : forall c, cl_Role c = role -> cl_Issuer c = ts_issuer ts -> cl_Subject c = u_ID u ->
      cl_Audience c = [ts_audience ts] -> claims_ascii c = true).
  { intros c E1 E2 E3 E4. unfold claims_ascii. rw E1 E2 E3 E4. cbn. by rw (role_ascii role Hrole) Hi Has Ha. }
  pose proof (jwt_parse_sign _ (ts_issuer ts) (ts_audience ts) (v_now e) _ _ (Hc (mkClaims _ _ _ _ _ _ _) eq_refl eq_refl eq_refl eq_refl) Es)
    as Hp.
  rw issued_claims_valid in Hp. destruct (_ && _) eqn:E.
  - rw Hp. cbn [cl_Subject cl_Role cl_ExpiresAt]. rw Et (bool_decide_eq_false_2 (u_ID u = "")) // Hrole.
    cbn [orb negb map_err mbind res_bind at_UserID at_Role]. rw Hf (GetUserByID_hit d i u Hwf Hu). cbn. destruct (u_Enabled u); [|done]. cbn.
    by case_bool_decide.
  - by destruct Hp as [e' ->].
Qed.

(** Registration and login agree: a registered account is an enabled member
    under the normalised address, whatever the request says; in every later state,
    a login with any spelling of the address that normalises to it opens a session
    of that user (with a refresh token that is stored, unrevoked, only as its
    hash) exactly when the password matches the stored hash, and the registered
    password does; with any other password the answer is the one for an unknown
    address. *)
Theorem register_then_login e0 e email email' pw pw' bytes d ui d0 d1 :
  wf d -> uuid_text (v_id e0) -> Register cost e0 email pw d = Ok (ui, d0) -> rtc dbstep d0 d1 ->
  ToLower (TrimSpace email') = normalizeEmail email -> v_f1 e = None -> can_login e d1 bytes ->
  ui_Role ui = RoleMember /\ ui_Enabled ui = true /\ ui_Email ui = normalizeEmail email /\
  exists h, Hash cost pw = Ok h /\ PasswordMatches h pw = true /\
    if PasswordMatches h pw' then
      exists s d2 t, Login ts refreshTokenTTL e email' pw' d1 = Ok (s, d2) /\ se_User s = ui /\
        tokens d2 = tokens d1 ++ [t] /\ t_UserID t = ui_ID ui /\ t_RevokedAt t = None /\
        t_TokenHash t = HashRefreshToken (tp_RefreshToken (se_Tokens s))
    else Login ts refreshTokenTTL e email' pw' d1 = Err ErrInvalidCredentials.
Proof.
  intros Hwf Hid Hr Hh Ee F1 HC.
  destruct (Register_Ok _ _ _ _ _ _ Hid Hr) as (h & i & u & Eh & Hs & Hu & -> & Em & Ep & Er & En & Hb).
  pose proof (mv_wf _ _ (moves_trans _ _ _ (dbstep_moves _ _ Hs) (history_moves _ _ Hh)) Hwf) as W1.
  destruct (mv_users _ _ (history_moves _ _ Hh) _ _ Hu) as (u' & Hu' & <-).
  cbn. do 3 (split; [done|]). exists h. split; [done|]. split; [by eapply bcrypt_match|].
  unfold Login. rw Ee F1 (GetUserByEmail_hit d1 i u _ W1 Hu' Hb); [by rw Em|].
  cbn [not_found_as map_err mbind res_bind]. rw En Ep. cbn [negb].
  destruct (PasswordMatches h pw'); [|done]. cbn [negb].
  destruct HC. destruct (buildTokens_ok e d1 bytes i u W1 Hu' En) as [a ->]; [by rw Er|done..|]. cbn [mbind res_bind].
  unfold CreateRefreshToken, insertRefreshToken. rw cl_fault0. cbn [with_fault].
  destruct (hash_text (b64_encode bytes)) as (_ & _ & Hn).
  rw (insert_token_fresh (v_id e) (v_dbnow e) _ d1 i u W1 Hu'); [done..|].
  cbn [map_err mbind res_bind]. eexists _, _, _. split; [reflexivity|]. cbn. done.
Qed.

(** What a refresh needs of its environment: as [can_login], for the two lookups
    and the transaction. *)
Record can_refresh (e : call_env) (d : adb) (t : RefreshToken) (bytes : string) : Prop := {
  cr_faults : v_f1 e = None /\ v_f2 e = None;
  cr_now : IsZero (v_now e) = false;
  cr_bytes : v_rand1 e = Ok bytes;
  cr_sign : forall c, is_ok (jwt_sign (ts_secret ts) c) = true;
  cr_ttl : 0 < refreshTokenTTL;
  cr_tx : exists id now, v_rotation e = mkRotation None None None id now Committed /\ (id ∉ (t_ID <$> tokens d)) /\
            now < pg_time (Add (v_now e) refreshTokenTTL);
  cr_hash : HashRefreshToken (b64_encode bytes) ∉ (t_TokenHash <$> tokens d);
}.

Lemma GetRefreshTokenByHash_hit d i t raw :
  wf d -> tokens d !! i = Some t -> t_TokenHash t = HashRefreshToken raw ->
  GetRefreshTokenByHash None (HashRefreshToken raw) d = Ok t.
Proof.
  intros Hwf Ht Eh. destruct (hash_text raw) as (_ & _ & Hb). unfold GetRefreshTokenByHash, encode_text.
  rw Hb. cbn. rw -Eh. by rw (find_unique t_TokenHash _ _ _ (wf_token_hashes _ Hwf) Ht).
Qed.

(** A token whose row is revoked. *)
Lemma Refresh_revoked e raw d i t :
  wf d -> tokens d !! i = Some t -> t_TokenHash t = presented raw -> t_RevokedAt t <> None -> v_f1 e = None ->
  Refresh ts refreshTokenTTL e raw d = (Err ErrInvalidRefreshToken, d).
Proof.
  intros Hwf Ht Eh Hr F1. unfold Refresh, Refresh_read. case_bool_decide; [done|].
  destruct (hash_text (TrimSpace raw)) as (_ & Hn & _). rw bool_decide_eq_false_2 //.
  rw F1 (GetRefreshTokenByHash_hit d i t _ Hwf Ht Eh). cbn [not_found_as map_err mbind res_bind].
  unfold token_IsActive. by destruct (t_RevokedAt t).
Qed.

(** The reads of a refresh of an active token. *)
Lemma Refresh_read_ok e raw d i t j u bytes :
  wf d -> tokens d !! i = Some t -> t_TokenHash t = presented raw -> TrimSpace raw <> "" ->
  token_IsActive t (v_now e) = true ->
  users d !! j = Some u -> t_UserID t = u_ID u -> u_Enabled u = true -> Role_IsValid (u_Role u) = true ->
  can_refresh e d t bytes ->
  exists a, Refresh_read ts refreshTokenTTL e raw d =
    Ok (mkPending t a (b64_encode bytes)
      (mkToken "" (u_ID u) (HashRefreshToken (b64_encode bytes)) (Add (v_now e) refreshTokenTTL) None time_zero)
      (v_now e)).
Proof.
  intros Hwf Ht Eh Hraw Ha Hu Eu En Er [[F1 F2] ? ? ? ? _ _]. unfold Refresh_read.
  rw bool_decide_eq_false_2 //. destruct (hash_text (TrimSpace raw)) as (_ & Hn & _).
  rw bool_decide_eq_false_2 //. rw F1 (GetRefreshTokenByHash_hit d i t _ Hwf Ht Eh).
  cbn [not_found_as map_err mbind res_bind]. rw Ha F2 Eu (GetUserByID_hit d j u Hwf Hu).
  cbn [negb not_found_as map_err mbind res_bind]. rw En. cbn [negb].
  destruct (buildTokens_ok e d bytes j u Hwf Hu En) as [a ->]; [done..|]. by exists a.
Qed.

Lemma revoke_by_id_row d i t at_ :
  wf d -> tokens d !! i = Some t -> token_IsActive t at_ = true ->
  revoke_by_id (t_ID t) at_ d = Ok (set_tokens (<[i := revoke_token (pg_time at_) t]> (tokens d)) d).
Proof.
  intros Hwf Ht Ha. unfold revoke_by_id, cast_uuid.
  pose proof (proj1 (Forall_lookup _ _) (wf_token_uuid _ Hwf) _ _ Ht) as Hid. cbn in Hid. rw Hid. cbn [mbind res_bind].
  revert Ha. unfold token_IsActive. destruct (t_RevokedAt t) eqn:Er; [done|]. unfold Before. intros Ha.
  rw (update_where_one _ _ _ i t Ht); [| |done].
  - rw Er !bool_decide_eq_true_2 //. cbn. pose proof (Truncate_le at_ Microsecond ltac:(done)). unfold pg_time. lia.
  - intros j b Hj Hp. apply andb_prop in Hp as [Hp _]. apply andb_prop in Hp as [Hp _].
    apply bool_decide_eq_true_1 in Hp. exact (unique_row t_ID _ _ _ _ _ (wf_token_ids _ Hwf) Hj Ht Hp).
Qed.

(** The transaction of a refresh without faults. *)
Lemma rotate_ok id now t t' at_ d i j u :
  wf d -> tokens d !! i = Some t -> token_IsActive t at_ = true -> users d !! j = Some u ->
  t_UserID t' = u_ID u -> pg_text (t_TokenHash t') = true -> now < pg_time (t_ExpiresAt t') ->
  (id ∉ (t_ID <$> tokens d)) -> (t_TokenHash t' ∉ (t_TokenHash <$> tokens d)) ->
  RotateRefreshToken (mkRotation None None None id now Committed) (t_ID t) t' at_ d =
    (Ok (mkToken id (u_ID u) (t_TokenHash t') (pg_time (t_ExpiresAt t')) None now),
     set_tokens (<[i := revoke_token (pg_time at_) t]> (tokens d) ++
                 [mkToken id (u_ID u) (t_TokenHash t') (pg_time (t_ExpiresAt t')) None now]) d).
Proof.
  intros Hwf Ht Ha Hu Eu Hb Hlt Hi Hh. unfold RotateRefreshToken, insertRefreshToken. cbn [ro_begin ro_revoke ro_insert ro_id ro_now ro_commit].
  set (l := <[i := revoke_token (pg_time at_) t]> (tokens d)).
  assert (E : revoke_by_id (t_ID t) at_ d = Ok (set_tokens l d)) by (by apply revoke_by_id_row).
  assert (W1 : wf (set_tokens l d)) by exact (mv_wf _ _ (moves_revoke_by_id _ _ _ _ E) Hwf).
  rw E. cbn [with_fault].
  assert (Ec : forall {K} (key : RefreshToken -> K), (forall x, key (revoke_token (pg_time at_) x) = key x) ->
    key <$> l = key <$> tokens d).
  { intros K key Hk. unfold l. rw list_fmap_insert Hk. apply list_insert_id. by rw list_lookup_fmap Ht. }
  by rw (insert_token_fresh id now t' (set_tokens l d) j u W1 Hu Eu Hb Hlt); [by rw Ec..|].
Qed.

End accounts.

(** ** Examples *)

Module Example.
#[local] Instance ascii_lower : PgText := {| pg_lower := smap lower_byte |}.

(** Token texts: the claims and the secret in binary. *)
Fixpoint pos_text (p : positive) : string :=
  match p with xH => "" | xO p => String "0" (pos_text p) | xI p => String "1" (pos_text p) end.
Fixpoint text_pos (s : string) : positive :=
  match s with
  | EmptyString => xH
  | String a s => if Ascii.eqb a "0" then xO (text_pos s) else xI (text_pos s)
  end.
Lemma text_pos_text p : text_pos (pos_text p) = p.
Proof. induction p as [p IH|p IH|]; cbn; [by rw IH|by rw IH|done]. Qed.
Lemma pos_text_graphic p : all_bytes graphic_byte (pos_text p) = true.
Proof. by induction p. Qed.

#[local] Instance claims_eq_dec : EqDecision AccessTokenClaims.
Proof. solve_decision. Defined.
#[local] Instance claims_countable : Countable AccessTokenClaims.
Proof.
  refine (inj_countable' (fun c => (cl_Role c, cl_Issuer c, cl_Subject c, cl_Audience c, cl_ExpiresAt c,
            cl_IssuedAt c, cl_NotBefore c))
    (fun '(a, b, c, d, e, f, g) => mkClaims a b c d e f g) _). by intros [].
Defined.

#[local] Instance binary_jwt : JWT := {|
  jwt_sign secret c := Ok (String "t" (pos_text (encode (secret, c))));
  jwt_parse secret issuer audience now raw :=
    match raw with
    | EmptyString => Err (Opaque "malformed")
    | String _ raw =>
      match decode (A := string * AccessTokenClaims) (text_pos raw) with
      | Some (s, c) =>
        if bool_decide (s = secret) && claims_valid issuer audience now c then Ok c else Err (Opaque "invalid")
      | None => Err (Opaque "malformed")
      end
    end
|}.
#[local] Instance binary_jwt_laws : JWTLaws.
Proof.
  split.
  - intros secret issuer audience now c raw _ [= <-]. cbn -[claims_valid encode decode].
    rw text_pos_text decode_encode bool_decide_eq_true_2 //. cbn -[claims_valid].
    destruct (claims_valid _ _ _ _); [done|by eexists].
  - intros secret c raw [= <-]. split; [|done]. apply graphic_TrimSpace.
    change (graphic_byte "t" && all_bytes graphic_byte (pos_text (encode (secret, c))) = true).
    by rw pos_text_graphic.
Qed.

(** A hash that keeps the password. *)
#[local] Instance plain_bcrypt : Bcrypt := {|
  bcrypt_generate _ password := if all_bytes graphic_byte password then Ok password else Err (Opaque "unsupported");
  bcrypt_compare h password := bool_decide (h = password)
|}.
#[local] Instance plain_bcrypt_laws : BcryptLaws.
Proof.
  split; intros cost pw h; cbn; destruct (all_bytes graphic_byte pw) eqn:E; try done; intros [= <-].
  - by apply bool_decide_eq_true_2.
  - by apply graphic_TrimSpace.
Qed.
#[local] Instance ascii_tables : UnicodeTables := {| unicode_lower s := s; unicode_upper s := s; strconv_Quote s := s |}.
#[local] Instance any_mail : NetMail := {| mail_ParseAddress s := Ok s |}.

Definition service : TokenService := mkTS "0123456789abcdef0123456789abcdef" "edgeguard-auth" "edgeguard" (15 * Minute) 32.
Definition now1 : Z := unix_epoch + 1000 * Hour.
Definition user1 : string := "33333333-3333-3333-3333-333333333333".
Definition token1 : string := "44444444-4444-4444-4444-444444444444".
Definition token2 : string := "55555555-5555-5555-5555-555555555555".
Definition rotation1 : rotation_env := mkRotation None None None token2 now1 Committed.
Definition register_call : call_env := mkCall now1 None None user1 now1 (Ok "r") (Ok "") rotation1.
Definition login_call : call_env := mkCall now1 None None token1 now1 (Ok "random-bytes-1") (Ok "") rotation1.
Definition refresh_call : call_env := mkCall (now1 + Minute) None None "" now1 (Ok "random-bytes-2") (Ok "") rotation1.
Definition ttl : Z := DefaultRefreshTokenTTL.

Definition registered : UserInfo * adb :=
  ok_or (mkUserInfo "" "" "" false 0 0, empty_adb) (Register 10 register_call " User@Example.com" "password-1" empty_adb).
Definition session : Session * adb :=
  ok_or (mkSession registered.1 (mkTokenPair "" "" 0 "" 0), empty_adb)
    (Login service ttl login_call "user@example.com" "password-1" registered.2).

Lemma register_step : dbstep empty_adb registered.2.
Proof.
  pose proof (Register_Ok 10 register_call " User@Example.com" "password-1" empty_adb registered.1 registered.2) as H.
  destruct H as (h & i & u & _ & Hs & _); [unfold uuid_text; vm_compute; reflexivity|vm_compute; reflexivity|exact Hs].
Qed.
Lemma wf_registered : wf registered.2.
Proof. exact (mv_wf _ _ (dbstep_moves _ _ register_step) wf_empty). Qed.

Lemma login_possible : can_login service ttl login_call registered.2 "random-bytes-1".
Proof.
  split; [reflexivity|reflexivity|reflexivity|reflexivity|reflexivity|vm_compute; reflexivity|..];
    apply not_elem_of_nil.
Qed.

(** At an address with a space and capitals. *)
Lemma register_then_login_witness :
  Register 10 register_call " User@Example.com" "password-1" empty_adb = Ok registered /\
  ui_Role registered.1 = RoleMember /\
  exists s d2, Login service ttl login_call "USER@example.com " "password-1" registered.2 = Ok (s, d2) /\
    se_User s = registered.1.
Proof.
  split; [vm_compute; reflexivity|].
  destruct (register_then_login service 10 ttl register_call login_call " User@Example.com" "USER@example.com "
    "password-1" "password-1" "random-bytes-1" empty_adb registered.1 registered.2 registered.2)
    as (Hrole & _ & _ & h & Eh & Em & Hl);
    [exact wf_empty|unfold uuid_text; vm_compute; reflexivity|vm_compute; reflexivity|reflexivity
    |vm_compute; reflexivity|reflexivity|exact login_possible|].
  split; [exact Hrole|]. rw Em in Hl. destruct Hl as (s & d2 & t & Hl & Hu & _). exists s, d2. split; [exact Hl|exact Hu].
Defined.

Definition access1 : IssuedAccessToken := ok_or (mkIssued "" 0) (IssueAccessToken service user1 RoleMember true now1).

(** C22 at a token used a minute after it was issued. *)
Lemma access_token_roundtrip_witness :
  IssueAccessToken service user1 RoleMember true now1 = Ok access1 /\
  AuthenticateAccessToken service refresh_call (ia_Value access1) registered.2 =
    Ok (mkATP user1 RoleMember (NewNumericDate (ia_ExpiresAt access1))).
Proof.
  split; [vm_compute; reflexivity|].
  refine (access_token_roundtrip service refresh_call registered.2 0
    (mkUser user1 "user@example.com" "password-1" RoleMember true now1 now1) RoleMember true now1 access1 (ia_Value access1)
    wf_registered _ _ _ _ _ _ _); vm_compute; reflexivity.
Defined.

Definition token_row : RefreshToken :=
  mkToken token1 user1 (presented (tp_RefreshToken (se_Tokens session.1))) (pg_time (now1 + ttl)) None now1.

Lemma login_step : dbstep registered.2 session.2.
Proof.
  apply (st_token registered.2 None token1 now1
    (mkToken "" user1 (presented (tp_RefreshToken (se_Tokens session.1))) (now1 + ttl) None time_zero) token_row);
    [unfold uuid_text; vm_compute; reflexivity|vm_compute; reflexivity].
Qed.
Lemma wf_session : wf session.2.
Proof. exact (mv_wf _ _ (dbstep_moves _ _ login_step) wf_registered). Qed.


Definition hash1 : string := presented (tp_RefreshToken (se_Tokens session.1)).
Definition pending1 : pending :=
  ok_or (mkPending token_row access1 "" token_row 0)
    (Refresh_read service ttl refresh_call (tp_RefreshToken (se_Tokens session.1)) session.2).
Definition rotated : adb := (Refresh_rotate rotation1 pending1 session.2).2.

(** C18 at two refreshes that both read the token before either commits: one of
    them redeems it. *)
Lemma refresh_redeemed_once_witness :
  exists s, rtc (sstep service ttl) (mkSys empty_adb [] []) s /\ s_log s = [Redeemed hash1] /\ once (s_log s).
Proof.
  assert (Hr : rtc (sstep service ttl) (mkSys empty_adb [] []) (mkSys rotated [] [Redeemed hash1])).
  { eapply rtc_l; [apply ss_other, register_step|]. eapply rtc_l; [apply ss_other, login_step|].
    eapply rtc_l; [apply (ss_read _ _ refresh_call (tp_RefreshToken (se_Tokens session.1)) pending1); vm_compute; reflexivity|].
    eapply rtc_l; [apply (ss_read _ _ refresh_call (tp_RefreshToken (se_Tokens session.1)) pending1); vm_compute; reflexivity|].
    eapply rtc_l; [apply (ss_rotate _ _ rotation1 hash1 pending1 session.2 [] [(hash1, pending1)] []);
                   unfold uuid_text; vm_compute; reflexivity|].
    assert (E : is_ok (Refresh_rotate rotation1 pending1 session.2).1 = true) by (vm_compute; reflexivity).
    rw E. assert (E' : is_ok (Refresh_rotate rotation1 pending1 rotated).1 = false /\
                  (Refresh_rotate rotation1 pending1 rotated).2 = rotated) by (split; vm_compute; reflexivity).
    destruct E' as [E1 E2]. eapply rtc_l;
      [apply (ss_rotate _ _ rotation1 hash1 pending1 rotated [] [] [Redeemed hash1]); unfold uuid_text; vm_compute; reflexivity|].
    rw E1 E2. apply rtc_refl. }
  eexists. split; [exact Hr|]. split; [reflexivity|]. exact (refresh_redeemed_once service ttl _ Hr).
Defined.
End Example.
End Sessions.
