(* ===== verification/Gateway.v ===== *)
(** The gateway's request path: authorization (internal/gateway/usecase/
    authorize_route.go and infrastructure/auth), the HTTP handler and middlewares
    of internal/gateway/delivery/http/v1, and the access events they publish
    (usecase/access_events.go, infrastructure/kafka).

    The handler is written against the interface [GatewayUsecase] of
    contracts.go; [gateway_usecase] implements it with the components of the
    other files.  echo, net/http's server, the reverse proxy and the Kafka client
    are parameters. *)
From Stdlib Require Import Ascii ZArith Lia.
From Corelib Require Import ssreflect.
From stdpp Require Import base gmap strings list numbers pretty.
From S2P Require Import Prelude GoStrings GoTime GoEncoding GoNet GoDate GoConv Events.
From S2P Require Import GatewayRoutes RateLimit RouteSources.

#[local] Open Scope Z_scope.

(** ** Authorization (gateway/domain, gateway/usecase/authorize_route.go) *)

Record APIKeyPrincipal := mkPrincipal {
  pr_APIKeyID : string;
  pr_ProjectID : string
}.
Definition no_principal : APIKeyPrincipal := mkPrincipal "" "".

Definition ErrAPIKeyRequired : error :=
  Sentinel "gateway/domain.ErrAPIKeyRequired" "api key is required".
Definition ErrInvalidAPIKey : error :=
  Sentinel "gateway/domain.ErrInvalidAPIKey" "invalid api key".
Definition ErrAPIKeyProjectMismatch : error :=
  Sentinel "gateway/domain.ErrAPIKeyProjectMismatch" "api key is not allowed for this route".
Definition ErrAuthServiceUnavailable : error :=
  Sentinel "gateway/domain.ErrAuthServiceUnavailable" "auth service unavailable".
Definition ErrAPIKeyValidatorNotConfigured : error :=
  Sentinel "gateway/domain.ErrAPIKeyValidatorNotConfigured" "api key validator is not configured".

(** [apiKeyValidator] is the interface value of the use case: [None] is nil. *)
Definition AuthorizeRoute (apiKeyValidator : option (string -> res APIKeyPrincipal))
    (route : Route) (rawAPIKey : string) : res APIKeyPrincipal :=
  if negb (rt_AuthRequired route) then Ok no_principal
  else if blank rawAPIKey then Err ErrAPIKeyRequired
  else match apiKeyValidator with
       | None => Err ErrAPIKeyValidatorNotConfigured
       | Some validate =>
         match validate rawAPIKey with
         | Err err => if errors_Is err ErrInvalidAPIKey then Err ErrInvalidAPIKey else Err err
         | Ok principal =>
           if bool_decide (pr_ProjectID principal <> rt_ProjectID route)
           then Err ErrAPIKeyProjectMismatch
           else Ok principal
         end
       end.

(** ** The auth service client (gateway/infrastructure/auth/client.go) *)

Record validateAPIKeyResponse := mkValidateResponse {
  vr_APIKeyID : string;
  vr_ProjectID : string
}.

Definition validateAPIKeyPath : string := "internal/v1/api-keys/validate".
Definition authMaxResponseSize : N := 65536.

Definition New_auth_client `{NetURL} (baseURL : string) : res string :=
  let baseURL := TrimSpace baseURL in
  if bool_decide (baseURL = "") then Err (Opaque "auth service base url is required") else
  match url_Parse baseURL with
  | Err e => Err (wrapf "parse auth service base url" e)
  | Ok parsedURL =>
    if negb (http_scheme parsedURL) then Err (Opaque "auth service base url must use http or https")
    else if bool_decide (u_Host parsedURL = "") then
      Err (Opaque "auth service base url host is required")
    else match url_JoinPath (url_String parsedURL) validateAPIKeyPath with
         | Err e => Err (wrapf "build api key validation url" e)
         | Ok validateURL => Ok validateURL
         end
  end.

(** [fmt.Errorf("%w: text", ErrAuthServiceUnavailable)]. *)
Definition unavailable (text : string) : error :=
  Wrap (Error ErrAuthServiceUnavailable +:+ ": " +:+ text) [ErrAuthServiceUnavailable].

Definition auth_ensureJSONEOF (t : trailing) : res unit :=
  match t with
  | AtEOF => Ok tt
  | Malformed e => Err (wrapf "decode trailing api key validation response" e)
  | MoreValues => Err (Opaque "api key validation response contains multiple json values")
  end.

(** What [ValidateAPIKey] makes of a response with status 200. *)
Definition decode_principal `{JSONDecoder validateAPIKeyResponse} (body : stream)
    : res APIKeyPrincipal :=
  match json_Decode (LimitReader body authMaxResponseSize) with
  | Err e => Err (unavailable ("decode api key validation response: " +:+ Error e))
  | Ok (response, rest) =>
    match auth_ensureJSONEOF (json_more rest) with
    | Err e => Err (unavailable (Error e))
    | Ok _ =>
      let APIKeyID := TrimSpace (vr_APIKeyID response) in
      let ProjectID := TrimSpace (vr_ProjectID response) in
      if bool_decide (APIKeyID = "") || bool_decide (ProjectID = "") then
        Err (unavailable "api key validation response is missing principal fields")
      else Ok (mkPrincipal APIKeyID ProjectID)
    end
  end.

(** [ValidateAPIKey] on the outcome of [http.NewRequest] and of [httpClient.Do]
    for the given key. *)
Definition client_ValidateAPIKey `{JSONDecoder validateAPIKeyResponse}
    (newRequest : res unit) (Do : Header -> res Response) (rawAPIKey : string)
    : res APIKeyPrincipal :=
  match newRequest with
  | Err e => Err (wrapf "create api key validation request" e)
  | Ok _ =>
    match Do (Header_Set (Header_Set ∅ "Accept" "application/json") "X-API-Key" rawAPIKey) with
    | Err e =>
      Err (Wrap (Error ErrAuthServiceUnavailable +:+ ": request api key validation: " +:+ Error e)
             [ErrAuthServiceUnavailable; e])
    | Ok res =>
      if res_StatusCode res =? 401 then Err ErrInvalidAPIKey
      else if negb (res_StatusCode res =? 200) then
        match ReadAll (LimitReader (res_Body res) authMaxResponseSize) with
        | Err e =>
          Err (unavailable ("auth service returned status " +:+ Itoa (res_StatusCode res) +:+
                            " and body could not be read: " +:+ Error e))
        | Ok body =>
          let message := TrimSpace body in
          if bool_decide (message = "") then
            Err (unavailable ("auth service returned status " +:+ Itoa (res_StatusCode res)))
          else Err (unavailable ("auth service returned status " +:+ Itoa (res_StatusCode res) +:+
                                 ": " +:+ message))
        end
      else decode_principal (res_Body res)
    end
  end.

(** ** The use case interface (delivery/http/v1/contracts.go) *)

Class GatewayUsecase (W : Type) := {
  uc_ResolveRoute : string -> W -> res Route * W;
  uc_AuthorizeRoute : Route -> string -> W -> res APIKeyPrincipal * W;
  uc_CheckRateLimit : Route -> string -> W -> res RateLimitResult * W;
  uc_PublishAccessEvent : GatewayAccessEvent -> W -> option error * W;
}.

(** ** The request context *)

Record request := mkRequest {
  req_Method : string;
  req_Path : string;
  req_Header : Header;
  req_RemoteAddr : string
}.

Record accessEventMetadata := mkMeta {
  md_projectID : string;
  md_routeName : string;
  md_routePathPrefix : string;
  md_apiKeyID : string;
  md_authRequired : bool;
  md_rateLimitEnabled : bool;
  md_rateLimited : bool
}.
Definition empty_meta : accessEventMetadata := mkMeta "" "" "" "" false false false.

(** Calls on the response writer and its header map, in order. *)
Inductive write_op :=
| SetHeader (k v : string)
| AddHeader (k v : string)
| DelHeader (k : string)
| ClearHeader
| WriteHeader (status : Z)
| Write (data : string)
| Flush.

(** The echo context: the request, the calls made on the response writer, the
    metadata stored under [accessEventMetadataKey], what was forwarded to the
    proxy and the log. *)
Record context := mkContext {
  cx_req : request;
  cx_ops : list write_op;
  cx_meta : option accessEventMetadata;
  cx_forwarded : list (request * Route);
  cx_log : list string
}.

Definition cx_write (ops : list write_op) (c : context) : context :=
  mkContext (cx_req c) (cx_ops c ++ ops) (cx_meta c) (cx_forwarded c) (cx_log c).
Definition cx_logf (msg : string) (c : context) : context :=
  mkContext (cx_req c) (cx_ops c) (cx_meta c) (cx_forwarded c) (cx_log c ++ [msg]).
Definition cx_set_meta (m : accessEventMetadata) (c : context) : context :=
  mkContext (cx_req c) (cx_ops c) (Some m) (cx_forwarded c) (cx_log c).
Definition cx_set_req (r : request) (c : context) : context :=
  mkContext r (cx_ops c) (cx_meta c) (cx_forwarded c) (cx_log c).

Definition LF : string := String "010"%char EmptyString.

(** [c.String(code, s)]. *)
Definition c_String (code : Z) (s : string) (c : context) : context :=
  cx_write [SetHeader "Content-Type" "text/plain; charset=UTF-8"; WriteHeader code; Write s] c.

(** *** Metadata (access_events.go) *)

Definition getAccessEventMetadata (c : context) : accessEventMetadata :=
  default empty_meta (cx_meta c).

Definition setAccessEventRoute (route : Route) (c : context) : context :=
  let m := getAccessEventMetadata c in
  cx_set_meta (mkMeta (rt_ProjectID route) (rt_Name route) (rt_PathPrefix route) (md_apiKeyID m)
                 (rt_AuthRequired route) (rl_Enabled (rt_RateLimit route)) (md_rateLimited m)) c.

Definition setAccessEventAPIKey (apiKeyID : string) (c : context) : context :=
  let m := getAccessEventMetadata c in
  cx_set_meta (mkMeta (md_projectID m) (md_routeName m) (md_routePathPrefix m) apiKeyID
                 (md_authRequired m) (md_rateLimitEnabled m) (md_rateLimited m)) c.

Definition setAccessEventRateLimited (c : context) : context :=
  let m := getAccessEventMetadata c in
  cx_set_meta (mkMeta (md_projectID m) (md_routeName m) (md_routePathPrefix m) (md_apiKeyID m)
                 (md_authRequired m) (md_rateLimitEnabled m) true) c.

(** ** The handler (handlers.go) *)

Definition apiKeyHeader : string := "X-API-Key".

Definition directClientIP (req : request) : string :=
  let remoteAddr := TrimSpace (req_RemoteAddr req) in
  if bool_decide (remoteAddr = "") then "unknown"
  else match SplitHostPort remoteAddr with
       | Ok (host, _) => if bool_decide (host = "") then remoteAddr else host
       | Err _ => remoteAddr
       end.

Definition rateLimitClientID (req : request) (route : Route) (principal : APIKeyPrincipal) : string :=
  if rt_AuthRequired route && negb (blank (pr_APIKeyID principal))
  then "api-key:" +:+ pr_APIKeyID principal
  else "ip:" +:+ directClientIP req.

(** [int(math.Ceil(d.Seconds()))], exact while the sum of whole and fractional
    seconds is a float64 that separates neighbouring nanoseconds: durations below
    2^22 seconds (48 days). *)
Definition ceil_seconds (d : Z) : Z := - ((- d) / Second).

Definition rateLimitHeaders (result : RateLimitResult) : list write_op :=
  [ SetHeader "X-RateLimit-Limit" (Itoa (rs_Limit result));
    SetHeader "X-RateLimit-Remaining" (Itoa (rs_Remaining result));
    SetHeader "X-RateLimit-Reset" (Itoa (Unix (rs_ResetAt result))) ] ++
  (if negb (rs_Allowed result) then
     let retryAfterSeconds := ceil_seconds (rs_RetryAfter result) in
     let retryAfterSeconds := if retryAfterSeconds <? 1 then 1 else retryAfterSeconds in
     [SetHeader "Retry-After" (Itoa retryAfterSeconds)]
   else []).

Definition setRateLimitHeaders (result : RateLimitResult) (c : context) : context :=
  cx_write (rateLimitHeaders result) c.

Definition req_del_header (k : string) (r : request) : request :=
  mkRequest (req_Method r) (req_Path r) (Header_Del (req_Header r) k) (req_RemoteAddr r).
Definition req_set_header (k v : string) (r : request) : request :=
  mkRequest (req_Method r) (req_Path r) (Header_Set (req_Header r) k v) (req_RemoteAddr r).

(** [errors.Is(err, a) || errors.Is(err, b)]. *)
Definition is_either (e a b : error) : bool := errors_Is e a || errors_Is e b.

(** The error branch of the authorization. *)
Definition auth_failure (err : error) (c : context) : context :=
  if is_either err ErrAPIKeyRequired ErrInvalidAPIKey then c_String 401 ("unauthorized" +:+ LF) c
  else if errors_Is err ErrAPIKeyProjectMismatch then c_String 403 ("forbidden" +:+ LF) c
  else if is_either err ErrAuthServiceUnavailable ErrAPIKeyValidatorNotConfigured then
    c_String 503 ("authorization service unavailable" +:+ LF) (cx_logf ("route authorization service unavailable: " +:+ Error err) c)
  else c_String 500 ("internal error" +:+ LF) (cx_logf ("failed to authorize route: " +:+ Error err) c).

(** The end of [proxyRequest]: the key is removed and the proxy called; [proxy] is
    what it writes for the forwarded request. *)
Definition forward (proxy : request -> Route -> list write_op) (route : Route) (c : context) : context :=
  let req := req_del_header apiKeyHeader (cx_req c) in
  mkContext req (cx_ops c ++ proxy req route) (cx_meta c) (cx_forwarded c ++ [(req, route)]) (cx_log c).

Definition proxyRequest `{GatewayUsecase W} (proxy : request -> Route -> list write_op)
    (c : context) (w : W) : context * W :=
  let req := cx_req c in
  match uc_ResolveRoute (req_Path req) w with
  | (Err err, w) =>
    if errors_Is err ErrRouteNotFound then (c_String 404 ("route not found" +:+ LF) c, w)
    else (c_String 500 ("internal error" +:+ LF) (cx_logf ("failed to resolve route: " +:+ Error err) c), w)
  | (Ok route, w) =>
    let c := setAccessEventRoute route c in
    match uc_AuthorizeRoute route (Header_Get (req_Header req) apiKeyHeader) w with
    | (Err err, w) => (auth_failure err c, w)
    | (Ok principal, w) =>
      let c := if bool_decide (pr_APIKeyID principal <> "")
               then setAccessEventAPIKey (pr_APIKeyID principal) c else c in
      let clientID := rateLimitClientID req route principal in
      match uc_CheckRateLimit route clientID w with
      | (Err err, w) =>
        if is_either err ErrInvalidRateLimitPolicy ErrInvalidRateLimitClient then
          (c_String 500 ("internal error" +:+ LF) (cx_logf ("invalid route rate limit configuration: route=" +:+ rt_Name route +:+
                      " error=" +:+ Error err) c), w)
        else
          (forward proxy route
             (cx_logf ("rate limit check failed, allowing request: route=" +:+ rt_Name route +:+
                       " client=" +:+ clientID +:+ " error=" +:+ Error err) c), w)
      | (Ok result, w) =>
        if rs_Enabled result then
          let c := setRateLimitHeaders result c in
          if negb (rs_Allowed result) then
            (c_String 429 ("rate limit exceeded" +:+ LF) (setAccessEventRateLimited c), w)
          else (forward proxy route c, w)
        else (forward proxy route c, w)
      end
    end
  end.

(** ** Middlewares *)

(** [strconv.FormatInt(z, 36)]. *)
Definition digit36 (n : Z) : ascii := ascii_of_N (Z.to_N (if n <? 10 then 48 + n else 87 + n)).
Fixpoint format36_fuel (fuel : nat) (z : Z) (acc : string) : string :=
  match fuel with
  | O => acc
  | S f =>
    let acc := String (digit36 (z mod 36)) acc in
    if z / 36 =? 0 then acc else format36_fuel f (z / 36) acc
  end.
Definition FormatInt36 (z : Z) : string :=
  if z <? 0 then "-" +:+ format36_fuel 13 (- z) "" else format36_fuel 13 z "".

(** [newRequestID] and [newAccessEventID]: [rand] is the outcome of [rand.Read]
    into 16 bytes, [nowNano] the reading of [time.Now().UnixNano()]. *)
Definition newRequestID (rand : res string) (nowNano : Z) : string :=
  match rand with
  | Err _ => FormatInt36 nowNano
  | Ok buffer => hex_encode buffer
  end.
Definition newAccessEventID (rand : res string) (nowNano : Z) : string :=
  match rand with
  | Err _ => FormatInt36 nowNano
  | Ok buffer => hex_encode buffer
  end.

Definition requestIDHeader : string := "X-Request-ID".

(** A handler: what the chain below a middleware does to the context. *)
Abbreviation handler W := (context -> W -> context * W).

(** The readings of the clock and of the random source during one request. *)
Record readings := mkReadings {
  rd_start : Z;
  rd_completed : Z;
  rd_since : Z;
  rd_nano : Z;
  rd_rand_request : res string;
  rd_rand_event : res string
}.

Definition RequestID {W} (rd : readings) (next : handler W) : handler W := fun c w =>
  let requestID := Header_Get (req_Header (cx_req c)) requestIDHeader in
  let requestID := if bool_decide (requestID = "")
                   then newRequestID (rd_rand_request rd) (rd_nano rd) else requestID in
  let c := cx_set_req (req_set_header requestIDHeader requestID (cx_req c)) c in
  let c := cx_write [SetHeader requestIDHeader requestID] c in
  next c w.

Definition isObservabilityEndpoint (path : string) : bool :=
  bool_decide (path = "/health") || bool_decide (path = "/ready") || bool_decide (path = "/metrics").

(** *** The response recorder (response_recorder.go)

    [accepted] is how many bytes of a chunk the underlying writer takes. *)
Record responseRecorder := mkRecorder { rec_status : Z; rec_bytes : Z }.

Definition newResponseRecorder : responseRecorder := mkRecorder 200 0.

Definition recorder_step (accepted : string -> Z) (r : responseRecorder) (op : write_op)
    : responseRecorder :=
  match op with
  | WriteHeader status => mkRecorder status (rec_bytes r)
  | Write data =>
    let status := if rec_status r =? 0 then 200 else rec_status r in
    mkRecorder status (wrap64 (rec_bytes r + accepted data))
  | _ => r
  end.

Definition record_ops (accepted : string -> Z) (ops : list write_op) : responseRecorder :=
  fold_left (recorder_step accepted) ops newResponseRecorder.

(** The calls a handler made on the writer installed in front of it. *)
Definition ops_since (before after : context) : list write_op :=
  drop (length (cx_ops before)) (cx_ops after).

Definition Logging {W} (accepted : string -> Z) (rd : readings) (durationText : Z -> string)
    (next : handler W) : handler W := fun c w =>
  if isObservabilityEndpoint (req_Path (cx_req c)) then next c w
  else
    let '(c', w') := next c w in
    let recorder := record_ops accepted (ops_since c c') in
    (cx_logf ("gateway request completed: request_id=" +:+
              Header_Get (req_Header (cx_req c')) requestIDHeader +:+
              " method=" +:+ req_Method (cx_req c') +:+ " path=" +:+ req_Path (cx_req c') +:+
              " status=" +:+ Itoa (rec_status recorder) +:+ " bytes=" +:+ Itoa (rec_bytes recorder) +:+
              " duration=" +:+ durationText (Sub (rd_since rd) (rd_start rd))) c', w').

(** *** Access events (access_events.go) *)

Definition accessEventClient (clientIP apiKeyID : string) : string * string :=
  if bool_decide (apiKeyID <> "") then (ClientTypeAPIKey, apiKeyID)
  else (ClientTypeIP, sha256_hex clientIP).

(** The event of a completed request. *)
Definition access_event (rd : readings) (req : request) (requestID : string)
    (metadata : accessEventMetadata) (recorder : responseRecorder) : GatewayAccessEvent :=
  let '(clientType, clientID) := accessEventClient (directClientIP req) (md_apiKeyID metadata) in
  mkEvent GatewayAccessEventSchemaVersion (newAccessEventID (rd_rand_event rd) (rd_nano rd))
    (rd_completed rd) requestID (md_projectID metadata) (md_routeName metadata)
    (md_routePathPrefix metadata) (req_Method req) (req_Path req) (rec_status recorder)
    (Milliseconds (Sub (rd_since rd) (rd_start rd))) (rec_bytes recorder) clientType clientID
    (md_authRequired metadata) (md_rateLimitEnabled metadata) (md_rateLimited metadata).

Definition AccessEvents `{GatewayUsecase W} (accepted : string -> Z) (rd : readings)
    (next : handler W) : handler W := fun c w =>
  if isObservabilityEndpoint (req_Path (cx_req c)) then next c w
  else
    let '(c', w') := next c w in
    let recorder := record_ops accepted (ops_since c c') in
    let metadata := getAccessEventMetadata c' in
    let requestID := Header_Get (req_Header (cx_req c')) requestIDHeader in
    let '(requestID, c') :=
      if bool_decide (requestID = "") then
        let requestID := newRequestID (rd_rand_request rd) (rd_nano rd) in
        (requestID, cx_set_req (req_set_header requestIDHeader requestID (cx_req c')) c')
      else (requestID, c') in
    let event := access_event rd (cx_req c') requestID metadata recorder in
    match uc_PublishAccessEvent event w' with
    | (Some publishErr, w'') =>
      (cx_logf ("failed to publish gateway access event: request_id=" +:+ ev_RequestID event +:+
                " event_id=" +:+ ev_EventID event +:+ " error=" +:+ Error publishErr) c', w'')
    | (None, w'') => (c', w'')
    end.

(** The chain of app.go around the proxying handler. *)
Definition serve `{GatewayUsecase W} (accepted : string -> Z) (durationText : Z -> string)
    (rd : readings) (proxy : request -> Route -> list write_op) : handler W :=
  RequestID rd (AccessEvents accepted rd (Logging accepted rd durationText (proxyRequest proxy))).

(** ** Publishing (usecase/access_events.go, infrastructure/kafka) *)

Record kafka_record := mkRecord {
  kr_Topic : string;
  kr_Key : string;
  kr_Value : string;
  kr_Timestamp : Z;
  kr_Headers : list (string * string)
}.

(** [marshal] is json.Marshal, [inject] the headers of the tracing propagator. *)
Definition accessEventRecord (marshal : GatewayAccessEvent -> res string)
    (inject : list (string * string)) (topic : string) (event : GatewayAccessEvent)
    : res kafka_record :=
  match marshal event with
  | Err e => Err (wrapf "marshal gateway access event" e)
  | Ok payload =>
    let key := TrimSpace (ev_RequestID event) in
    let key := if negb (bool_decide (ev_ProjectID event = "")) && negb (bool_decide (ev_RouteName event = ""))
               then ev_ProjectID event +:+ ":" +:+ ev_RouteName event else key in
    Ok (mkRecord topic key payload (ev_OccurredAt event)
          ([("event-type", GatewayAccessEventType);
            ("schema-version", Itoa (ev_SchemaVersion event))] ++ inject))
  end.

(** [PublishGatewayAccess]: the record handed to [TryProduce], which does not
    block and reports failures to its callback only. *)
Definition PublishGatewayAccess `{UnicodeTables} (marshal : GatewayAccessEvent -> res string)
    (inject : list (string * string)) (topic : string) (event : GatewayAccessEvent)
    (produced : list kafka_record) : option error * list kafka_record :=
  match event_Validate event with
  | Err e => (Some (wrapf "validate gateway access event" e), produced)
  | Ok _ =>
    match accessEventRecord marshal inject topic event with
    | Err e => (Some e, produced)
    | Ok record => (None, produced ++ [record])
    end
  end.

(** [normalizedBrokers] of the producer and [splitCSV] of the configuration share
    their loop: trimmed items, blanks and repetitions dropped. *)
Fixpoint dedup_trimmed (seen : gset string) (items : list string) : list string :=
  match items with
  | [] => []
  | part :: items' =>
    let item := TrimSpace part in
    if bool_decide (item = "") || bool_decide (item ∈ seen) then dedup_trimmed seen items'
    else item :: dedup_trimmed ({[item]} ∪ seen) items'
  end.
Definition normalizedBrokers (rawBrokers : list string) : list string := dedup_trimmed ∅ rawBrokers.
Definition splitCSV (value : string) : list string := dedup_trimmed ∅ (Split value ","%char).

Record producer_config := mkProducerConfig {
  pc_Brokers : list string;
  pc_Topic : string;
  pc_ClientID : string;
  pc_MaxBufferedRecords : Z;
  pc_FlushTimeout : Z
}.

(** [New]: the settings the Kafka client is created with; [newClient] is
    kgo.NewClient. *)
Definition New_producer (newClient : producer_config -> res unit) (config : producer_config)
    (log_nil : bool) : res producer_config :=
  let brokers := normalizedBrokers (pc_Brokers config) in
  if bool_decide (brokers = []) then Err (Opaque "kafka brokers are required") else
  let topic := TrimSpace (pc_Topic config) in
  if bool_decide (topic = "") then Err (Opaque "kafka access event topic is required") else
  let clientID := TrimSpace (pc_ClientID config) in
  if bool_decide (clientID = "") then Err (Opaque "kafka client id is required") else
  if log_nil then Err (Opaque "logger is required") else
  let maxBufferedRecords := if pc_MaxBufferedRecords config <=? 0 then 10000
                            else pc_MaxBufferedRecords config in
  let flushTimeout := if pc_FlushTimeout config <=? 0 then 5 * Second else pc_FlushTimeout config in
  let settings := mkProducerConfig brokers topic clientID maxBufferedRecords flushTimeout in
  match newClient settings with
  | Err e => Err (wrapf "create kafka producer" e)
  | Ok _ => Ok settings
  end.

Definition PublishAccessEvent {P}
    (accessEventPublisher : option (GatewayAccessEvent -> P -> option error * P))
    (event : GatewayAccessEvent) (p : P) : option error * P :=
  match accessEventPublisher with
  | None => (None, p)
  | Some publish => publish event p
  end.

(** ** Configuration (gateway/config/config.go) *)

Record gateway_config := mkGatewayConfig {
  gc_ConfigPath : string;
  gc_ControlPlaneURL : string;
  gc_RoutesRefreshInterval : Z;
  gc_AuthServiceURL : string;
  gc_RedisURL : string;
  gc_RedisRateLimitPrefix : string;
  gc_KafkaBrokers : list string;
  gc_KafkaAccessTopic : string;
  gc_KafkaClientID : string
}.

Definition or_default (v d : string) : string := if bool_decide (v = "") then d else v.

(** [Load] on the environment. *)
Definition Load_gateway_config (getenv : string -> string) : res gateway_config :=
  let env k := TrimSpace (getenv k) in
  let cfg interval :=
    mkGatewayConfig (or_default (env "GATEWAY_CONFIG_PATH") "configs/gateway.yaml")
      (env "CONTROL_PLANE_URL") interval (env "AUTH_SERVICE_URL") (env "REDIS_URL")
      (env "REDIS_RATE_LIMIT_PREFIX") (splitCSV (getenv "KAFKA_BROKERS"))
      (or_default (env "KAFKA_ACCESS_TOPIC") "edgeguard.gateway.access.v1")
      (or_default (env "KAFKA_CLIENT_ID") "edgeguard-gateway") in
  let rawInterval := env "ROUTES_REFRESH_INTERVAL" in
  if bool_decide (rawInterval = "") then Ok (cfg (10 * Second))
  else match Duration.ParseDuration rawInterval with
       | Err e => Err (wrapf "parse ROUTES_REFRESH_INTERVAL" e)
       | Ok interval =>
         if interval <=? 0 then Err (Opaque "ROUTES_REFRESH_INTERVAL must be positive")
         else Ok (cfg interval)
       end.

(** ** The use case of the gateway (usecase/usecase.go)

    Its state: the route repository, what is behind the rate limiter and what is
    behind the publisher. *)
Record gw_world (R RS P : Type) := mkGW {
  gw_repo : R;
  gw_limiter : RS;
  gw_publisher : P
}.
Arguments mkGW {R RS P}.
Arguments gw_repo {R RS P}.
Arguments gw_limiter {R RS P}.
Arguments gw_publisher {R RS P}.

Definition gateway_usecase `{RouteRepository R} {RS P}
    (apiKeyValidator : option (string -> res APIKeyPrincipal))
    (rateLimiter : option (RateLimitRequest -> RS -> res RateLimitResult * RS))
    (accessEventPublisher : option (GatewayAccessEvent -> P -> option error * P))
    : GatewayUsecase (gw_world R RS P) := {|
  uc_ResolveRoute path w :=
    let '(r, repo) := ResolveRoute path (gw_repo w) in
    (r, mkGW repo (gw_limiter w) (gw_publisher w));
  uc_AuthorizeRoute route rawAPIKey w := (AuthorizeRoute apiKeyValidator route rawAPIKey, w);
  uc_CheckRateLimit route clientID w :=
    let '(r, rs) := CheckRateLimit rateLimiter route clientID (gw_limiter w) in
    (r, mkGW (gw_repo w) rs (gw_publisher w));
  uc_PublishAccessEvent event w :=
    let '(r, p) := PublishAccessEvent accessEventPublisher event (gw_publisher w) in
    (r, mkGW (gw_repo w) (gw_limiter w) p);
|}.

(** ** Lemmas on the handler *)

Section handler.
Context `{GatewayUsecase W} (proxy : request -> Route -> list write_op).

(** The answer of the rate limiter lets the request through: it is off, it
    allows, or it failed for a reason other than a bad configuration. *)
Definition lets_through (chk : res RateLimitResult) : bool :=
  match chk with
  | Ok r => negb (rs_Enabled r) || rs_Allowed r
  | Err e => negb (is_either e ErrInvalidRateLimitPolicy ErrInvalidRateLimitClient)
  end.

(** The three decisions of a request that reaches the rate limiter. *)
Definition decisions (c : context) (w : W) (route : Route) (principal : APIKeyPrincipal)
    (chk : res RateLimitResult) (w' : W) : Prop :=
  exists w1 w2,
    uc_ResolveRoute (req_Path (cx_req c)) w = (Ok route, w1) /\
    uc_AuthorizeRoute route (Header_Get (req_Header (cx_req c)) apiKeyHeader) w1 = (Ok principal, w2) /\
    uc_CheckRateLimit route (rateLimitClientID (cx_req c) route principal) w2 = (chk, w').

Lemma proxyRequest_decided c w route principal chk w' :
  cx_forwarded c = [] -> decisions c w route principal chk w' ->
  (proxyRequest proxy c w).2 = w' /\
  cx_forwarded (proxyRequest proxy c w).1 =
    if lets_through chk then [(req_del_header apiKeyHeader (cx_req c), route)] else [].
Proof.
  intros Hc (w1 & w2 & E1 & E2 & E3). unfold proxyRequest. rw E1 E2 E3.
  destruct chk as [r|e]; cbn [lets_through].
  - destruct (rs_Enabled r), (rs_Allowed r); cbn; case_bool_decide; cbn; by rw Hc.
  - destruct (is_either e _ _); cbn; case_bool_decide; cbn; by rw Hc.
Qed.

Lemma proxyRequest_forwards c w f :
  cx_forwarded c = [] -> f ∈ cx_forwarded (proxyRequest proxy c w).1 ->
  exists route principal chk w',
    decisions c w route principal chk w' /\ lets_through chk = true /\
    f = (req_del_header apiKeyHeader (cx_req c), route) /\
    cx_forwarded (proxyRequest proxy c w).1 = [f].
Proof.
  intros Hc Hf.
  destruct (uc_ResolveRoute (req_Path (cx_req c)) w) as [[route|e] w1] eqn:E1; cycle 1.
  { exfalso. revert Hf. unfold proxyRequest. rw E1.
    destruct (errors_Is _ _); cbn; rw Hc; set_solver. }
  destruct (uc_AuthorizeRoute route (Header_Get (req_Header (cx_req c)) apiKeyHeader) w1)
    as [[principal|e] w2] eqn:E2; cycle 1.
  { exfalso. revert Hf. unfold proxyRequest. rw E1 E2. unfold auth_failure.
    repeat case_match; cbn; rw Hc; set_solver. }
  destruct (uc_CheckRateLimit route (rateLimitClientID (cx_req c) route principal) w2)
    as [chk w'] eqn:E3.
  assert (Hd : decisions c w route principal chk w') by (by exists w1, w2).
  destruct (proxyRequest_decided c w route principal chk w' Hc Hd) as [_ Hfw].
  rw Hfw in Hf |- *. destruct (lets_through chk) eqn:El; [|set_solver].
  apply list_elem_of_singleton in Hf as ->. by exists route, principal, chk, w'.
Qed.
End handler.

(** ** Lemmas on authorization *)

Lemma AuthorizeRoute_Ok v route key p :
  AuthorizeRoute v route key = Ok p -> rt_AuthRequired route = true ->
  blank key = false /\ exists validate, v = Some validate /\ validate key = Ok p /\
    pr_ProjectID p = rt_ProjectID route.
Proof.
  unfold AuthorizeRoute. intros E Ha. rw Ha in E. cbn [negb] in E.
  destruct (blank key); [done|]. destruct v as [validate|]; [|done].
  destruct (validate key) as [p'|e] eqn:Ev; [|by destruct (errors_Is e _)].
  case_bool_decide as Hp; [done|]. injection E as <-. split; [done|].
  exists validate. split; [done|]. split; [done|].
  destruct (decide (pr_ProjectID p' = rt_ProjectID route)); [done|]. by destruct Hp.
Qed.

Lemma decode_principal_Err `{JSONDecoder validateAPIKeyResponse} body e :
  decode_principal body = Err e -> exists t, e = unavailable t.
Proof.
  unfold decode_principal. repeat case_match; try done; intros [= <-]; by eexists.
Qed.

(** Only a response with status 200 yields a principal, with trimmed ids. *)
Lemma client_ValidateAPIKey_Ok `{JSONDecoder validateAPIKeyResponse} nr Do key p :
  client_ValidateAPIKey nr Do key = Ok p ->
  exists h body, Header_Get h apiKeyHeader = key /\ Do h = Ok (mkResponse 200 body) /\
    decode_principal body = Ok p /\ blank (pr_APIKeyID p) = false /\ blank (pr_ProjectID p) = false.
Proof.
  unfold client_ValidateAPIKey. destruct nr; [|done].
  set (h := Header_Set _ "X-API-Key" key). destruct (Do h) as [[code body]|] eqn:Ed; [|done].
  cbn [res_StatusCode res_Body]. destruct (Z.eqb_spec code 401); [done|].
  destruct (Z.eqb_spec code 200) as [->|]; cbn [negb]; cycle 1.
  { by destruct (ReadAll _); [case_bool_decide|]. }
  intros E. exists h, body. split; [apply Header_Get_Set|]. split; [done|]. split; [done|].
  revert E. unfold decode_principal. destruct (json_Decode _) as [[resp rest]|]; [|done].
  destruct (auth_ensureJSONEOF _); [|done].
  case_bool_decide as H1; [done|]. case_bool_decide as H2; [done|]. cbn. intros [= <-].
  cbn. rw !blank_TrimSpace. split; by apply bool_decide_eq_false_2.
Qed.

(** ** Lemmas on the rate limiter's part *)

Lemma rateLimitClientID_not_blank req route p : blank (rateLimitClientID req route p) = false.
Proof.
  destruct (blank _) eqn:E; [|done]. apply blank_bytes in E.
  unfold rateLimitClientID in E. destruct (_ && _); rw !sapp_cons in E; discriminate E.
Qed.

(** An error of a collaborator that holds none of the gateway's own sentinels. *)
Definition foreign (e : error) : Prop :=
  Forall (fun s => errors_Is e s = false)
    [ErrInvalidAPIKey; ErrAPIKeyRequired; ErrAPIKeyProjectMismatch;
     ErrInvalidRateLimitPolicy; ErrInvalidRateLimitClient].

Lemma foreign_limit e : foreign e -> is_either e ErrInvalidRateLimitPolicy ErrInvalidRateLimitClient = false.
Proof.
  unfold foreign, is_either. rw !Forall_cons. intros (_ & _ & _ & -> & -> & _). done.
Qed.

(** ** Properties *)

Section gateway.
Context `{RouteRepositoryLaws R} {RS P : Type}.
Context `{JSONDecoder validateAPIKeyResponse}.
Context (Do : Header -> res Response).
Context (limiter : option (RateLimitRequest -> RS -> res RateLimitResult * RS)).
Context (publisher : option (GatewayAccessEvent -> P -> option error * P)).
Context (proxy : request -> Route -> list write_op).

(** The gateway of app.go with an auth service configured. *)
Abbreviation uc :=
  (gateway_usecase (Some (client_ValidateAPIKey (Ok tt) Do)) limiter publisher).

(** C2: A request is forwarded at most once, to a route of the current
    snapshot that matches its path with the longest prefix, and without its
    X-API-Key header; when that route requires authentication, the auth service
    has answered 200 for that very key, which is not blank, with a principal of
    the route's own project.  An outage of the auth service never lets a
    request through. *)
Theorem gateway_forwards_authorised (c : context) (w : gw_world R RS P) (req : request) (route : Route) :
  cx_forwarded c = [] ->
  (req, route) ∈ cx_forwarded (@proxyRequest _ uc proxy c w).1 ->
  cx_forwarded (@proxyRequest _ uc proxy c w).1 = [(req, route)] /\
  req_Header req !! CanonicalHeaderKey apiKeyHeader = None /\ req_Path req = req_Path (cx_req c) /\
  route ∈ snapshot (gw_repo w) /\ Matches route (req_Path req) = true /\
  (forall r, r ∈ snapshot (gw_repo w) -> Matches r (req_Path req) = true ->
     len (rt_PathPrefix r) <= len (rt_PathPrefix route)) /\
  (rt_AuthRequired route = true ->
   let key := Header_Get (req_Header (cx_req c)) apiKeyHeader in
   blank key = false /\
   exists h body p, Header_Get h apiKeyHeader = key /\ Do h = Ok (mkResponse 200 body) /\
     decode_principal body = Ok p /\ pr_ProjectID p = rt_ProjectID route).
Proof.
  intros Hc Hf. apply (proxyRequest_forwards (H := uc)) in Hf as Hf'; [|done].
  destruct Hf' as (route' & p & chk & w' & (w1 & w2 & E1 & E2 & _) & _ & [= -> <-] & ->).
  cbn in E1, E2. destruct (ResolveRoute _ _) as [r repo] eqn:Er. injection E1 as -> _.
  injection E2 as E2 _. unfold ResolveRoute in Er.
  destruct (ListRoutes_snapshot (gw_repo w)) as [Hs _].
  destruct (ListRoutes (gw_repo w)) as [o repo']. cbn in Hs. subst o. injection Er as Er _.
  apply resolve_routes_longest in Er as (Hin & HM & Hmax).
  split; [done|]. split; [apply lookup_delete_eq|]. split; [done|]. split; [done|].
  split; [done|]. split; [done|]. intros Ha key.
  apply AuthorizeRoute_Ok in E2 as (Hb & v & [= <-] & Hv & Hp); [|done].
  apply client_ValidateAPIKey_Ok in Hv as (h & body & Hh & Hd & Hdec & _).
  split; [done|]. by exists h, body, p.
Qed.

(** The statuses written to the client, and an answer the gateway gives
    itself. *)
Definition statuses (ops : list write_op) : list Z :=
  omap (fun op => match op with WriteHeader s => Some s | _ => None end) ops.
Definition answers (code : Z) (c : context) : Prop :=
  cx_forwarded c = [] /\ statuses (cx_ops c) = [code].

Lemma c_String_answers code s c :
  cx_forwarded c = [] -> statuses (cx_ops c) = [] -> answers code (c_String code s c).
Proof.
  intros Hf Hs. split; [done|]. cbn. unfold statuses in *. rw omap_app Hs. done.
Qed.

Lemma auth_failure_answers err c :
  cx_forwarded c = [] -> statuses (cx_ops c) = [] ->
  answers (if is_either err ErrAPIKeyRequired ErrInvalidAPIKey then 401
           else if errors_Is err ErrAPIKeyProjectMismatch then 403
           else if is_either err ErrAuthServiceUnavailable ErrAPIKeyValidatorNotConfigured then 503
           else 500) (auth_failure err c).
Proof.
  intros Hf Hs. unfold auth_failure. repeat case_match; by apply c_String_answers.
Qed.

Lemma proxyRequest_unauthorised c (w : gw_world R RS P) route repo err :
  ResolveRoute (req_Path (cx_req c)) (gw_repo w) = (Ok route, repo) ->
  AuthorizeRoute (Some (client_ValidateAPIKey (Ok tt) Do)) route
    (Header_Get (req_Header (cx_req c)) apiKeyHeader) = Err err ->
  (@proxyRequest _ uc proxy c w).1 = auth_failure err (setAccessEventRoute route c).
Proof. intros E1 E2. unfold proxyRequest. cbn. by rw E1 E2. Qed.

(** The headers of the request to the auth service. *)
Definition validation_headers (key : string) : Header :=
  Header_Set (Header_Set ∅ "Accept" "application/json") "X-API-Key" key.

End gateway.

Section limiting.
Context `{RouteRepositoryLaws R} {RS P : Type}.
Context (validator : option (string -> res APIKeyPrincipal)).
Context (kp : string) (eval : string -> Z -> RS -> res reply * RS) (now : Z).
Context (publisher : option (GatewayAccessEvent -> P -> option error * P)).
Context (proxy : request -> Route -> list write_op).

Abbreviation uc_with limiter := (gateway_usecase validator limiter publisher).

Definition policy_ok (route : Route) : Prop :=
  rt_RateLimit route = zero_policy \/
  (rl_Enabled (rt_RateLimit route) = true /\ valid_policy (rt_RateLimit route)).

Lemma Allow_Err_foreign c rs win e :
  valid_call win c -> (Allow kp eval now (c_req c) rs).1 = Err e -> c_now c = now ->
  (forall k t e', (eval k t rs).1 = Err e' -> foreign e') ->
  is_either e ErrInvalidRateLimitPolicy ErrInvalidRateLimitClient = false.
Proof.
  intros Hv Ha <- He. rw (Allow_valid _ _ win) // in Ha. cbn zeta in Ha.
  destruct (eval _ _ rs) as [[v|e'] rs'] eqn:Ev; cbn in Ha.
  - destruct (parseScriptResult v) as [?|e''] eqn:Ep; [done|]. injection Ha as <-.
    revert Ep. unfold parseScriptResult. repeat case_match; intros; simplify_eq; try done;
      by match goal with Hi : integerValue ?x = Err _ |- _ => destruct x; simplify_eq/= end.
  - injection Ha as <-. apply foreign_limit.
    specialize (He _ _ e' (f_equal fst Ev)). unfold foreign in *.
    rw !Forall_cons in He. rw !Forall_cons !errors_Is_wrapf. naive_solver.
Qed.

(** An authorised request takes the limiter's decision. *)
Lemma authorised_decisions limiter c (w : gw_world R RS P) route repo principal chk rs' :
  ResolveRoute (req_Path (cx_req c)) (gw_repo w) = (Ok route, repo) ->
  AuthorizeRoute validator route (Header_Get (req_Header (cx_req c)) apiKeyHeader) = Ok principal ->
  CheckRateLimit limiter route (rateLimitClientID (cx_req c) route principal) (gw_limiter w)
    = (chk, rs') ->
  decisions (H := uc_with limiter) c w route principal chk (mkGW repo rs' (gw_publisher w)).
Proof.
  intros Hr Ha E. do 2 eexists. cbn. rw Hr Ha. split; [done|]. split; [done|].
  cbn. by rw E.
Qed.

Lemma refused_429 limiter c (w : gw_world R RS P) route repo principal r rs' :
  cx_forwarded c = [] -> statuses (cx_ops c) = [] ->
  ResolveRoute (req_Path (cx_req c)) (gw_repo w) = (Ok route, repo) ->
  AuthorizeRoute validator route (Header_Get (req_Header (cx_req c)) apiKeyHeader) = Ok principal ->
  CheckRateLimit limiter route (rateLimitClientID (cx_req c) route principal) (gw_limiter w)
    = (Ok r, rs') ->
  rs_Enabled r = true -> rs_Allowed r = false ->
  answers 429 (@proxyRequest _ (uc_with limiter) proxy c w).1.
Proof.
  intros Hf Hs Hr Ha E El1 El2. unfold proxyRequest. cbn. rw Hr Ha. cbn. rw E. cbn.
  rw El1 El2. cbn. unfold answers, statuses in *.
  split; [by case_bool_decide|]. unfold rateLimitHeaders.
  case_bool_decide; cbn; rw !omap_app Hs El2; done.
Qed.

(** C4: Rate limiting fails open and refuses for one reason only. For an
    authorised request to a route whose policy is off or valid, the request is
    forwarded unless the limiter's own answer was that the limit is exceeded,
    in which case 429 is the only status written; a missing limiter, a Redis
    error and an undecodable reply all let the request through. *)
Theorem gateway_refuses_only_over_limit (c : context) (w : gw_world R RS P) (route : Route)
    (repo : R) (principal : APIKeyPrincipal) :
  cx_forwarded c = [] -> statuses (cx_ops c) = [] -> clock_range now ->
  ResolveRoute (req_Path (cx_req c)) (gw_repo w) = (Ok route, repo) ->
  AuthorizeRoute validator route (Header_Get (req_Header (cx_req c)) apiKeyHeader) = Ok principal ->
  policy_ok route ->
  (forall k t e, (eval k t (gw_limiter w)).1 = Err e -> foreign e) ->
  cx_forwarded (@proxyRequest _ (uc_with None) proxy c w).1 =
    [(req_del_header apiKeyHeader (cx_req c), route)] /\
  let c' := (@proxyRequest _ (uc_with (Some (Allow kp eval now))) proxy c w).1 in
  cx_forwarded c' = [(req_del_header apiKeyHeader (cx_req c), route)] \/
  (exists r, (Allow kp eval now (mkRLReq (route_key route)
       (TrimSpace (rateLimitClientID (cx_req c) route principal)) (rt_RateLimit route))
       (gw_limiter w)).1 = Ok r /\ rs_Allowed r = false /\ answers 429 c').
Proof.
  intros Hf Hs Hnow Hr Ha Hpol Hev.
  pose proof (rateLimitClientID_not_blank (cx_req c) route principal) as Hb.
  pose proof (fun l chk rs' E => proj2 (proxyRequest_decided (H := uc_with l) proxy c w _ _ chk _ Hf
    (authorised_decisions l c w route repo principal chk rs' Hr Ha E))) as Hdec.
  destruct Hpol as [Hz|[He Hv]].
  { assert (Hoff : forall l, CheckRateLimit l route (rateLimitClientID (cx_req c) route principal)
      (gw_limiter w) = (Ok (mkRLRes false true 0 0 time_zero 0), gw_limiter w))
      by (intros l; unfold CheckRateLimit; by rw Hz).
    split; [|left]; exact (Hdec _ _ _ (Hoff _)). }
  split; [exact (Hdec _ _ _ (CheckRateLimit_on None _ _ _ He Hv Hb))|].
  pose proof (CheckRateLimit_on (Some (Allow kp eval now)) _ _ (gw_limiter w) He Hv Hb) as Hon.
  pose proof (check_call_valid now _ _ Hnow Hv Hb) as Hcall.
  cbv beta iota in Hon. destruct (Allow kp eval now _ (gw_limiter w)) as [chk rs'] eqn:Eal.
  specialize (Hdec _ _ _ Hon). destruct (lets_through chk) eqn:El; [by left|]. right.
  destruct chk as [r|e]; cycle 1.
  { exfalso. apply negb_false_iff in El.
    rw (Allow_Err_foreign _ (gw_limiter w) _ e Hcall) // in El. by rw Eal. }
  apply orb_false_elim in El as [El1%negb_false_iff El2].
  exists r. split; [done|]. split; [done|]. by eapply refused_429.
Qed.
End limiting.

(** ** Lemmas on the recorder and the access event *)

Fixpoint written (accepted : string -> Z) (ops : list write_op) : Z :=
  match ops with
  | [] => 0
  | Write d :: ops' => accepted d + written accepted ops'
  | _ :: ops' => written accepted ops'
  end.

(** A status a server may send. *)
Definition good_op (op : write_op) : Prop :=
  match op with WriteHeader s => 100 <= s <= 599 | _ => True end.

Lemma written_app accepted ops ops' :
  written accepted (ops ++ ops') = written accepted ops + written accepted ops'.
Proof. induction ops as [|[] ops IH]; cbn; rw ?IH; lia. Qed.

Lemma written_nonneg accepted ops : (forall d, 0 <= accepted d) -> 0 <= written accepted ops.
Proof. intros Ha. induction ops as [|[| | | |s|d|] ops IH]; cbn; try lia. specialize (Ha d). lia. Qed.

(** The recorder ends with the last status written, 200 without any, and the sum
    of the accepted sizes. *)
Lemma record_ops_spec accepted ops :
  (forall d, 0 <= accepted d) -> written accepted ops <= max_int64 -> Forall good_op ops ->
  record_ops accepted ops = mkRecorder (default 200 (list.last (statuses ops))) (written accepted ops) /\
  100 <= rec_status (record_ops accepted ops) <= 599.
Proof.
  intros Ha. unfold record_ops. induction ops as [|op ops IH] using rev_ind.
  { intros _ _. cbn. by split. }
  rw written_app Forall_app. intros Hw [Hg [Hop _]%Forall_cons].
  pose proof (written_nonneg accepted [op] Ha). pose proof (written_nonneg accepted ops Ha).
  destruct IH as [IH Hst]; [lia|done|]. rw fold_left_app. cbn [fold_left].
  rw IH in Hst |- *. unfold statuses in *. rw omap_app. cbn [rec_status] in Hst.
  set (n := written accepted ops) in *. destruct op as [| | | |s|d|]; cbn in *; try by rw app_nil_r Z.add_0_r.
  - rw last_snoc Z.add_0_r. by split.
  - rw app_nil_r Z.add_0_r. rw wrap64_id.
    { unfold int64_range. unfold_time. specialize (Ha d). lia. }
    rw (proj2 (Z.eqb_neq _ 0)); [lia|]. by split.
Qed.

Definition project_ok (id : string) : Prop :=
  blank id = true \/ isCanonicalUUID (TrimSpace id) = true.

(** Metadata fit for an event. *)
Definition meta_ok (m : accessEventMetadata) : Prop :=
  project_ok (md_projectID m) /\ (md_apiKeyID m = "" \/ blank (md_apiKeyID m) = false).

(** What a handler leaves alone, and what it may add. *)
Record framed {R RS P} (c : context) (w : gw_world R RS P) (c' : context) (w' : gw_world R RS P) : Prop := {
  fr_ops : exists new, cx_ops c' = cx_ops c ++ new /\ Forall good_op new;
  fr_method : req_Method (cx_req c') = req_Method (cx_req c);
  fr_path : req_Path (cx_req c') = req_Path (cx_req c);
  fr_id : Header_Get (req_Header (cx_req c')) requestIDHeader =
          Header_Get (req_Header (cx_req c)) requestIDHeader;
  fr_publisher : gw_publisher w' = gw_publisher w;
  fr_meta : meta_ok (getAccessEventMetadata c');
}.

Lemma framed_write {R RS P} c (w : gw_world R RS P) c' w' ops :
  framed c w c' w' -> Forall good_op ops -> framed c w (cx_write ops c') w'.
Proof.
  intros [(new & E & Hn) ? ? ? ? ?] Ho. split; try done.
  exists (new ++ ops). cbn. rw E app_assoc. split; [done|]. by apply Forall_app.
Qed.

Lemma framed_logf {R RS P} c (w : gw_world R RS P) c' w' s :
  framed c w c' w' -> framed c w (cx_logf s c') w'.
Proof. by intros []. Qed.

Lemma framed_meta {R RS P} c (w : gw_world R RS P) c' w' m :
  framed c w c' w' -> meta_ok m -> framed c w (cx_set_meta m c') w'.
Proof. by intros []. Qed.

Lemma framed_String {R RS P} c (w : gw_world R RS P) c' w' code s :
  framed c w c' w' -> 100 <= code <= 599 -> framed c w (c_String code s c') w'.
Proof. intros H Hc. apply framed_write; [done|]. rw !Forall_cons. by repeat split; try lia. Qed.

Lemma framed_forward {R RS P} c (w : gw_world R RS P) c' w' proxy route :
  framed c w c' w' -> (forall r rt, Forall good_op (proxy r rt)) ->
  framed c w (forward proxy route c') w'.
Proof.
  intros [(new & E & Hn) ? ? Hid ? ?] Hp. split; try done.
  - exists (new ++ proxy (req_del_header apiKeyHeader (cx_req c')) route). cbn.
    rw E app_assoc. split; [done|]. by apply Forall_app.
  - rw -Hid. unfold Header_Get, forward, req_del_header, Header_Del. cbn [cx_req req_Header].
    by rw lookup_delete_ne.
Qed.

Lemma rateLimitHeaders_good r : Forall good_op (rateLimitHeaders r).
Proof. unfold rateLimitHeaders. destruct (rs_Allowed r); by repeat constructor. Qed.

Create HintDb framed.
#[export] Hint Resolve framed_logf framed_String framed_forward : framed.
#[export] Hint Extern 1 (_ <= _ <= _) => lia : framed.

Section events.
Context `{RouteRepositoryLaws R} {RS P : Type}.
Context `{JSONDecoder validateAPIKeyResponse} `{UnicodeTables}.
Context (Do : Header -> res Response).
Context (limiter : option (RateLimitRequest -> RS -> res RateLimitResult * RS)).
Context (marshal : GatewayAccessEvent -> res string) (inject : list (string * string)) (topic : string).
Context (proxy : request -> Route -> list write_op).
Context (Hproxy : forall r rt, Forall good_op (proxy r rt)).

#[local] Instance uc_events : GatewayUsecase (gw_world R RS (list kafka_record)) :=
  gateway_usecase (Some (client_ValidateAPIKey (Ok tt) Do)) limiter
    (Some (PublishGatewayAccess marshal inject topic)).

(** The handler keeps to the frame when the routes have proper projects. *)
Lemma proxyRequest_framed c w :
  Forall (fun r => project_ok (rt_ProjectID r)) (snapshot (gw_repo w)) -> cx_meta c = None ->
  framed c w (proxyRequest proxy c w).1 (proxyRequest proxy c w).2.
Proof using Hproxy.
  intros Hs Hm.
  assert (Hfresh : forall repo rs, framed c w c (mkGW repo rs (gw_publisher w))).
  { intros repo rs. split; try done.
    - exists []. by rw app_nil_r.
    - unfold getAccessEventMetadata. rw Hm. split; by left. }
  unfold proxyRequest. cbn.
  destruct (ResolveRoute (req_Path (cx_req c)) (gw_repo w)) as [[route|e] repo] eqn:Er; cycle 1.
  { destruct (errors_Is _ _); cbn; auto with framed. }
  assert (Hp : project_ok (rt_ProjectID route)).
  { unfold ResolveRoute in Er. destruct (ListRoutes_snapshot (gw_repo w)) as [Hl _].
    destruct (ListRoutes _) as [o ?]. cbn in Hl. subst o. injection Er as Er _.
    apply resolve_routes_longest in Er as [Hin _]. rw list.Forall_forall in Hs. by apply Hs. }
  assert (Hroute : forall rs, framed c w (setAccessEventRoute route c) (mkGW repo rs (gw_publisher w))).
  { intros rs. apply framed_meta; [apply Hfresh|]. split; [done|].
    unfold getAccessEventMetadata. rw Hm. by left. }
  destruct (AuthorizeRoute _ route _) as [p|e] eqn:Ea; cycle 1.
  { cbn. unfold auth_failure. repeat case_match; cbn; auto with framed. }
  cbn. set (c1 := if bool_decide _ then _ else _).
  assert (Hc1 : forall rs, framed c w c1 (mkGW repo rs (gw_publisher w))).
  { intros rs. unfold c1. case_bool_decide as Hid; [|done]. apply framed_meta; [done|].
    split; [done|]. cbn. right. unfold AuthorizeRoute in Ea.
    destruct (negb (rt_AuthRequired route)); [by injection Ea as <-|].
    destruct (blank _); [done|]. destruct (client_ValidateAPIKey _ _ _) eqn:Ev.
    - case_bool_decide; [done|]. injection Ea as <-.
      by apply client_ValidateAPIKey_Ok in Ev as (? & ? & _ & _ & _ & ? & _).
    - by destruct (errors_Is _ _). }
  destruct (CheckRateLimit _ _ _ _) as [[r|e] rs']; cbn.
  - assert (Hh : framed c w (setRateLimitHeaders r c1) (mkGW repo rs' (gw_publisher w)))
      by (apply framed_write; [done|apply rateLimitHeaders_good]).
    destruct (rs_Enabled r); [destruct (negb _)|]; cbn; auto with framed.
    apply framed_String; [|lia]. apply framed_meta; [done|]. by apply (fr_meta _ _ _ _ Hh).
  - destruct (is_either e _ _); cbn; auto with framed.
Qed.

(** Readings a working host gives: a time after year 1, a clock that does not
    run backwards during the request, entropy. *)
Definition readings_ok (rd : readings) : Prop :=
  rd_completed rd <> time_zero /\ rd_start rd <= rd_since rd /\
  (exists b, rd_rand_request rd = Ok b /\ b <> "") /\ (exists b, rd_rand_event rd = Ok b /\ b <> "").

Lemma accessEventClient_ok ip id :
  id = "" \/ blank id = false ->
  let '(ty, cid) := accessEventClient ip id in
  (ty = ClientTypeAPIKey \/ ty = ClientTypeIP) /\ blank cid = false.
Proof.
  unfold accessEventClient. case_bool_decide as Hid.
  - intros [?|?]; [done|]. by split; [left|].
  - intros _. split; [by right|]. apply hex_blank. intros E.
    pose proof (Sha256.Sum256_length ip) as Hl. by rw E in Hl.
Qed.

Lemma access_event_valid rd req requestID m recorder :
  readings_ok rd -> meta_ok m -> blank requestID = false ->
  blank (req_Method req) = false -> blank (req_Path req) = false ->
  100 <= rec_status recorder <= 599 -> 0 <= rec_bytes recorder ->
  event_valid (access_event rd req requestID m recorder).
Proof.
  intros (Hc & Hs & _ & (b & Hb & Hne)) [Hp Hk] Hid Hm Hpath Hst Hby.
  unfold access_event. pose proof (accessEventClient_ok (directClientIP req) _ Hk) as Hcl.
  destruct (accessEventClient _ _) as [ty cid]. destruct Hcl as [Hty Hcid].
  split; cbn [ev_SchemaVersion ev_EventID ev_OccurredAt ev_RequestID ev_ProjectID ev_Method
    ev_RequestPath ev_StatusCode ev_DurationMS ev_ResponseBytes ev_ClientType ev_ClientID]; try done.
  - unfold newAccessEventID. rw Hb. by apply hex_blank.
  - unfold Milliseconds, Sub. apply Z.quot_pos; unfold_time; lia.
Qed.

Lemma Logging_framed accepted rd durationText (next : handler (gw_world R RS (list kafka_record))) c w :
  framed c w (next c w).1 (next c w).2 ->
  framed c w (Logging accepted rd durationText next c w).1 (Logging accepted rd durationText next c w).2 /\
  cx_ops (Logging accepted rd durationText next c w).1 = cx_ops (next c w).1.
Proof.
  unfold Logging. destruct (isObservabilityEndpoint _); [done|].
  destruct (next c w) as [c' w']. cbn. intros Hf. split; [|done]. by apply framed_logf.
Qed.

Lemma AccessEvents_ops accepted rd (next : handler (gw_world R RS (list kafka_record))) c w :
  cx_ops (AccessEvents accepted rd next c w).1 = cx_ops (next c w).1.
Proof.
  unfold AccessEvents. destruct (isObservabilityEndpoint _); [done|].
  destruct (next c w) as [c' w']. by repeat case_match; simplify_eq.
Qed.

(** The event of a context whose handler wrote [ops]. *)
Definition completed_event (accepted : string -> Z) (rd : readings) (c' : context) (ops : list write_op) : GatewayAccessEvent :=
  access_event rd (cx_req c') (Header_Get (req_Header (cx_req c')) requestIDHeader) (getAccessEventMetadata c')
    (record_ops accepted ops).

(** The middleware around any handler that keeps to the frame. *)
Lemma AccessEvents_publishes accepted rd (next : handler (gw_world R RS (list kafka_record))) c w :
  framed c w (next c w).1 (next c w).2 ->
  isObservabilityEndpoint (req_Path (cx_req c)) = false -> readings_ok rd ->
  (forall d, 0 <= accepted d) -> written accepted (ops_since c (next c w).1) <= max_int64 ->
  blank (Header_Get (req_Header (cx_req c)) requestIDHeader) = false ->
  blank (req_Method (cx_req c)) = false -> blank (req_Path (cx_req c)) = false ->
  (forall e, ev_OccurredAt e = rd_completed rd -> is_ok (marshal e) = true) ->
  exists event record, event = completed_event accepted rd (AccessEvents accepted rd next c w).1 (ops_since c (next c w).1) /\
    event_valid event /\ accessEventRecord marshal inject topic event = Ok record /\
    gw_publisher (AccessEvents accepted rd next c w).2 = gw_publisher w ++ [record] /\
    ev_StatusCode event = default 200 (list.last (statuses (ops_since c (next c w).1))) /\
    ev_ResponseBytes event = written accepted (ops_since c (next c w).1) /\
    ev_RequestPath event = req_Path (cx_req c).
Proof.
  intros Hf Ho Hrd Ha Hw Hid Hm Hp Hmar. unfold AccessEvents. rw Ho.
  destruct (next c w) as [c' w']. cbn [fst snd] in *.
  destruct Hf as [(new & Eops & Hnew) Fm Fp Fid Fpub Fmeta].
  assert (Enew : ops_since c c' = new) by (unfold ops_since; by rw Eops drop_app_length).
  rw Enew in Hw |- *. destruct (record_ops_spec accepted new Ha Hw Hnew) as [Erec Hst].
  rw bool_decide_eq_false_2.
  { rw Fid. intros E. by rw E in Hid. }
  set (event := access_event _ _ _ _ _).
  assert (Hev : event_valid event).
  { apply access_event_valid; rw ?Fid ?Fm ?Fp; try done.
    rw Erec. by apply written_nonneg. }
  assert (Hfields : ev_StatusCode event = default 200 (list.last (statuses new)) /\
    ev_ResponseBytes event = written accepted new /\ ev_RequestPath event = req_Path (cx_req c)).
  { unfold event, access_event. destruct (accessEventClient _ _). cbn. by rw Erec Fp. }
  cbn. unfold PublishGatewayAccess. rw (proj2 (event_Validate_spec event) Hev).
  destruct (accessEventRecord marshal inject topic event) as [record|e] eqn:Er; cycle 1.
  { revert Er. unfold accessEventRecord. specialize (Hmar event). destruct (marshal event) as [|e']; [done|]. intros _.
    assert (ev_OccurredAt event = rd_completed rd) as Hat by (unfold event, access_event; by destruct (accessEventClient _ _)).
    by apply Hmar in Hat. }
  cbn. exists event, record. split; [done|]. rw Fpub. naive_solver.
Qed.

(** Every request the gateway serves is accounted for exactly once: after
    the middleware chain one more record is with Kafka, of an event that passes
    the consumer's validation and carries the status and the number of bytes the
    client was sent, whatever the outcome of the request (not found, refused,
    limited or proxied). *)
Theorem serve_publishes_one_event (accepted : string -> Z) (durationText : Z -> string)
    (rd : readings) (c : context) (w : gw_world R RS (list kafka_record)) :
  let c' := (serve accepted durationText rd proxy c w).1 in
  let w' := (serve accepted durationText rd proxy c w).2 in
  (forall d, 0 <= accepted d) -> written accepted (cx_ops c') <= max_int64 ->
  Forall (fun r => project_ok (rt_ProjectID r)) (snapshot (gw_repo w)) ->
  cx_meta c = None -> cx_ops c = [] -> readings_ok rd ->
  isObservabilityEndpoint (req_Path (cx_req c)) = false ->
  blank (req_Method (cx_req c)) = false -> blank (req_Path (cx_req c)) = false ->
  (let id := Header_Get (req_Header (cx_req c)) requestIDHeader in id = "" \/ blank id = false) ->
  (forall e, ev_OccurredAt e = rd_completed rd -> is_ok (marshal e) = true) ->
  exists event record, event = completed_event accepted rd c' (cx_ops c') /\
    event_valid event /\ accessEventRecord marshal inject topic event = Ok record /\
    gw_publisher w' = gw_publisher w ++ [record] /\
    ev_StatusCode event = default 200 (list.last (statuses (cx_ops c'))) /\
    ev_ResponseBytes event = written accepted (cx_ops c') /\
    ev_RequestPath event = req_Path (cx_req c).
Proof using Hproxy.
  intros c0 w0. subst c0 w0. unfold serve, RequestID. set (id := if bool_decide _ then _ else _).
  set (c1 := cx_write _ _). set (inner := Logging _ _ _ _).
  destruct (AccessEvents accepted rd inner c1 w) as [c' w'] eqn:Eae. cbn [fst snd].
  intros Ha Hw Hs Hmeta Hops Hrd Hobs Hm Hp Hid Hmar.
  destruct (Logging_framed accepted rd durationText (proxyRequest proxy) c1 w) as [Hf _];
    [by apply proxyRequest_framed|]. fold inner in Hf.
  assert (Hblank : blank id = false).
  { unfold id. case_bool_decide as E; [|by destruct Hid].
    destruct Hrd as (_ & _ & (b & Hb & Hne) & _). rw Hb. by apply hex_blank. }
  assert (Hid1 : Header_Get (req_Header (cx_req c1)) requestIDHeader = id) by apply Header_Get_Set.
  assert (Hc1 : cx_ops c1 = [SetHeader requestIDHeader id]) by (cbn; by rw Hops).
  destruct (fr_ops _ _ _ _ Hf) as (new & Enew & _).
  assert (Esince : ops_since c1 (inner c1 w).1 = new) by (unfold ops_since; by rw Enew drop_app_length).
  pose proof (AccessEvents_publishes accepted rd inner c1 w Hf Hobs Hrd Ha) as Hae.
  rw Hid1 Esince Eae in Hae. cbn [fst snd] in Hae.
  assert (Hops' : cx_ops c' = SetHeader requestIDHeader id :: new).
  { pose proof (AccessEvents_ops accepted rd inner c1 w) as E. by rw Eae Enew Hc1 in E. }
  rw Hops' in Hw |- *. by apply Hae.
Qed.
End events.

(** ** Witnesses *)

Definition sample_project : string := "3f2504e0-4f89-11d3-9a0c-0305e82c3301".
Definition orders_route : Route :=
  mkRoute sample_project "orders" "/orders" "http://orders" true (3 * Second) true sample_policy.
Definition public_route : Route :=
  mkRoute sample_project "web" "/" "http://web" false (3 * Second) false zero_policy.
Definition sample_gw : gw_world mem_world (gmap string key_state) (list kafka_record) :=
  mkGW (ReplaceRoutes [public_route; orders_route] (mkMem ∅ 0 None)) ∅ [].

Definition principal_decoder (project : string) : JSONDecoder validateAPIKeyResponse :=
  const_decoder (mkValidateResponse "key-1" project).
Definition auth_replies (code : Z) (h : Header) : res Response :=
  Ok (mkResponse code (mkStream "{}" None)).
Definition sample_limiter
    : option (RateLimitRequest -> gmap string key_state -> res RateLimitResult * gmap string key_state) :=
  Some (Allow "k" (redisEvaluator_Eval 1000) (of_UnixMilli 1000)).
Definition ok_proxy (r : request) (route : Route) : list write_op := [WriteHeader 200; Write "ok"].
Definition sample_request (path : string) : request :=
  mkRequest "GET" path {["X-Api-Key" := ["egk_1"]]} "10.0.0.7:4242".
Definition sample_context (path : string) : context := mkContext (sample_request path) [] None [] [].
Definition sample_publisher : option (GatewayAccessEvent -> list kafka_record -> option error * list kafka_record) :=
  Some (@PublishGatewayAccess ascii_tables (fun _ => Ok "{}") [] "access").

(** C2 at a request with a valid key: it is forwarded, without the key. *)
Lemma gateway_forwards_authorised_witness :
  let uc := @gateway_usecase _ _ _ _
    (Some (@client_ValidateAPIKey (principal_decoder sample_project) (Ok tt) (auth_replies 200)))
    sample_limiter sample_publisher in
  let req := req_del_header apiKeyHeader (sample_request "/orders/7") in
  cx_forwarded (@proxyRequest _ uc ok_proxy (sample_context "/orders/7") sample_gw).1
    = [(req, orders_route)] /\
  req_Header req !! "X-Api-Key" = None /\ Matches orders_route "/orders/7" = true.
Proof.
  intros uc req.
  destruct (@gateway_forwards_authorised _ _ _ _ _ (principal_decoder sample_project) (auth_replies 200)
    sample_limiter sample_publisher ok_proxy (sample_context "/orders/7") sample_gw req orders_route)
    as (H1 & H2 & _ & _ & H3 & _).
  - reflexivity.
  - apply list_elem_of_singleton. by vm_compute.
  - split; [exact H1|]. split; [exact H2|exact H3].
Defined.


Definition outage (k : string) (t : Z) (s : gmap string key_state) : res reply * gmap string key_state :=
  (Err (Opaque "dial tcp: connection refused"), s).

(** C4 at a Redis that is down: the limited route is served. *)
Lemma gateway_refuses_only_over_limit_witness :
  let validator := Some (fun key => Ok (mkPrincipal "key-1" sample_project)) in
  let uc := @gateway_usecase _ _ _ _ validator (Some (Allow "k" outage (of_UnixMilli 1000))) sample_publisher in
  cx_forwarded (@proxyRequest _ uc ok_proxy (sample_context "/orders/7") sample_gw).1
    = [(req_del_header apiKeyHeader (sample_request "/orders/7"), orders_route)].
Proof.
  intros validator uc.
  destruct (@gateway_refuses_only_over_limit _ _ _ _ validator "k" outage (of_UnixMilli 1000)
    sample_publisher ok_proxy (sample_context "/orders/7") sample_gw orders_route
    (ResolveRoute "/orders/7" (gw_repo sample_gw)).2 (mkPrincipal "key-1" sample_project))
    as [_ [H|(r & H & _)]].
  - reflexivity.
  - reflexivity.
  - unfold clock_range, of_UnixMilli. unfold_time. lia.
  - by vm_compute.
  - by vm_compute.
  - right. split; [done|]. unfold valid_policy. cbn. unfold_time. lia.
  - intros k t e [= <-]. by repeat constructor.
  - exact H.
  - vm_compute in H. discriminate H.
Defined.

Definition sample_readings : readings :=
  mkReadings (of_UnixMilli 1000) (of_UnixMilli 1005) (of_UnixMilli 1005) 0 (Ok "r") (Ok "e").

(** At a proxied request. *)
Lemma serve_publishes_one_event_witness :
  exists event,
    event_valid event /\ ev_StatusCode event = 200 /\ ev_ResponseBytes event = 2 /\
    ev_RequestPath event = "/orders/7".
Proof.
  destruct (@serve_publishes_one_event _ _ _ _ (principal_decoder sample_project) ascii_tables
    (auth_replies 200) sample_limiter (fun _ => Ok "{}") [] "access" ok_proxy
    ltac:(intros r rt; unfold ok_proxy; rw !Forall_cons; by repeat split; try lia)
    len (fun _ => "5ms") sample_readings (sample_context "/orders/7") sample_gw)
    as (event & record & _ & Hv & _ & _ & Hs & Hb & Hp).
  - apply len_nonneg.
  - by vm_compute.
  - change (snapshot (gw_repo sample_gw)) with [public_route; orders_route].
    rw !Forall_cons. split; [|split]; [right; by vm_compute..|apply Forall_nil_2].
  - reflexivity.
  - reflexivity.
  - unfold readings_ok, sample_readings. cbn [rd_completed rd_start rd_since rd_rand_request rd_rand_event].
    unfold of_UnixMilli. unfold_time. split; [lia|]. split; [lia|]. split; by eexists.
  - reflexivity.
  - reflexivity.
  - reflexivity.
  - by left.
  - done.
  - exists event. split; [exact Hv|]. split; [|split].
    + rw Hs. vm_compute. reflexivity.
    + rw Hb. vm_compute. reflexivity.
    + rw Hp. reflexivity.
Defined.

(** A request id of Unicode white space passes the middleware, which only tests
    for the empty string, but not the validation of the event: the request leaves
    no record. *)
Definition nbsp : string := String "194"%char (String "160"%char EmptyString).
Theorem blank_request_id_leaves_no_event :
  let uc := @gateway_usecase _ _ _ _
    (Some (@client_ValidateAPIKey (principal_decoder sample_project) (Ok tt) (auth_replies 200)))
    sample_limiter sample_publisher in
  let req := req_set_header requestIDHeader nbsp (sample_request "/") in
  let '(c, w) := @serve _ uc len (fun _ => "") sample_readings ok_proxy
                   (mkContext req [] None [] []) sample_gw in
  length (cx_forwarded c) = 1%nat /\ gw_publisher w = [].
Proof. by vm_compute. Qed.
