(* ===== verification/Wire.v ===== *)
(** The JSON of the services: the names of the struct tags, and what each service makes of
    the texts of the others.

    A reader is given by the names of its struct and the values of its fields, a writer by
    its members in order.  The theorems of this file are the agreements between services
    that share no struct: what the control plane writes for a route is read by the
    gateway as the same route, what the auth service writes for a principal is read as that
    principal, and messages survive their way through Kafka and RabbitMQ. *)
From Stdlib Require Import Ascii ZArith Lia.
From Corelib Require Import ssreflect.
From stdpp Require Import base gmap strings list numbers relations pretty.
From S2P Require Import Prelude GoStrings GoTime GoEncoding GoNet GoDate GoJSON JSONFacts Events GatewayRoutes RouteSources Postgres ControlPlane AuthSecurity Auth Gateway Jobs.

#[local] Open Scope Z_scope.

Module Wire.
Import JSON JSONFacts.

(** [c.JSON] of echo encodes with a json.Encoder, which ends the value with a newline. *)
Definition newline : string := String "010" EmptyString.
Definition json_body (text : string) : string := text +:+ newline.

(** The stream a client with a size limit decodes. *)
Lemma decode_body {A} (zero : A) dec text n a :
  compact text -> (N.of_nat (String.length (json_body text)) < n)%N -> dec text zero = Ok a ->
  Decode zero dec (LimitReader (mkStream (json_body text) None) n) = Ok (a, mkStream newline None) /\
  More (mkStream newline None) = AtEOF.
Proof.
  intros Hc Hn Hd. split; [|reflexivity]. unfold LimitReader. cbn [st_bytes st_err].
  rw stake_whole; [lia|]. cbn [andb]. assert ((N.of_nat (String.length (json_body text)) <? n)%N = true) as -> by lia.
  unfold json_body. rw Decode_compact // Hd //.
Qed.

(** Members of a struct are checked by evaluation: their names are constants. *)
Ltac struct_members := split; [repeat (apply Forall_cons; split; [split; [reflexivity|cbn [snd]; auto]|]); try apply Forall_nil_2
  |repeat (apply Forall_cons; split; [apply (bool_decide_unpack _); vm_compute; exact I|]); apply Forall_nil_2
  |apply (bool_decide_unpack _); vm_compute; exact I].
Ltac struct_get H := rw !(get_assoc _ _ _ _ _ H); lazy [assoc String.eqb Ascii.eqb Bool.eqb].

#[export] Hint Resolve quote_compact bool_compact int_compact null_compact : core.

(** ** Routes, from the control plane to the gateway *)

Definition gatewayRoute_text (r : CP.gatewayRouteResponse) : string :=
  object_text
    [("project_id", quote (CP.gr_ProjectID r)); ("name", quote (CP.gr_Name r)); ("path_prefix", quote (CP.gr_PathPrefix r));
     ("upstream_url", quote (CP.gr_UpstreamURL r)); ("strip_prefix", bool_text (CP.gr_StripPrefix r));
     ("timeout_ms", Itoa (CP.gr_TimeoutMS r)); ("auth_required", bool_text (CP.gr_AuthRequired r));
     ("rate_limit_enabled", bool_text (CP.gr_RateLimitEnabled r)); ("rate_limit_requests", Itoa (CP.gr_RateLimitRequests r));
     ("rate_limit_window_seconds", Itoa (CP.gr_RateLimitWindowSeconds r))].
Definition gatewayRoutes_text (l : list CP.gatewayRouteResponse) : string := array_text (gatewayRoute_text <$> l).

Definition routeResponse_names : list string :=
  ["project_id"; "name"; "path_prefix"; "upstream_url"; "strip_prefix"; "timeout_ms"; "auth_required";
   "rate_limit_enabled"; "rate_limit_requests"; "rate_limit_window_seconds"].
Definition read_routeResponse : decoder routeResponse :=
  read_struct true routeResponse_names (fun l =>
    let get {A} := @get A routeResponse_names in
    projectID ← get "project_id" dec_string l "";
    name ← get "name" dec_string l "";
    pathPrefix ← get "path_prefix" dec_string l "";
    upstreamURL ← get "upstream_url" dec_string l "";
    stripPrefix ← get "strip_prefix" dec_bool l false;
    timeoutMS ← get "timeout_ms" dec_int64 l 0;
    authRequired ← get "auth_required" dec_bool l false;
    rateLimitEnabled ← get "rate_limit_enabled" dec_bool l false;
    rateLimitRequests ← get "rate_limit_requests" dec_int64 l 0;
    rateLimitWindowSeconds ← get "rate_limit_window_seconds" dec_int64 l 0;
    Ok (mkRouteResponse projectID name pathPrefix upstreamURL stripPrefix timeoutMS authRequired rateLimitEnabled
          rateLimitRequests rateLimitWindowSeconds)).
Definition zero_routeResponse : routeResponse := mkRouteResponse "" "" "" "" false 0 false false 0 0.

#[export] Instance routes_decoder : JSONDecoder (list routeResponse) := {|
  json_Decode := Decode [] (dec_slice zero_routeResponse read_routeResponse);
  json_more := More
|}.

(** What JSON carries without loss: well-formed UTF-8 and 64-bit integers. *)
Definition json_route (r : CP.gatewayRouteResponse) : bool :=
  forallb utf8_valid [CP.gr_ProjectID r; CP.gr_Name r; CP.gr_PathPrefix r; CP.gr_UpstreamURL r] &&
  forallb (fun z => bool_decide (int64_range z))
    [CP.gr_TimeoutMS r; CP.gr_RateLimitRequests r; CP.gr_RateLimitWindowSeconds r].

Lemma route_read r :
  json_route r = true -> compact (gatewayRoute_text r) /\ read_routeResponse (gatewayRoute_text r) zero_routeResponse = Ok (CP.received r).
Proof.
  unfold json_route. cbn [forallb]. rw !andb_true_iff !bool_decide_eq_true. intros ((H1 & H2 & H3 & H4 & _) & (Z1 & Z2 & Z3 & _)).
  unfold gatewayRoute_text. match goal with |- context [object_text ?l] => assert (Hm : members_of routeResponse_names l) end.
  { struct_members. }
  split; [apply object_text_compact, Hm|]. unfold read_routeResponse. rw read_struct_text //. cbv zeta beta. struct_get Hm.
  rw !dec_string_quote // !dec_bool_text !dec_int64_text //.
Qed.
Lemma routes_read l :
  forallb json_route l = true -> (N.of_nat (String.length (json_body (gatewayRoutes_text l))) < maxResponseSize)%N ->
  exists rest, json_Decode (LimitReader (mkStream (json_body (gatewayRoutes_text l)) None) maxResponseSize) =
    Ok (CP.received <$> l, rest) /\ json_more rest = AtEOF.
Proof.
  intros Hl Hn. destruct (dec_slice_text zero_routeResponse read_routeResponse gatewayRoute_text CP.received l []) as [Hc Hd].
  { apply list.Forall_forall. intros r Hr. apply route_read. rw forallb_forall in Hl. apply Hl. by apply list_elem_of_In. }
  eexists. by apply decode_body.
Qed.

(** ** Principals, from the auth service to the gateway *)

Definition principal_text (p : Auth.apiKeyPrincipalResponse) : string :=
  object_text [("api_key_id", quote (Auth.pr_APIKeyID p)); ("project_id", quote (Auth.pr_ProjectID p))].
Definition error_text (message : string) : string := object_text [("error", quote message)].

Definition validateAPIKeyResponse_names : list string := ["api_key_id"; "project_id"].
Definition read_validateAPIKeyResponse : decoder validateAPIKeyResponse :=
  read_struct true validateAPIKeyResponse_names (fun l =>
    let get {A} := @get A validateAPIKeyResponse_names in
    apiKeyID ← get "api_key_id" dec_string l "";
    projectID ← get "project_id" dec_string l "";
    Ok (mkValidateResponse apiKeyID projectID)).

#[export] Instance principal_decoder : JSONDecoder validateAPIKeyResponse := {|
  json_Decode := Decode (mkValidateResponse "" "") read_validateAPIKeyResponse;
  json_more := More
|}.

Lemma principal_read_text p :
  utf8_valid (Auth.pr_APIKeyID p) = true -> utf8_valid (Auth.pr_ProjectID p) = true ->
  compact (principal_text p) /\
  read_validateAPIKeyResponse (principal_text p) (mkValidateResponse "" "") =
    Ok (mkValidateResponse (Auth.pr_APIKeyID p) (Auth.pr_ProjectID p)).
Proof.
  intros H1 H2. unfold principal_text.
  match goal with |- context [object_text ?l] => assert (Hm : members_of validateAPIKeyResponse_names l) end; [struct_members|].
  split; [apply object_text_compact, Hm|]. unfold read_validateAPIKeyResponse. rw read_struct_text //. cbv zeta beta. struct_get Hm.
  rw !dec_string_quote //.
Qed.

Lemma principal_read p n :
  utf8_valid (Auth.pr_APIKeyID p) = true -> utf8_valid (Auth.pr_ProjectID p) = true ->
  (N.of_nat (String.length (json_body (principal_text p))) < n)%N ->
  exists rest, json_Decode (LimitReader (mkStream (json_body (principal_text p)) None) n) =
    Ok (mkValidateResponse (Auth.pr_APIKeyID p) (Auth.pr_ProjectID p), rest) /\ json_more rest = AtEOF.
Proof. intros H1 H2 Hn. destruct (principal_read_text p H1 H2) as [Hc Hd]. eexists. by apply decode_body. Qed.

(** A principal of two canonical UUIDs takes 106 bytes. *)
Lemma principal_wire p n :
  isCanonicalUUID (Auth.pr_APIKeyID p) = true -> isCanonicalUUID (Auth.pr_ProjectID p) = true -> (106 < n)%N ->
  exists rest, json_Decode (LimitReader (mkStream (json_body (principal_text p)) None) n) =
    Ok (mkValidateResponse (Auth.pr_APIKeyID p) (Auth.pr_ProjectID p), rest) /\ json_more rest = AtEOF.
Proof.
  intros C1 C2 Hn. pose proof (isCanonicalUUID_token _ C1) as T1. pose proof (isCanonicalUUID_token _ C2) as T2.
  apply principal_read; [by apply token_utf8..|]. apply isCanonicalUUID_len in C1, C2. unfold len in *.
  unfold json_body, principal_text, quote. rw (quote_token (Auth.pr_APIKeyID p)) // (quote_token (Auth.pr_ProjectID p)) //.
  unfold object_text. cbn [members_text]. unfold member.
  assert (K1 : String.length (quote_body "api_key_id") = 11%nat) by reflexivity.
  assert (K2 : String.length (quote_body "project_id") = 11%nat) by reflexivity.
  move: (quote_body "api_key_id") (quote_body "project_id") K1 K2 => k1 k2 K1 K2.
  rw !slength_app. cbn [String.length]. rw !slength_app. cbn [String.length bytes newline]. lia.
Qed.

(** ** Access events, from the gateway to the analytics service *)

Definition empty_string (s : string) : bool := bool_decide (s = "").

Definition event_members (e : GatewayAccessEvent) (occurredAt : string) : list (string * string) :=
  [("schema_version", Itoa (ev_SchemaVersion e)); ("event_id", quote (ev_EventID e)); ("occurred_at", occurredAt);
   ("request_id", quote (ev_RequestID e))] ++
  omit_if (empty_string (ev_ProjectID e)) "project_id" (quote (ev_ProjectID e)) ++
  omit_if (empty_string (ev_RouteName e)) "route_name" (quote (ev_RouteName e)) ++
  omit_if (empty_string (ev_RoutePathPrefix e)) "route_path_prefix" (quote (ev_RoutePathPrefix e)) ++
  [("method", quote (ev_Method e)); ("request_path", quote (ev_RequestPath e)); ("status_code", Itoa (ev_StatusCode e));
   ("duration_ms", Itoa (ev_DurationMS e)); ("response_bytes", Itoa (ev_ResponseBytes e));
   ("client_type", quote (ev_ClientType e)); ("client_id", quote (ev_ClientID e));
   ("auth_required", bool_text (ev_AuthRequired e)); ("rate_limit_enabled", bool_text (ev_RateLimitEnabled e));
   ("rate_limited", bool_text (ev_RateLimited e))].
Definition event_text (e : GatewayAccessEvent) : res string :=
  occurredAt ← time_text (ev_OccurredAt e); Ok (object_text (event_members e occurredAt)).

Definition event_names : list string :=
  ["schema_version"; "event_id"; "occurred_at"; "request_id"; "project_id"; "route_name"; "route_path_prefix"; "method";
   "request_path"; "status_code"; "duration_ms"; "response_bytes"; "client_type"; "client_id"; "auth_required";
   "rate_limit_enabled"; "rate_limited"].
Definition read_event : decoder GatewayAccessEvent :=
  read_struct false event_names (fun l =>
    let get {A} := @get A event_names in
    schemaVersion ← get "schema_version" dec_int64 l 0;
    eventID ← get "event_id" dec_string l "";
    occurredAt ← get "occurred_at" dec_time l time_zero;
    requestID ← get "request_id" dec_string l "";
    projectID ← get "project_id" dec_string l "";
    routeName ← get "route_name" dec_string l "";
    routePathPrefix ← get "route_path_prefix" dec_string l "";
    method ← get "method" dec_string l "";
    requestPath ← get "request_path" dec_string l "";
    statusCode ← get "status_code" dec_int64 l 0;
    durationMS ← get "duration_ms" dec_int64 l 0;
    responseBytes ← get "response_bytes" dec_int64 l 0;
    clientType ← get "client_type" dec_string l "";
    clientID ← get "client_id" dec_string l "";
    authRequired ← get "auth_required" dec_bool l false;
    rateLimitEnabled ← get "rate_limit_enabled" dec_bool l false;
    rateLimited ← get "rate_limited" dec_bool l false;
    Ok (mkEvent schemaVersion eventID occurredAt requestID projectID routeName routePathPrefix method requestPath statusCode
          durationMS responseBytes clientType clientID authRequired rateLimitEnabled rateLimited)).
Definition zero_event : GatewayAccessEvent := mkEvent 0 "" time_zero "" "" "" "" "" "" 0 0 0 "" "" false false false.
Definition unmarshal_event : string -> res GatewayAccessEvent := Unmarshal zero_event read_event.

Definition json_event (e : GatewayAccessEvent) : bool :=
  forallb utf8_valid
    [ev_EventID e; ev_RequestID e; ev_ProjectID e; ev_RouteName e; ev_RoutePathPrefix e; ev_Method e;
     ev_RequestPath e; ev_ClientType e; ev_ClientID e] &&
  forallb (fun z => bool_decide (int64_range z))
    [ev_SchemaVersion e; ev_StatusCode e; ev_DurationMS e; ev_ResponseBytes e].

Lemma event_read e payload : json_event e = true -> event_text e = Ok payload -> unmarshal_event payload = Ok e.
Proof.
  unfold json_event. cbn [forallb]. rw !andb_true_iff !bool_decide_eq_true.
  intros ((H1 & H2 & H3 & H4 & H5 & H6 & H7 & H8 & H9 & _) & (Z1 & Z2 & Z3 & Z4 & _)). unfold event_text.
  destruct (time_text (ev_OccurredAt e)) as [at_|] eqn:Et; [|done]. cbn [mbind res_bind]. intros [= <-].
  destruct (time_roundtrip _ _ time_zero Et) as [Hc Ht].
  assert (Hm : members_of event_names (event_members e at_)).
  { unfold event_members, omit_if. destruct (empty_string (ev_ProjectID e)), (empty_string (ev_RouteName e)), (empty_string (ev_RoutePathPrefix e));
      cbn [app]; struct_members. }
  unfold unmarshal_event. rw Unmarshal_compact; [apply object_text_compact, Hm|].
  unfold read_event. rw read_struct_text //. cbv zeta beta. rw !(get_assoc _ _ _ _ _ Hm).
  assert (Ho : forall s, empty_string s = true -> s = "") by (intros s; apply bool_decide_eq_true_1).
  unfold event_members, omit_if.
  destruct (empty_string (ev_ProjectID e)) eqn:E1, (empty_string (ev_RouteName e)) eqn:E2, (empty_string (ev_RoutePathPrefix e)) eqn:E3;
    cbn [app]; lazy [assoc String.eqb Ascii.eqb Bool.eqb]; rw Ht !dec_string_quote // !dec_bool_text !dec_int64_text //;
    cbn [mbind res_bind]; repeat match goal with H : empty_string _ = true |- _ => apply Ho in H end; destruct e; cbn in *; by subst.
Qed.
(** ** Jobs, from the API to the worker *)

Import Jobs.

#[export] Instance json_text : JSONText := {| json_Valid := Valid |}.

Definition envelope_names : list string :=
  ["schema_version"; "id"; "type"; "created_at"; "attempt"; "max_attempts"; "payload"].
Definition envelope_members (e : Envelope) (createdAt payload : string) : list (string * string) :=
  [("schema_version", Itoa (en_SchemaVersion e)); ("id", quote (en_ID e)); ("type", quote (en_Type e));
   ("created_at", createdAt); ("attempt", Itoa (en_Attempt e)); ("max_attempts", Itoa (en_MaxAttempts e));
   ("payload", payload)].
Definition envelope_text (e : Envelope) : res string :=
  createdAt ← time_text (en_CreatedAt e);
  payload ← raw_text (en_Payload e);
  Ok (object_text (envelope_members e createdAt payload)).
Definition read_envelope : decoder Envelope :=
  read_struct false envelope_names (fun l =>
    let get {A} := @get A envelope_names in
    schemaVersion ← get "schema_version" dec_int64 l 0;
    id ← get "id" dec_string l "";
    type ← get "type" dec_string l "";
    createdAt ← get "created_at" dec_time l time_zero;
    attempt ← get "attempt" dec_int64 l 0;
    maxAttempts ← get "max_attempts" dec_int64 l 0;
    payload ← get "payload" dec_raw l "";
    Ok (mkEnvelope schemaVersion id type createdAt attempt maxAttempts payload)).

#[export] Instance envelope_codec : JSONCodec Envelope := {|
  json_Marshal := envelope_text;
  json_Unmarshal := Unmarshal (mkEnvelope 0 "" "" time_zero 0 0 "") read_envelope
|}.

Definition webhook_names : list string := ["url"; "method"; "headers"; "body"].
Definition webhook_members (p : WebhookPayload) (body : string) : list (string * string) :=
  [("url", quote (wp_URL p)); ("method", quote (wp_Method p))] ++
  omit_if (bool_decide (wp_Headers p = ∅)) "headers" (string_map_text (wp_Headers p)) ++
  omit_if (empty_string (wp_Body p)) "body" body.
Definition webhook_text (p : WebhookPayload) : res string :=
  body ← raw_text (wp_Body p); Ok (object_text (webhook_members p body)).
Definition read_webhook : decoder WebhookPayload :=
  read_struct false webhook_names (fun l =>
    let get {A} := @get A webhook_names in
    url ← get "url" dec_string l "";
    method ← get "method" dec_string l "";
    headers ← get "headers" dec_string_map l ∅;
    body ← get "body" dec_raw l "";
    Ok (mkWebhook url method headers body)).
#[export] Instance webhook_codec : JSONCodec WebhookPayload := {|
  json_Marshal := webhook_text;
  json_Unmarshal := Unmarshal (mkWebhook "" "" ∅ "") read_webhook
|}.

Definition report_names : list string := ["project_id"; "from"; "to"; "format"].
Definition report_members (p : ReportPayload) (from to : string) : list (string * string) :=
  [("project_id", quote (rp_ProjectID p)); ("from", from); ("to", to); ("format", quote (rp_Format p))].
Definition report_text (p : ReportPayload) : res string :=
  from ← time_text (rp_From p); to ← time_text (rp_To p); Ok (object_text (report_members p from to)).
Definition read_report : decoder ReportPayload :=
  read_struct false report_names (fun l =>
    let get {A} := @get A report_names in
    projectID ← get "project_id" dec_string l "";
    from ← get "from" dec_time l time_zero;
    to ← get "to" dec_time l time_zero;
    format ← get "format" dec_string l "";
    Ok (mkReport projectID from to format)).
#[export] Instance report_codec : JSONCodec ReportPayload := {|
  json_Marshal := report_text;
  json_Unmarshal := Unmarshal (mkReport "" time_zero time_zero "") read_report
|}.

Definition cleanup_names : list string := ["before"; "batch_size"].
Definition cleanup_members (p : CleanupPayload) (before : string) : list (string * string) :=
  [("before", before); ("batch_size", Itoa (cp_BatchSize p))].
Definition cleanup_text (p : CleanupPayload) : res string :=
  before ← time_text (cp_Before p); Ok (object_text (cleanup_members p before)).
Definition read_cleanup : decoder CleanupPayload :=
  read_struct false cleanup_names (fun l =>
    let get {A} := @get A cleanup_names in
    before ← get "before" dec_time l time_zero;
    batchSize ← get "batch_size" dec_int64 l 0;
    Ok (mkCleanup before batchSize)).
#[export] Instance cleanup_codec : JSONCodec CleanupPayload := {|
  json_Marshal := cleanup_text;
  json_Unmarshal := Unmarshal (mkCleanup time_zero 0) read_cleanup
|}.

(** What survives the way of a message: the texts are UTF-8, the integers have 64 bits, and
    a raw message is compact. *)
Definition envelope_safe (e : Envelope) : Prop :=
  (utf8_valid (en_ID e) = true /\ utf8_valid (en_Type e) = true) /\
  (int64_range (en_SchemaVersion e) /\ int64_range (en_Attempt e) /\ int64_range (en_MaxAttempts e)) /\
  compact (en_Payload e).
Definition webhook_safe (p : WebhookPayload) : Prop :=
  utf8_valid (wp_URL p) = true /\ utf8_valid (wp_Method p) = true /\
  (forall k v, wp_Headers p !! k = Some v -> utf8_valid k = true /\ utf8_valid v = true) /\
  (wp_Body p = "" \/ compact (wp_Body p)).
Definition report_safe (p : ReportPayload) : Prop := utf8_valid (rp_ProjectID p) = true /\ utf8_valid (rp_Format p) = true.
Definition cleanup_safe (p : CleanupPayload) : Prop := int64_range (cp_BatchSize p).

Lemma envelope_read e s : envelope_safe e -> envelope_text e = Ok s -> compact s /\ json_Unmarshal s = Ok e.
Proof.
  intros ((H1 & H2) & (Z1 & Z2 & Z3) & Hp). unfold envelope_text. destruct (time_text (en_CreatedAt e)) as [at_|] eqn:Et; [|done].
  rw compact_raw //. cbn [mbind res_bind]. intros [= <-]. destruct (time_roundtrip _ _ time_zero Et) as [Hc Ht].
  assert (Hm : members_of envelope_names (envelope_members e at_ (en_Payload e))) by (unfold envelope_members; struct_members).
  assert (Hco : compact (object_text (envelope_members e at_ (en_Payload e)))) by apply object_text_compact, Hm.
  split; [done|]. cbn [json_Unmarshal envelope_codec]. rw Unmarshal_compact //. unfold read_envelope. rw read_struct_text //.
  cbv zeta beta. struct_get Hm. unfold envelope_members. lazy [assoc String.eqb Ascii.eqb Bool.eqb].
  rw Ht !dec_string_quote // !dec_int64_text //. by destruct e.
Qed.

Lemma report_read p s : report_safe p -> report_text p = Ok s -> compact s /\ json_Unmarshal s = Ok p.
Proof.
  intros (H1 & H2). unfold report_text. destruct (time_text (rp_From p)) as [from|] eqn:Ef; [|done].
  destruct (time_text (rp_To p)) as [to|] eqn:Et; [|done]. cbn [mbind res_bind]. intros [= <-].
  destruct (time_roundtrip _ _ time_zero Ef) as [Hf Hf']. destruct (time_roundtrip _ _ time_zero Et) as [Ht Ht'].
  assert (Hm : members_of report_names (report_members p from to)) by (unfold report_members; struct_members).
  assert (Hco : compact (object_text (report_members p from to))) by apply object_text_compact, Hm.
  split; [done|]. cbn [json_Unmarshal report_codec]. rw Unmarshal_compact //. unfold read_report. rw read_struct_text //.
  cbv zeta beta. struct_get Hm. unfold report_members. lazy [assoc String.eqb Ascii.eqb Bool.eqb].
  rw Hf' Ht' !dec_string_quote //. by destruct p.
Qed.

Lemma cleanup_read p s : cleanup_safe p -> cleanup_text p = Ok s -> compact s /\ json_Unmarshal s = Ok p.
Proof.
  intros Hz. unfold cleanup_text. destruct (time_text (cp_Before p)) as [before|] eqn:Eb; [|done]. cbn [mbind res_bind]. intros [= <-].
  destruct (time_roundtrip _ _ time_zero Eb) as [Hb Hb'].
  assert (Hm : members_of cleanup_names (cleanup_members p before)) by (unfold cleanup_members; struct_members).
  assert (Hco : compact (object_text (cleanup_members p before))) by apply object_text_compact, Hm.
  split; [done|]. cbn [json_Unmarshal cleanup_codec]. rw Unmarshal_compact //. unfold read_cleanup. rw read_struct_text //.
  cbv zeta beta. struct_get Hm. unfold cleanup_members. lazy [assoc String.eqb Ascii.eqb Bool.eqb].
  rw Hb' dec_int64_text //. by destruct p.
Qed.

(** A webhook arrives with its body compacted. *)
Definition compacted (p : WebhookPayload) (body : string) : WebhookPayload :=
  mkWebhook (wp_URL p) (wp_Method p) (wp_Headers p) (if empty_string (wp_Body p) then "" else body).

Lemma webhook_read p s :
  utf8_valid (wp_URL p) = true -> utf8_valid (wp_Method p) = true ->
  (forall k v, wp_Headers p !! k = Some v -> utf8_valid k = true /\ utf8_valid v = true) -> webhook_text p = Ok s ->
  compact s /\ exists body, raw_text (wp_Body p) = Ok body /\ json_Unmarshal s = Ok (compacted p body).
Proof.
  intros H1 H2 Hh. unfold webhook_text. destruct (raw_text (wp_Body p)) as [body|] eqn:Eb; [|done]. cbn [mbind res_bind]. intros [= <-].
  assert (Hb : compact body).
  { revert Eb. unfold raw_text. case_bool_decide; [intros [= <-]; apply null_compact|].
    destruct (compact_text (wp_Body p)) as [t|] eqn:Et; [|done]. intros [= <-]. by apply compact_text_compact in Et as []. }
  destruct (string_map_roundtrip (wp_Headers p) Hh) as [Hmc Hmd].
  assert (Hm : members_of webhook_names (webhook_members p body)).
  { unfold webhook_members, omit_if. destruct (bool_decide (wp_Headers p = ∅)), (empty_string (wp_Body p)); cbn [app]; struct_members. }
  assert (Hco : compact (object_text (webhook_members p body))) by apply object_text_compact, Hm.
  split; [done|]. exists body. split; [done|]. cbn [json_Unmarshal webhook_codec]. rw Unmarshal_compact //. unfold read_webhook.
  rw read_struct_text //. cbv zeta beta. rw !(get_assoc _ _ _ _ _ Hm). unfold webhook_members, omit_if, compacted.
  destruct (bool_decide (wp_Headers p = ∅)) eqn:Eh, (empty_string (wp_Body p)) eqn:Ee; cbn [app];
    lazy [assoc String.eqb Ascii.eqb Bool.eqb]; rw !dec_string_quote // ?Hmd //; cbn [mbind res_bind dec_raw];
    try (apply bool_decide_eq_true_1 in Eh as ->); done.
Qed.
End Wire.
