(* ===== verification/Bodies.v ===== *)
(** The bodies of the HTTP interfaces: the struct tags of the dto.go files of the control
    plane, the auth service and the jobs API, as decoders of the requests and texts of the
    responses.

    Requests of auth and jobs are decoded with DisallowUnknownFields, those of the control
    plane without.  Timestamps that come from the database are shown in the time zone of
    the process, which is a parameter. *)
From Stdlib Require Import Ascii ZArith Lia.
From Corelib Require Import ssreflect.
From stdpp Require Import base gmap strings list numbers relations pretty.
From S2P Require Import Prelude GoStrings GoTime GoEncoding GoNet GoDate GoJSON JSONFacts Events GatewayRoutes RouteSources Postgres ControlPlane AuthSecurity Auth Gateway Jobs Wire.

#[local] Open Scope Z_scope.

Module Bodies.
Import JSON JSONFacts Wire.

(** ** Requests *)

(** *** Control plane *)

Definition createProjectRequest_names : list string := ["name"].
Definition read_createProjectRequest : decoder string :=
  read_struct false createProjectRequest_names (fun l => get createProjectRequest_names "name" dec_string l "").

Definition createServiceRequest_names : list string := ["name"; "upstream_url"].
Definition read_createServiceRequest : decoder CP.createServiceRequest :=
  read_struct false createServiceRequest_names (fun l =>
    let get {A} := @get A createServiceRequest_names in
    name ← get "name" dec_string l "";
    upstreamURL ← get "upstream_url" dec_string l "";
    Ok (CP.mkServiceRequest name upstreamURL)).

Definition createRouteRequest_names : list string :=
  ["name"; "path_prefix"; "strip_prefix"; "timeout_ms"; "enabled"; "auth_required"; "rate_limit_enabled";
   "rate_limit_requests"; "rate_limit_window_seconds"].
Definition read_createRouteRequest : decoder CP.createRouteRequest :=
  read_struct false createRouteRequest_names (fun l =>
    let get {A} := @get A createRouteRequest_names in
    name ← get "name" dec_string l "";
    pathPrefix ← get "path_prefix" dec_string l "";
    stripPrefix ← get "strip_prefix" (dec_pointer false dec_bool) l None;
    timeoutMS ← get "timeout_ms" dec_int64 l 0;
    enabled ← get "enabled" (dec_pointer false dec_bool) l None;
    authRequired ← get "auth_required" dec_bool l false;
    rateLimitEnabled ← get "rate_limit_enabled" dec_bool l false;
    rateLimitRequests ← get "rate_limit_requests" dec_int64 l 0;
    rateLimitWindowSeconds ← get "rate_limit_window_seconds" dec_int64 l 0;
    Ok (CP.mkRouteRequest name pathPrefix stripPrefix timeoutMS enabled authRequired rateLimitEnabled
          rateLimitRequests rateLimitWindowSeconds)).

(** The three handlers decode one value and look no further. *)
Definition cp_body {A} (zero : A) (dec : decoder A) (body : stream) : res A :=
  match Decode zero dec body with Ok (a, _) => Ok a | Err e => Err e end.
Definition project_body : stream -> res string := cp_body "" read_createProjectRequest.
Definition service_body : stream -> res CP.createServiceRequest := cp_body (CP.mkServiceRequest "" "") read_createServiceRequest.
Definition route_body : stream -> res CP.createRouteRequest :=
  cp_body (CP.mkRouteRequest "" "" None 0 None false false 0 0) read_createRouteRequest.

(** *** Auth service *)

(** Register and login share their fields, and so do refresh and logout. *)
Definition credentials_names : list string := ["email"; "password"].
Definition read_credentials : decoder (string * string) :=
  read_struct true credentials_names (fun l =>
    email ← get credentials_names "email" dec_string l "";
    password ← get credentials_names "password" dec_string l "";
    Ok (email, password)).
#[export] Instance credentials_decoder : JSONDecoder (string * string) :=
  {| json_Decode := Decode ("", "") read_credentials; json_more := More |}.

Definition refreshToken_names : list string := ["refresh_token"].
Definition read_refreshToken : decoder string :=
  read_struct true refreshToken_names (fun l => get refreshToken_names "refresh_token" dec_string l "").
#[export] Instance refreshToken_decoder : JSONDecoder string :=
  {| json_Decode := Decode "" read_refreshToken; json_more := More |}.

Definition createAPIKeyRequest_names : list string := ["name"; "expires_at"].
Definition read_createAPIKeyRequest : decoder (string * option Z) :=
  read_struct true createAPIKeyRequest_names (fun l =>
    name ← get createAPIKeyRequest_names "name" dec_string l "";
    expiresAt ← get createAPIKeyRequest_names "expires_at" (dec_pointer time_zero dec_time) l None;
    Ok (name, expiresAt)).
#[export] Instance createAPIKeyRequest_decoder : JSONDecoder (string * option Z) :=
  {| json_Decode := Decode ("", None) read_createAPIKeyRequest; json_more := More |}.

(** *** Jobs *)

Definition submitWebhookRequest_names : list string := ["url"; "method"; "headers"; "body"; "max_attempts"].
Definition read_submitWebhookRequest : decoder Jobs.SubmitWebhookInput :=
  read_struct true submitWebhookRequest_names (fun l =>
    let get {A} := @get A submitWebhookRequest_names in
    url ← get "url" dec_string l "";
    method ← get "method" dec_string l "";
    headers ← get "headers" dec_string_map l ∅;
    body ← get "body" dec_raw l "";
    maxAttempts ← get "max_attempts" dec_int64 l 0;
    Ok (Jobs.mkWebhookInput url method headers body maxAttempts)).
#[export] Instance submitWebhook_decoder : JSONDecoder Jobs.SubmitWebhookInput :=
  {| json_Decode := Decode (Jobs.mkWebhookInput "" "" ∅ "" 0) read_submitWebhookRequest; json_more := More |}.

Definition submitReportRequest_names : list string := ["project_id"; "from"; "to"; "format"; "max_attempts"].
Definition read_submitReportRequest : decoder Jobs.SubmitReportInput :=
  read_struct true submitReportRequest_names (fun l =>
    let get {A} := @get A submitReportRequest_names in
    projectID ← get "project_id" dec_string l "";
    from ← get "from" dec_time l time_zero;
    to ← get "to" dec_time l time_zero;
    format ← get "format" dec_string l "";
    maxAttempts ← get "max_attempts" dec_int64 l 0;
    Ok (Jobs.mkReportInput projectID from to format maxAttempts)).
#[export] Instance submitReport_decoder : JSONDecoder Jobs.SubmitReportInput :=
  {| json_Decode := Decode (Jobs.mkReportInput "" time_zero time_zero "" 0) read_submitReportRequest; json_more := More |}.

Definition submitCleanupRequest_names : list string := ["before"; "batch_size"; "max_attempts"].
Definition read_submitCleanupRequest : decoder Jobs.SubmitCleanupInput :=
  read_struct true submitCleanupRequest_names (fun l =>
    let get {A} := @get A submitCleanupRequest_names in
    before ← get "before" dec_time l time_zero;
    batchSize ← get "batch_size" dec_int64 l 0;
    maxAttempts ← get "max_attempts" dec_int64 l 0;
    Ok (Jobs.mkCleanupInput before batchSize maxAttempts)).
#[export] Instance submitCleanup_decoder : JSONDecoder Jobs.SubmitCleanupInput :=
  {| json_Decode := Decode (Jobs.mkCleanupInput time_zero 0 0) read_submitCleanupRequest; json_more := More |}.

(** ** Responses *)

Section responses.
(** The time zone of the process at an instant, in minutes to UTC. *)
Context (local : Z -> Z).

Definition db_time (t : Z) : res string := time_text_in (local t) t.
(** A pointer to a time. *)
Definition db_time_opt (t : option Z) : res string := match t with Some t => db_time t | None => Ok "null" end.

Definition project_text (p : CP.projectResponse) : res string :=
  createdAt ← db_time (CP.pr_CreatedAt p); updatedAt ← db_time (CP.pr_UpdatedAt p);
  Ok (object_text [("id", quote (CP.pr_ID p)); ("name", quote (CP.pr_Name p)); ("created_at", createdAt); ("updated_at", updatedAt)]).
Definition service_text (s : CP.serviceResponse) : res string :=
  createdAt ← db_time (CP.sv_CreatedAt s); updatedAt ← db_time (CP.sv_UpdatedAt s);
  Ok (object_text [("id", quote (CP.sv_ID s)); ("project_id", quote (CP.sv_ProjectID s)); ("name", quote (CP.sv_Name s));
    ("upstream_url", quote (CP.sv_UpstreamURL s)); ("created_at", createdAt); ("updated_at", updatedAt)]).
Definition route_text (r : CP.cpRouteResponse) : res string :=
  createdAt ← db_time (CP.ro_CreatedAt r); updatedAt ← db_time (CP.ro_UpdatedAt r);
  Ok (object_text [("id", quote (CP.ro_ID r)); ("service_id", quote (CP.ro_ServiceID r)); ("name", quote (CP.ro_Name r));
    ("path_prefix", quote (CP.ro_PathPrefix r)); ("strip_prefix", bool_text (CP.ro_StripPrefix r));
    ("timeout_ms", Itoa (CP.ro_TimeoutMS r)); ("enabled", bool_text (CP.ro_Enabled r));
    ("auth_required", bool_text (CP.ro_AuthRequired r)); ("rate_limit_enabled", bool_text (CP.ro_RateLimitEnabled r));
    ("rate_limit_requests", Itoa (CP.ro_RateLimitRequests r)); ("rate_limit_window_seconds", Itoa (CP.ro_RateLimitWindowSeconds r));
    ("created_at", createdAt); ("updated_at", updatedAt)]).

Definition user_text (u : Auth.userResponse) : res string :=
  createdAt ← db_time (Auth.ur_CreatedAt u); updatedAt ← db_time (Auth.ur_UpdatedAt u);
  Ok (object_text [("id", quote (Auth.ur_ID u)); ("email", quote (Auth.ur_Email u)); ("role", quote (Auth.ur_Role u));
    ("enabled", bool_text (Auth.ur_Enabled u)); ("created_at", createdAt); ("updated_at", updatedAt)]).
(** The expiry of the access token is of the clock of the use case, in UTC; that of the
    refresh token is a column. *)
Definition tokenPair_members (t : Auth.tokenPairResponse) (accessAt refreshAt : string) : list (string * string) :=
  [("token_type", quote (Auth.tr_TokenType t)); ("access_token", quote (Auth.tr_AccessToken t));
   ("access_token_expires_at", accessAt); ("refresh_token", quote (Auth.tr_RefreshToken t)); ("refresh_token_expires_at", refreshAt)].
Definition tokenPair_text (t : Auth.tokenPairResponse) : res string :=
  accessAt ← time_text (Auth.tr_AccessTokenExpiresAt t); refreshAt ← db_time (Auth.tr_RefreshTokenExpiresAt t);
  Ok (object_text (tokenPair_members t accessAt refreshAt)).
Definition session_text (s : Auth.sessionResponse) : res string :=
  user ← user_text (Auth.sr_User s); tokens ← tokenPair_text (Auth.sr_Tokens s);
  Ok (object_text [("user", user); ("tokens", tokens)]).
Definition apiKey_text (k : Auth.apiKeyResponse) : res string :=
  expiresAt ← db_time_opt (Auth.kr_ExpiresAt k); lastUsedAt ← db_time_opt (Auth.kr_LastUsedAt k);
  createdAt ← db_time (Auth.kr_CreatedAt k); updatedAt ← db_time (Auth.kr_UpdatedAt k);
  Ok (object_text [("id", quote (Auth.kr_ID k)); ("project_id", quote (Auth.kr_ProjectID k)); ("name", quote (Auth.kr_Name k));
    ("key_prefix", quote (Auth.kr_KeyPrefix k)); ("enabled", bool_text (Auth.kr_Enabled k)); ("expires_at", expiresAt);
    ("last_used_at", lastUsedAt); ("created_at", createdAt); ("updated_at", updatedAt)]).
Definition createdAPIKey_text (c : Auth.createdAPIKeyResponse) : res string :=
  key ← apiKey_text (Auth.cr_APIKey c); Ok (object_text [("api_key", key); ("value", quote (Auth.cr_Value c))]).

(** The receipt carries the clock of the use case, the status of a job the columns. *)
Definition receipt_text (r : Jobs.jobReceiptResponse) : res string :=
  createdAt ← time_text (Jobs.jr_CreatedAt r);
  Ok (object_text [("id", quote (Jobs.jr_ID r)); ("type", quote (Jobs.jr_Type r)); ("status", quote (Jobs.jr_Status r)); ("created_at", createdAt)]).
Definition omit_time (name : string) (t : option Z) : res (list (string * string)) :=
  match t with Some t => text ← db_time t; Ok [(name, text)] | None => Ok [] end.
Definition jobStatus_text (j : Jobs.jobStatusResponse) : res string :=
  createdAt ← db_time (Jobs.js_CreatedAt j);
  queuedAt ← omit_time "queued_at" (Jobs.js_QueuedAt j);
  startedAt ← omit_time "started_at" (Jobs.js_StartedAt j);
  completedAt ← omit_time "completed_at" (Jobs.js_CompletedAt j);
  updatedAt ← db_time (Jobs.js_UpdatedAt j);
  Ok (object_text
    ([("id", quote (Jobs.js_ID j)); ("type", quote (Jobs.js_Type j)); ("status", quote (Jobs.js_Status j));
      ("current_attempt", Itoa (Jobs.js_CurrentAttempt j)); ("max_attempts", Itoa (Jobs.js_MaxAttempts j)); ("created_at", createdAt)] ++
     queuedAt ++ startedAt ++ completedAt ++ [("updated_at", updatedAt)] ++
     omit_if (empty_string (Jobs.js_LastError j)) "last_error" (quote (Jobs.js_LastError j)) ++
     omit_if (empty_string (Jobs.js_ResultMessage j)) "result_message" (quote (Jobs.js_ResultMessage j)) ++
     omit_if (empty_string (Jobs.js_OutputPath j)) "output_path" (quote (Jobs.js_OutputPath j)) ++
     [("affected_rows", Itoa (Jobs.js_AffectedRows j))])).
End responses.

(** ** Lemmas: what a client posts *)

Lemma decodeRequest_compact {A} (zero : A) dec t a (D : JSONDecoder A) :
  D = {| json_Decode := Decode zero dec; json_more := More |} -> compact t -> dec t zero = Ok a ->
  Auth.decodeRequest (mkStream t None) = Ok a.
Proof.
  intros -> Hc Hd. unfold Auth.decodeRequest. cbn [json_Decode json_more].
  pose proof (Decode_compact zero dec t "" None Hc eq_refl) as E. rw sapp_nil_r in E. by rw E Hd.
Qed.

Lemma credentials_posted email password :
  utf8_valid email = true -> utf8_valid password = true ->
  Auth.decodeRequest (mkStream (object_text [("email", quote email); ("password", quote password)]) None) = Ok (email, password).
Proof.
  intros H1 H2. match goal with |- context [object_text ?l] => assert (Hm : members_of credentials_names l) end; [struct_members|].
  eapply decodeRequest_compact; [reflexivity|apply object_text_compact, Hm|]. unfold read_credentials. rw read_struct_text //.
  struct_get Hm. rw !dec_string_quote //.
Qed.
Lemma refreshToken_posted token :
  utf8_valid token = true -> Auth.decodeRequest (mkStream (object_text [("refresh_token", quote token)]) None) = Ok token.
Proof.
  intros H1. match goal with |- context [object_text ?l] => assert (Hm : members_of refreshToken_names l) end; [struct_members|].
  eapply decodeRequest_compact; [reflexivity|apply object_text_compact, Hm|]. unfold read_refreshToken. rw read_struct_text //.
  struct_get Hm. rw !dec_string_quote //.
Qed.
End Bodies.
