(* ===== verification/JobHistory.v ===== *)
(** Histories of the job table: the statements of submissions and workers in any
    order, what they may do to a row, and the contract of a submission. *)
From Stdlib Require Import Ascii ZArith Lia.
From Corelib Require Import ssreflect.
From stdpp Require Import base gmap strings list numbers relations pretty.
From S2P Require Import Prelude GoStrings GoTime GoEncoding GoNet Events Postgres Jobs Wire.

#[local] Open Scope Z_scope.

Module JobHistory.
Import Jobs.

(** ** Steps *)

(** The statements of workers, for any message and any outcome. *)
Inductive workstep (t : table) : table -> Prop :=
| wk_prepare f e attempt at_ snap s t' : PrepareAttempt f e attempt at_ snap t = Ok (s, t') -> workstep t t'
| wk_retrying f id attempt failure at_ t' : MarkRetrying f id attempt failure at_ t = Ok t' -> workstep t t'
| wk_succeeded f id attempt r at_ t' : MarkSucceeded f id attempt r at_ t = Ok t' -> workstep t t'
| wk_failed f id attempt failure at_ t' : MarkFailed f id attempt failure at_ t = Ok t' -> workstep t t'.

(** Those and the statements of submissions. *)
Inductive jobstep (t : table) : table -> Prop :=
| jb_work t' : workstep t t' -> jobstep t t'
| jb_create f e now t' : CreateJob f (NewPublishingJob e now) t = Ok t' -> jobstep t t'
| jb_queued f id at_ t' : MarkQueued f id at_ t = Ok t' -> jobstep t t'
| jb_submission_failed f id failure at_ t' : MarkSubmissionFailed f id failure at_ t = Ok t' -> jobstep t t'.

(** ** How a row changes *)

(** The stages of the documented life cycle. *)
Definition stage (s : Status) : Z :=
  match s with
  | StatusPublishing => 0
  | StatusQueued | StatusPublishFailed => 1
  | StatusProcessing | StatusRetrying => 2
  | StatusSucceeded | StatusFailed => 3
  end.

(** What stays of a row: its identity, its times once set, its stage; a succeeded
    row stays as it is and a failed one stays failed. *)
Record row_le (j j' : Job) : Prop := {
  le_id : (j_ID j', j_Type j', j_MaxAttempts j', j_CreatedAt j') = (j_ID j, j_Type j, j_MaxAttempts j, j_CreatedAt j);
  le_stage : stage (j_Status j) <= stage (j_Status j');
  le_succeeded : j_Status j = StatusSucceeded -> j' = j;
  le_failed : j_Status j = StatusFailed -> j_Status j' = StatusFailed;
  le_queued : j_QueuedAt j <> None -> j_QueuedAt j' = j_QueuedAt j;
  le_started : j_StartedAt j <> None -> j_StartedAt j' = j_StartedAt j;
}.

#[global] Instance row_le_pre : PreOrder row_le.
Proof.
  split; [intros j; by split|]. intros j1 j2 j3 [A1 B1 C1 D1 E1 F1] [A2 B2 C2 D2 E2 F2]. split.
  - congruence.
  - lia.
  - intros H. rw (C1 H) in C2. auto.
  - auto.
  - intros H. rw E2; [by rw E1|by apply E1].
  - intros H. rw F2; [by rw F1|by apply F1].
Qed.

Definition row_ok (id : string) (j : Job) : Prop := j_ID j = id /\ attempt_check j = true.
Definition table_ok (t : table) : Prop := forall id j, t !! id = Some j -> row_ok id j.
Definition table_le (t t' : table) : Prop :=
  forall id j, t !! id = Some j -> exists j', t' !! id = Some j' /\ row_le j j'.

#[global] Instance table_le_pre : PreOrder table_le.
Proof.
  split; [intros t id j H; by exists j|]. intros t1 t2 t3 H12 H23 id j H.
  destruct (H12 id j H) as (j2 & H2 & L2). destruct (H23 id j2 H2) as (j3 & H3 & L3).
  exists j3. split; [done|]. by etrans.
Qed.

(** One statement, seen from the table: one row written. *)
Definition writes (t t' : table) (old : option Job) (j : Job) : Prop :=
  t !! j_ID j = old /\ t' = <[j_ID j := j]> t /\ attempt_check j = true.

Lemma put_job_Ok j t t' : put_job j t = Ok t' -> t' = <[j_ID j := j]> t /\ attempt_check j = true.
Proof. unfold put_job. destruct (attempt_check j); naive_solver. Qed.

Lemma update_job_Ok id cond f t t' :
  update_job id cond f t = Ok t' ->
  exists j, t !! id = Some j /\ cond j = true /\ t' = <[j_ID (f j) := f j]> t /\ attempt_check (f j) = true.
Proof.
  unfold update_job. destruct (encode_text id) as [i|] eqn:E; [|done]. apply encode_text_Ok in E as [-> _]. cbn.
  destruct (t !! id) as [j|] eqn:Ej; [|done]. destruct (cond j) eqn:Ec; [|done].
  intros [? ?]%put_job_Ok. by exists j.
Qed.

Lemma writes_moves t t' old j :
  table_ok t -> writes t t' old j -> match old with Some j0 => row_le j0 j | None => True end ->
  table_ok t' /\ table_le t t'.
Proof.
  intros Hok (Hl & -> & Hc) Hle. split.
  - intros id j'. destruct (decide (id = j_ID j)) as [->|Hne].
    + rw lookup_insert_eq. intros [= <-]. by split.
    + rw lookup_insert_ne //. apply Hok.
  - intros id j' Hj'. destruct (decide (id = j_ID j)) as [->|Hne].
    + rw lookup_insert_eq. exists j. split; [done|]. rw Hj' in Hl. by subst old.
    + rw lookup_insert_ne //. by exists j'.
Qed.

Definition moves (t t' : table) : Prop := table_ok t -> table_ok t' /\ table_le t t'.

Lemma job_moves_refl t : moves t t.
Proof. intros H. split; [done|]. by intros id j Hj; exists j. Qed.

Lemma moves_update id cond f t t' :
  (forall j, cond j = true -> row_le j (f j)) -> update_job id cond f t = Ok t' -> moves t t'.
Proof.
  intros Hf (j & Hj & Hc & -> & Ha)%update_job_Ok Hok. destruct (Hok id j Hj) as [Hid _].
  pose proof (Hf j Hc) as Hle. assert (j_ID (f j) = id) as Ei by (pose proof (le_id _ _ Hle); congruence).
  apply (writes_moves t _ (Some j) (f j) Hok); [|done]. by rw /writes Ei.
Qed.

Lemma scanOptionalID_Ok op t r t' : scanOptionalID op t r = Ok t' -> t' = t \/ r = Ok t'.
Proof. unfold scanOptionalID. destruct r as [|e]; [naive_solver|]. destruct (errors_Is e ErrNoRows); naive_solver. Qed.

(** Rows in a state that is not final may move to any later stage. *)
Lemma row_le_advance j j' :
  (j_ID j', j_Type j', j_MaxAttempts j', j_CreatedAt j') = (j_ID j, j_Type j, j_MaxAttempts j, j_CreatedAt j) ->
  not_final j = true -> stage (j_Status j) <= stage (j_Status j') ->
  (j_QueuedAt j <> None -> j_QueuedAt j' = j_QueuedAt j) ->
  (j_StartedAt j <> None -> j_StartedAt j' = j_StartedAt j) -> row_le j j'.
Proof.
  intros Hid Hn Hs Hq Ht. unfold not_final, Final in Hn. split; try done;
    intros E; rw E in Hn; by vm_compute in Hn.
Qed.

Lemma not_final_stage j : not_final j = true -> stage (j_Status j) <= 2.
Proof. unfold not_final. by destruct (j_Status j). Qed.

Lemma moves_prepare e attempt at_ snap t s t' :
  prepare_attempt e attempt at_ snap t = Ok (s, t') -> moves t t'.
Proof.
  unfold prepare_attempt. destruct (encode_text (en_ID e)) as [i|] eqn:Ei; [|done].
  apply encode_text_Ok in Ei as [-> _]. destruct (encode_text (en_Type e)) as [ty|]; [|done].
  destruct (encode_int4 (en_MaxAttempts e)) as [mx|]; [|done]. destruct (encode_int4 attempt) as [a0|]; [|done]. cbn.
  destruct (t !! en_ID e) as [j|] eqn:Hl.
  - destruct (not_final j) eqn:Hn.
    + destruct (put_job _ _) as [t1|] eqn:Hp; [|done]. cbn. intros [= <- <-] Hok.
      apply put_job_Ok in Hp as [-> Ha]. destruct (Hok _ _ Hl) as [Hid _].
      apply (writes_moves t _ (Some j) (prepared a0 at_ j) Hok); [by rw /writes /= Hid|].
      apply row_le_advance; [done|done|by apply not_final_stage|done|]. cbn. by destruct (j_StartedAt j).
    + destruct (snap !! en_ID e); [|done]. intros [= <- <-]. apply job_moves_refl.
  - destruct (put_job _ _) as [t1|] eqn:Hp; [|done]. cbn. intros [= <- <-] Hok.
    apply put_job_Ok in Hp as [-> Ha]. refine (writes_moves t _ None _ Hok (conj _ (conj eq_refl Ha)) I). exact Hl.
Qed.

Lemma moves_work t t' : workstep t t' -> moves t t'.
Proof.
  intros [f e a at_ snap s t1 E|f id a m at_ t1 E|f id a r at_ t1 E|f id a m at_ t1 E];
    apply map_err_Ok, with_fault_Ok in E as [_ E]; [by eapply moves_prepare| | |]; revert E.
  - destruct (encode_int4 a); [|done]. destruct (encode_text _); [|done]. cbn. apply moves_update.
    intros j Hj. by apply row_le_advance; [|done|apply not_final_stage| |].
  - destruct (encode_int4 a); [|done]. destruct (encode_text (ex_Message r)); [|done].
    destruct (encode_text (ex_OutputPath r)); [|done]. cbn. apply moves_update.
    intros j Hj. apply row_le_advance; [done|done| |done|done]. pose proof (not_final_stage j Hj). cbn. lia.
  - destruct (encode_int4 a); [|done]. destruct (encode_text _); [|done]. cbn. apply moves_update.
    intros j Hj. unfold is_status in Hj. case_bool_decide as Hs; [done|]. split; cbn; try done.
    by destruct (j_Status j).
Qed.

Definition inserted (job : Job) : Job :=
  mkJob (j_ID job) (j_Type job) (j_Status job) (j_CurrentAttempt job) (j_MaxAttempts job) (pg_time (j_CreatedAt job))
    None None None (pg_time (j_UpdatedAt job)) "" "" "" 0.

Lemma insert_job_Ok job t t' :
  insert_job job t = Ok t' ->
  t !! j_ID job = None /\ t' = <[j_ID job := inserted job]> t /\ attempt_check (inserted job) = true.
Proof.
  unfold insert_job. destruct (encode_text (j_ID job)) as [i|] eqn:Ei; [|done].
  destruct (encode_text (j_Type job)) as [ty|] eqn:Et; [|done].
  destruct (encode_int4 (j_CurrentAttempt job)) as [c|] eqn:Ec; [|done].
  destruct (encode_int4 (j_MaxAttempts job)) as [m|] eqn:Em; [|done]. cbn.
  apply encode_text_Ok in Ei as [-> _], Et as [-> _]. apply encode_int4_Ok in Ec as [-> _], Em as [-> _].
  destruct (t !! j_ID job); [done|]. intros [-> Ha]%put_job_Ok. done.
Qed.

Lemma is_publishing j : is_status StatusPublishing j = true -> j_Status j = StatusPublishing /\ not_final j = true.
Proof. unfold is_status, not_final. case_bool_decide as E; [|done]. by rw E. Qed.

Lemma moves_job t t' : jobstep t t' -> moves t t'.
Proof.
  intros [t1 E|f e now t1 E|f id at_ t1 E|f id m at_ t1 E].
  - by apply moves_work.
  - apply map_err_Ok, with_fault_Ok in E as [_ E]. revert E.
    intros (Hl & -> & Ha)%insert_job_Ok Hok. refine (writes_moves t _ None _ Hok (conj _ (conj eq_refl Ha)) I). exact Hl.
  - apply scanOptionalID_Ok in E as [->|E]; [apply job_moves_refl|]. apply with_fault_Ok in E as [_ E]. revert E.
    apply moves_update. intros j [Hs Hn]%is_publishing. apply row_le_advance; try done; cbn.
    + by rw Hs.
    + by destruct (j_QueuedAt j).
  - apply scanOptionalID_Ok in E as [->|E]; [apply job_moves_refl|]. apply with_fault_Ok in E as [_ E]. revert E.
    destruct (encode_text _); [|done]. cbn. apply moves_update. intros j [Hs Hn]%is_publishing.
    apply row_le_advance; try done. cbn. by rw Hs.
Qed.

Lemma job_history_moves t t' : rtc jobstep t t' -> moves t t'.
Proof.
  induction 1 as [t|t1 t2 t3 Hs _ IH]; [apply job_moves_refl|]. intros Hok.
  destruct (moves_job _ _ Hs Hok) as [Hok2 Hle2]. destruct (IH Hok2) as [Hok3 Hle3].
  split; [done|]. by transitivity t2.
Qed.

(** ** Submissions *)

Section submit.
Context `{JSONText} `{JSONCodec Envelope}.

(** Workers leave a row as it was inserted or move it past the submission. *)
Definition submitted (e : Envelope) (j : Job) : Prop :=
  (j_ID j, j_Type j, j_MaxAttempts j) = (en_ID e, en_Type e, en_MaxAttempts e) /\
  (j_Status j = StatusPublishing \/ 2 <= stage (j_Status j)).

Ltac wrote := right; match goal with |- exists _, <[_ := ?k]> _ = _ /\ _ => exists k end; done.

(** A worker writes at most one row, at a stage past the submission. *)
Lemma workstep_writes t t' :
  workstep t t' -> t' = t \/ exists j, t' = <[j_ID j := j]> t /\ 2 <= stage (j_Status j).
Proof.
  intros [f e a at_ snap s t1 E|f id a m at_ t1 E|f id a r at_ t1 E|f id a m at_ t1 E];
    apply map_err_Ok, with_fault_Ok in E as [_ E]; revert E.
  - unfold prepare_attempt. destruct (encode_text (en_ID e)) as [x|]; [|done].
    destruct (encode_text (en_Type e)); [|done].
    destruct (encode_int4 (en_MaxAttempts e)); [|done]. destruct (encode_int4 a); [|done]. cbn [mbind res_bind].
    destruct (t !! x) as [j0|]; [destruct (not_final j0)|].
    + destruct (put_job _ _) as [t2|] eqn:Hp; [|done]. apply put_job_Ok in Hp as [-> _]. cbn [mbind res_bind]. intros [= <- <-].
      wrote.
    + destruct (snap !! x); [|done]. intros [= <- <-]. by left.
    + destruct (put_job _ _) as [t2|] eqn:Hp; [|done]. apply put_job_Ok in Hp as [-> _]. cbn [mbind res_bind]. intros [= <- <-].
      wrote.
  - destruct (encode_int4 a); [|done]. destruct (encode_text _); [|done]. cbn [mbind res_bind].
    intros (j & _ & _ & -> & _)%update_job_Ok. wrote.
  - destruct (encode_int4 a); [|done]. destruct (encode_text (ex_Message r)); [|done].
    destruct (encode_text (ex_OutputPath r)); [|done]. cbn [mbind res_bind].
    intros (j & _ & _ & -> & _)%update_job_Ok. wrote.
  - destruct (encode_int4 a); [|done]. destruct (encode_text _); [|done]. cbn [mbind res_bind].
    intros (j & _ & _ & -> & _)%update_job_Ok. wrote.
Qed.

Lemma submitted_work e t t' i j :
  table_ok t -> rtc workstep t t' -> t !! i = Some j -> submitted e j ->
  table_ok t' /\ exists j', t' !! i = Some j' /\ submitted e j'.
Proof.
  intros Hok Hr. revert Hok j. induction Hr as [t|t1 t2 t3 Hs _ IH]; intros Hok j Hj Hsub; [by eauto|].
  destruct (moves_work _ _ Hs Hok) as [Hok2 Hle]. destruct (Hle i j Hj) as (j2 & Hj2 & Hjj).
  apply (IH Hok2 j2 Hj2). destruct Hsub as [Hid Hst]. split; [pose proof (le_id _ _ Hjj); congruence|].
  destruct (workstep_writes _ _ Hs) as [->|(k & -> & Hk)].
  - by assert (j2 = j) as -> by congruence.
  - destruct (decide (i = j_ID k)) as [->|Hne].
    + rw lookup_insert_eq in Hj2. injection Hj2 as ->. by right.
    + rw lookup_insert_ne // in Hj2. by assert (j2 = j) as -> by congruence.
Qed.

Lemma submit_envelope_ID ty pj mx idr now e :
  submit_envelope ty pj mx idr now = Ok e -> pg_text (en_ID e) = true.
Proof.
  unfold submit_envelope. destruct (NormalizeMaxAttempts mx); [|done]. cbn [mbind res_bind].
  unfold NewID. destruct idr as [b|]; [|done]. cbn [map_err mbind res_bind]. unfold NewEnvelope.
  destruct pj as [payload|]; [|done]. destruct (envelope_Validate _); [|done]. cbn [map_err]. intros [= <-].
  cbn [en_ID]. rw graphic_TrimSpace.
  - eapply all_bytes_impl; [|apply hex_encode_token]. apply token_graphic.
  - apply token_pg_text, hex_encode_token.
Qed.

Lemma Publish_confirmed p e u :
  confirms p -> (Publish p e).1 = Ok u ->
  exists m, (Publish p e).2 = Some m /\ pg_MessageId m = en_ID e /\ pg_Type m = en_Type e.
Proof.
  intros [Hc _]. unfold Publish. destruct (envelope_Validate e); [|done]. destruct (json_Marshal e); [|done].
  destruct (pe_closed p); [done|]. destruct (pe_send p) as [[]|]; [|done..].
  destruct (pe_wait p) as [[]|]; [|done..]. intros _. cbn. rw (Hc eq_refl). by eexists.
Qed.

(** An update of a row that satisfies its condition and keeps its id and attempts. *)
Lemma update_job_hit id cond f t j :
  pg_text id = true -> t !! id = Some j -> cond j = true -> row_ok id j -> j_ID (f j) = j_ID j ->
  j_CurrentAttempt (f j) = j_CurrentAttempt j -> j_MaxAttempts (f j) = j_MaxAttempts j ->
  update_job id cond f t = Ok (<[id := f j]> t).
Proof.
  intros Hb Hj Hc [Hid Ha] E1 E2 E3. unfold update_job, encode_text. rw Hb. cbn. rw Hj Hc. unfold put_job.
  unfold attempt_check in *. by rw E1 E2 E3 Ha Hid.
Qed.
Lemma update_job_miss id cond f t j :
  pg_text id = true -> t !! id = Some j -> cond j = false -> update_job id cond f t = Err ErrNoRows.
Proof. intros Hb Hj Hc. unfold update_job, encode_text. rw Hb. cbn. by rw Hj Hc. Qed.
End submit.

(** ** Properties *)



(** ** Examples *)

Module Example.
Import Wire.

Definition at1 : Z := unix_epoch + 100 * Hour.
Definition envelope1 : Envelope :=
  ok_or (mkEnvelope 0 "" "" 0 0 0 "") (submit_envelope TypeCleanupExpiredTokens (Ok "{}") 3 (Ok "id") at1).
Definition created1 : table := ok_or ∅ (submit_create None envelope1 at1 ∅).
Definition processing1 : table := (ok_or (StatusFailed, ∅) (PrepareAttempt None envelope1 1 at1 created1 created1)).2.
Definition succeeded1 : table :=
  ok_or ∅ (MarkSucceeded None (en_ID envelope1) 1 (mkExecution "expired refresh tokens cleaned" "" 7) at1 processing1).

Lemma created1_step : jobstep ∅ created1.
Proof. apply (jb_create _ None envelope1 at1). vm_compute. reflexivity. Qed.
Lemma succeeded1_steps : rtc workstep created1 succeeded1.
Proof.
  eapply rtc_l; [apply (wk_prepare _ None envelope1 1 at1 created1 StatusProcessing processing1); vm_compute; reflexivity|].
  eapply rtc_once, (wk_succeeded _ None (en_ID envelope1) 1 (mkExecution "expired refresh tokens cleaned" "" 7) at1).
  vm_compute. reflexivity.
Qed.


Definition publish1 : publish_env := mkPublish false [] (Ok true) (Ok true) true.

End Example.
End JobHistory.
