(* ===== verification/JobWorker.v ===== *)
(** The job worker (internal/jobworker): the use case that dispatches jobs, the
    RabbitMQ consumer with its acknowledgements, and the quorum queue it works on.

    A delivery is handled in two phases, since other statements run while a job is
    processed: [delivery_begin] up to the call of the processor, [delivery_finish]
    from its outcome on.  The queue is modelled with its delivery counts, its
    redeliveries and the dead letter queue ([wstep]). *)
From Stdlib Require Import Ascii ZArith Lia.
From Corelib Require Import ssreflect.
From stdpp Require Import base gmap strings list numbers relations pretty.
From S2P Require Import Prelude GoStrings GoTime GoEncoding GoNet Events Postgres Jobs Wire JobHistory.

#[local] Open Scope Z_scope.

Module Worker.
Import Jobs JobHistory.

(** ** Domain (jobworker/domain) *)

Definition Permanent (e : error) : error := PermanentError e.

(** errors.As for a PermanentError. *)
Fixpoint IsPermanent (e : error) : bool :=
  match e with
  | PermanentError _ => true
  | Wrap _ causes => existsb IsPermanent causes
  | _ => false
  end.

Record Result := mkResult { rs_Message : string; rs_OutputPath : string; rs_AffectedRows : Z }.

(** ** Use case (jobworker/usecase) *)

Definition ErrInvalidJobPayload : error := Sentinel "jobworker/usecase.ErrInvalidJobPayload" "invalid job payload".

Section process.
Context `{JSONText} `{JSONCodec WebhookPayload} `{JSONCodec ReportPayload} `{JSONCodec CleanupPayload}
  `{UnicodeTables}.

Definition decodePayload {A} `{JSONCodec A} (raw : string) : res A :=
  if (len raw =? 0) || negb (json_Valid raw) then Err (Permanent ErrInvalidJobPayload)
  else match json_Unmarshal raw with
       | Err e => Err (Permanent (Wrap (Error ErrInvalidJobPayload +:+ ": " +:+ Error e) [ErrInvalidJobPayload]))
       | Ok a => Ok a
       end.

(** The ports of the use case: a webhook sender, a report generator and a token
    cleaner, each with the outcome of its call. *)
Record ports := mkPorts {
  Deliver : WebhookPayload -> res unit;
  Generate : string -> ReportPayload -> res (string * Z);
  CleanupExpiredTokens : CleanupPayload -> res Z
}.

Definition Process (u : ports) (e : Envelope) : res Result :=
  if bool_decide (en_Type e = TypeWebhookDeliver) then
    payload ← decodePayload (en_Payload e);
    _ ← Deliver u payload;
    Ok (mkResult "webhook delivered" "" 0)
  else if bool_decide (en_Type e = TypeReportGenerate) then
    payload ← decodePayload (en_Payload e);
    '(outputPath, rowCount) ← Generate u (en_ID e) payload;
    Ok (mkResult "report generated" outputPath rowCount)
  else if bool_decide (en_Type e = TypeCleanupExpiredTokens) then
    payload ← decodePayload (en_Payload e);
    if IsZero (cp_Before payload) || (cp_BatchSize payload <? 1) || (5000 <? cp_BatchSize payload) then
      Err (Permanent ErrInvalidJobPayload)
    else
      deleted ← CleanupExpiredTokens u payload;
      Ok (mkResult "expired refresh tokens cleaned" "" deleted)
  else Err (Permanent (Opaque ("unsupported job type " +:+ strconv_Quote (en_Type e)))).
End process.

(** ** Consumer (infrastructure/rabbitmq/consumer.go) *)

Definition headerInt64 (headers : gmap string amqp_value) (key : string) : Z :=
  match headers !! key with
  | None => 0
  | Some (AInt z | AInt8 z | AInt16 z | AInt32 z | AInt64 z | AUint8 z | AUint16 z | AUint32 z) => z
  | Some (AUint64 z) => if max_int64 <? z then 0 else z
  | Some _ => 0
  end.

Definition deliveryAttempt (headers : gmap string amqp_value) : Z :=
  let count := headerInt64 headers "x-delivery-count" in
  let count := if count <? 0 then 0 else count in
  wrap64 (count + 1).

Record Delivery := mkDelivery { dl_Headers : gmap string amqp_value; dl_Body : string }.

(** What the consumer asks of the broker for a delivery. *)
Inductive action := Ack | Reject (requeue : bool).

Inductive begun :=
| Settle (a : action)
| Running (e : Envelope) (attempt : Z).

Section consumer.
Context `{JSONText} `{JSONCodec Envelope}.

(** [handleDelivery] up to the processing; [snap] is the snapshot of the upsert. *)
Definition delivery_begin (f : fault) (d : Delivery) (now : Z) (snap t : table) : res begun * table :=
  let attempt := deliveryAttempt (dl_Headers d) in
  match json_Unmarshal (dl_Body d) with
  | Err _ => (Ok (Settle (Reject false)), t)
  | Ok envelope =>
    match envelope_Validate envelope with
    | Err _ => (Ok (Settle (Reject false)), t)
    | Ok _ =>
      match PrepareAttempt f envelope attempt now snap t with
      | Err err => (Err (wrapf "prepare job status" err), t)
      | Ok (status, t') =>
        (Ok (if bool_decide (status = StatusSucceeded) then Settle Ack
             else if bool_decide (status = StatusFailed) then Settle (Reject false)
             else Running envelope attempt), t')
      end
    end
  end.

(** [handleDelivery] from the outcome of the processor on. *)
Definition delivery_finish (f : fault) (envelope : Envelope) (attempt : Z) (outcome : res Result) (now : Z)
    (t : table) : res action * table :=
  match outcome with
  | Ok result =>
    match MarkSucceeded f (en_ID envelope) attempt
            (mkExecution (rs_Message result) (rs_OutputPath result) (rs_AffectedRows result)) now t with
    | Err err => (Err (wrapf "persist completed job status" err), t)
    | Ok t' => (Ok Ack, t')
    end
  | Err err =>
    if IsPermanent err || (en_MaxAttempts envelope <=? attempt) then
      match MarkFailed f (en_ID envelope) attempt (Error err) now t with
      | Err statusError => (Err (wrapf "persist failed job status" statusError), t)
      | Ok t' => (Ok (Reject false), t')
      end
    else
      match MarkRetrying f (en_ID envelope) attempt (Error err) now t with
      | Err statusError => (Err (wrapf "persist retrying job status" statusError), t)
      | Ok t' => (Ok (Reject true), t')
      end
  end.

(** The faults of the database, the clock readings and the error of the broker
    around one delivery. *)
Record delivery_env := mkDeliveryEnv {
  de_prepare : fault; de_mark : fault; de_now1 : Z; de_now2 : Z; de_broker : option error
}.

(** The error of Ack and Reject as it is returned. *)
Definition reject (err : option error) : res unit :=
  match err with Some err => Err (wrapf "reject RabbitMQ job" err) | None => Ok tt end.
Definition acknowledge (ctx : error -> error) (err : option error) : res unit :=
  match err with Some err => Err (ctx err) | None => Ok tt end.

(** [handleDelivery], when no other statement interleaves: its result, what was
    asked of the broker, whether the processor ran, and the table. *)
Definition handleDelivery (e : delivery_env) (d : Delivery) (process : Envelope -> Z -> res Result) (t : table)
    : res unit * option action * bool * table :=
  match delivery_begin (de_prepare e) d (de_now1 e) t t with
  | (Err err, t') => (Err err, None, false, t')
  | (Ok (Settle Ack), t') => (acknowledge (fun err => err) (de_broker e), Some Ack, false, t')
  | (Ok (Settle (Reject requeue)), t') => (reject (de_broker e), Some (Reject requeue), false, t')
  | (Ok (Running envelope attempt), t') =>
    match delivery_finish (de_mark e) envelope attempt (process envelope attempt) (de_now2 e) t' with
    | (Err err, t'') => (Err err, None, true, t'')
    | (Ok Ack, t'') => (acknowledge (wrapf "acknowledge completed job") (de_broker e), Some Ack, true, t'')
    | (Ok (Reject requeue), t'') => (reject (de_broker e), Some (Reject requeue), true, t'')
    end
  end.

(** No fault and one clock reading. *)
Definition calm (now : Z) : delivery_env := mkDeliveryEnv None None now now None.

(** [Run] over the events of its select: what it returned, or nothing while it
    waits. *)
Inductive consumer_event :=
| CtxDone
| ChannelClosed (channelError : option error)
| DeliveriesClosed
| Delivered (e : delivery_env) (d : Delivery) (process : Envelope -> Z -> res Result).

Definition ErrConsumerClosed : error := Sentinel "jobworker/rabbitmq.ErrConsumerClosed" "RabbitMQ job consumer closed".

Fixpoint Run_events (evs : list consumer_event) (t : table) : option (res unit) * table :=
  match evs with
  | [] => (None, t)
  | CtxDone :: _ => (Some (Ok tt), t)
  | ChannelClosed None :: _ => (Some (Err ErrConsumerClosed), t)
  | ChannelClosed (Some channelError) :: _ => (Some (Err (wrapf "RabbitMQ consumer channel closed" channelError)), t)
  | DeliveriesClosed :: _ => (Some (Err ErrConsumerClosed), t)
  | Delivered e d process :: evs =>
    let '(r, _, _, t') := handleDelivery e d process t in
    match r with Err err => (Some (Err err), t') | Ok _ => Run_events evs t' end
  end.

Definition Run (consumeErr : option error) (evs : list consumer_event) (t : table) : option (res unit) * table :=
  match consumeErr with
  | Some err => (Some (Err (wrapf "consume RabbitMQ jobs" err)), t)
  | None => Run_events evs t
  end.

(** ** The queue *)

(** A quorum queue adds the count of earlier deliveries to a redelivery. *)
Definition delivery_of (m : Publishing) (count : Z) : Delivery :=
  mkDelivery (if count =? 0 then delete "x-delivery-count" (pg_Headers m)
              else <["x-delivery-count" := AInt64 count]> (pg_Headers m)) (pg_Body m).

(** A message until it is settled, redelivered at once when the consumer asks for
    it: the final action, the number of times it was processed, and the table.
    [fuel] bounds the deliveries. *)
Fixpoint run_message (fuel : nat) (m : Publishing) (count : Z) (process : Envelope -> Z -> res Result) (now : Z)
    (t : table) : option (action * Z * table) :=
  match fuel with
  | O => None
  | S fuel =>
    match handleDelivery (calm now) (delivery_of m count) process t with
    | (_, None, _, _) => None
    | (_, Some (Reject true), ran, t') =>
      match run_message fuel m (count + 1) process now t' with
      | Some (a, n, t'') => Some (a, (if ran then n + 1 else n), t'')
      | None => None
      end
    | (_, Some a, ran, t') => Some (a, (if ran then 1 else 0), t')
    end
  end.

Record flight := mkFlight { fl_msg : Publishing; fl_count : Z; fl_env : Envelope; fl_attempt : Z }.

Record wsys := mkW {
  w_table : table;
  w_published : list Publishing;
  w_queue : list (Publishing * Z);
  w_flight : list flight;
  w_acked : list Publishing;
  w_dead : list Publishing;
  w_given_up : list (Publishing * Z)
}.

(** The broker's part: when the request of the consumer arrives it is carried
    out, otherwise the delivery is taken back. *)
Definition settle (arrives : bool) (a : action) (m : Publishing) (count : Z) (w : wsys) : wsys :=
  match arrives, a with
  | true, Ack => mkW (w_table w) (w_published w) (w_queue w) (w_flight w) (m :: w_acked w) (w_dead w) (w_given_up w)
  | true, Reject false => mkW (w_table w) (w_published w) (w_queue w) (w_flight w) (w_acked w) (m :: w_dead w) (w_given_up w)
  | _, _ => mkW (w_table w) (w_published w) ((m, count + 1) :: w_queue w) (w_flight w) (w_acked w) (w_dead w) (w_given_up w)
  end.

(** Any number of consumers, and the submissions.  A queue may have a limit of
    deliveries, by its policy or by the default of the broker: a message that was
    returned more often is dead-lettered by the broker itself. *)
Context (limit : option Z).
Definition over_limit (count : Z) : bool := match limit with Some l => l <? count | None => false end.

Inductive wstep : wsys -> wsys -> Prop :=
| ws_publish m t p q fl ac de gu :
  wstep (mkW t p q fl ac de gu) (mkW t (m :: p) ((m, 0) :: q) fl ac de gu)
| ws_table t t' p q fl ac de gu :
  jobstep t t' -> wstep (mkW t p q fl ac de gu) (mkW t' p q fl ac de gu)
| ws_begin f now snap arrives m c t p q1 q2 fl ac de gu :
  rtc jobstep ∅ snap -> rtc jobstep snap t ->
  wstep (mkW t p (q1 ++ (m, c) :: q2) fl ac de gu)
    (let w t' fl := mkW t' p (q1 ++ q2) fl ac de gu in
     match delivery_begin f (delivery_of m c) now snap t with
     | (Ok (Settle a), t') => settle arrives a m c (w t' fl)
     | (Ok (Running e k), t') => w t' (mkFlight m c e k :: fl)
     | (Err _, t') => settle false Ack m c (w t' fl)
     end)
| ws_finish f now arrives outcome x t p q fl1 fl2 ac de gu :
  wstep (mkW t p q (fl1 ++ x :: fl2) ac de gu)
    (let w t' := mkW t' p q (fl1 ++ fl2) ac de gu in
     match delivery_finish f (fl_env x) (fl_attempt x) outcome now t with
     | (Ok a, t') => settle arrives a (fl_msg x) (fl_count x) (w t')
     | (Err _, t') => settle false Ack (fl_msg x) (fl_count x) (w t')
     end)
| ws_crash x t p q fl1 fl2 ac de gu :
  wstep (mkW t p q (fl1 ++ x :: fl2) ac de gu) (mkW t p ((fl_msg x, fl_count x + 1) :: q) (fl1 ++ fl2) ac de gu)
| ws_requeue m c t p q1 q2 fl ac de gu :
  wstep (mkW t p (q1 ++ (m, c) :: q2) fl ac de gu) (mkW t p (q1 ++ (m, c + 1) :: q2) fl ac de gu)
| ws_give_up m c t p q1 q2 fl ac de gu :
  over_limit c = true ->
  wstep (mkW t p (q1 ++ (m, c) :: q2) fl ac de gu) (mkW t p (q1 ++ q2) fl ac de ((m, c) :: gu)).

(** ** Lemmas *)

(** The job a message body carries, and how the table says it ended. *)
Definition carries (body : string) (e : Envelope) : Prop :=
  json_Unmarshal body = Ok e /\ envelope_Validate e = Ok tt.
Definition ended (s : Status) (t : table) (body : string) : Prop :=
  exists e j, carries body e /\ t !! en_ID e = Some j /\ j_Status j = s.
Definition unreadable (body : string) : Prop := forall e, ~ carries body e.

Lemma ended_le s t t' body :
  s = StatusSucceeded \/ s = StatusFailed -> table_le t t' -> ended s t body -> ended s t' body.
Proof.
  intros Hs Hle (e & j & Hc & Hj & Es). destruct (Hle _ _ Hj) as (j' & Hj' & L). exists e, j'.
  split; [done|]. split; [done|]. destruct Hs as [->| ->]; [|by apply (le_failed _ _ L)].
  by rw (le_succeeded _ _ L Es).
Qed.

Lemma prepare_final e attempt now snap t s t' :
  table_le snap t -> prepare_attempt e attempt now snap t = Ok (s, t') ->
  s = StatusSucceeded \/ s = StatusFailed -> exists j, t' !! en_ID e = Some j /\ j_Status j = s.
Proof.
  intros Hle. unfold prepare_attempt. destruct (encode_text (en_ID e)) as [i|] eqn:Ei; [|done].
  apply encode_text_Ok in Ei as [-> _]. destruct (encode_text (en_Type e)); [|done].
  destruct (encode_int4 (en_MaxAttempts e)); [|done]. destruct (encode_int4 attempt); [|done]. cbn [mbind res_bind].
  destruct (t !! en_ID e) as [j|] eqn:Hj; [destruct (not_final j)|].
  - destruct (put_job _ _); [|done]. intros [= <- <-]. by intros [].
  - destruct (snap !! en_ID e) as [j0|] eqn:Hs0; [|done]. intros [= <- <-] Hs. exists j. split; [done|].
    destruct (Hle _ _ Hs0) as (j1 & Hj1 & L). assert (j1 = j) as -> by congruence.
    destruct Hs as [Es|Es]; [by rw (le_succeeded _ _ L Es)|by rw (le_failed _ _ L Es)].
  - destruct (put_job _ _); [|done]. intros [= <- <-]. by intros [].
Qed.

(** What [delivery_begin] guarantees. *)
Lemma delivery_begin_spec f d now snap t r t' :
  table_le snap t -> delivery_begin f d now snap t = (r, t') ->
  (t' = t \/ jobstep t t') /\
  match r with
  | Ok (Settle Ack) => ended StatusSucceeded t' (dl_Body d)
  | Ok (Settle (Reject b)) => b = false /\ (unreadable (dl_Body d) \/ ended StatusFailed t' (dl_Body d))
  | Ok (Running e k) => carries (dl_Body d) e /\ k = deliveryAttempt (dl_Headers d)
  | Err _ => t' = t
  end.
Proof.
  intros Hle. unfold delivery_begin. destruct (json_Unmarshal (dl_Body d)) as [e|] eqn:Eu.
  2:{ intros [= <- <-]. split; [by left|]. split; [done|]. left. intros e0 [? _]. congruence. }
  destruct (envelope_Validate e) as [[]|] eqn:Ev.
  2:{ intros [= <- <-]. split; [by left|]. split; [done|]. left. intros e' [E1 E2]. congruence. }
  destruct (PrepareAttempt _ _ _ _ _ _) as [[s t1]|] eqn:Ep; [|intros [= <- <-]; split; [by left|done]].
  intros [= <- <-]. split; [right; by eapply jb_work, wk_prepare|].
  apply map_err_Ok, with_fault_Ok in Ep as [_ Ep].
  pose proof (prepare_final _ _ _ _ _ _ _ Hle Ep) as Hf. case_bool_decide as Es.
  - destruct Hf as (j & Hj & Ej); [by left|]. exists e, j. split; [done|]. split; [done|congruence].
  - case_bool_decide as Es'; [|done]. split; [done|]. right.
    destruct Hf as (j & Hj & Ej); [by right|]. exists e, j. split; [done|]. split; [done|congruence].
Qed.

(** The row a required update leaves. *)
Lemma update_row id cond f t t' s :
  table_ok t -> (forall j, j_ID (f j) = j_ID j /\ j_Status (f j) = s) -> update_job id cond f t = Ok t' ->
  exists j, t' !! id = Some j /\ j_Status j = s.
Proof.
  intros Hok Hf (j & Hj & _ & -> & _)%update_job_Ok. destruct (Hok _ _ Hj) as [Hid _]. exists (f j).
  destruct (Hf j) as [E1 E2]. split; [|done]. rw E1 Hid. apply lookup_insert_eq.
Qed.

(** What [delivery_finish] guarantees. *)
Lemma delivery_finish_spec f e k outcome now t r t' :
  table_ok t -> delivery_finish f e k outcome now t = (r, t') ->
  (t' = t \/ jobstep t t') /\
  match r with
  | Ok Ack => is_ok outcome = true /\ exists j, t' !! en_ID e = Some j /\ j_Status j = StatusSucceeded
  | Ok (Reject false) => is_ok outcome = false /\ exists j, t' !! en_ID e = Some j /\ j_Status j = StatusFailed
  | Ok (Reject true) => is_ok outcome = false /\ k < en_MaxAttempts e
  | Err _ => t' = t
  end.
Proof.
  intros Hok. unfold delivery_finish. destruct outcome as [o|err].
  - destruct (MarkSucceeded _ _ _ _ _ _) as [t1|] eqn:E; intros [= <- <-]; [|by split; [left|]].
    split; [right; by eapply jb_work, wk_succeeded|]. split; [done|].
    apply map_err_Ok, with_fault_Ok in E as [_ E]. revert E. destruct (encode_int4 k); [|done].
    destruct (encode_text (ex_Message _)); [|done]. destruct (encode_text (ex_OutputPath _)); [|done].
    cbn [mbind res_bind]. by apply update_row.
  - destruct (IsPermanent err || _) eqn:Ec.
    + destruct (MarkFailed _ _ _ _ _ _) as [t1|] eqn:E; intros [= <- <-]; [|by split; [left|]].
      split; [right; by eapply jb_work, wk_failed|]. split; [done|].
      apply map_err_Ok, with_fault_Ok in E as [_ E]. revert E. destruct (encode_int4 k); [|done].
      destruct (encode_text _); [|done]. cbn [mbind res_bind]. by apply update_row.
    + destruct (MarkRetrying _ _ _ _ _ _) as [t1|] eqn:E; intros [= <- <-]; [|by split; [left|]].
      split; [right; by eapply jb_work, wk_retrying|]. split; [done|]. lia.
Qed.

(** ** The queue never loses a job *)

Record winv (w : wsys) : Prop := {
  wi_table : rtc jobstep ∅ (w_table w);
  wi_acked : Forall (fun m => ended StatusSucceeded (w_table w) (pg_Body m)) (w_acked w);
  wi_dead : Forall (fun m => unreadable (pg_Body m) \/ ended StatusFailed (w_table w) (pg_Body m)) (w_dead w);
  wi_flight : Forall (fun x => carries (pg_Body (fl_msg x)) (fl_env x)) (w_flight w);
  wi_given_up : Forall (fun mc => over_limit mc.2 = true) (w_given_up w);
  wi_all : w_published w ≡ₚ (w_queue w).*1 ++ (fl_msg <$> w_flight w) ++ w_acked w ++ w_dead w ++ (w_given_up w).*1;
}.

Lemma reach_ok t : rtc jobstep ∅ t -> table_ok t.
Proof. intros Hr. apply (job_history_moves _ _ Hr). by intros id j Hj; rw lookup_empty in Hj. Qed.

Lemma step_le t t' : rtc jobstep ∅ t -> t' = t \/ jobstep t t' -> rtc jobstep ∅ t' /\ table_le t t'.
Proof.
  intros Hr [->|Hs]; [split; [done|apply table_le_pre]|]. split; [by eapply rtc_r|].
  exact (proj2 (moves_job _ _ Hs (reach_ok _ Hr))).
Qed.

Lemma winv_table t t' p q fl ac de gu :
  t' = t \/ jobstep t t' -> winv (mkW t p q fl ac de gu) -> winv (mkW t' p q fl ac de gu).
Proof.
  intros Hs [Hr A D F G P]. cbn in *. destruct (step_le _ _ Hr Hs) as [Hr' Hle]. split; cbn; try done.
  - eapply Forall_impl; [exact A|]. intros m. apply ended_le; [by left|done].
  - eapply Forall_impl; [exact D|]. intros m [Hm|Hm]; [by left|right]. revert Hm. apply ended_le; [by right|done].
Qed.

(** The state between a delivery and its settlement: one message is with the
    consumer. *)
Definition held (m : Publishing) (w : wsys) : Prop :=
  winv (mkW (w_table w) (w_published w) ((m, 0) :: w_queue w) (w_flight w) (w_acked w) (w_dead w) (w_given_up w)).

Lemma settle_inv arrives a m c w :
  held m w ->
  match a with
  | Ack => arrives = true -> ended StatusSucceeded (w_table w) (pg_Body m)
  | Reject b => b = true \/ unreadable (pg_Body m) \/ ended StatusFailed (w_table w) (pg_Body m)
  end -> winv (settle arrives a m c w).
Proof.
  intros [Hr A D F G P] Ha. cbn in *. destruct arrives, a as [|[]]; try (by split; cbn; rw ?P).
  - split; cbn; try done; [apply Forall_cons; auto|]. rw P /=. by rw -!Permutation_middle.
  - split; cbn; try done; [apply Forall_cons; by destruct Ha as [|Ha]; auto|]. rw P /=. by rw -!Permutation_middle.
Qed.

Lemma take_queue t p q1 m c q2 fl ac de gu :
  winv (mkW t p (q1 ++ (m, c) :: q2) fl ac de gu) -> held m (mkW t p (q1 ++ q2) fl ac de gu).
Proof.
  intros [Hr A D F G P]. split; cbn in *; try done. rw P !fmap_app /=. by rw -Permutation_middle.
Qed.

Lemma take_flight t p q fl1 x fl2 ac de gu :
  winv (mkW t p q (fl1 ++ x :: fl2) ac de gu) ->
  held (fl_msg x) (mkW t p q (fl1 ++ fl2) ac de gu) /\ carries (pg_Body (fl_msg x)) (fl_env x).
Proof.
  intros [Hr A D F G P]. cbn in *. apply Forall_app in F as [F1 [Fx F2]%Forall_cons]. split; [|done].
  split; cbn; try done; [by apply Forall_app|]. rw P !fmap_app /=. rw -!(assoc_L (++)) /=.
  by rw -!Permutation_middle.
Qed.

Lemma held_table t t' p q fl ac de gu m :
  t' = t \/ jobstep t t' -> held m (mkW t p q fl ac de gu) -> held m (mkW t' p q fl ac de gu).
Proof. intros Hs Hh. by apply (winv_table t). Qed.

Lemma winv_begin f now snap arrives m c t p q1 q2 fl ac de gu :
  rtc jobstep ∅ snap -> rtc jobstep snap t -> winv (mkW t p (q1 ++ (m, c) :: q2) fl ac de gu) ->
  winv (let w t' fl := mkW t' p (q1 ++ q2) fl ac de gu in
        match delivery_begin f (delivery_of m c) now snap t with
        | (Ok (Settle a), t') => settle arrives a m c (w t' fl)
        | (Ok (Running e k), t') => w t' (mkFlight m c e k :: fl)
        | (Err _, t') => settle false Ack m c (w t' fl)
        end).
Proof.
  intros R0 R1 Hw. pose proof (proj2 (job_history_moves _ _ R1 (reach_ok _ R0))) as Hle.
  apply take_queue in Hw. destruct (delivery_begin _ _ _ _ _) as [r t'] eqn:E.
  apply (delivery_begin_spec _ _ _ _ _ _ _ Hle) in E as [Hs Hr]. apply (held_table _ _ _ _ _ _ _ _ _ Hs) in Hw.
  destruct r as [[a|e k]|err]; cbv zeta.
  - apply settle_inv; [done|]. destruct a; cbn in *; [done|]. by right; apply Hr.
  - destruct Hw as [Hr' A D F G P]. cbn in *. split; cbn; try done; [apply Forall_cons; split; [apply Hr|done]|].
    rw P. rw (Permutation_middle _ _ m). done.
  - by apply settle_inv.
Qed.

Lemma winv_finish f now arrives outcome x t p q fl1 fl2 ac de gu :
  winv (mkW t p q (fl1 ++ x :: fl2) ac de gu) ->
  winv (let w t' := mkW t' p q (fl1 ++ fl2) ac de gu in
        match delivery_finish f (fl_env x) (fl_attempt x) outcome now t with
        | (Ok a, t') => settle arrives a (fl_msg x) (fl_count x) (w t')
        | (Err _, t') => settle false Ack (fl_msg x) (fl_count x) (w t')
        end).
Proof.
  intros Hw. pose proof (reach_ok _ (wi_table _ Hw)) as Hok. cbn in Hok.
  apply take_flight in Hw as [Hw Hc]. destruct (delivery_finish _ _ _ _ _ _) as [r t'] eqn:E.
  apply (delivery_finish_spec _ _ _ _ _ _ _ _ Hok) in E as [Hs Hr]. apply (held_table _ _ _ _ _ _ _ _ _ Hs) in Hw.
  destruct r as [a|err]; cbv zeta; [|by apply settle_inv]. apply settle_inv; [done|].
  destruct a as [|[]]; cbn; [|by left|].
  - intros _. destruct Hr as (_ & j & Hj & Ej). by exists (fl_env x), j.
  - right; right. destruct Hr as (_ & j & Hj & Ej). by exists (fl_env x), j.
Qed.

Lemma winv_step w w' : wstep w w' -> winv w -> winv w'.
Proof.
  intros [m t p q fl ac de gu|t t' p q fl ac de gu Hs|f now snap arrives m c t p q1 q2 fl ac de gu R0 R1
         |f now arrives outcome x t p q fl1 fl2 ac de gu|x t p q fl1 fl2 ac de gu|m c t p q1 q2 fl ac de gu
         |m c t p q1 q2 fl ac de gu Hl] Hw.
  - destruct Hw as [Hr A D F G P]. split; cbn in *; try done. by rw P.
  - by apply (winv_table t); [right|].
  - by apply winv_begin.
  - by apply winv_finish.
  - apply take_flight in Hw as [[Hr A D F G P] _]. by split.
  - destruct Hw as [Hr A D F G P]. split; cbn in *; try done. by rw P !fmap_app.
  - apply take_queue in Hw as [Hr A D F G P]. split; cbn in *; try done; [by apply Forall_cons|].
    rw P. by rw -!Permutation_middle.
Qed.

Lemma winv_history w w' : rtc wstep w w' -> winv w -> winv w'.
Proof. induction 1; eauto using winv_step. Qed.

(** ** A message and its attempts *)

Lemma delivery_attempt m c :
  0 <= c < max_int64 -> deliveryAttempt (dl_Headers (delivery_of m c)) = c + 1.
Proof.
  intros Hc. unfold deliveryAttempt, headerInt64, delivery_of. destruct (Z.eqb_spec c 0) as [->|Hn]; cbn [dl_Headers].
  - rw lookup_delete_eq. by vm_compute.
  - rw lookup_insert_eq. destruct (Z.ltb_spec c 0); [lia|]. apply wrap64_id. unfold int64_range, min_int64 in *. lia.
Qed.

(** What PostgreSQL needs to store the job and the outcomes of its attempts. *)
Record storable (e : Envelope) (process : Envelope -> Z -> res Result) : Prop := {
  sb_id : pg_text (en_ID e) = true;
  sb_type : pg_text (en_Type e) = true;
  sb_max : 1 <= en_MaxAttempts e <= max_int32;
  sb_out : forall k, match process e k with
                     | Ok r => pg_text (rs_Message r) = true /\ pg_text (rs_OutputPath r) = true
                     | Err err => pg_text (NormalizeFailureMessage (Error err)) = true
                     end;
}.

Definition open_row (t : table) (e : Envelope) : Prop :=
  forall j, t !! en_ID e = Some j -> not_final j = true.

Lemma encode_small z : 0 <= z <= max_int32 -> encode_int4 z = Ok z.
Proof. intros Hz. unfold encode_int4. rw bool_decide_eq_true_2 //. unfold int32_range, max_int32 in *. lia. Qed.

(** An attempt of a job that is not final begins. *)
Lemma begin_ok m e process c now t :
  carries (pg_Body m) e -> storable e process -> table_ok t -> open_row t e -> 0 <= c < en_MaxAttempts e ->
  exists t1 j, delivery_begin None (delivery_of m c) now t t = (Ok (Running e (c + 1)), t1) /\
    table_ok t1 /\ t1 !! en_ID e = Some j /\ j_Status j = StatusProcessing.
Proof.
  intros [Hu Hv] [Hid Hty Hmax _] Hok Ho Hc. unfold delivery_begin. cbn [delivery_of dl_Body].
  rw delivery_attempt; [unfold max_int32, max_int64 in *; lia|]. rw Hu Hv.
  assert (Hp : exists t1 j, prepare_attempt e (c + 1) now t t = Ok (StatusProcessing, t1) /\
    t1 !! en_ID e = Some j /\ j_Status j = StatusProcessing).
  { unfold prepare_attempt, encode_text. rw Hid Hty. cbn [mbind res_bind]. rw !encode_small; [lia|lia|]. cbn [mbind res_bind].
    destruct (t !! en_ID e) as [j|] eqn:Hj.
    - rw (Ho j Hj). destruct (Hok _ _ Hj) as [Ei Ha]. unfold attempt_check in Ha. unfold put_job.
      assert (attempt_check (prepared (c + 1) now j) = true) as -> by (unfold attempt_check; cbn; lia).
      eexists _, _. split; [reflexivity|]. cbn [j_ID prepared]. rw Ei. by rw lookup_insert_eq.
    - unfold put_job. match goal with |- context [attempt_check ?j] =>
        assert (attempt_check j = true) as -> by (unfold attempt_check; cbn; lia) end.
      eexists _, _. split; [reflexivity|]. cbn [j_ID]. by rw lookup_insert_eq. }
  destruct Hp as (t1 & j & Hp & Hj & Es). unfold PrepareAttempt. cbn [with_fault]. rw Hp. cbn [map_err].
  exists t1, j. split; [done|]. split; [|done]. exact (proj1 (moves_prepare _ _ _ _ _ _ _ Hp Hok)).
Qed.

(** An update of a row that is still open, with the attempt capped. *)
Lemma update_open id f t j k cond :
  table_ok t -> pg_text id = true -> t !! id = Some j -> cond j = true -> 0 <= k ->
  j_ID (f j) = j_ID j -> j_MaxAttempts (f j) = j_MaxAttempts j -> j_CurrentAttempt (f j) = Z.min k (j_MaxAttempts j) ->
  update_job id cond f t = Ok (<[id := f j]> t).
Proof.
  intros Hok Hb Hj Hc Hk E1 E2 E3. unfold update_job, encode_text. rw Hb. cbn. rw Hj Hc. unfold put_job.
  destruct (Hok _ _ Hj) as [Hid Ha]. unfold attempt_check in *. rw E1 E2 E3 Hid.
  assert ((0 <=? Z.min k (j_MaxAttempts j)) && (1 <=? j_MaxAttempts j) && (Z.min k (j_MaxAttempts j) <=? j_MaxAttempts j) = true)
    as -> by lia. done.
Qed.

(** How the row of a job ends or goes on after an attempt. *)
Definition attempt_result (e : Envelope) (k : Z) (outcome : res Result) (a : action) (j : Job) : Prop :=
  match outcome with
  | Ok r => a = Ack /\ j_Status j = StatusSucceeded /\ j_ResultMessage j = rs_Message r /\
            j_OutputPath j = rs_OutputPath r /\ j_AffectedRows j = rs_AffectedRows r /\ j_LastError j = ""
  | Err err =>
    j_LastError j = NormalizeFailureMessage (Error err) /\
    if IsPermanent err || (en_MaxAttempts e <=? k) then a = Reject false /\ j_Status j = StatusFailed
    else a = Reject true /\ j_Status j = StatusRetrying
  end.

Lemma finish_ok e process k now t j :
  storable e process -> table_ok t -> t !! en_ID e = Some j -> j_Status j = StatusProcessing ->
  1 <= k <= en_MaxAttempts e ->
  exists a j', delivery_finish None e k (process e k) now t = (Ok a, <[en_ID e := j']> t) /\
    attempt_result e k (process e k) a j' /\ table_ok (<[en_ID e := j']> t).
Proof.
  intros [Hid Hty Hmax Hout] Hok Hj Hs Hk. specialize (Hout k).
  assert (Hn : not_final j = true) by (unfold not_final; by rw Hs).
  assert (Hn' : negb (is_status StatusSucceeded j) = true) by (unfold is_status; by rw Hs).
  assert (Hkk : encode_int4 k = Ok k) by (apply encode_small; lia).
  cut (exists a j', delivery_finish None e k (process e k) now t = (Ok a, <[en_ID e := j']> t) /\
    attempt_result e k (process e k) a j').
  { intros (a & j' & E & R). exists a, j'. split; [done|]. split; [done|].
    destruct (delivery_finish_spec _ _ _ _ _ _ _ _ Hok E) as [[->|Hst] _]; [done|].
    exact (proj1 (moves_job _ _ Hst Hok)). }
  unfold delivery_finish. destruct (process e k) as [r|err].
  - destruct Hout as [H1 H2]. unfold MarkSucceeded, encode_text. cbn [with_fault ex_Message ex_OutputPath].
    rw Hkk H1 H2. cbn [mbind res_bind]. rw (update_open _ _ _ j k not_final Hok Hid Hj Hn) //; [lia|].
    by eexists _, _.
  - unfold attempt_result. destruct (IsPermanent err || _).
    + unfold MarkFailed, encode_text. cbn [with_fault]. rw Hkk Hout. cbn [mbind res_bind].
      rw (update_open _ _ _ j k _ Hok Hid Hj Hn') //; [lia|]. by eexists _, _.
    + unfold MarkRetrying, encode_text. cbn [with_fault]. rw Hkk Hout. cbn [mbind res_bind].
      rw (update_open _ _ _ j k not_final Hok Hid Hj Hn) //; [lia|]. by eexists _, _.
Qed.

Lemma run_ok m e process now n :
  carries (pg_Body m) e -> storable e process ->
  forall c t, Z.of_nat n = en_MaxAttempts e - c -> 0 <= c < en_MaxAttempts e -> table_ok t -> open_row t e ->
  exists k a t' j, c < k <= en_MaxAttempts e /\ run_message n m c process now t = Some (a, k - c, t') /\
    (forall i, c < i < k -> exists err, process e i = Err err /\ IsPermanent err = false) /\
    t' !! en_ID e = Some j /\ attempt_result e k (process e k) a j /\ a <> Reject true.
Proof.
  intros Hc Hs. induction n as [|n IH]; intros c t Hn Hr Hok Ho; [lia|]. cbn [run_message]. unfold handleDelivery.
  cbn [calm de_prepare de_mark de_now1 de_now2 de_broker reject acknowledge].
  destruct (begin_ok m e process c now t Hc Hs Hok Ho Hr) as (t1 & j1 & -> & Hok1 & Hj1 & Es1).
  destruct (finish_ok e process (c + 1) now t1 j1 Hs Hok1 Hj1 Es1) as (a & j & -> & Hres & Hok2); [lia|].
  assert (Hfin : a <> Reject true -> exists k a' t' j', c < k <= en_MaxAttempts e /\
    Some (a, 1, <[en_ID e := j]> t1) = Some (a', k - c, t') /\
    (forall i, c < i < k -> exists err, process e i = Err err /\ IsPermanent err = false) /\
    t' !! en_ID e = Some j' /\ attempt_result e k (process e k) a' j' /\ a' <> Reject true).
  { intros Ha. exists (c + 1), a, (<[en_ID e := j]> t1), j. replace (c + 1 - c) with 1 by lia.
    split; [lia|]. split; [done|]. split; [intros i Hi; lia|]. by rw lookup_insert_eq. }
  destruct a as [|[]]; [by apply Hfin| |by apply Hfin]. clear Hfin. unfold attempt_result in Hres.
  destruct (process e (c + 1)) as [r|err] eqn:Ep; [by destruct Hres|]. destruct Hres as [_ Hres].
  destruct (IsPermanent err) eqn:Ei; cbn in Hres; [by destruct Hres|].
  destruct (en_MaxAttempts e <=? c + 1) eqn:Em; [by destruct Hres|]. destruct Hres as [_ Es].
  destruct (IH (c + 1) (<[en_ID e := j]> t1)) as (k & a & t' & j' & Hk & -> & Hall & Hj' & Hres & Ha); [lia|lia|done| |].
  { intros j0 Hj0. rw lookup_insert_eq in Hj0. injection Hj0 as <-. unfold not_final. by rw Es. }
  exists k, a, t', j'. split; [lia|]. split; [by repeat f_equal; lia|]. split; [|done].
  intros i Hi. destruct (decide (i = c + 1)) as [->|Hne]; [by eexists|]. apply Hall. lia.
Qed.

(** ** Properties *)

(** C26: No job is lost and none is settled too early.  In every state the
    service reaches (any number of consumers, any interleaving, database faults,
    lost connections, lost acknowledgements and redeliveries), the published
    messages are exactly those in the queue, in progress, acknowledged or
    dead-lettered; a message was acknowledged only if its job is recorded as
    succeeded, and dead-lettered only if its job is recorded as failed, its body
    is not a valid job, or it was returned to the queue more often than the broker
    allows. *)
Theorem jobs_settled w :
  rtc wstep (mkW ∅ [] [] [] [] [] []) w ->
  w_published w ≡ₚ (w_queue w).*1 ++ (fl_msg <$> w_flight w) ++ w_acked w ++ w_dead w ++ (w_given_up w).*1 /\
  Forall (fun m => ended StatusSucceeded (w_table w) (pg_Body m)) (w_acked w) /\
  Forall (fun m => unreadable (pg_Body m) \/ ended StatusFailed (w_table w) (pg_Body m)) (w_dead w) /\
  Forall (fun mc => exists l, limit = Some l /\ l < mc.2) (w_given_up w).
Proof.
  intros Hr. assert (Hw : winv w) by (eapply winv_history; [exact Hr|]; split; cbn; try done; by apply Forall_nil_2).
  destruct Hw as [_ A D _ G P]. split_and!; [done..|]. eapply Forall_impl; [exact G|]. intros mc. unfold over_limit.
  destruct limit as [l|]; [|done]. exists l. split; [done|lia].
Qed.


(** A finished job is not processed again: when a message is delivered again
    after its job was recorded as final, and no other statement runs at that
    moment, the consumer settles it at once (acknowledged when the job succeeded,
    dead-lettered when it failed), without calling the processor and without
    touching the row. *)
Theorem final_jobs_not_reprocessed m e process c now t j :
  carries (pg_Body m) e -> storable e process -> 0 <= c < max_int32 -> t !! en_ID e = Some j ->
  Final (j_Status j) = true ->
  handleDelivery (calm now) (delivery_of m c) process t =
    (Ok tt, Some (if bool_decide (j_Status j = StatusSucceeded) then Ack else Reject false), false, t).
Proof.
  intros [Hu Hv] [Hid Hty Hmax _] Hc Hj Hf. unfold handleDelivery, delivery_begin.
  cbn [calm de_prepare de_mark de_now1 de_now2 de_broker reject acknowledge delivery_of dl_Body].
  rw delivery_attempt; [unfold max_int32, max_int64 in *; lia|]. rw Hu Hv.
  unfold PrepareAttempt, prepare_attempt, encode_text. cbn [with_fault]. rw Hid Hty. cbn [mbind res_bind].
  rw !encode_small; [lia|lia|]. cbn [mbind res_bind]. rw Hj. unfold not_final. rw Hf. cbn [negb map_err].
  case_bool_decide as E1; [done|]. case_bool_decide as E2; [done|].
  unfold Final in Hf. by rw !bool_decide_eq_false_2 in Hf.
Qed.

(** The attempt number of a delivery is one more than its delivery count, for
    every count a queue can reach; whatever the header holds, the number is
    positive, except for a count of 2^63 - 1, where the addition overflows to the
    smallest integer. *)
Theorem delivery_attempt_range :
  (forall m c, 0 <= c < max_int64 -> deliveryAttempt (dl_Headers (delivery_of m c)) = c + 1) /\
  (forall headers, int64_range (headerInt64 headers "x-delivery-count") ->
     1 <= deliveryAttempt headers <= max_int64 \/
     (headerInt64 headers "x-delivery-count" = max_int64 /\ deliveryAttempt headers = min_int64)).
Proof.
  split; [exact delivery_attempt|]. intros headers Hr. unfold deliveryAttempt.
  set (z := headerInt64 headers _) in *. unfold int64_range in Hr.
  destruct (decide (z = max_int64)) as [->|Hne]; [right; by vm_compute|left].
  destruct (Z.ltb_spec z 0); rw wrap64_id; unfold int64_range, min_int64, max_int64 in *; lia.
Qed.
End consumer.

(** ** Examples *)

Module Example.
Import JobHistory.Example.
Import Wire.

Definition body1 : string := ok_or "" (json_Marshal envelope1).
Definition message1 : Publishing := message_of envelope1 [] body1.

(** An attempt that times out, and then one that succeeds. *)
Definition second_try (_ : Envelope) (k : Z) : res Result :=
  if k <? 2 then Err (Opaque "timeout") else Ok (mkResult "expired refresh tokens cleaned" "" 7).

Lemma carries1 : carries (pg_Body message1) envelope1.
Proof. split; vm_compute; reflexivity. Qed.
Lemma storable1 : storable envelope1 second_try.
Proof.
  split; [vm_compute; reflexivity|vm_compute; reflexivity|vm_compute; split; congruence|].
  intros k. unfold second_try. by destruct (k <? 2).
Qed.
Lemma created1_ok : table_ok created1.
Proof. apply reach_ok, rtc_once, created1_step. Qed.


(** At the job that succeeded. *)
Lemma final_jobs_not_reprocessed_witness :
  handleDelivery (calm at1) (delivery_of message1 1) second_try succeeded1 = (Ok tt, Some Ack, false, succeeded1).
Proof.
  assert (Hj : exists j, succeeded1 !! en_ID envelope1 = Some j /\ j_Status j = StatusSucceeded)
    by (eexists; split; [vm_compute; reflexivity|reflexivity]).
  destruct Hj as (j & Hj & Es).
  rw (final_jobs_not_reprocessed message1 envelope1 second_try 1 at1 succeeded1 j carries1 storable1 _ Hj);
    [by vm_compute; split; congruence|by rw Es|]. by rw Es.
Defined.

Lemma begin1 : delivery_begin None (delivery_of message1 0) at1 created1 created1 =
  (Ok (Running envelope1 1), processing1).
Proof. vm_compute. reflexivity. Qed.
Definition result1 : Result := mkResult "expired refresh tokens cleaned" "" 7.
Lemma finish1 : delivery_finish None envelope1 1 (Ok result1) at1 processing1 = (Ok Ack, succeeded1).
Proof. vm_compute. reflexivity. Qed.

(** C26 at a job that is published, processed and acknowledged. *)
Lemma jobs_settled_witness :
  exists w, rtc (wstep (Some 20)) (mkW ∅ [] [] [] [] [] []) w /\ w_acked w = [message1] /\ w_queue w = [] /\
    Forall (fun m => ended StatusSucceeded (w_table w) (pg_Body m)) (w_acked w).
Proof.
  assert (Hr : rtc (wstep (Some 20)) (mkW ∅ [] [] [] [] [] []) (mkW succeeded1 [message1] [] [] [message1] [] [])).
  { eapply rtc_l; [apply (ws_table _ ∅ created1), created1_step|]. eapply rtc_l; [apply (ws_publish _ message1)|].
    eapply rtc_l; [apply (ws_begin _ None at1 created1 true message1 0 created1 [message1] [] []);
                   [apply rtc_once, created1_step|apply rtc_refl]|].
    rw begin1. cbn -[processing1 message1].
    eapply rtc_l; [apply (ws_finish _ None at1 true (Ok result1) (mkFlight message1 0 envelope1 1) processing1 [message1] [] [] [])|].
    cbn [fl_env fl_attempt fl_msg fl_count app]. rw finish1. apply rtc_refl. }
  eexists. split; [exact Hr|]. split; [reflexivity|]. split; [reflexivity|].
  exact (proj1 (proj2 (jobs_settled (Some 20) _ Hr))).
Defined.

(** A redelivery can process a finished job once more: the upsert of
    [PrepareAttempt] waits for a concurrent statement that records the success of
    the job, finds the row final and writes nothing, but the status it reports is
    read from the snapshot it began with, where the job is still processing. *)
Theorem stale_snapshot_reprocesses :
  exists snap t j, rtc jobstep ∅ snap /\ jobstep snap t /\
    t !! en_ID envelope1 = Some j /\ j_Status j = StatusSucceeded /\
    delivery_begin None (delivery_of message1 1) at1 snap t = (Ok (Running envelope1 2), t).
Proof.
  eexists processing1, succeeded1, _. split.
  { eapply rtc_l; [exact created1_step|]. apply rtc_once, jb_work.
    apply (wk_prepare _ None envelope1 1 at1 created1 StatusProcessing). vm_compute. reflexivity. }
  split.
  { apply jb_work, (wk_succeeded _ None (en_ID envelope1) 1 (mkExecution "expired refresh tokens cleaned" "" 7) at1).
    vm_compute. reflexivity. }
  split; [vm_compute; reflexivity|]. split; [reflexivity|]. vm_compute. reflexivity.
Qed.
End Example.
End Worker.
