(* ===== verification/Webhook.v ===== *)
(** The webhook sender of the job worker
    (internal/jobworker/infrastructure/webhook/sender.go): the guard against
    requests to internal addresses, and the classification of responses.

    The resolver, the URL parser and the HTTP transport are inputs; addresses are
    the byte slices of net.IP, with the predicates of the standard library. *)
From Stdlib Require Import Ascii ZArith Lia.
From Corelib Require Import ssreflect.
From stdpp Require Import base gmap strings list numbers pretty.
From S2P Require Import Prelude GoStrings GoTime GoEncoding GoNet Events Postgres Jobs JobHistory JobWorker.

#[local] Open Scope Z_scope.

Module Webhook.
Import Jobs Worker.

Definition ErrInvalidURL : error := Sentinel "webhook.ErrInvalidURL" "invalid webhook url".
Definition ErrInvalidMethod : error := Sentinel "webhook.ErrInvalidMethod" "invalid webhook method".
Definition ErrBlockedTarget : error := Sentinel "webhook.ErrBlockedTarget" "webhook target is blocked".
Definition ErrUnexpectedStatus : error :=
  Sentinel "webhook.ErrUnexpectedStatus" "unexpected webhook response status".
Definition ErrNonRetryableStatus : error :=
  Sentinel "webhook.ErrNonRetryableStatus" "non-retryable webhook response status".

(** ** Addresses (net.IP) *)

Abbreviation IP := (list Z).

Definition zeros (n : nat) : list Z := replicate n 0.

(** [To4]: the IPv4 address of a 4-byte slice or of a v4-mapped 16-byte one. *)
Definition To4 (ip : IP) : option IP :=
  if bool_decide (length ip = 4%nat) then Some ip
  else if bool_decide (length ip = 16%nat) && bool_decide (take 12 ip = zeros 10 ++ [255; 255]) then Some (drop 12 ip)
  else None.

Definition byte (ip : IP) (i : nat) : Z := nth i ip 0.
Definition len16 (ip : IP) : bool := bool_decide (length ip = 16%nat).

Definition IsUnspecified (ip : IP) : bool :=
  bool_decide (To4 ip = Some (zeros 4)) || bool_decide (ip = zeros 16).
Definition IsLoopback (ip : IP) : bool :=
  match To4 ip with
  | Some ip4 => byte ip4 0 =? 127
  | None => bool_decide (ip = zeros 15 ++ [1])
  end.
Definition IsPrivate (ip : IP) : bool :=
  match To4 ip with
  | Some ip4 => (byte ip4 0 =? 10) || ((byte ip4 0 =? 172) && (Z.land (byte ip4 1) 240 =? 16)) ||
                ((byte ip4 0 =? 192) && (byte ip4 1 =? 168))
  | None => len16 ip && (Z.land (byte ip 0) 254 =? 252)
  end.
Definition IsMulticast (ip : IP) : bool :=
  match To4 ip with
  | Some ip4 => Z.land (byte ip4 0) 240 =? 224
  | None => len16 ip && (byte ip 0 =? 255)
  end.
Definition IsLinkLocalUnicast (ip : IP) : bool :=
  match To4 ip with
  | Some ip4 => (byte ip4 0 =? 169) && (byte ip4 1 =? 254)
  | None => len16 ip && (byte ip 0 =? 254) && (Z.land (byte ip 1) 192 =? 128)
  end.
Definition IsLinkLocalMulticast (ip : IP) : bool :=
  match To4 ip with
  | Some ip4 => (byte ip4 0 =? 224) && (byte ip4 1 =? 0) && (byte ip4 2 =? 0)
  | None => len16 ip && (byte ip 0 =? 255) && (Z.land (byte ip 1) 15 =? 2)
  end.

Definition blockedIP (ip : IP) : bool :=
  IsLoopback ip || IsPrivate ip || IsUnspecified ip || IsMulticast ip || IsLinkLocalUnicast ip ||
  IsLinkLocalMulticast ip.

Definition retryableStatus (statusCode : Z) : bool :=
  (statusCode =? 408) || (statusCode =? 425) || (statusCode =? 429) || (500 <=? statusCode).

(** ** Sender *)

(** [New]: the allowed hosts, trimmed and lowered, without blank ones. *)
Definition New_allowedHosts `{UnicodeTables} (hosts : list string) : gset string :=
  foldl (fun allowed host =>
    let host := ToLower (TrimSpace host) in
    if bool_decide (host = "") then allowed else {[ host ]} ∪ allowed) ∅ hosts.

(** What the sender calls: net.ParseIP, the resolver, http.NewRequest, IP.String,
    and strings.EqualFold. *)
Class WebhookNet := {
  ParseIP : string -> option IP;
  LookupIPAddr : string -> res (list IP);
  http_NewRequest : string -> string -> string -> res unit;
  ip_String : IP -> string;
  EqualFold : string -> string -> bool;
}.

Section sender.
Context `{NetURL} `{UnicodeTables} `{WebhookNet}.
Context (allowedHosts : gset string).

Definition resolveTarget (rawURL : string) : res (URL * list IP) :=
  match url_Parse (TrimSpace rawURL) with
  | Err _ => Err (Permanent ErrInvalidURL)
  | Ok target =>
    if bool_decide (url_Hostname target = "") ||
       (negb (bool_decide (u_Scheme target = "http")) && negb (bool_decide (u_Scheme target = "https"))) ||
       u_User target then Err (Permanent ErrInvalidURL)
    else
      let host := ToLower (url_Hostname target) in
      let explicitlyAllowed := bool_decide (host ∈ allowedHosts) in
      addresses ←
        match ParseIP host with
        | Some parsed => Ok [parsed]
        | None => map_err (wrapf "resolve webhook host") (LookupIPAddr host)
        end;
      if bool_decide (addresses = []) then Err (Opaque "resolve webhook host: no addresses")
      else if negb explicitlyAllowed then
        match List.find blockedIP addresses with
        | Some address =>
          Err (Permanent (Wrap (Error ErrBlockedTarget +:+ ": " +:+ ip_String address) [ErrBlockedTarget]))
        | None => Ok (target, addresses)
        end
      else Ok (target, addresses)
  end.

(** [fixedDialer]: dial the resolved addresses in order until one connects,
    whatever name the transport asks for.  [dial] is the outcome of a connection;
    the second component is every address that was dialled. *)
Fixpoint dial_first (dial : IP -> string -> res unit) (port : string) (addresses : list IP) (lastError : error)
    : res unit * list IP :=
  match addresses with
  | [] => (Err (wrapf "dial webhook target" lastError), [])
  | ip :: rest =>
    match dial ip port with
    | Ok _ => (Ok tt, [ip])
    | Err err => let '(r, l) := dial_first dial port rest err in (r, ip :: l)
    end
  end.

Definition fixedDialer (expectedHost : string) (addresses : list IP) (dial : IP -> string -> res unit)
    (address : string) : res unit * list IP :=
  match SplitHostPort address with
  | Err e => (Err e, [])
  | Ok (host, port) =>
    if negb (EqualFold host expectedHost) then
      (Err (Permanent (Wrap (Error ErrBlockedTarget +:+ ": unexpected redirect host " +:+ strconv_Quote host)
                         [ErrBlockedTarget])), [])
    else dial_first dial port addresses (Opaque "")
  end.

(** The transport: the addresses it asks the dialer for, the outcome of dialling
    them, and the status or the error a request (its method, URL, headers and body)
    ends with. *)
Record exchange := mkExchange {
  xc_dials : list string; xc_dial : IP -> string -> res unit;
  xc_response : string -> string -> Header -> string -> res Z
}.

(** The request headers: those of the payload (their order does not matter after
    canonicalisation of distinct names), a content type for a body without one,
    and the user agent of the worker. *)
Definition request_headers (p : WebhookPayload) : Header :=
  let h := map_fold (fun name value h => Header_Set h name value) ∅ (wp_Headers p) in
  let h := if (0 <? len (wp_Body p)) && bool_decide (Header_Get h "Content-Type" = "") then
             Header_Set h "Content-Type" "application/json" else h in
  Header_Set h "User-Agent" "EdgeGuard-Notification-Worker/1.0".

(** [Deliver]: its result and every address that was dialled. *)
Definition Deliver (x : exchange) (payload : WebhookPayload) : res unit * list IP :=
  match resolveTarget (wp_URL payload) with
  | Err err => (Err err, [])
  | Ok (target, addresses) =>
    let method := ToUpper (TrimSpace (wp_Method payload)) in
    if negb (method_allowed method) then (Err (Permanent ErrInvalidMethod), [])
    else match http_NewRequest method (url_String target) (wp_Body payload) with
         | Err err => (Err (Permanent (wrapf "create webhook request" err)), [])
         | Ok _ =>
           let dialled := concat (map (fun a => (fixedDialer (url_Hostname target) addresses (xc_dial x) a).2) (xc_dials x)) in
           (match xc_response x method (url_String target) (request_headers payload) (wp_Body payload) with
            | Err err => Err (wrapf "deliver webhook" err)
            | Ok status =>
              if (200 <=? status) && (status <? 300) then Ok tt
              else if retryableStatus status then
                Err (Wrap (Error ErrUnexpectedStatus +:+ ": status=" +:+ Itoa status) [ErrUnexpectedStatus])
              else Err (Permanent (Wrap (Error ErrNonRetryableStatus +:+ ": status=" +:+ Itoa status)
                                     [ErrNonRetryableStatus]))
            end, dialled)
         end
  end.

(** ** Lemmas *)

Lemma dial_first_from dial port addresses e : Forall (fun ip => ip ∈ addresses) (dial_first dial port addresses e).2.
Proof.
  revert e. induction addresses as [|ip l IH]; intros e; cbn; [apply Forall_nil_2|]. destruct (dial ip port) as [|err]; cbn.
  - apply Forall_cons. split; [set_solver|apply Forall_nil_2].
  - specialize (IH err). destruct (dial_first dial port l err) as [r m]. cbn in *. apply Forall_cons. split; [set_solver|].
    eapply Forall_impl; [exact IH|]. set_solver.
Qed.

Lemma fixedDialer_from host addresses dial a : Forall (fun ip => ip ∈ addresses) (fixedDialer host addresses dial a).2.
Proof.
  unfold fixedDialer. destruct (SplitHostPort a) as [[h p]|]; [|apply Forall_nil_2]. destruct (negb _); [apply Forall_nil_2|]. apply dial_first_from.
Qed.

(** The addresses a resolved target may be reached at. *)
Lemma resolveTarget_Ok rawURL target addresses :
  resolveTarget rawURL = Ok (target, addresses) ->
  url_Parse (TrimSpace rawURL) = Ok target /\ u_User target = false /\
  (u_Scheme target = "http" \/ u_Scheme target = "https") /\
  (ToLower (url_Hostname target) ∈ allowedHosts \/ Forall (fun ip => blockedIP ip = false) addresses).
Proof.
  unfold resolveTarget. destruct (url_Parse _) as [t|]; [|done].
  destruct (_ || _ || _) eqn:Eg; [done|]. apply orb_false_iff in Eg as [Eg Hu]. apply orb_false_iff in Eg as [_ Hs].
  destruct (match ParseIP _ with Some _ => _ | None => _ end) as [l|]; [|done]. cbn [mbind res_bind].
  destruct (bool_decide (l = [])); [done|]. assert (Hsch : u_Scheme t = "http" \/ u_Scheme t = "https").
  { apply andb_false_iff in Hs as [Hs|Hs]; apply negb_false_iff, bool_decide_eq_true_1 in Hs; auto. }
  clear Hs. case_bool_decide as Ha; cbn [negb].
  - intros [= <- <-]. by auto.
  - destruct (List.find blockedIP l) eqn:Ef; [done|]. intros [= <- <-]. do 3 (split; [done|]). right.
    apply list.Forall_forall. intros ip Hip. eapply List.find_none in Ef; [exact Ef|]. by apply list_elem_of_In.
Qed.

(** ** Properties *)

End sender.

(** The numeric value of an IPv4 address. *)
Definition ipv4_number (a b c d : Z) : Z := ((a * 256 + b) * 256 + c) * 256 + d.
Definition octet (z : Z) : Prop := 0 <= z < 256.

(** CIDR blocks of IPv4, as ranges of numbers. *)
Definition in_block (n base bits : Z) : Prop := base <= n < base + 2 ^ (32 - bits).

(** A check of all octets. *)
Lemma octets (P : Z -> bool) : forallb P (seqZ 0 256) = true -> forall z, octet z -> P z = true.
Proof.
  intros Hall z Hz. pose proof (proj1 (forallb_forall P (seqZ 0 256)) Hall z) as Hp. apply Hp.
  apply list_elem_of_In, elem_of_seqZ. unfold octet in Hz. lia.
Qed.

Lemma land_172 z : octet z -> (Z.land z 240 =? 16) = (16 <=? z) && (z <? 32).
Proof.
  intros Hz. apply eqb_prop. refine (octets (fun z => Bool.eqb (Z.land z 240 =? 16) ((16 <=? z) && (z <? 32))) _ z Hz).
  vm_compute. reflexivity.
Qed.
Lemma land_224 z : octet z -> (Z.land z 240 =? 224) = (224 <=? z) && (z <? 240).
Proof.
  intros Hz. apply eqb_prop. refine (octets (fun z => Bool.eqb (Z.land z 240 =? 224) ((224 <=? z) && (z <? 240))) _ z Hz).
  vm_compute. reflexivity.
Qed.

(** The blocked IPv4 addresses are exactly the unspecified address and the
    blocks 10/8, 127/8, 169.254/16, 172.16/12, 192.168/16 and 224/4, for an address
    of four bytes as for the same address in IPv6-mapped form. *)
Theorem blocked_ipv4 (a b c d : Z) :
  octet a -> octet b -> octet c -> octet d ->
  let n := ipv4_number a b c d in
  blockedIP (zeros 10 ++ [255; 255; a; b; c; d]) = blockedIP [a; b; c; d] /\
  (blockedIP [a; b; c; d] = true <->
   n = 0 \/ in_block n (ipv4_number 10 0 0 0) 8 \/ in_block n (ipv4_number 127 0 0 0) 8 \/
   in_block n (ipv4_number 169 254 0 0) 16 \/ in_block n (ipv4_number 172 16 0 0) 12 \/
   in_block n (ipv4_number 192 168 0 0) 16 \/ in_block n (ipv4_number 224 0 0 0) 4).
Proof.
  intros Ha Hb Hc Hd n. split.
  - assert (E : To4 (zeros 10 ++ [255; 255; a; b; c; d]) = To4 [a; b; c; d]) by done.
    unfold blockedIP, IsLoopback, IsPrivate, IsUnspecified, IsMulticast, IsLinkLocalUnicast, IsLinkLocalMulticast.
    rw E. cbn [To4 length]. f_equal. f_equal. f_equal. f_equal.
    rw (bool_decide_eq_false_2 (zeros 10 ++ _ = zeros 16)); [by cbn|].
    rw (bool_decide_eq_false_2 ([a; b; c; d] = zeros 16)); [by cbn|]. done.
  - unfold blockedIP, IsLoopback, IsPrivate, IsUnspecified, IsMulticast, IsLinkLocalUnicast, IsLinkLocalMulticast.
    change (To4 [a; b; c; d]) with (Some [a; b; c; d]). cbn [byte nth].
    rw (bool_decide_eq_false_2 ([a; b; c; d] = zeros 16)); [by cbn|]. rw (land_172 b Hb) (land_224 a Ha).
    assert (Hz : bool_decide (Some [a; b; c; d] = Some (zeros 4)) = (a =? 0) && (b =? 0) && (c =? 0) && (d =? 0)).
    { cbn. case_bool_decide as E; [injection E as -> -> -> ->; done|].
      destruct (Z.eqb_spec a 0) as [->|]; [|done]. destruct (Z.eqb_spec b 0) as [->|]; [|done].
      destruct (Z.eqb_spec c 0) as [->|]; [|done]. destruct (Z.eqb_spec d 0) as [->|]; [|done]. done. }
    rw Hz. subst n. unfold in_block, ipv4_number, octet in *. cbn. lia.
Qed.

(** ** Examples *)

Module Example.
#[local] Existing Instance plain_url.
#[local] Instance ascii_tables : UnicodeTables := {| unicode_lower s := s; unicode_upper s := s; strconv_Quote s := s |}.
#[local] Instance some_json : JSONText := {| json_Valid s := negb (bool_decide (s = "")) |}.

(** At 172.20.1.2. *)
Lemma blocked_ipv4_witness : blockedIP [172; 20; 1; 2] = true.
Proof.
  apply (blocked_ipv4 172 20 1 2); [by split..|]. do 4 right. left. unfold in_block, ipv4_number. cbn. lia.
Defined.

(** A name that resolves to a public and to a private address. *)
#[local] Instance two_faces : WebhookNet := {|
  ParseIP _ := None;
  LookupIPAddr host := if bool_decide (host = "rebind.example") then Ok [[8; 8; 8; 8]; [10; 0; 0; 1]] else Ok [[8; 8; 8; 8]];
  http_NewRequest _ _ _ := Ok tt;
  ip_String _ := "ip";
  EqualFold s t := bool_decide (s = t);
|}.
Definition answer200 : exchange := mkExchange ["hooks.example:443"; "10.0.0.1:443"] (fun _ _ => Ok tt) (fun _ _ _ _ => Ok 200).

(** The transport asks for the host and then for another one: only the resolved
    address is dialled. *)
Example deliver_public :
  Deliver ∅ answer200 (mkWebhook "https://hooks.example/x" "POST" ∅ "") = (Ok tt, [[8; 8; 8; 8]]).
Proof. vm_compute. reflexivity. Qed.
Example deliver_rebinding :
  (Deliver ∅ answer200 (mkWebhook "https://rebind.example/x" "POST" ∅ "")).2 = [] /\
  exists err, (Deliver ∅ answer200 (mkWebhook "https://rebind.example/x" "POST" ∅ "")).1 = Err err /\ IsPermanent err = true.
Proof. split; [vm_compute; reflexivity|]. eexists. split; vm_compute; reflexivity. Qed.

(** A URL with credentials is accepted at submission and always refused by the
    worker. *)
Definition credentials1 : WebhookPayload := mkWebhook "https://user@hooks.example/x" "POST" ∅ "".
Example credentials_never_delivered :
  NewWebhookPayload "https://user@hooks.example/x" "POST" ∅ "" = Ok credentials1 /\
  Deliver ∅ answer200 credentials1 = (Err (Permanent ErrInvalidURL), []).
Proof. split; [reflexivity|vm_compute; reflexivity]. Qed.
End Example.
End Webhook.
