(* ===== verification/JobContract.v ===== *)
(** The contract between the API that accepts jobs and the worker that processes them:
    what is written as JSON on one side is, after the way through RabbitMQ, the payload the
    other side works with. *)
From Stdlib Require Import Ascii ZArith Lia.
From Corelib Require Import ssreflect.
From stdpp Require Import base gmap strings list numbers pretty.
From S2P Require Import Prelude GoStrings GoTime GoEncoding GoNet GoDate GoJSON JSONFacts Events Postgres Jobs Wire JobHistory JobWorker.

#[local] Open Scope Z_scope.

Module Contract.
Import Jobs Worker Wire JSONFacts.

Section contract.
Context `{NetURL} `{UnicodeTables}.

Lemma submit_envelope_payload ty pj mx idr now e :
  submit_envelope ty pj mx idr now = Ok e ->
  pj = Ok (en_Payload e) /\ en_Type e = ty /\ len (en_Payload e) <> 0 /\ json_Valid (en_Payload e) = true.
Proof.
  unfold submit_envelope. destruct (NormalizeMaxAttempts mx); [|done]. cbn [mbind res_bind].
  destruct (map_err _ (NewID idr)); [|done]. cbn [mbind res_bind]. unfold NewEnvelope.
  destruct pj as [s|]; [|done]. destruct (envelope_Validate _) as [[]|] eqn:Ev; [|done]. cbn [map_err]. intros [= <-].
  cbn [en_Payload en_Type]. split; [done|]. split; [done|]. revert Ev. unfold envelope_Validate. cbn [en_Payload].
  repeat (match goal with |- context [if ?c then _ else _] => destruct c eqn:? end; try done).
  intros _. match goal with E : _ || _ = false |- _ => apply orb_false_iff in E as [E1 E2] end.
  apply negb_false_iff in E2. by destruct (Z.eqb_spec (len s) 0).
Qed.

Lemma method_allowed_cases m : method_allowed m = true -> m = "POST" \/ m = "PUT" \/ m = "PATCH".
Proof. unfold method_allowed. repeat case_bool_decide; auto. done. Qed.

Lemma decodePayload_ok {A} `{JSONCodec A} (a : A) s :
  compact s -> json_Unmarshal s = Ok a -> len s <> 0 -> decodePayload s = Ok a.
Proof.
  intros Hc Hu Hl. unfold decodePayload. cbn [json_Valid json_text]. rw (compact_Valid s Hc) Hu.
  destruct (Z.eqb_spec (len s) 0); done.
Qed.

(** What passes the validation of the API is fit for the wire, up to its free texts. *)
Lemma accepted_webhook rawURL method headers body p :
  NewWebhookPayload rawURL method headers body = Ok p -> wp_Method p = "POST" \/ wp_Method p = "PUT" \/ wp_Method p = "PATCH".
Proof.
  unfold NewWebhookPayload. destruct (url_ParseRequestURI _); [|done]. destruct (_ || _); [done|].
  destruct (method_allowed _) eqn:Ea; [|done]. cbn [negb]. destruct (_ && _); [done|]. intros [= <-].
  exact (method_allowed_cases _ Ea).
Qed.
Lemma accepted_report projectID from to format p :
  NewReportPayload projectID from to format = Ok p ->
  IsZero (rp_From p) || IsZero (rp_To p) || negb (Before (rp_From p) (rp_To p)) = false /\
  (rp_Format p = "json" \/ rp_Format p = "csv").
Proof.
  unfold NewReportPayload. case_bool_decide; [done|]. destruct (_ || negb (Before _ _)) eqn:Er; [done|].
  destruct (negb _ && negb _) eqn:Ef; [done|]. intros [= <-]. cbn [rp_From rp_To rp_Format]. split; [done|].
  apply andb_false_iff in Ef as [Ef|Ef]; apply negb_false_iff, bool_decide_eq_true_1 in Ef; rw Ef; [by left|by right].
Qed.
Lemma accepted_report_safe projectID from to format p :
  NewReportPayload projectID from to format = Ok p -> utf8_valid (rp_ProjectID p) = true -> report_safe p.
Proof. intros [_ Hf]%accepted_report Hu. split; [done|]. by destruct Hf as [->| ->]. Qed.

Definition webhook_texts (p : WebhookPayload) : Prop :=
  utf8_valid (wp_URL p) = true /\
  forall k v, wp_Headers p !! k = Some v -> utf8_valid k = true /\ utf8_valid v = true.

End contract.

(** ** Examples *)

Module Example.
#[local] Existing Instance plain_url.
#[local] Instance texts : UnicodeTables := {| unicode_lower s := s; unicode_upper s := s; strconv_Quote s := s |}.

Definition t1 : Z := unix_epoch + Hour.
Definition text1 : string := "[ 1 , true ]".
Definition webhook1 : WebhookPayload := mkWebhook "https://hooks.example/x" "PUT" {["X-Event" := "paid"]} text1.
Definition sender : ports :=
  mkPorts (fun p => Err (Opaque (wp_Body p))) (fun _ _ => Ok ("out", 1)) (fun _ => Ok 7).
Definition webhook_envelope : Envelope :=
  ok_or (mkEnvelope 0 "" "" 0 0 0 "") (submit_envelope TypeWebhookDeliver (json_Marshal webhook1) 0 (Ok "id") t1).

Lemma webhook1_texts : webhook_texts webhook1.
Proof.
  split; [reflexivity|]. cbn [wp_Headers webhook1]. intros k v. rw lookup_singleton_Some. intros [<- <-]. split; reflexivity.
Qed.

End Example.
End Contract.
