(* ===== verification/Cleanup.v ===== *)
(** The token cleaner of the job worker (jobworker/infrastructure/postgres/cleanup.go)
    on the refresh tokens of the auth service, and what clients of that service see
    of a cleanup. *)
From Stdlib Require Import Ascii ZArith Lia.
From Corelib Require Import ssreflect.
From stdpp Require Import base gmap strings list numbers relations pretty.
From S2P Require Import Prelude GoStrings GoTime GoEncoding GoNet Events Postgres AuthSecurity Auth AuthHistory Jobs.

#[local] Open Scope Z_scope.

Module Cleanup.
Import Security Auth History Jobs.

Definition negative_limit : error := PgError "2201W" "" "LIMIT must not be negative".

(** expires_at < $1 OR (revoked_at IS NOT NULL AND revoked_at < $1). *)
Definition expired (before : Z) (t : RefreshToken) : bool :=
  (t_ExpiresAt t <? before) || match t_RevokedAt t with Some at_ => at_ <? before | None => false end.

Section cleaner.
Context `{PgUUIDLaws} `{PgText}.
(** Which of two tokens made at the same instant comes first. *)
Context (tie : RefreshToken -> RefreshToken -> bool).

Definition oldest_first (a b : RefreshToken) : bool :=
  (t_CreatedAt a <? t_CreatedAt b) || ((t_CreatedAt a =? t_CreatedAt b) && tie a b).

Definition candidates (before batchSize : Z) (l : list RefreshToken) : list RefreshToken :=
  take (Z.to_nat batchSize) (order_by oldest_first (List.filter (expired before) l)).

(** DELETE ... USING candidates: the rows that stay. *)
Definition survivors (chosen l : list RefreshToken) : list RefreshToken :=
  List.filter (fun t => negb (bool_decide (t_ID t ∈ (t_ID <$> chosen)))) l.

Definition delete_expired (before batchSize : Z) (d : adb) : res (Z * adb) :=
  if batchSize <? 0 then Err negative_limit
  else
    let rest := survivors (candidates (pg_time before) batchSize (tokens d)) (tokens d) in
    Ok (Z.of_nat (length (tokens d)) - Z.of_nat (length rest), set_tokens rest d).

Definition CleanupExpiredTokens (f : fault) (payload : CleanupPayload) (d : adb) : res (Z * adb) :=
  map_err (wrapf "delete expired refresh tokens") (with_fault f (delete_expired (cp_Before payload) (cp_BatchSize payload) d)).

(** ** Lemmas *)

Lemma candidates_expired before n l t :
  t ∈ candidates before n l -> t ∈ l /\ expired before t = true.
Proof.
  unfold candidates. intros Ht. apply (subseteq_take _ _ _) in Ht. rw order_by_perm in Ht.
  apply list_elem_of_In, filter_In in Ht as [Hl He]. by rw list_elem_of_In.
Qed.

Lemma candidates_length before n l :
  length (candidates before n l) = Nat.min (Z.to_nat n) (length (List.filter (expired before) l)).
Proof. unfold candidates. by rw length_take order_by_perm. Qed.

Lemma survivors_elem chosen l t : t ∈ survivors chosen l <-> t ∈ l /\ (t_ID t ∉ (t_ID <$> chosen)).
Proof.
  unfold survivors. rw list_elem_of_In filter_In negb_true_iff -list_elem_of_In. by rw bool_decide_eq_false.
Qed.

(** Rows with unique ids: exactly the chosen ones go. *)
Lemma survivors_perm chosen l :
  NoDup (t_ID <$> l) -> NoDup chosen -> chosen ⊆ l -> l ≡ₚ chosen ++ survivors chosen l.
Proof.
  intros Hl Hc Hsub. assert (Hnd : NoDup l) by (by eapply NoDup_fmap_1).
  assert (Hid : forall a b, a ∈ l -> b ∈ l -> t_ID a = t_ID b -> a = b).
  { intros a b Ha Hb E. apply list_elem_of_lookup in Ha as [i Hi]. apply list_elem_of_lookup in Hb as [j Hj].
    assert (i = j) as -> by (by eapply (unique_row t_ID)). congruence. }
  apply NoDup_Permutation; [done| |].
  - apply NoDup_app. split; [done|]. split.
    + intros t Hc' [_ Hn]%survivors_elem. apply Hn. by apply list_elem_of_fmap_2.
    + unfold survivors. by apply NoDup_ListNoDup, List.NoDup_filter, NoDup_ListNoDup.
  - intros t. rw elem_of_app survivors_elem. split.
    + intros Ht. destruct (decide (t_ID t ∈ (t_ID <$> chosen))) as [Hin|]; [left|by right].
      apply list_elem_of_fmap_1 in Hin as (b & Eb & Hb). by rw (Hid t b Ht (Hsub _ Hb) Eb).
    + intros [Ht|[Ht _]]; [by apply Hsub|done].
Qed.

Lemma cleanup_Ok f payload d n d' :
  wf d -> CleanupExpiredTokens f payload d = Ok (n, d') ->
  exists removed, tokens d ≡ₚ removed ++ tokens d' /\ d' = set_tokens (tokens d') d /\
    tokens d' = survivors removed (tokens d) /\ n = Z.of_nat (length removed) /\
    Forall (fun t => t ∈ tokens d /\ expired (pg_time (cp_Before payload)) t = true) removed /\
    n = Z.min (cp_BatchSize payload)
          (Z.of_nat (length (List.filter (expired (pg_time (cp_Before payload))) (tokens d)))).
Proof.
  intros Hwf [_ E]%map_err_Ok%with_fault_Ok. revert E. unfold delete_expired.
  destruct (Z.ltb_spec (cp_BatchSize payload) 0); [done|]. intros [= <- <-]. cbn [tokens].
  set (chosen := candidates _ _ _).
  assert (Hel : forall t, t ∈ chosen -> t ∈ tokens d /\ expired (pg_time (cp_Before payload)) t = true)
    by (intros t; apply candidates_expired).
  assert (Hnd : NoDup chosen).
  { unfold chosen, candidates. eapply sublist_NoDup; [|apply sublist_take]. rw order_by_perm.
    apply NoDup_ListNoDup, List.NoDup_filter, NoDup_ListNoDup. eapply NoDup_fmap_1. by apply wf_token_ids. }
  pose proof (survivors_perm chosen (tokens d) (wf_token_ids _ Hwf) Hnd (fun t Ht => proj1 (Hel t Ht))) as Hp.
  assert (Hlen : Z.of_nat (length (tokens d)) - Z.of_nat (length (survivors chosen (tokens d))) = Z.of_nat (length chosen)).
  { rw {1}Hp length_app. lia. }
  exists chosen. rw Hlen. split; [done|]. do 3 (split; [done|]). split; [by apply list.Forall_forall|].
  unfold chosen. rw candidates_length. lia.
Qed.

(** A lookup by hash finds a survivor or nothing. *)
Lemma find_survivors chosen l h :
  NoDup (t_TokenHash <$> l) ->
  List.find (fun t => bool_decide (t_TokenHash t = h)) (survivors chosen l) =
  t ← List.find (fun t => bool_decide (t_TokenHash t = h)) l;
  if bool_decide (t_ID t ∈ (t_ID <$> chosen)) then None else Some t.
Proof.
  unfold survivors. induction l as [|t l IH]; [done|]. cbn. intros [Hn Hl]%NoDup_cons.
  destruct (bool_decide (t_TokenHash t = h)) eqn:E; [|by destruct (negb _); cbn; rw ?E; auto].
  cbn. destruct (bool_decide (t_ID t ∈ _)) eqn:Ei; cbn; [|by rw E].
  rw IH //. destruct (List.find _ l) as [t'|] eqn:Ef; [|done]. apply List.find_some in Ef as [Hin E'].
  apply bool_decide_eq_true_1 in E, E'. destruct Hn. apply list_elem_of_In in Hin. rw E -E'. by apply list_elem_of_fmap_2.
Qed.

Lemma expired_inactive before now t : expired before t = true -> before <= now -> token_IsActive t now = false.
Proof.
  unfold expired, token_IsActive, Before. destruct (t_RevokedAt t); [done|]. rw orb_false_r. lia.
Qed.

End cleaner.

(** ** Examples *)

Module Example.
#[local] Instance ascii_lower : PgText := {| pg_lower := smap lower_byte |}.
#[local] Instance null_jwt : JWT := {| jwt_sign _ _ := Ok "jwt"; jwt_parse _ _ _ _ _ := Err (Opaque "invalid") |}.

Definition now1 : Z := unix_epoch + 1000 * Hour.
Definition user1 : User :=
  mkUser "33333333-3333-3333-3333-333333333333" "user@example.com" "hash" RoleMember true now1 now1.
Definition token (id raw : string) (expires : Z) (revoked : option Z) : RefreshToken :=
  mkToken id (u_ID user1) (HashRefreshToken raw) expires revoked (now1 - Hour).
Definition t_old := token "44444444-4444-4444-4444-444444444444" "old" (now1 - Minute) None.
Definition t_out := token "55555555-5555-5555-5555-555555555555" "out" (now1 + Hour) (Some (now1 - Minute)).
Definition t_live := token "66666666-6666-6666-6666-666666666666" "live" (now1 + Hour) None.
Definition d1 : adb := mkADB [] [user1] [t_live; t_old; t_out] [].
Definition first (a b : RefreshToken) : bool := true.
Definition clean_now : CleanupPayload := mkCleanup now1 500.

Lemma wf_d1 : wf d1.
Proof.
  split;
    [by constructor|by constructor|apply Forall_nil_2|apply Forall_nil_2
    |refine (bool_decide_unpack _ _); vm_compute; exact I|refine (bool_decide_unpack _ _); vm_compute; exact I|
    |apply NoDup_singleton|apply NoDup_singleton|];
    repeat (apply Forall_cons; split; [vm_compute; reflexivity|]); apply Forall_nil_2.
Qed.


(** The time of a cleanup is taken from the client as it is: one in the future
    removes tokens that are neither expired nor revoked. *)
Example future_cleanup_ends_sessions :
  exists p d', NewCleanupPayload (now1 + 24 * Hour) 0 = Ok p /\ CleanupExpiredTokens first None p d1 = Ok (3, d') /\
  token_IsActive t_live now1 = true /\ tokens d' = [].
Proof. do 2 eexists. split; [vm_compute; reflexivity|]. split; [vm_compute; reflexivity|]. by vm_compute. Qed.
End Example.
End Cleanup.
