(* ===== verification/Analytics.v ===== *)
(** The analytics service (internal/analytics): ingestion of access events from
    Kafka into PostgreSQL with hourly aggregation (migration 000004), the queries
    over the aggregates, and the HTTP handlers.

    The tables are the stored events in insertion order and a map from the primary
    key of the aggregates to their counters; a consumer works on a log of records
    with a committed offset. *)
From Stdlib Require Import Ascii ZArith Lia String.
From Corelib Require Import ssreflect.
From stdpp Require Import base gmap strings list numbers relations pretty.
From S2P Require Import Prelude GoStrings GoTime GoEncoding GoNet GoDate GoConv Events Postgres.

#[local] Open Scope Z_scope.

Module Analytics.

(** ** Domain and errors *)

Definition uerr (n t : string) : error := Sentinel ("analytics/usecase." +:+ n) t.
Definition ErrInvalidGatewayAccessEvent := uerr "ErrInvalidGatewayAccessEvent" "invalid gateway access event".
Definition ErrInvalidProjectID := uerr "ErrInvalidProjectID" "invalid project id".
Definition ErrInvalidTimeRange := uerr "ErrInvalidTimeRange" "invalid analytics time range".
Definition ErrAnalyticsRangeTooLarge := uerr "ErrAnalyticsRangeTooLarge" "analytics time range exceeds 90 days".
Definition ErrInvalidLimit := uerr "ErrInvalidLimit" "invalid analytics limit".

Record IngestionResult := mkIngestion { ir_Duplicate : bool; ir_Aggregated : bool }.

Record RouteStatsFilter := mkFilter {
  rf_ProjectID : string; rf_From : Z; rf_To : Z; rf_RouteName : string; rf_Method : string
}.

(** Averages are kept as the exact quotient: sum of durations over requests. *)
Record RouteStatsSummary := mkSummary {
  sm_RequestCount : Z; sm_Status1xx : Z; sm_Status2xx : Z; sm_Status3xx : Z; sm_Status4xx : Z; sm_Status5xx : Z;
  sm_RateLimited : Z; sm_Average : Z * Z; sm_MaxDurationMS : Z; sm_TotalResponseBytes : Z
}.

Record RouteStatsHourly := mkHourly {
  hr_BucketStart : Z; hr_RouteName : string; hr_RoutePathPrefix : string; hr_Method : string;
  hr_RequestCount : Z; hr_Status1xx : Z; hr_Status2xx : Z; hr_Status3xx : Z; hr_Status4xx : Z; hr_Status5xx : Z;
  hr_RateLimited : Z; hr_Average : Z * Z; hr_MaxDurationMS : Z; hr_TotalResponseBytes : Z
}.

(** ** Tables *)

(** A row of gateway_access_events; absent texts are NULL. *)
Record stored := mkStored {
  so_EventID : string; so_SchemaVersion : Z; so_OccurredAt : Z; so_RequestID : string;
  so_ProjectID : option string; so_RouteName : option string; so_RoutePathPrefix : option string;
  so_Method : string; so_RequestPath : string; so_StatusCode : Z; so_DurationMS : Z; so_ResponseBytes : Z;
  so_ClientType : string; so_ClientID : string; so_AuthRequired : bool; so_RateLimitEnabled : bool; so_RateLimited : bool
}.

(** The primary key of gateway_route_stats_hourly: bucket, project, route, prefix
    and method. *)
Abbreviation stats_key := (Z * string * string * string * string)%type.

Record counters := mkCounters {
  ct_requests : Z; ct_1xx : Z; ct_2xx : Z; ct_3xx : Z; ct_4xx : Z; ct_5xx : Z; ct_limited : Z;
  ct_duration : Z; ct_max_duration : Z; ct_bytes : Z
}.

Record db := mkDB { events : list stored; stats : gmap stats_key counters }.

(** ** Ingestion (infrastructure/postgres/gateway_access.go) *)

Record statusCounts := mkStatus { status1xx : Z; status2xx : Z; status3xx : Z; status4xx : Z; status5xx : Z }.

Definition statusClassCounts (statusCode : Z) : statusCounts :=
  let class := Z.quot statusCode 100 in
  mkStatus (if class =? 1 then 1 else 0) (if class =? 2 then 1 else 0) (if class =? 3 then 1 else 0)
    (if class =? 4 then 1 else 0) (if class =? 5 then 1 else 0).

Definition shouldAggregate (e : GatewayAccessEvent) : bool :=
  negb (blank (ev_ProjectID e)) && negb (blank (ev_RouteName e)) && negb (blank (ev_RoutePathPrefix e)).

Definition out_of_range : error := PgError "22003" "" "bigint out of range".

Definition bigint (z : Z) : res Z := if bool_decide (int64_range z) then Ok z else Err out_of_range.

(** NULLIF(text, ''). *)
Definition nullif (s : string) : option string := if bool_decide (s = "") then None else Some s.

Section ingestion.
Context `{UnicodeTables} `{PgUUID}.

Definition event_method (e : GatewayAccessEvent) : string := ToUpper (TrimSpace (ev_Method e)).

(** [insertGatewayAccessEventQuery]: the row, or no row when the id exists. *)
Definition insert_event (e : GatewayAccessEvent) (l : list stored) : res (option stored) :=
  eventID ← encode_text (ev_EventID e);
  schema ← encode_int4 (ev_SchemaVersion e);
  requestID ← encode_text (ev_RequestID e);
  projectText ← encode_text (TrimSpace (ev_ProjectID e));
  routeName ← encode_text (TrimSpace (ev_RouteName e));
  prefix ← encode_text (TrimSpace (ev_RoutePathPrefix e));
  method ← encode_text (event_method e);
  path ← encode_text (ev_RequestPath e);
  status ← encode_int4 (ev_StatusCode e);
  clientType ← encode_text (ev_ClientType e);
  clientID ← encode_text (ev_ClientID e);
  projectID ← match nullif projectText with None => Ok None | Some p => u ← cast_uuid p; Ok (Some u) end;
  if negb (0 <? schema) then Err (check_violation "gateway_access_events_schema_version_check")
  else if negb ((100 <=? status) && (status <=? 599)) then Err (check_violation "gateway_access_events_status_code_check")
  else if negb (0 <=? ev_DurationMS e) then Err (check_violation "gateway_access_events_duration_ms_check")
  else if negb (0 <=? ev_ResponseBytes e) then Err (check_violation "gateway_access_events_response_bytes_check")
  else if negb (bool_decide (clientType = "api_key") || bool_decide (clientType = "ip")) then
    Err (check_violation "gateway_access_events_client_type_check")
  else if existsb (fun r => bool_decide (so_EventID r = eventID)) l then Ok None
  else Ok (Some (mkStored eventID schema (pg_time (ev_OccurredAt e)) requestID projectID (nullif routeName)
                   (nullif prefix) method path status (ev_DurationMS e) (ev_ResponseBytes e) clientType clientID
                   (ev_AuthRequired e) (ev_RateLimitEnabled e) (ev_RateLimited e))).

(** The row of a first event, and [DO UPDATE]. *)
Definition first_counters (e : GatewayAccessEvent) : counters :=
  let c := statusClassCounts (ev_StatusCode e) in
  mkCounters 1 (status1xx c) (status2xx c) (status3xx c) (status4xx c) (status5xx c)
    (if ev_RateLimited e then 1 else 0) (ev_DurationMS e) (ev_DurationMS e) (ev_ResponseBytes e).

Definition add_counters (a b : counters) : res counters :=
  requests ← bigint (ct_requests a + 1);
  c1 ← bigint (ct_1xx a + ct_1xx b); c2 ← bigint (ct_2xx a + ct_2xx b); c3 ← bigint (ct_3xx a + ct_3xx b);
  c4 ← bigint (ct_4xx a + ct_4xx b); c5 ← bigint (ct_5xx a + ct_5xx b);
  limited ← bigint (ct_limited a + ct_limited b);
  duration ← bigint (ct_duration a + ct_duration b);
  bytes ← bigint (ct_bytes a + ct_bytes b);
  Ok (mkCounters requests c1 c2 c3 c4 c5 limited duration (Z.max (ct_max_duration a) (ct_max_duration b)) bytes).

(** [upsertGatewayRouteStatsHourlyQuery]. *)
Definition upsert_stats (e : GatewayAccessEvent) (s : gmap stats_key counters) : res (gmap stats_key counters) :=
  projectID ← cast_uuid (TrimSpace (ev_ProjectID e));
  let key := (Truncate (ev_OccurredAt e) Hour, projectID, TrimSpace (ev_RouteName e),
              TrimSpace (ev_RoutePathPrefix e), event_method e) in
  match s !! key with
  | None => Ok (<[key := first_counters e]> s)
  | Some c => c' ← add_counters c (first_counters e); Ok (<[key := c']> s)
  end.

(** The faults of the transaction. *)
Record store_env := mkStore { st_begin : fault; st_insert : fault; st_upsert : fault; st_commit : commit_outcome }.

Definition StoreGatewayAccess (f : store_env) (e : GatewayAccessEvent) (d : db) : res IngestionResult * db :=
  match st_begin f with
  | Some err => (Err (wrapf "begin gateway analytics transaction" err), d)
  | None =>
    match with_fault (st_insert f) (insert_event e (events d)) with
    | Err err => if errors_Is err ErrNoRows then (Ok (mkIngestion true false), d)
                 else (Err (wrapf "insert gateway access event" err), d)
    | Ok None => (Ok (mkIngestion true false), d)
    | Ok (Some row) =>
      let aggregated := shouldAggregate e in
      match (if aggregated then with_fault (st_upsert f) (upsert_stats e (stats d)) else Ok (stats d)) with
      | Err err => (Err (wrapf "upsert gateway route hourly stats" err), d)
      | Ok stats' =>
        let d' := mkDB (events d ++ [row]) stats' in
        match st_commit f with
        | Committed => (Ok (mkIngestion false aggregated), d')
        | CommitFailed err applied =>
          (Err (wrapf "commit gateway analytics transaction" err), if applied then d' else d)
        end
      end
    end
  end.

(** ** Use case (usecase/process_gateway_access.go) *)

Definition ProcessGatewayAccess (f : store_env) (e : GatewayAccessEvent) (d : db) : res IngestionResult * db :=
  match event_Validate e with
  | Err err => (Err (Wrap (Error ErrInvalidGatewayAccessEvent +:+ ": " +:+ Error err) [ErrInvalidGatewayAccessEvent]), d)
  | Ok _ =>
    let '(r, d') := StoreGatewayAccess f e d in
    (match r with Err err => Err (wrapf "store gateway access event" err) | Ok result => Ok result end, d')
  end.

(** ** Consumer (infrastructure/kafka/consumer.go) *)

Definition nextRetryDelay (current maximum : Z) : Z :=
  if maximum <=? current then maximum
  else if Z.quot maximum 2 <? current then maximum
  else current * 2.

(** The environment of one attempt: the faults of its transaction, the error of
    the context after it, and the error of the context while waiting. *)
Record attempt_env := mkAttempt { ae_store : store_env; ae_ctx : option error; ae_wait : option error }.

(** The loop of [processWithRetry] from [attempt] on: the result, the tables, the
    number of calls of the processor, and the delays waited. [fuel] is the number
    of attempts left. *)
Fixpoint retry_loop (fuel : nat) (maxAttempts retryMax : Z) (env : Z -> attempt_env) (e : GatewayAccessEvent)
    (attempt delay : Z) (d : db) : res IngestionResult * db * Z * list Z :=
  match fuel with
  | O => (Err (Opaque "gateway access event processing attempts exhausted"), d, 0, [])
  | S fuel =>
    let '(r, d') := ProcessGatewayAccess (ae_store (env attempt)) e d in
    match r with
    | Ok result => (Ok result, d', 1, [])
    | Err err =>
      if errors_Is err ErrInvalidGatewayAccessEvent then (Err err, d', 1, [])
      else match ae_ctx (env attempt) with
           | Some ctxErr => (Err ctxErr, d', 1, [])
           | None =>
             if attempt =? maxAttempts then
               (Err (wrapf ("process gateway access event after " +:+ Itoa maxAttempts +:+ " attempts") err), d', 1, [])
             else match ae_wait (env attempt) with
                  | Some ctxErr => (Err ctxErr, d', 1, [])
                  | None =>
                    let '(r', d'', n, delays) :=
                      retry_loop fuel maxAttempts retryMax env e (attempt + 1) (nextRetryDelay delay retryMax) d' in
                    (r', d'', n + 1, delay :: delays)
                  end
           end
    end
  end.

Definition processWithRetry (maxAttempts retryMin retryMax : Z) (env : Z -> attempt_env) (e : GatewayAccessEvent)
    (d : db) : res IngestionResult * db * Z * list Z :=
  retry_loop (Z.to_nat maxAttempts) maxAttempts retryMax env e 1 retryMin d.

(** json.Unmarshal of an event. *)
Class EventJSON := { event_Unmarshal : string -> res GatewayAccessEvent }.
Context `{EventJSON}.

Definition decodeGatewayAccessEvent (payload : string) : res GatewayAccessEvent :=
  match event_Unmarshal payload with
  | Err err => Err (wrapf "decode gateway access event" err)
  | Ok e => match event_Validate e with Err err => Err (wrapf "validate gateway access event" err) | Ok _ => Ok e end
  end.

(** CommitRecords of a record: its position, the error it returns, the error of the
    context, and whether the broker has the new offset. *)
Record commit_env := mkCommit {
  ce_topic : string; ce_partition : Z; ce_offset : Z;
  ce_err : option error; ce_ctx : option error; ce_applied : bool
}.

Definition commitRecord (c : commit_env) : res unit :=
  match ce_err c with
  | None => Ok tt
  | Some err =>
    match ce_ctx c with
    | Some ctxErr => Err ctxErr
    | None => Err (wrapf ("commit Kafka analytics offset: topic=" +:+ ce_topic c +:+ " partition=" +:+
                          Itoa (ce_partition c) +:+ " offset=" +:+ Itoa (ce_offset c)) err)
    end
  end.

(** [handleRecord]: its result, the tables, and whether the commit of the offset
    was asked for. *)
Definition handleRecord (maxAttempts retryMin retryMax : Z) (env : Z -> attempt_env) (c : commit_env)
    (payload : string) (d : db) : res unit * db * bool :=
  match decodeGatewayAccessEvent payload with
  | Err _ => (commitRecord c, d, true)
  | Ok e =>
    let '(r, d', _, _) := processWithRetry maxAttempts retryMin retryMax env e d in
    match r with
    | Err err => if errors_Is err ErrInvalidGatewayAccessEvent then (commitRecord c, d', true) else (Err err, d', false)
    | Ok _ => (commitRecord c, d', true)
    end
  end.

(** One round of [Run]: the record the poll returned, if any, with the environment
    of its handling, and whether the context is done afterwards. *)
Record poll := mkPoll { po_record : option ((Z -> attempt_env) * commit_env * string); po_done : bool }.

(** [Run] over its polls: what it returned, or nothing while it goes on polling. *)
Fixpoint Run (maxAttempts retryMin retryMax : Z) (polls : list poll) (d : db) : option (res unit) * db :=
  match polls with
  | [] => (None, d)
  | p :: polls =>
    let '(handleErr, d') :=
      match po_record p with
      | None => (Ok tt, d)
      | Some (env, c, payload) => (handleRecord maxAttempts retryMin retryMax env c payload d).1
      end in
    if po_done p then (Some (Ok tt), d')
    else match handleErr with
         | Err err => (Some (Err err), d')
         | Ok _ => Run maxAttempts retryMin retryMax polls d'
         end
  end.
End ingestion.

(** ** Queries (infrastructure/postgres/stats.go) *)

Definition key_bucket (k : stats_key) : Z := let '(b, _, _, _, _) := k in b.
Definition key_project (k : stats_key) : string := let '(_, p, _, _, _) := k in p.
Definition key_route (k : stats_key) : string := let '(_, _, r, _, _) := k in r.
Definition key_prefix (k : stats_key) : string := let '(_, _, _, x, _) := k in x.
Definition key_method (k : stats_key) : string := let '(_, _, _, _, m) := k in m.

(** The WHERE clause of both queries. *)
Definition selected (project : string) (f : RouteStatsFilter) (k : stats_key) : bool :=
  bool_decide (key_project k = project) &&
  (pg_time (rf_From f) <=? key_bucket k) && (key_bucket k <? pg_time (rf_To f)) &&
  (bool_decide (rf_RouteName f = "") || bool_decide (key_route k = rf_RouteName f)) &&
  (bool_decide (rf_Method f = "") || bool_decide (key_method k = rf_Method f)).

Definition select_stats (project : string) (f : RouteStatsFilter) (s : gmap stats_key counters)
    : list (stats_key * counters) :=
  List.filter (fun kc => selected project f kc.1) (map_to_list s).

Definition sum_of (f : counters -> Z) (l : list (stats_key * counters)) : Z :=
  foldr (fun kc acc => f kc.2 + acc) 0 l.
Definition max_of (f : counters -> Z) (l : list (stats_key * counters)) : Z :=
  foldr (fun kc acc => Z.max (f kc.2) acc) 0 l.

(** Scanning a SUM into an int64. *)
Definition scan_int64 (z : Z) : res Z :=
  if bool_decide (int64_range z) then Ok z else Err (Opaque "is greater than maximum value for int64").

Section queries.
Context `{PgUUID}.
(** The collation of the database. *)
Context (text_le : string -> string -> bool).

Definition repo_GetRouteStatsSummary (f : fault) (filter : RouteStatsFilter) (d : db) : res RouteStatsSummary :=
  map_err (wrapf "query route stats summary")
    (with_fault f (
      project ← cast_uuid (rf_ProjectID filter);
      _ ← encode_text (rf_RouteName filter);
      _ ← encode_text (rf_Method filter);
      let rows := select_stats project filter (stats d) in
      requests ← scan_int64 (sum_of ct_requests rows);
      c1 ← scan_int64 (sum_of ct_1xx rows); c2 ← scan_int64 (sum_of ct_2xx rows); c3 ← scan_int64 (sum_of ct_3xx rows);
      c4 ← scan_int64 (sum_of ct_4xx rows); c5 ← scan_int64 (sum_of ct_5xx rows);
      limited ← scan_int64 (sum_of ct_limited rows);
      bytes ← scan_int64 (sum_of ct_bytes rows);
      Ok (mkSummary requests c1 c2 c3 c4 c5 limited
            (if requests =? 0 then (0, 1) else (sum_of ct_duration rows, requests))
            (max_of ct_max_duration rows) bytes))).

(** ORDER BY bucket_start, route_name, method. *)
Definition hourly_le (a b : stats_key * counters) : bool :=
  (key_bucket a.1 <? key_bucket b.1) ||
  ((key_bucket a.1 =? key_bucket b.1) &&
   (negb (text_le (key_route b.1) (key_route a.1)) ||
    (text_le (key_route a.1) (key_route b.1) && text_le (key_method a.1) (key_method b.1)))).

Definition hourly_row (kc : stats_key * counters) : RouteStatsHourly :=
  let '(k, c) := kc in
  mkHourly (key_bucket k) (key_route k) (key_prefix k) (key_method k) (ct_requests c) (ct_1xx c) (ct_2xx c) (ct_3xx c)
    (ct_4xx c) (ct_5xx c) (ct_limited c) (if ct_requests c =? 0 then (0, 1) else (ct_duration c, ct_requests c))
    (ct_max_duration c) (ct_bytes c).

Definition repo_ListRouteStatsHourly (f : fault) (filter : RouteStatsFilter) (limit : Z) (d : db)
    : res (list RouteStatsHourly) :=
  map_err (wrapf "query hourly route stats")
    (with_fault f (
      project ← cast_uuid (rf_ProjectID filter);
      _ ← encode_text (rf_RouteName filter);
      _ ← encode_text (rf_Method filter);
      Ok (map hourly_row (take (Z.to_nat limit) (order_by hourly_le (select_stats project filter (stats d))))))).

(** ** Use case (usecase/query_stats.go) *)

Definition maxAnalyticsRange : Z := 90 * 24 * Hour.

Definition isUUID (value : string) : bool :=
  if negb (len value =? 36) || negb (byte_is value 8 dash) || negb (byte_is value 13 dash) ||
     negb (byte_is value 18 dash) || negb (byte_is value 23 dash) then false
  else
    let compact := remove_char dash value in
    if negb (len compact =? 32) then false
    else match hex_decode compact with Some _ => true | None => false end.

Definition ceilHour (value : Z) : Z :=
  let truncated := Truncate value Hour in
  if value =? truncated then truncated else Add truncated Hour.

Context `{UnicodeTables}.

Definition normalizeStatsFilter (f : RouteStatsFilter) : res RouteStatsFilter :=
  let projectID := TrimSpace (rf_ProjectID f) in
  if negb (isUUID projectID) then Err ErrInvalidProjectID
  else if IsZero (rf_From f) || IsZero (rf_To f) || negb (Before (rf_From f) (rf_To f)) then Err ErrInvalidTimeRange
  else if maxAnalyticsRange <? Sub (rf_To f) (rf_From f) then Err ErrAnalyticsRangeTooLarge
  else Ok (mkFilter projectID (Truncate (rf_From f) Hour) (ceilHour (rf_To f)) (TrimSpace (rf_RouteName f))
             (ToUpper (TrimSpace (rf_Method f)))).

Definition GetRouteStatsSummary (f : fault) (filter : RouteStatsFilter) (d : db) : res RouteStatsSummary :=
  filter ← normalizeStatsFilter filter;
  map_err (wrapf "get route stats summary") (repo_GetRouteStatsSummary f filter d).

Definition ListRouteStatsHourly (f : fault) (filter : RouteStatsFilter) (limit : Z) (d : db)
    : res (list RouteStatsHourly) :=
  filter ← normalizeStatsFilter filter;
  if (limit <=? 0) || (1000 <? limit) then Err ErrInvalidLimit
  else map_err (wrapf "list hourly route stats") (repo_ListRouteStatsHourly f filter limit d).

(** ** HTTP handlers (delivery/http/v1) *)

Definition defaultRange : Z := 24 * Hour.
Definition defaultLimit : Z := 100.

Definition parseTime (value : string) (fallback : Z) : res Z :=
  let value := TrimSpace value in
  if bool_decide (value = "") then Ok fallback
  else match Date.parse_time value with
       | None => Err (Opaque "from and to must use RFC3339 format")
       | Some parsed => Ok parsed
       end.

Definition parseLimit (value : string) : res Z :=
  let value := TrimSpace value in
  if bool_decide (value = "") then Ok defaultLimit
  else match Atoi value with
       | Err _ => Err ErrInvalidLimit
       | Ok limit => if (limit <=? 0) || (1000 <? limit) then Err ErrInvalidLimit else Ok limit
       end.

(** The parameters of a request: project_id and the query. *)
Record params := mkParams {
  pa_project_id : string; pa_from : string; pa_to : string; pa_route_name : string; pa_method : string; pa_limit : string
}.

Definition parseFilter (now : Z) (c : params) : res RouteStatsFilter :=
  to ← parseTime (pa_to c) now;
  from ← parseTime (pa_from c) (Add to (- defaultRange));
  Ok (mkFilter (TrimSpace (pa_project_id c)) from to (TrimSpace (pa_route_name c)) (ToUpper (TrimSpace (pa_method c)))).

Definition handleError {A} (err : error) : json_reply A :=
  if errors_Is err ErrInvalidProjectID || errors_Is err ErrInvalidTimeRange ||
     errors_Is err ErrAnalyticsRangeTooLarge || errors_Is err ErrInvalidLimit then JSONError 400 (Error err)
  else JSONError 500 "internal error".

(** The bodies: the filter of the request with the summary or the items. *)
Record summaryResponse := mkSummaryResponse {
  sr_ProjectID : string; sr_From : string; sr_To : string; sr_RouteName : string; sr_Method : string;
  sr_Summary : RouteStatsSummary
}.
Record hourlyResponse := mkHourlyResponse {
  hs_ProjectID : string; hs_From : string; hs_To : string; hs_RouteName : string; hs_Method : string;
  hs_Items : list RouteStatsHourly
}.

Definition summary (now : Z) (f : fault) (c : params) (d : db) : json_reply summaryResponse :=
  match parseFilter now c with
  | Err err => JSONError 400 (Error err)
  | Ok filter =>
    match GetRouteStatsSummary f filter d with
    | Err err => handleError err
    | Ok s => JSONOk 200 (mkSummaryResponse (rf_ProjectID filter) (Date.format_rfc3339 (rf_From filter))
                (Date.format_rfc3339 (rf_To filter)) (rf_RouteName filter) (rf_Method filter) s)
    end
  end.

Definition hourly (now : Z) (f : fault) (c : params) (d : db) : json_reply hourlyResponse :=
  match parseFilter now c with
  | Err err => JSONError 400 (Error err)
  | Ok filter =>
    match parseLimit (pa_limit c) with
    | Err err => JSONError 400 (Error err)
    | Ok limit =>
      match ListRouteStatsHourly f filter limit d with
      | Err err => handleError err
      | Ok items => JSONOk 200 (mkHourlyResponse (rf_ProjectID filter) (Date.format_rfc3339 (rf_From filter))
                      (Date.format_rfc3339 (rf_To filter)) (rf_RouteName filter) (rf_Method filter) items)
      end
    end
  end.
End queries.

(** ** Configuration (config/config.go) *)

Record Config := mkConfig {
  cf_HTTPAddr : string; cf_KafkaBrokers : list string; cf_KafkaTopic : string; cf_KafkaConsumerGroup : string;
  cf_KafkaClientID : string; cf_RetryMin : Z; cf_RetryMax : Z; cf_MaxProcessAttempts : Z
}.

Section config.
Context `{UnicodeTables} (getenv : string -> string).

Definition stringFromEnv (key fallback : string) : string :=
  let value := TrimSpace (getenv key) in
  if bool_decide (value = "") then fallback else value.

Definition durationFromEnv (key : string) (fallback : Z) : res Z :=
  let value := TrimSpace (getenv key) in
  if bool_decide (value = "") then Ok fallback
  else match Duration.ParseDuration value with
       | Err e => Err (wrapf ("parse " +:+ key) e)
       | Ok parsed => if parsed <=? 0 then Err (Opaque (key +:+ " must be positive")) else Ok parsed
       end.

Definition intFromEnv (key : string) (fallback : Z) : res Z :=
  let value := TrimSpace (getenv key) in
  if bool_decide (value = "") then Ok fallback
  else map_err (wrapf ("parse " +:+ key)) (Atoi value).

(** Trimmed, without blanks and repetitions, in order. *)
Definition normalized (values : list string) : list string :=
  foldl (fun result value =>
    let item := TrimSpace value in
    if bool_decide (item = "") || bool_decide (item ∈ result) then result else result ++ [item])
    [] values.

Definition splitAndNormalize (value : string) : list string := normalized (Split value ","%char).

Definition Load_analytics_config : res Config :=
  let brokers := splitAndNormalize (getenv "KAFKA_BROKERS") in
  if bool_decide (brokers = []) then Err (Opaque "KAFKA_BROKERS is required") else
  retryMin ← durationFromEnv "ANALYTICS_RETRY_MIN" Second;
  retryMax ← durationFromEnv "ANALYTICS_RETRY_MAX" (30 * Second);
  if retryMax <? retryMin then
    Err (Opaque "ANALYTICS_RETRY_MAX must be greater than or equal to ANALYTICS_RETRY_MIN") else
  maxProcessAttempts ← intFromEnv "ANALYTICS_MAX_PROCESS_ATTEMPTS" 5;
  if maxProcessAttempts <=? 0 then Err (Opaque "ANALYTICS_MAX_PROCESS_ATTEMPTS must be positive")
  else Ok (mkConfig (stringFromEnv "ANALYTICS_HTTP_ADDR" ":8084") brokers
             (stringFromEnv "KAFKA_ACCESS_TOPIC" "edgeguard.gateway.access.v1")
             (stringFromEnv "ANALYTICS_KAFKA_GROUP" "edgeguard-analytics-v1")
             (stringFromEnv "ANALYTICS_KAFKA_CLIENT_ID" "edgeguard-analytics-worker")
             retryMin retryMax maxProcessAttempts).

(** The configuration of the consumer and the checks of its [New] before the Kafka
    client is made: the brokers, topic, group and client id it is made with. *)
Record consumer_config := mkConsumerConfig {
  kc_Brokers : list string; kc_Topic : string; kc_ConsumerGroup : string; kc_ClientID : string;
  kc_RetryMin : Z; kc_RetryMax : Z; kc_MaxProcessAttempts : Z
}.

Definition New_consumer (config : consumer_config) : res consumer_config :=
  let brokers := normalized (kc_Brokers config) in
  if (length brokers =? 0)%nat then Err (Opaque "Kafka brokers are required") else
  let topic := TrimSpace (kc_Topic config) in
  if bool_decide (topic = "") then Err (Opaque "Kafka topic is required") else
  let consumerGroup := TrimSpace (kc_ConsumerGroup config) in
  if bool_decide (consumerGroup = "") then Err (Opaque "Kafka consumer group is required") else
  let clientID := TrimSpace (kc_ClientID config) in
  if bool_decide (clientID = "") then Err (Opaque "Kafka client ID is required")
  else if kc_RetryMin config <=? 0 then Err (Opaque "retry minimum must be positive")
  else if kc_RetryMax config <? kc_RetryMin config then
    Err (Opaque "retry maximum must be greater than or equal to retry minimum")
  else if kc_MaxProcessAttempts config <=? 0 then Err (Opaque "maximum process attempts must be positive")
  else Ok (mkConsumerConfig brokers topic consumerGroup clientID (kc_RetryMin config) (kc_RetryMax config)
             (kc_MaxProcessAttempts config)).

(** The configuration app/app.go makes the consumer with. *)
Definition consumer_config_of (c : Config) : consumer_config :=
  mkConsumerConfig (cf_KafkaBrokers c) (cf_KafkaTopic c) (cf_KafkaConsumerGroup c) (cf_KafkaClientID c) (cf_RetryMin c)
    (cf_RetryMax c) (cf_MaxProcessAttempts c).
End config.
End Analytics.
