(* ===== verification/AnalyticsHistory.v ===== *)
(** Histories of the analytics service: the aggregates are exactly those of the
    distinct stored events, no record is skipped, retries are bounded, and what the
    queries answer. *)
From Stdlib Require Import Ascii ZArith Lia String.
From Corelib Require Import ssreflect.
From stdpp Require Import base gmap strings list numbers relations pretty.
From S2P Require Import Prelude GoStrings GoTime GoEncoding GoNet GoDate GoConv Events Postgres Analytics.

#[local] Open Scope Z_scope.

Module AnalyticsHistory.
Import Analytics.

(** ** The reference aggregation *)

(** The aggregate a stored event belongs to: events without project or route are
    in none. *)
Definition key_of (r : stored) : option stats_key :=
  match so_ProjectID r, so_RouteName r, so_RoutePathPrefix r with
  | Some p, Some n, Some x => Some (Truncate (so_OccurredAt r) Hour, p, n, x, so_Method r)
  | _, _, _ => None
  end.

Definition rows_of (k : stats_key) (l : list stored) : list stored :=
  List.filter (fun r => bool_decide (key_of r = Some k)) l.

Definition total (f : stored -> Z) (l : list stored) : Z := foldr (fun r acc => f r + acc) 0 l.
Definition count (p : stored -> bool) (l : list stored) : Z := total (fun r => if p r then 1 else 0) l.
Definition largest (f : stored -> Z) (l : list stored) : Z := foldr (fun r acc => Z.max (f r) acc) 0 l.

Definition status_class (c : Z) (r : stored) : bool := Z.quot (so_StatusCode r) 100 =? c.

Definition tally (l : list stored) : counters :=
  mkCounters (Z.of_nat (length l)) (count (status_class 1) l) (count (status_class 2) l) (count (status_class 3) l)
    (count (status_class 4) l) (count (status_class 5) l) (count so_RateLimited l)
    (total so_DurationMS l) (largest so_DurationMS l) (total so_ResponseBytes l).

(** The aggregates that the stored events should have. *)
Definition aggregate (l : list stored) (k : stats_key) : option counters :=
  match rows_of k l with [] => None | rows => Some (tally rows) end.

(** ** Lemmas *)

Lemma total_app f l m : total f (l ++ m) = total f l + total f m.
Proof. unfold total. induction l as [|r l IH]; cbn; [done|]. rw IH. lia. Qed.
Lemma largest_app f l m : largest f (l ++ m) = Z.max (largest f l) (largest f m).
Proof.
  assert (Hn : forall m, 0 <= largest f m) by (unfold largest; intros n; induction n; cbn; lia).
  specialize (Hn m). unfold largest in *. induction l as [|r l IH]; cbn; [lia|]. rw IH. lia.
Qed.
Lemma rows_of_app k l m : rows_of k (l ++ m) = rows_of k l ++ rows_of k m.
Proof. apply List.filter_app. Qed.

Lemma rows_of_subset k l r : r ∈ rows_of k l -> r ∈ l.
Proof. unfold rows_of. rw !list_elem_of_In filter_In. by intros []. Qed.

Lemma Truncate_Truncate t : Truncate (pg_time t) Hour = Truncate t Hour.
Proof.
  unfold pg_time, Truncate. change (Microsecond <=? 0) with false. change (Hour <=? 0) with false. cbn iota.
  change Hour with (Microsecond * 3600000000). change Microsecond with 1000.
  assert (E : (t - t mod 1000) mod (1000 * 3600000000) = t mod (1000 * 3600000000) - t mod 1000); [|lia].
  rw (Z.rem_mul_r t 1000 3600000000); [done|done|]. symmetry. apply Z.mod_unique with (t / 1000 / 3600000000); lia.
Qed.

Section history.
Context `{UnicodeTables} `{PgUUID}.

(** What PostgreSQL can take of an event: texts, and a UUID for the project if there is
    one. *)
Definition storable_event (e : GatewayAccessEvent) : bool :=
  forallb pg_text
    [ev_EventID e; ev_RequestID e; TrimSpace (ev_ProjectID e); TrimSpace (ev_RouteName e); TrimSpace (ev_RoutePathPrefix e);
     event_method e; ev_RequestPath e; ev_ClientType e; ev_ClientID e] &&
  (blank (ev_ProjectID e) || bool_decide (is_Some (pg_uuid (TrimSpace (ev_ProjectID e))))).

(** The row an event becomes. *)
Definition event_row (e : GatewayAccessEvent) : stored :=
  mkStored (ev_EventID e) (ev_SchemaVersion e) (pg_time (ev_OccurredAt e)) (ev_RequestID e)
    (nullif (TrimSpace (ev_ProjectID e)) ≫= pg_uuid) (nullif (TrimSpace (ev_RouteName e)))
    (nullif (TrimSpace (ev_RoutePathPrefix e))) (event_method e) (ev_RequestPath e) (ev_StatusCode e) (ev_DurationMS e)
    (ev_ResponseBytes e) (ev_ClientType e) (ev_ClientID e) (ev_AuthRequired e) (ev_RateLimitEnabled e) (ev_RateLimited e).

(** The checks of the table. *)
Record in_checks (e : GatewayAccessEvent) : Prop := {
  ck_schema : 0 < ev_SchemaVersion e /\ int32_range (ev_SchemaVersion e);
  ck_status : 100 <= ev_StatusCode e <= 599;
  ck_duration : 0 <= ev_DurationMS e;
  ck_bytes : 0 <= ev_ResponseBytes e;
  ck_client : ev_ClientType e = "api_key" \/ ev_ClientType e = "ip";
}.

Lemma nullif_blank s : nullif (TrimSpace s) = if blank s then None else Some (TrimSpace s).
Proof. unfold nullif, blank. by case_bool_decide. Qed.

(** When the insertion goes through, and what it returns: the row, or none for an id that
    is there. *)
Lemma insert_event_iff e l r :
  insert_event e l = Ok r <->
  storable_event e = true /\ in_checks e /\
  r = if existsb (fun x => bool_decide (so_EventID x = ev_EventID e)) l then None else Some (event_row e).
Proof.
  unfold insert_event, encode_text, encode_int4, storable_event. cbn [forallb].
  destruct (pg_text (ev_EventID e)); [cbn [mbind res_bind andb]|split; [done|by intros [? _]]].
  destruct (decide (int32_range (ev_SchemaVersion e))) as [R1|R1];
    [rw (bool_decide_eq_true_2 _ R1)|rw (bool_decide_eq_false_2 _ R1); split; [done|by intros (_ & [[_ ?] _ _ _ _] & _)]].
  cbn [mbind res_bind].
  do 6 (match goal with |- context [pg_text ?x] => destruct (pg_text x); [cbn [mbind res_bind andb]|split; [done|by intros [? _]]] end).
  destruct (decide (int32_range (ev_StatusCode e))) as [R2|R2];
    [rw (bool_decide_eq_true_2 _ R2)|rw (bool_decide_eq_false_2 _ R2); split; [done|]; intros (_ & [_ ? _ _ _] & _);
     exfalso; apply R2; unfold int32_range; lia].
  cbn [mbind res_bind].
  do 2 (match goal with |- context [pg_text ?x] => destruct (pg_text x); [cbn [mbind res_bind andb]|split; [done|by intros [? _]]] end).
  assert (Ep : match nullif (TrimSpace (ev_ProjectID e)) with
               | None => Ok None | Some p => u ← cast_uuid p; Ok (Some u) end =
    if blank (ev_ProjectID e) || bool_decide (is_Some (pg_uuid (TrimSpace (ev_ProjectID e))))
    then Ok (nullif (TrimSpace (ev_ProjectID e)) ≫= pg_uuid) else Err invalid_uuid).
  { rw nullif_blank. destruct (blank (ev_ProjectID e)); [done|]. cbn. unfold cast_uuid. by destruct (pg_uuid _). }
  rw Ep. destruct (blank _ || _); [cbn [mbind res_bind]|split; [done|by intros [? _]]]. fold (event_row e).
  destruct (Z.ltb_spec 0 (ev_SchemaVersion e)); [|split; [done|intros (_ & [[? _] _ _ _ _] & _); lia]].
  destruct (negb ((100 <=? _) && _)) eqn:E2; [split; [done|intros (_ & [_ ? _ _ _] & _); lia]|].
  destruct (Z.leb_spec 0 (ev_DurationMS e)); [|split; [done|intros (_ & [_ _ ? _ _] & _); lia]].
  destruct (Z.leb_spec 0 (ev_ResponseBytes e)); [|split; [done|intros (_ & [_ _ _ ? _] & _); lia]]. cbn [negb].
  destruct (bool_decide (ev_ClientType e = "api_key") || _) eqn:E5; cbn [negb].
  - assert (in_checks e) by (split; [done|lia|done|done|by apply orb_true_iff in E5 as [?%bool_decide_eq_true_1|?%bool_decide_eq_true_1]; auto]).
    destruct (existsb _ l); split; [by intros [= <-]|by intros (_ & _ & ->)|by intros [= <-]|by intros (_ & _ & ->)].
  - split; [done|]. intros (_ & [_ _ _ _ Hc] & _). exfalso. destruct Hc as [Hc|Hc]; rw Hc in E5; done.
Qed.


Lemma insert_event_Ok e l row :
  insert_event e l = Ok (Some row) ->
  storable_event e = true /\ in_checks e /\ row = event_row e /\ (ev_EventID e ∉ (so_EventID <$> l)).
Proof.
  intros (Hs & Hc & Hr)%insert_event_iff. destruct (existsb _ l) eqn:Ex; [done|]. injection Hr as ->.
  split_and!; try done. by apply (existsb_key so_EventID) in Ex.
Qed.

Lemma insert_event_dup e l : insert_event e l = Ok None -> ev_EventID e ∈ (so_EventID <$> l).
Proof.
  intros (_ & _ & Hr)%insert_event_iff. destruct (existsb _ l) eqn:Ex; [|done].
  apply dec_stable. intros Hn. apply (existsb_key so_EventID) in Hn. congruence.
Qed.

(** The aggregate of the row, from the event. *)
Lemma key_of_event e l row :
  insert_event e l = Ok (Some row) ->
  key_of row = if shouldAggregate e then
      (fun u => (Truncate (ev_OccurredAt e) Hour, u, TrimSpace (ev_RouteName e), TrimSpace (ev_RoutePathPrefix e), event_method e))
        <$> pg_uuid (TrimSpace (ev_ProjectID e))
    else None.
Proof.
  intros (Hs & _ & -> & _)%insert_event_Ok. unfold key_of, shouldAggregate, event_row. cbn.
  rw !nullif_blank Truncate_Truncate. unfold storable_event in Hs. apply andb_true_iff in Hs as [_ Hs].
  destruct (blank (ev_ProjectID e)); [done|]. cbn in *. apply bool_decide_eq_true_1 in Hs as [u ->].
  destruct (blank (ev_RouteName e)); [done|]. by destruct (blank (ev_RoutePathPrefix e)).
Qed.

Lemma bigint_Ok z z' : bigint z = Ok z' -> z' = z.
Proof. unfold bigint. case_bool_decide; naive_solver. Qed.

Lemma add_counters_Ok a b c :
  add_counters a b = Ok c ->
  c = mkCounters (ct_requests a + 1) (ct_1xx a + ct_1xx b) (ct_2xx a + ct_2xx b) (ct_3xx a + ct_3xx b)
        (ct_4xx a + ct_4xx b) (ct_5xx a + ct_5xx b) (ct_limited a + ct_limited b) (ct_duration a + ct_duration b)
        (Z.max (ct_max_duration a) (ct_max_duration b)) (ct_bytes a + ct_bytes b).
Proof.
  unfold add_counters.
  repeat (match goal with |- context [bigint ?x ≫= _] =>
    destruct (bigint x) eqn:?; [cbn [mbind res_bind]|done] end).
  repeat match goal with E : bigint _ = Ok _ |- _ => apply bigint_Ok in E as -> end. by intros [= <-].
Qed.

(** One more row in an aggregate. *)
Lemma tally_first e l row : insert_event e l = Ok (Some row) -> tally [row] = first_counters e.
Proof.
  intros (_ & [_ _ Hd _ _] & -> & _)%insert_event_Ok.
  unfold tally, first_counters, count, total, largest, status_class, statusClassCounts, event_row. cbn.
  f_equal; try lia; by destruct (_ =? _) || by destruct (ev_RateLimited e).
Qed.

Lemma tally_snoc e l row m c :
  insert_event e l = Ok (Some row) -> add_counters (tally m) (first_counters e) = Ok c -> tally (m ++ [row]) = c.
Proof.
  intros Hi ->%add_counters_Ok. rw -(tally_first e l row Hi).
  unfold tally, count. cbn [ct_requests ct_1xx ct_2xx ct_3xx ct_4xx ct_5xx ct_limited ct_duration ct_max_duration ct_bytes].
  rw !total_app largest_app length_app. f_equal. cbn. lia.
Qed.

(** ** Exactly once *)

Definition row_ok (r : stored) : Prop := 100 <= so_StatusCode r <= 599 /\ 0 <= so_DurationMS r /\ 0 <= so_ResponseBytes r.

Record exact (d : db) : Prop := {
  ex_ids : NoDup (so_EventID <$> events d);
  ex_stats : forall k, stats d !! k = aggregate (events d) k;
  ex_rows : Forall row_ok (events d);
}.

(** What a transaction leaves: the tables, or the tables with the new row and its
    aggregate. *)
Lemma Store_cases f e d :
  (StoreGatewayAccess f e d).2 = d \/
  exists row stats', insert_event e (events d) = Ok (Some row) /\
    (if shouldAggregate e then upsert_stats e (stats d) else Ok (stats d)) = Ok stats' /\
    (StoreGatewayAccess f e d).2 = mkDB (events d ++ [row]) stats'.
Proof.
  unfold StoreGatewayAccess. destruct (st_begin f); [by left|].
  destruct (with_fault _ _) as [[row|]|err] eqn:Ei; [|by left|destruct (errors_Is err ErrNoRows); by left].
  apply with_fault_Ok in Ei as [_ Ei].
  destruct (if shouldAggregate e then with_fault _ _ else _) as [stats'|] eqn:Es; [|by left].
  assert (Es' : (if shouldAggregate e then upsert_stats e (stats d) else Ok (stats d)) = Ok stats').
  { destruct (shouldAggregate e); [by apply with_fault_Ok in Es as [_ Es]|done]. }
  destruct (st_commit f) as [|err []]; cbn; [right|right|by left]; by exists row, stats'.
Qed.

Lemma exact_insert e d row stats' :
  exact d -> insert_event e (events d) = Ok (Some row) ->
  (if shouldAggregate e then upsert_stats e (stats d) else Ok (stats d)) = Ok stats' ->
  exact (mkDB (events d ++ [row]) stats').
Proof.
  intros [Hids Hst Hrows] Hi Hs. pose proof (insert_event_Ok _ _ _ Hi) as (_ & [_ Hr Hd Hb _] & Erow & Hnew).
  pose proof (key_of_event _ _ _ Hi) as Hk. split; cbn.
  - rw fmap_app. apply NoDup_snoc; [done|]. by rw Erow.
  - intros k. unfold aggregate. rw rows_of_app. unfold rows_of at 2. cbn [List.filter].
    destruct (shouldAggregate e).
    + unfold upsert_stats, cast_uuid in Hs. destruct (pg_uuid _) as [u|]; [|done]. cbn [mbind res_bind] in Hs.
      cbn in Hk. rw Hk. set (key := (_, _, _, _, _)) in *.
      destruct (decide (key = k)) as [<-|Hne].
      * rw bool_decide_eq_true_2 //. specialize (Hst key). unfold aggregate in Hst.
        destruct (rows_of key (events d)) as [|r0 rs] eqn:Er; rw Hst in Hs.
        -- injection Hs as <-. rw lookup_insert_eq. cbn. by rw -(tally_first e _ row Hi).
        -- destruct (add_counters _ _) as [c|] eqn:Ea; [|done]. injection Hs as <-. rw lookup_insert_eq.
           apply (tally_snoc _ _ _ _ _ Hi) in Ea. by rw -Ea.
      * rw bool_decide_eq_false_2; [congruence|]. rw app_nil_r. specialize (Hst k). unfold aggregate in Hst.
        destruct (stats d !! key) as [c|]; [destruct (add_counters _ _); [|done]|]; injection Hs as <-;
          by rw lookup_insert_ne.
    + injection Hs as <-. rw Hk bool_decide_eq_false_2 // app_nil_r. apply Hst.
  - apply Forall_app. split; [done|]. apply Forall_cons. split; [by rw Erow|apply Forall_nil_2].
Qed.

(** Any call of the processor, with any faults. *)
Inductive astep (d : db) : db -> Prop :=
| as_process f e : astep d (ProcessGatewayAccess f e d).2.

Lemma Process_cases f e d : (ProcessGatewayAccess f e d).2 = d \/ (ProcessGatewayAccess f e d).2 = (StoreGatewayAccess f e d).2.
Proof.
  unfold ProcessGatewayAccess. destruct (event_Validate e); [|by left].
  destruct (StoreGatewayAccess f e d) as [r d']. by right.
Qed.

Lemma exact_step d d' : astep d d' -> exact d -> exact d'.
Proof.
  intros [f e] Hd. destruct (Process_cases f e d) as [->| ->]; [done|].
  destruct (Store_cases f e d) as [->|(row & stats' & Hi & Hs & ->)]; [done|]. by eapply exact_insert.
Qed.

Definition empty_db : db := mkDB [] ∅.
Lemma exact_reachable d : rtc astep empty_db d -> exact d.
Proof.
  intros Hr. cut (exact empty_db); [revert Hr; generalize empty_db; induction 1; eauto using exact_step|].
  split; cbn; [constructor|by intros k; rw lookup_empty|apply Forall_nil_2].
Qed.

(** The classes partition the requests. *)
Lemma class_one r :
  100 <= so_StatusCode r <= 599 ->
  (if status_class 1 r then 1 else 0) + (if status_class 2 r then 1 else 0) + (if status_class 3 r then 1 else 0) +
  (if status_class 4 r then 1 else 0) + (if status_class 5 r then 1 else 0) = 1.
Proof.
  intros Hr. unfold status_class. assert (Hq : 1 <= Z.quot (so_StatusCode r) 100 <= 5) by lia.
  generalize dependent (Z.quot (so_StatusCode r) 100). clear Hr. intros q Hq.
  destruct (Z.eqb_spec q 1), (Z.eqb_spec q 2), (Z.eqb_spec q 3), (Z.eqb_spec q 4), (Z.eqb_spec q 5); lia.
Qed.

Lemma count_classes l :
  Forall (fun r => 100 <= so_StatusCode r <= 599) l ->
  count (status_class 1) l + count (status_class 2) l + count (status_class 3) l + count (status_class 4) l +
  count (status_class 5) l = Z.of_nat (length l).
Proof.
  unfold count, total. induction 1 as [|r l Hr _ IH]; [done|]. cbn [foldr length]. rw Nat2Z.inj_succ -IH.
  pose proof (class_one r Hr). lia.
Qed.

(** C36: Every event counts once.  Whatever is delivered again, by any number of
    consumers and through any faults and ambiguous commits, the stored events have
    distinct ids and each hourly aggregate is exactly the tally of the stored
    events of its hour, project, route and method: as many requests as events,
    split by status class without remainder, with the sums and the maximum of
    their durations and sizes. *)
Theorem stats_exact d :
  rtc astep empty_db d ->
  NoDup (so_EventID <$> events d) /\
  forall k, match rows_of k (events d) with
            | [] => stats d !! k = None
            | rows => stats d !! k = Some (tally rows) /\
              ct_1xx (tally rows) + ct_2xx (tally rows) + ct_3xx (tally rows) + ct_4xx (tally rows) +
              ct_5xx (tally rows) = ct_requests (tally rows)
            end.
Proof.
  intros [Hids Hst Hrows]%exact_reachable. split; [done|]. intros k. specialize (Hst k). unfold aggregate in Hst.
  pose proof (fun r => rows_of_subset k (events d) r) as Hsub. destruct (rows_of k (events d)) as [|r l] eqn:E; [done|].
  split; [done|]. apply (count_classes (r :: l)). rw -E. apply list.Forall_forall. intros x Hx.
  apply (proj1 (list.Forall_forall _ _) Hrows). apply Hsub. by rw -E.
Qed.

(** ** Retries *)

Lemma nextRetryDelay_spec c m : 0 < c <= m -> nextRetryDelay c m = Z.min (2 * c) m.
Proof.
  intros Hc. unfold nextRetryDelay. destruct (Z.leb_spec m c); [lia|]. destruct (Z.ltb_spec (Z.quot m 2) c); lia.
Qed.

Lemma backoff_step a m i : 0 < a <= m -> 0 <= i ->
  nextRetryDelay (Z.min (a * 2 ^ i) m) m = Z.min (a * 2 ^ (i + 1)) m.
Proof.
  intros Ha Hi. assert (Hp : 0 < 2 ^ i) by (by apply Z.pow_pos_nonneg). rw Z.pow_add_r; [done|done|].
  change (2 ^ 1) with 2. assert (0 < a * 2 ^ i) by nia. rw nextRetryDelay_spec; lia.
Qed.

Lemma retry_loop_spec env e mx m a d n k :
  0 < a <= m -> 1 <= k -> Z.of_nat n = mx - k + 1 -> (0 < n)%nat ->
  exists r d' c delays, retry_loop n mx m env e k (Z.min (a * 2 ^ (k - 1)) m) d = (r, d', c, delays) /\
    1 <= c <= mx - k + 1 /\ Z.of_nat (length delays) = c - 1 /\
    (forall i x, delays !! i = Some x -> x = Z.min (a * 2 ^ (k - 1 + Z.of_nat i)) m) /\
    (is_ok r = false -> (exists j, ae_ctx (env j) <> None \/ ae_wait (env j) <> None) \/ c = mx - k + 1 \/
       exists err, r = Err err /\ errors_Is err ErrInvalidGatewayAccessEvent = true).
Proof.
  intros Ha. revert k d. induction n as [|n IH]; intros k d Hk Hn Hpos; [lia|]. cbn [retry_loop].
  destruct (ProcessGatewayAccess _ _ _) as [[result|err] d1].
  { eexists _, _, _, _. split; [reflexivity|]. split; [lia|]. do 2 (split; [done|]). done. }
  destruct (errors_Is err ErrInvalidGatewayAccessEvent) eqn:Ei.
  { eexists _, _, _, _. split; [reflexivity|]. split; [lia|]. do 2 (split; [done|]). intros _. right; right. by exists err. }
  destruct (ae_ctx (env k)) as [ce|] eqn:Ec.
  { eexists _, _, _, _. split; [reflexivity|]. split; [lia|]. do 2 (split; [done|]). intros _. left. exists k. left. congruence. }
  destruct (Z.eqb_spec k mx) as [->|Hne].
  { eexists _, _, _, _. split; [reflexivity|]. split; [lia|]. do 2 (split; [done|]). intros _. right; left. lia. }
  destruct (ae_wait (env k)) as [we|] eqn:Ew.
  { eexists _, _, _, _. split; [reflexivity|]. split; [lia|]. do 2 (split; [done|]). intros _. left. exists k. right. congruence. }
  rw (backoff_step a m (k - 1) Ha); [lia|]. replace (k - 1 + 1) with (k + 1 - 1) by lia.
  destruct (IH (k + 1) d1) as (r & d' & c & delays & -> & Hc & Hl & Hd & Hr); [lia..|].
  eexists _, _, _, _. split; [reflexivity|]. split; [lia|]. split; [cbn [length]; lia|]. split.
  - intros [|i] x; cbn; [intros [= <-]; by rw Z.add_0_r|]. intros Hx. rw (Hd i x Hx). do 3 f_equal. lia.
  - intros Hr'. destruct (Hr Hr') as [Hx|[Hx|Hx]]; [by left|right; left; lia|by right; right].
Qed.

(** Retries are bounded: an event is tried at most the configured number of
    times; the waits between the attempts start at the configured minimum, double
    each time and stay at the configured maximum; and the consumer gives up early
    only when it is being stopped or the event is invalid. *)
Theorem retries_bounded maxAttempts retryMin retryMax env e d :
  0 < maxAttempts -> 0 < retryMin <= retryMax ->
  exists r d' n delays, processWithRetry maxAttempts retryMin retryMax env e d = (r, d', n, delays) /\
    1 <= n <= maxAttempts /\ Z.of_nat (length delays) = n - 1 /\
    (forall i x, delays !! i = Some x -> x = Z.min (retryMin * 2 ^ Z.of_nat i) retryMax) /\
    (is_ok r = false -> (exists j, ae_ctx (env j) <> None \/ ae_wait (env j) <> None) \/ n = maxAttempts \/
       exists err, r = Err err /\ errors_Is err ErrInvalidGatewayAccessEvent = true).
Proof.
  intros Hm Ha. unfold processWithRetry.
  destruct (retry_loop_spec env e maxAttempts retryMax retryMin d (Z.to_nat maxAttempts) 1) as (r & d' & c & delays & E & Hc & Hl & Hd & Hr);
    [done|lia|lia|lia|].
  assert (Z.min (retryMin * 2 ^ (1 - 1)) retryMax = retryMin) as E1 by (cbn; lia). rw E1 in E.
  exists r, d', c, delays. split; [done|]. split; [lia|]. split; [done|]. split; [exact Hd|].
  intros Hr'. destruct (Hr Hr') as [Hx|[Hx|Hx]]; [by left|right; left; lia|by right; right].
Qed.

(** *** The configuration of the retries *)

Definition clean_list (l : list string) : Prop := NoDup l /\ Forall (fun x => x <> "" /\ TrimSpace x = x) l.

Lemma normalized_from acc l :
  clean_list acc ->
  let step := fun result value => let item := TrimSpace value in
    if bool_decide (item = "") || bool_decide (item ∈ result) then result else result ++ [item] in
  clean_list (foldl step acc l) /\ (clean_list (acc ++ l) -> foldl step acc l = acc ++ l).
Proof.
  cbn zeta. revert acc. induction l as [|x l IH]; intros acc Hacc; cbn [foldl]; [by rw app_nil_r|].
  case_bool_decide as Ee; cbn [orb]; [|case_bool_decide as Ei].
  - destruct (IH acc Hacc) as [H1 _]. split; [done|]. intros [_ Hf]. apply Forall_app in Hf as [_ [[? ?] _]%Forall_cons].
    congruence.
  - destruct (IH acc Hacc) as [H1 _]. split; [done|]. intros [Hn Hf]. apply Forall_app in Hf as [_ [[_ Ex] _]%Forall_cons].
    rw Ex in Ei. apply NoDup_app in Hn as (_ & Hn & _). exfalso. apply (Hn x Ei). set_solver.
  - assert (Hacc' : clean_list (acc ++ [TrimSpace x])).
    { destruct Hacc as [Hn Hf]. split; [by apply NoDup_snoc|]. apply Forall_app. split; [done|].
      apply Forall_cons. split; [|apply Forall_nil_2]. split; [done|apply TrimSpace_idemp]. }
    destruct (IH _ Hacc') as [H1 H2]. split; [done|]. intros [Hn Hf].
    pose proof Hf as Hf'. apply Forall_app in Hf' as [_ [[_ Ex] _]%Forall_cons]. rw Ex in H2.
    rw Ex. rw H2; rw -app_assoc //.
Qed.

Lemma normalized_spec l : clean_list (normalized l) /\ (clean_list l -> normalized l = l).
Proof. apply (normalized_from [] l). split; [constructor|apply Forall_nil_2]. Qed.

(** A configuration that loads is accepted by the consumer as it is, and its
    bounds are those the retries need. *)
Lemma Load_consumer `{UnicodeTables} getenv c :
  Load_analytics_config getenv = Ok c ->
  New_consumer (consumer_config_of c) = Ok (consumer_config_of c) /\
  0 < cf_MaxProcessAttempts c /\ 0 < cf_RetryMin c <= cf_RetryMax c.
Proof.
  unfold Load_analytics_config. pose proof (normalized_spec (Split (getenv "KAFKA_BROKERS") ","%char)) as [Hb _].
  change (normalized (Split (getenv "KAFKA_BROKERS") ","%char)) with (splitAndNormalize (getenv "KAFKA_BROKERS")) in Hb.
  set (brokers := splitAndNormalize _) in *. case_bool_decide as Eb; [done|].
  assert (Hd : forall k f x, 0 < f -> durationFromEnv getenv k f = Ok x -> 0 < x).
  { intros k f x Hf. unfold durationFromEnv. case_bool_decide; [by intros [= <-]|]. destruct (Duration.ParseDuration _) as [a|]; [|done].
    destruct (Z.leb_spec a 0); [done|]. by intros [= <-]. }
  assert (Hs : forall k f, TrimSpace f = f -> f <> "" -> TrimSpace (stringFromEnv getenv k f) = stringFromEnv getenv k f /\
                 stringFromEnv getenv k f <> "").
  { intros k f Ht Hf. unfold stringFromEnv. case_bool_decide; [done|]. by rw TrimSpace_idemp. }
  destruct (durationFromEnv _ "ANALYTICS_RETRY_MIN" _) as [rmin|] eqn:E1; [|done]. apply Hd in E1; [|done].
  cbn [mbind res_bind]. destruct (durationFromEnv _ "ANALYTICS_RETRY_MAX" _) as [rmax|] eqn:E2; [|done]. cbn [mbind res_bind].
  destruct (Z.ltb_spec rmax rmin) as [|Hr]; [done|]. destruct (intFromEnv _ _ _) as [n|]; [|done]. cbn [mbind res_bind].
  destruct (Z.leb_spec n 0) as [|Hn]; [done|]. intros [= <-]. split; [|cbn; lia].
  unfold New_consumer, consumer_config_of. cbn -[stringFromEnv TrimSpace normalized].
  rw (proj2 (normalized_spec brokers) Hb). destruct (Nat.eqb_spec (length brokers) 0) as [E|_]; [by apply length_zero_iff_nil in E|].
  repeat match goal with |- context [stringFromEnv getenv ?k ?f] => 
    destruct (Hs k f eq_refl ltac:(done)) as [? ?]; generalize dependent (stringFromEnv getenv k f); intros ? -> ? end.
  rw !bool_decide_eq_false_2 //. by destruct (Z.leb_spec rmin 0), (Z.ltb_spec rmax rmin), (Z.leb_spec n 0); try lia.
Qed.

(** ** The log *)

Context `{EventJSON}.

(** Faults of the database and of contexts are none of the sentinels the program
    compares with. *)
Definition honest (e : error) : Prop :=
  errors_Is e ErrNoRows = false /\ errors_Is e ErrInvalidGatewayAccessEvent = false.
Definition honest_opt (o : option error) : Prop := forall e, o = Some e -> honest e.
Record honest_store (f : store_env) : Prop := {
  hs_begin : honest_opt (st_begin f); hs_insert : honest_opt (st_insert f); hs_upsert : honest_opt (st_upsert f);
  hs_commit : forall e a, st_commit f = CommitFailed e a -> honest e;
}.
Definition honest_env (env : Z -> attempt_env) : Prop :=
  forall k, honest_store (ae_store (env k)) /\ honest_opt (ae_ctx (env k)) /\ honest_opt (ae_wait (env k)).

Lemma honest_wrapf ctx e : honest e -> honest (wrapf ctx e).
Proof. unfold honest. by rw !errors_Is_wrapf. Qed.

(** Statements whose own errors are none of the sentinels either. *)
Definition sincere {A} (r : res A) : Prop := forall err, r = Err err -> honest err.
Lemma sincere_Ok {A} (a : A) : sincere (Ok a).
Proof. done. Qed.
Lemma sincere_bind {A B} (m : res A) (k : A -> res B) : sincere m -> (forall a, sincere (k a)) -> sincere (m ≫= k).
Proof. intros Hm Hk err. destruct m as [a|e]; cbn; [apply Hk|]. intros [= <-]. by apply Hm. Qed.
Lemma sincere_text s : sincere (encode_text s).
Proof. unfold encode_text. destruct (pg_text s); [done|]. by intros err [= <-]. Qed.
Lemma sincere_int4 z : sincere (encode_int4 z).
Proof. unfold encode_int4. case_bool_decide; [done|]. by intros err [= <-]. Qed.
Lemma sincere_uuid s : sincere (cast_uuid s).
Proof. unfold cast_uuid. destruct (pg_uuid s); [done|]. by intros err [= <-]. Qed.
Lemma sincere_bigint z : sincere (bigint z).
Proof. unfold bigint. case_bool_decide; [done|]. by intros err [= <-]. Qed.
Lemma sincere_if {A} (b : bool) (e : error) (r : res A) : honest e -> sincere r -> sincere (if b then Err e else r).
Proof. intros He Hr. destruct b; [by intros err [= <-]|done]. Qed.
#[local] Hint Resolve sincere_Ok sincere_text sincere_int4 sincere_uuid sincere_bigint : core.

Lemma insert_event_honest e l err : insert_event e l = Err err -> honest err.
Proof.
  revert err. change (sincere (insert_event e l)). unfold insert_event.
  do 11 (apply sincere_bind; [by auto|intros ?]). apply sincere_bind.
  { destruct (nullif _); [|done]. apply sincere_bind; auto. }
  intros ?. do 5 (apply sincere_if; [done|]). by destruct (existsb _ l).
Qed.
Lemma upsert_honest e s err : upsert_stats e s = Err err -> honest err.
Proof.
  revert err. change (sincere (upsert_stats e s)). unfold upsert_stats. apply sincere_bind; [by auto|intros u].
  destruct (s !! _); [|done]. apply sincere_bind; [|done]. unfold add_counters.
  do 9 (apply sincere_bind; [by auto|intros ?]). done.
Qed.

(** An event the store has, and could take. *)
Definition taken (e : GatewayAccessEvent) (d : db) : Prop :=
  ev_EventID e ∈ (so_EventID <$> events d) /\ storable_event e = true.

(** What a transaction says and does, with honest faults. *)
Lemma Store_honest f e d :
  honest_store f ->
  match (StoreGatewayAccess f e d).1 with
  | Ok _ => taken e (StoreGatewayAccess f e d).2
  | Err err => errors_Is err ErrInvalidGatewayAccessEvent = false
  end.
Proof.
  intros [Hb Hi Hu Hc]. unfold StoreGatewayAccess. destruct (st_begin f) as [be|] eqn:Eb.
  { cbn [fst]. rw errors_Is_wrapf. by apply (Hb be). }
  destruct (with_fault (st_insert f) _) as [[row|]|err] eqn:Ei.
  - apply with_fault_Ok in Ei as [_ Ei]. pose proof (insert_event_Ok _ _ _ Ei) as (Hst & _ & Erow & _).
    destruct (if shouldAggregate e then with_fault _ _ else _) as [s'|err] eqn:Es.
    + destruct (st_commit f) as [|err a] eqn:Ec; cbn [fst snd].
      * split; [cbn [events]; rw fmap_app Erow; cbn; set_solver|done].
      * rw errors_Is_wrapf. by apply (Hc err a).
    + cbn [fst]. rw errors_Is_wrapf. destruct (shouldAggregate e); [|done].
      destruct (st_upsert f) as [ue|]; cbn in Es; [injection Es as <-; by apply (Hu ue)|by apply upsert_honest in Es as []].
  - cbn. apply with_fault_Ok in Ei as [_ Ei]. split; [by apply insert_event_dup in Ei|by apply insert_event_iff in Ei as [? _]].
  - assert (Hh : honest err).
    { destruct (st_insert f) as [ie|]; cbn in Ei; [injection Ei as <-; by apply (Hi ie)|by apply insert_event_honest in Ei]. }
    destruct Hh as [Hn Hv]. rw Hn. cbn [fst]. by rw errors_Is_wrapf.
Qed.

(** A record is taken care of when it is no valid event or its event is stored. *)
Definition handled (payload : string) (d : db) : Prop :=
  forall e, decodeGatewayAccessEvent payload = Ok e -> ev_EventID e ∈ (so_EventID <$> events d).

Lemma events_grow d d' : rtc astep d d' -> exists l, events d' = events d ++ l.
Proof.
  induction 1 as [d|d1 d2 d3 [f e] _ [l IH]]; [exists []; by rw app_nil_r|].
  destruct (Process_cases f e d1) as [E|E]; rw E in IH; [by exists l|].
  destruct (Store_cases f e d1) as [E'|(row & st & _ & _ & E')]; rw E' in IH; [by exists l|].
  exists (row :: l). rw IH. cbn. by rw -app_assoc.
Qed.
Lemma handled_grow payload d d' : rtc astep d d' -> handled payload d -> handled payload d'.
Proof. intros Hr Hh e He. destruct (events_grow _ _ Hr) as [l ->]. rw fmap_app. specialize (Hh e He). set_solver. Qed.

Lemma retry_honest env e n mx m k delay d r d' c delays :
  honest_env env -> event_Validate e = Ok tt -> retry_loop n mx m env e k delay d = (r, d', c, delays) ->
  rtc astep d d' /\
  match r with
  | Ok _ => taken e d'
  | Err err => errors_Is err ErrInvalidGatewayAccessEvent = false
  end.
Proof.
  intros He Hv. revert k delay d r d' c delays. induction n as [|n IH]; intros k delay d r d' c delays; cbn [retry_loop].
  { intros [= <- <- <- <-]. split; [apply rtc_refl|done]. }
  pose proof (as_process d (ae_store (env k)) e) as Hs. destruct (He k) as (Hst & Hcx & Hwt).
  pose proof (Store_honest (ae_store (env k)) e d Hst) as Hh.
  assert (Hp : forall r1 d1, ProcessGatewayAccess (ae_store (env k)) e d = (r1, d1) ->
    rtc astep d d1 /\ match r1 with Ok _ => taken e d1
                      | Err err => errors_Is err ErrInvalidGatewayAccessEvent = false end).
  { intros r1 d1 E. rw E in Hs. split; [by apply rtc_once|]. revert E. unfold ProcessGatewayAccess. rw Hv.
    destruct (StoreGatewayAccess _ e d) as [r0 d0]. cbn in Hh. intros [= <- <-].
    destruct r0; [done|]. by rw errors_Is_wrapf. }
  destruct (ProcessGatewayAccess _ e d) as [r1 d1]. destruct (Hp r1 d1 eq_refl) as [Hr1 Ho]. clear Hp Hs.
  destruct r1 as [result|err]; [by intros [= <- <- <- <-]|]. rw Ho.
  destruct (ae_ctx (env k)) as [ce|]; [intros [= <- <- <- <-]; split; [done|by apply (Hcx ce)]|].
  destruct (k =? mx); [intros [= <- <- <- <-]; split; [done|by rw errors_Is_wrapf]|].
  destruct (ae_wait (env k)) as [we|]; [intros [= <- <- <- <-]; split; [done|by apply (Hwt we)]|].
  destruct (retry_loop n mx m env e (k + 1) _ d1) as [[[r2 d2] c2] ds2] eqn:E2. intros [= <- <- <- <-].
  destruct (IH _ _ _ _ _ _ _ E2) as [Hr2 Ho2]. split; [by etrans|done].
Qed.

Lemma handleRecord_spec mx rmin rmax env c payload d r d' asked :
  honest_env env -> handleRecord mx rmin rmax env c payload d = (r, d', asked) ->
  rtc astep d d' /\ (asked = true -> forall e, decodeGatewayAccessEvent payload = Ok e -> taken e d') /\ (is_ok r = true -> asked = true).
Proof.
  intros He. unfold handleRecord. destruct (decodeGatewayAccessEvent payload) as [e|] eqn:Ed.
  - destruct (processWithRetry _ _ _ _ _ _) as [[[r1 d1] n] delays] eqn:E.
    assert (Hv : event_Validate e = Ok tt).
    { revert Ed. unfold decodeGatewayAccessEvent. destruct (event_Unmarshal payload) as [e'|]; [|done].
      destruct (event_Validate e') as [[]|] eqn:Ev; [|done]. by intros [= <-]. }
    destruct (retry_honest _ _ _ _ _ _ _ _ _ _ _ _ He Hv E) as [Hr Ho].
    destruct r1 as [result|err]; [|rw Ho]; intros [= <- <- <-]; (split; [done|]); [|done].
    split; [|done]. intros _ e' He'. by assert (e' = e) as -> by congruence.
  - intros [= <- <- <-]. split; [apply rtc_refl|]. split; [|done]. intros _ e' He'. congruence.
Qed.

(** A partition with its committed offset, the positions of the running consumers
    and the tables. *)
Record ksys := mkK { k_log : list string; k_committed : nat; k_pos : list nat; k_db : db }.

Inductive kstep (mx rmin rmax : Z) : ksys -> ksys -> Prop :=
| ks_append payload log c pos d : kstep mx rmin rmax (mkK log c pos d) (mkK (log ++ [payload]) c pos d)
| ks_join log c pos d : kstep mx rmin rmax (mkK log c pos d) (mkK log c (c :: pos) d)
| ks_leave i log c p1 p2 d : kstep mx rmin rmax (mkK log c (p1 ++ i :: p2) d) (mkK log c (p1 ++ p2) d)
| ks_handle env ce payload r d' asked i log c p1 p2 d :
  honest_env env -> log !! i = Some payload -> handleRecord mx rmin rmax env ce payload d = (r, d', asked) ->
  kstep mx rmin rmax (mkK log c (p1 ++ i :: p2) d)
    (mkK log (if asked && (bool_decide (ce_err ce = None) || ce_applied ce) then S i else c)
       (if is_ok r then p1 ++ S i :: p2 else p1 ++ p2) d').

(** What handling a record establishes and no later step destroys. *)
Section offsets.
Context (mx rmin rmax : Z) (P : string -> db -> Prop).
Hypothesis P_grow : forall payload d d', rtc astep d d' -> P payload d -> P payload d'.
Hypothesis P_handle : forall env ce payload d r d',
  honest_env env -> handleRecord mx rmin rmax env ce payload d = (r, d', true) -> P payload d'.

(** It holds of everything before an offset. *)
Definition past (log : list string) (d : db) (p : nat) : Prop :=
  forall j, (j < p)%nat -> exists payload, log !! j = Some payload /\ P payload d.

Definition kinv (s : ksys) : Prop :=
  past (k_log s) (k_db s) (k_committed s) /\ Forall (past (k_log s) (k_db s)) (k_pos s).

Lemma past_grow log l d d' p : rtc astep d d' -> past log d p -> past (log ++ l) d' p.
Proof.
  intros Hr Hp j Hj. destruct (Hp j Hj) as (payload & Hl & Hh). exists payload.
  split; [by apply lookup_app_l_Some|by eapply P_grow].
Qed.
Lemma past_next log d i payload : past log d i -> log !! i = Some payload -> P payload d -> past log d (S i).
Proof.
  intros Hp Hl Hh j Hj. destruct (decide (j = i)) as [->|Hne]; [by exists payload|]. apply Hp. lia.
Qed.

Lemma kinv_step s s' : kstep mx rmin rmax s s' -> kinv s -> kinv s'.
Proof.
  intros [payload log c pos d|log c pos d|i log c p1 p2 d|env ce payload r d' asked i log c p1 p2 d He Hl E] [Hc Hp];
    unfold kinv in *; cbn in *.
  - split; [by apply (past_grow _ _ d d); [apply rtc_refl|]|]. eapply Forall_impl; [exact Hp|]. intros p.
    by apply past_grow, rtc_refl.
  - split; [done|]. by apply Forall_cons.
  - split; [done|]. apply Forall_app in Hp as [? [_ ?]%Forall_cons]. by apply Forall_app.
  - destruct (handleRecord_spec _ _ _ _ _ _ _ _ _ _ He E) as (Hr & _ & Hok).
    assert (Hg : forall p, past log d p -> past log d' p).
    { intros p Hp'. rw -(app_nil_r log). by apply (past_grow log [] d d'). }
    apply Forall_app in Hp as [P1 [Pi P2]%Forall_cons].
    assert (Hn : asked = true -> past log d' (S i)) by (intros ->; eapply past_next; eauto).
    split; [destruct asked; cbn; [destruct (_ || _)|]; auto|].
    assert (Forall (past log d') p1 /\ Forall (past log d') p2) as [? ?] by (split; by eapply Forall_impl).
    destruct (is_ok r); apply Forall_app; split; try done. apply Forall_cons. by auto.
Qed.

Lemma committed_past s :
  rtc (kstep mx rmin rmax) (mkK [] 0 [] empty_db) s -> past (k_log s) (k_db s) (k_committed s).
Proof.
  intros Hr. assert (Hk : kinv s); [|exact (proj1 Hk)].
  assert (Hi : kinv (mkK [] 0 [] empty_db)) by (split; [intros j Hj; cbn in Hj; lia|apply Forall_nil_2]).
  revert Hi. induction Hr; eauto using kinv_step.
Qed.
End offsets.

(** C37: No event is skipped.  However consumers start, stop, fail and are
    replaced, and however offsets are committed, every record before the committed
    offset is either not a valid event or its event is stored. *)
Theorem no_event_skipped mx rmin rmax s :
  rtc (kstep mx rmin rmax) (mkK [] 0 [] empty_db) s ->
  forall j, (j < k_committed s)%nat -> exists payload, k_log s !! j = Some payload /\ handled payload (k_db s).
Proof.
  apply committed_past; [intros ???; apply handled_grow|].
  intros env ce payload d r d' He E e Ee. destruct (handleRecord_spec _ _ _ _ _ _ _ _ _ _ He E) as (_ & Ht & _).
  exact (proj1 (Ht eq_refl e Ee)).
Qed.

(** ** Events the store can never take *)

(** A valid event that PostgreSQL cannot store, such as one whose path has a zero
    byte. *)
Definition poison (payload : string) : Prop :=
  exists e, decodeGatewayAccessEvent payload = Ok e /\ storable_event e = false.

(** Such an event, which the gateway emits for a request of /%00, is never committed:
    the committed offset of its partition stays at or before it whatever happens. *)
Theorem poison_blocks mx rmin rmax s i payload :
  rtc (kstep mx rmin rmax) (mkK [] 0 [] empty_db) s -> k_log s !! i = Some payload -> poison payload ->
  (k_committed s <= i)%nat.
Proof.
  intros Hr Hl Hp. destruct (decide (i < k_committed s)%nat) as [Hi|]; [|lia].
  destruct (committed_past mx rmin rmax (fun payload _ => ~ poison payload)) with s i as (payload' & Hl' & Hn); [done| |done..|].
  - intros env ce payload' d r d' He E (e & Ee & Hz). destruct (handleRecord_spec _ _ _ _ _ _ _ _ _ _ He E) as (_ & Ht & _).
    destruct (Ht eq_refl e Ee) as [_ Ho]. congruence.
  - assert (payload' = payload) as -> by congruence. done.
Qed.
End history.
End AnalyticsHistory.
