(* ===== verification/AnalyticsQueries.v ===== *)
(** What the analytics queries answer: the summary over a time range is the tally
    of the stored events in the hours that cover it.  Also the concrete runs of the
    ingestion and of the queries. *)
From Stdlib Require Import Ascii ZArith Lia String.
From Corelib Require Import ssreflect.
From stdpp Require Import base gmap strings list numbers relations pretty.
From S2P Require Import Prelude GoStrings GoTime GoEncoding GoNet Events Postgres Analytics AnalyticsHistory.

#[local] Open Scope Z_scope.

Module AnalyticsQueries.
Import Analytics AnalyticsHistory.

(** ** The reference answer *)

(** The stored events a filter is about, by their own time. *)
Definition matching (project : string) (f : RouteStatsFilter) (r : stored) : bool :=
  match so_RouteName r, so_RoutePathPrefix r with
  | Some route, Some _ =>
    bool_decide (so_ProjectID r = Some project) &&
    (rf_From f <=? so_OccurredAt r) && (so_OccurredAt r <? rf_To f) &&
    (bool_decide (rf_RouteName f = "") || bool_decide (route = rf_RouteName f)) &&
    (bool_decide (rf_Method f = "") || bool_decide (so_Method r = rf_Method f))
  | _, _ => false
  end.

Definition summary_of (c : counters) : RouteStatsSummary :=
  mkSummary (ct_requests c) (ct_1xx c) (ct_2xx c) (ct_3xx c) (ct_4xx c) (ct_5xx c) (ct_limited c)
    (if ct_requests c =? 0 then (0, 1) else (ct_duration c, ct_requests c)) (ct_max_duration c) (ct_bytes c).

(** ** Sums over aggregates are sums over events *)

Lemma filter_orb (p q : stored -> bool) h l :
  (forall r, p r = true -> q r = false) ->
  total h (List.filter p l) + total h (List.filter q l) = total h (List.filter (fun r => p r || q r) l).
Proof.
  intros Hd. unfold total. induction l as [|r l IH]; [done|]. cbn. specialize (Hd r).
  destruct (p r); cbn; [rw Hd //; cbn; lia|]. destruct (q r); cbn; lia.
Qed.
Lemma filter_max (p q : stored -> bool) h l :
  Z.max (largest h (List.filter p l)) (largest h (List.filter q l)) = largest h (List.filter (fun r => p r || q r) l).
Proof.
  unfold largest. induction l as [|r l IH]; [done|]. cbn. destruct (p r), (q r); cbn; lia.
Qed.

(** The events of the aggregates of a list. *)
Definition covered (L : list (stats_key * counters)) (r : stored) : bool :=
  existsb (fun kc => bool_decide (key_of r = Some kc.1)) L.

Lemma covered_spec L r : covered L r = true <-> exists k, key_of r = Some k /\ k ∈ L.*1.
Proof.
  unfold covered. rw existsb_exists. split.
  - intros ([k c] & Hin%list_elem_of_In & Hk%bool_decide_eq_true_1). exists k. split; [done|].
    by apply (list_elem_of_fmap_2 fst _ (k, c)).
  - intros (k & Hk & ([k' c] & -> & Hin)%list_elem_of_fmap_1). exists (k', c). split; [by apply list_elem_of_In|].
    by apply bool_decide_eq_true_2.
Qed.

Lemma sum_covered g h L l :
  NoDup L.*1 -> (forall k c, (k, c) ∈ L -> g c = total h (rows_of k l)) ->
  sum_of g L = total h (List.filter (covered L) l).
Proof.
  unfold sum_of. induction L as [|[k c] L IH]; cbn [foldr fmap list_fmap].
  - intros _ _. by assert (List.filter (covered []) l = []) as -> by (induction l; done).
  - intros [Hk Hn]%NoDup_cons Hg. rw IH; [done|intros; apply Hg; set_solver|].
    rw (Hg k c); [set_solver|]. unfold rows_of. rw filter_orb; [|done].
    intros r Hr%bool_decide_eq_true_1. apply not_true_iff_false. rw covered_spec. intros (k' & Hk' & Hin).
    assert (k' = k) as -> by congruence. done.
Qed.
Lemma max_covered g h L l :
  (forall k c, (k, c) ∈ L -> g c = largest h (rows_of k l)) -> max_of g L = largest h (List.filter (covered L) l).
Proof.
  unfold max_of. induction L as [|[k c] L IH]; cbn [foldr].
  - intros _. by assert (List.filter (covered []) l = []) as -> by (induction l; done).
  - intros Hg. rw IH; [intros; apply Hg; set_solver|]. rw (Hg k c); [set_solver|]. by apply filter_max.
Qed.

Lemma length_total l : Z.of_nat (length l) = total (fun _ => 1) l.
Proof. unfold total. induction l as [|r l IH]; [done|]. cbn [length foldr]. lia. Qed.

(** ** Hours *)

Lemma pg_time_hour t : t mod Hour = 0 -> pg_time t = t.
Proof. intros Ht. unfold pg_time. apply Truncate_fixed; [done|]. unfold_time. lia. Qed.

Lemma ceilHour_spec t : t <= ceilHour t < t + Hour /\ ceilHour t mod Hour = 0.
Proof.
  unfold ceilHour. pose proof (Truncate_le t Hour ltac:(done)) as Hl. pose proof (Truncate_aligned t Hour ltac:(done)) as Ha.
  destruct (Z.eqb_spec t (Truncate t Hour)); [rw -e; rw -e in Ha; split; [lia|done]|].
  unfold Add. split; [lia|]. rw Z.add_mod; [done|]. by rw Ha Z_mod_same_full.
Qed.

(** A bucket is in an aligned range exactly when the instant is. *)
Lemma bucket_range from to t :
  from mod Hour = 0 -> to mod Hour = 0 ->
  (from <=? Truncate t Hour) = (from <=? t) /\ (Truncate t Hour <? to) = (t <? to).
Proof.
  intros Hf Ht. unfold Truncate. change (Hour <=? 0) with false. cbn iota. revert Hf Ht. unfold_time. intros Hf Ht.
  split; [destruct (Z.leb_spec from (t - t mod (60 * (60 * 1000000000)))), (Z.leb_spec from t)
         |destruct (Z.ltb_spec (t - t mod (60 * (60 * 1000000000))) to), (Z.ltb_spec t to)]; lia.
Qed.

Section queries.
Context `{UnicodeTables} `{PgUUID}.

Lemma normalize_spec f f' :
  normalizeStatsFilter f = Ok f' ->
  rf_From f' <= rf_From f < rf_From f' + Hour /\ rf_To f <= rf_To f' < rf_To f + Hour /\
  rf_From f' mod Hour = 0 /\ rf_To f' mod Hour = 0.
Proof.
  unfold normalizeStatsFilter. destruct (negb _); [done|]. destruct (_ || _); [done|].
  destruct (maxAnalyticsRange <? _); [done|]. intros [= <-]. cbn [rf_From rf_To].
  pose proof (ceilHour_spec (rf_To f)) as [? ?]. pose proof (Truncate_le (rf_From f) Hour ltac:(done)).
  pose proof (Truncate_aligned (rf_From f) Hour ltac:(done)). done.
Qed.

(** The aggregates of a selection cover exactly the events that match. *)
Lemma covered_matching u f d r :
  exact d -> rf_From f mod Hour = 0 -> rf_To f mod Hour = 0 -> r ∈ events d ->
  covered (select_stats u f (stats d)) r = matching u f r.
Proof.
  intros [_ Hst _] Hf Ht Hr. apply eq_true_iff_eq. rw covered_spec.
  assert (Hsel : forall k, k ∈ (select_stats u f (stats d)).*1 <-> is_Some (stats d !! k) /\ selected u f k = true).
  { intros k. unfold select_stats. split.
    - intros ([k' c] & -> & [Hin%list_elem_of_In Hs]%list_elem_of_In%filter_In)%list_elem_of_fmap_1.
      split; [|done]. exists c. by apply elem_of_map_to_list.
    - intros [[c Hc] Hs]. apply (list_elem_of_fmap_2 fst _ (k, c)), list_elem_of_In, filter_In.
      split; [|done]. by apply list_elem_of_In, elem_of_map_to_list. }
  assert (Hin : forall k, key_of r = Some k -> is_Some (stats d !! k)).
  { intros k Hk. rw Hst. unfold aggregate. destruct (rows_of k (events d)) eqn:E; [|done].
    assert (Hm : r ∈ rows_of k (events d)); [|rw E in Hm; by apply not_elem_of_nil in Hm].
    apply list_elem_of_In, filter_In. split; [by apply list_elem_of_In|by apply bool_decide_eq_true_2]. }
  assert (He : (exists k, key_of r = Some k /\ k ∈ (select_stats u f (stats d)).*1) <->
               exists k, key_of r = Some k /\ selected u f k = true).
  { split; intros (k & Hk & Hs); exists k; (split; [done|]).
    - apply Hsel in Hs as [_ Hs]. exact Hs.
    - apply Hsel. split; [exact (Hin k Hk)|exact Hs]. }
  rw He. destruct (bucket_range (rf_From f) (rf_To f) (so_OccurredAt r) Hf Ht) as [Eb1 Eb2].
  unfold key_of, matching. destruct (so_ProjectID r) as [p|], (so_RouteName r) as [n|], (so_RoutePathPrefix r) as [x|];
    try (split; [by intros (? & ? & ?)|done]).
  transitivity (selected u f (Truncate (so_OccurredAt r) Hour, p, n, x, so_Method r) = true).
  { split; [by intros (k & [= <-] & Hs)|intros Hs; by eexists]. }
  unfold selected. cbn [key_bucket key_project key_route key_method]. rw !pg_time_hour // Eb1 Eb2.
  by rw (bool_decide_ext (Some p = Some u) (p = u)); [split; congruence|].
Qed.

Lemma count_le p l : 0 <= count p l <= Z.of_nat (length l).
Proof. unfold count, total. induction l as [|r l IH]; cbn [foldr length]; [lia|]. destruct (p r); lia. Qed.

Lemma scan_fits z : int64_range z -> scan_int64 z = Ok z.
Proof. intros Hz. unfold scan_int64. by rw bool_decide_eq_true_2. Qed.

(** The sums of a selection, field by field. *)
Lemma select_tally u f d :
  exact d -> rf_From f mod Hour = 0 -> rf_To f mod Hour = 0 ->
  let L := select_stats u f (stats d) in
  let c := tally (List.filter (matching u f) (events d)) in
  sum_of ct_requests L = ct_requests c /\ sum_of ct_1xx L = ct_1xx c /\ sum_of ct_2xx L = ct_2xx c /\
  sum_of ct_3xx L = ct_3xx c /\ sum_of ct_4xx L = ct_4xx c /\ sum_of ct_5xx L = ct_5xx c /\
  sum_of ct_limited L = ct_limited c /\ sum_of ct_duration L = ct_duration c /\
  max_of ct_max_duration L = ct_max_duration c /\ sum_of ct_bytes L = ct_bytes c.
Proof.
  intros He Hf Ht L c.
  assert (Hn : NoDup L.*1).
  { unfold L, select_stats. pose proof (NoDup_fst_map_to_list (stats d)) as Hn.
    revert Hn. generalize (map_to_list (stats d)). intros l. induction l as [|x l IH]; [done|]. cbn.
    intros [Hx Hl]%NoDup_cons. destruct (selected _ _ _); [|by apply IH]. cbn. apply NoDup_cons. split; [|by apply IH].
    intros (y & Ey & [Hy%list_elem_of_In _]%list_elem_of_In%filter_In)%list_elem_of_fmap_1. apply Hx.
    rw Ey. by apply list_elem_of_fmap_2. }
  assert (Hc : forall k c', (k, c') ∈ L -> c' = tally (rows_of k (events d))).
  { intros k c' [Hin%list_elem_of_In%elem_of_map_to_list _]%list_elem_of_In%filter_In.
    destruct He as [_ Hst _]. rw Hst in Hin. unfold aggregate in Hin. destruct (rows_of k (events d)); naive_solver. }
  assert (Ef : List.filter (matching u f) (events d) = List.filter (covered L) (events d)).
  { apply List.filter_ext_in. intros r Hr%list_elem_of_In. symmetry. by apply covered_matching. }
  unfold c. rw Ef. unfold tally. cbn [ct_requests ct_1xx ct_2xx ct_3xx ct_4xx ct_5xx ct_limited ct_duration ct_max_duration ct_bytes].
  rw length_total. unfold count.
  repeat split; (apply sum_covered || apply max_covered); try done; intros k c' ->%Hc; try reflexivity.
  unfold tally. cbn. apply length_total.
Qed.

(** C39: A summary is exact: over a valid range it counts, by status class and
    with total and maximum durations and sizes, precisely the stored events of the
    project and route whose time falls in the whole hours that cover the range;
    no event of the range is left out and none further than an hour away is
    counted. *)
Theorem summary_exact f f' u d :
  rtc astep empty_db d -> normalizeStatsFilter f = Ok f' -> pg_uuid (rf_ProjectID f') = Some u ->
  pg_text (rf_RouteName f') = true -> pg_text (rf_Method f') = true ->
  Z.of_nat (length (List.filter (matching u f') (events d))) <= max_int64 ->
  int64_range (total so_ResponseBytes (List.filter (matching u f') (events d))) ->
  GetRouteStatsSummary None f d = Ok (summary_of (tally (List.filter (matching u f') (events d)))) /\
  rf_From f' <= rf_From f < rf_From f' + Hour /\ rf_To f <= rf_To f' < rf_To f + Hour.
Proof.
  intros Hd%exact_reachable Hn Hu Hr Hm Hlen Hb. pose proof (normalize_spec f f' Hn) as (Ha1 & Ha2 & Hf & Ht).
  split; [|done]. unfold GetRouteStatsSummary. rw Hn. cbn [mbind res_bind].
  unfold repo_GetRouteStatsSummary, with_fault, cast_uuid, encode_text. rw Hu Hr Hm. cbn [mbind res_bind].
  destruct (select_tally u f' d Hd Hf Ht) as (-> & -> & -> & -> & -> & -> & -> & -> & -> & ->).
  set (rows := List.filter (matching u f') (events d)) in *.
  assert (Hi : forall z, 0 <= z <= Z.of_nat (length rows) -> int64_range z) by (unfold int64_range; unfold_time; lia).
  rw !scan_fits; try (apply Hb); try (apply Hi); try (apply count_le); [cbn; lia|]. reflexivity.
Qed.
End queries.

(** ** Examples *)

Module Example.
#[local] Instance ascii_only : UnicodeTables := {| unicode_lower s := s; unicode_upper s := s; strconv_Quote s := s |}.
#[local] Instance uuids : PgUUID := canonical_uuids.

Definition p1 : string := "3f2504e0-4f89-11d3-9a0c-0305e82c3301".
Definition t0 : Z := unix_epoch + 500000 * Hour.
Definition ev (id : string) (at_ : Z) (path : string) (status ms : Z) : GatewayAccessEvent :=
  mkEvent 1 id at_ "r" p1 "orders" "/orders" "GET" path status ms 10 "ip" "10.0.0.1" false false false.

Definition calm : store_env := mkStore None None None Committed.
Definition lost : store_env := mkStore None None None (CommitFailed (Opaque "connection reset") true).
Definition down : store_env := mkStore (Some (Opaque "connection refused")) None None Committed.
Definition e1 := ev "a" (t0 + 5) "/orders/1" 200 7.
Definition e2 := ev "b" (t0 + Minute) "/orders/2" 503 40.
Definition e3 := ev "c" (t0 + Hour) "/orders/3" 404 3.

(** The commit of the first event is lost on the way back, and it is delivered
    again. *)
Definition d1 : db := (ProcessGatewayAccess lost e1 empty_db).2.
Definition d2 : db := (ProcessGatewayAccess calm e1 d1).2.
Definition d3 : db := (ProcessGatewayAccess calm e2 d2).2.
Definition d4 : db := (ProcessGatewayAccess calm e3 d3).2.

Example second_delivery_is_duplicate : (ProcessGatewayAccess calm e1 d1).1 = Ok (mkIngestion true false).
Proof. vm_compute. reflexivity. Qed.

Lemma d4_reachable : rtc astep empty_db d4.
Proof. do 4 (eapply rtc_l; [constructor|]). apply rtc_refl. Qed.

Definition key1 : stats_key := (t0, p1, "orders", "/orders", "GET").

(** C36 at two events of an hour, one of them delivered twice. *)
Lemma stats_exact_witness : rtc astep empty_db d4 /\ stats d4 !! key1 = Some (mkCounters 2 0 1 0 0 1 0 47 40 20).
Proof.
  split; [exact d4_reachable|]. pose proof (proj2 (stats_exact d4 d4_reachable) key1) as Hk.
  vm_compute in Hk. vm_compute. exact (proj1 Hk).
Defined.

(** Two failures, then success: waits of 1 s and 2 s. *)
Definition env3 (k : Z) : attempt_env := mkAttempt (if k <? 3 then down else calm) None None.

(** At three attempts. *)
Lemma retries_bounded_witness :
  0 < 5 /\ 0 < Second <= 30 * Second /\
  exists r d' n delays, processWithRetry 5 Second (30 * Second) env3 e1 empty_db = (r, d', n, delays) /\ 1 <= n <= 5.
Proof.
  split; [lia|]. split; [vm_compute; split; congruence|].
  destruct (retries_bounded 5 Second (30 * Second) env3 e1 empty_db) as (r & d' & n & delays & E & Hn & _);
    [lia|vm_compute; split; congruence|]. by exists r, d', n, delays.
Defined.

Example three_attempts :
  (processWithRetry 5 Second (30 * Second) env3 e1 empty_db).1.2 = 3 /\
  (processWithRetry 5 Second (30 * Second) env3 e1 empty_db).2 = [Second; 2 * Second].
Proof. vm_compute. done. Qed.

(** An event of a request no route takes. *)
Definition unrouted (path : string) : GatewayAccessEvent :=
  mkEvent 1 ("e" +:+ path) t0 "r" "" "" "" "GET" path 404 1 10 "ip" "10.0.0.1" false false false.

(** A decoder for two payloads. *)
#[local] Instance two_payloads : EventJSON := {|
  event_Unmarshal p :=
    if bool_decide (p = "1") then Ok (unrouted "/")
    else if bool_decide (p = "0") then Ok (unrouted (String "/"%char (String "000"%char "")))
    else Err (Opaque "invalid character")
|}.

Definition env_ok (k : Z) : attempt_env := mkAttempt calm None None.
Lemma env_ok_honest : honest_env env_ok.
Proof. intros k. repeat split; cbn; by intros. Qed.
Definition commit_ok : commit_env := mkCommit "access" 0 0 None None true.

(** A log of a malformed record, an event and a poisoned one, consumed from the
    start. *)
Definition handle_one (payload : string) (d : db) := handleRecord 5 Second (30 * Second) env_ok commit_ok payload d.
Definition h1 : db := (handle_one "1" empty_db).1.2.
Definition log : list string := ["?"; "1"; "0"].
Definition s_end : ksys := mkK log 2 [] h1.

Lemma handle_malformed : handle_one "?" empty_db = (Ok tt, empty_db, true).
Proof. vm_compute. reflexivity. Qed.
Lemma handle_event : handle_one "1" empty_db = (Ok tt, h1, true).
Proof. vm_compute. reflexivity. Qed.
Lemma handle_poison : exists err, handle_one "0" h1 = (Err err, h1, false).
Proof. eexists. vm_compute. reflexivity. Qed.

Lemma s_end_reachable : rtc (kstep 5 Second (30 * Second)) (mkK [] 0 [] empty_db) s_end.
Proof.
  destruct handle_poison as [err Hp].
  apply rtc_l with (mkK ["?"] 0 [] empty_db); [apply (ks_append _ _ _ "?" [])|].
  apply rtc_l with (mkK ["?"; "1"] 0 [] empty_db); [apply (ks_append _ _ _ "1" ["?"])|].
  apply rtc_l with (mkK log 0 [] empty_db); [apply (ks_append _ _ _ "0" ["?"; "1"])|].
  apply rtc_l with (mkK log 0 [0%nat] empty_db); [apply ks_join|].
  apply rtc_l with (mkK log 1 [1%nat] empty_db).
  { exact (ks_handle _ _ _ env_ok commit_ok "?" _ _ _ 0 log 0 [] [] empty_db env_ok_honest eq_refl handle_malformed). }
  apply rtc_l with (mkK log 2 [2%nat] h1).
  { exact (ks_handle _ _ _ env_ok commit_ok "1" _ _ _ 1 log 1 [] [] empty_db env_ok_honest eq_refl handle_event). }
  apply rtc_l with s_end; [|apply rtc_refl].
  exact (ks_handle _ _ _ env_ok commit_ok "0" _ _ _ 2 log 2 [] [] h1 env_ok_honest eq_refl Hp).
Qed.

(** C37 at the log above: the second record is before the committed offset. *)
Lemma no_event_skipped_witness :
  rtc (kstep 5 Second (30 * Second)) (mkK [] 0 [] empty_db) s_end /\ handled "1" h1.
Proof.
  split; [exact s_end_reachable|].
  destruct (no_event_skipped 5 Second (30 * Second) s_end s_end_reachable 1%nat) as (payload & Hl & Hh);
    [exact (le_n 2)|]. injection Hl as <-. exact Hh.
Defined.

(** At the log above: the consumer stopped at the third record. *)
Lemma poison_blocks_witness : poison "0" /\ (k_committed s_end <= 2)%nat.
Proof.
  assert (Hp : poison "0") by (eexists; split; vm_compute; reflexivity).
  split; [exact Hp|]. exact (poison_blocks 5 Second (30 * Second) s_end 2 "0" s_end_reachable eq_refl Hp).
Defined.

(** C1 at half an hour of the first hour. *)
Definition half : RouteStatsFilter := mkFilter p1 (t0 + Second) (t0 + 30 * Minute) "" " get ".
Definition half' : RouteStatsFilter := mkFilter p1 t0 (t0 + Hour) "" "GET".
Lemma summary_exact_witness :
  normalizeStatsFilter half = Ok half' /\
  GetRouteStatsSummary None half d4 = Ok (mkSummary 2 0 1 0 0 1 0 (47, 2) 40 20).
Proof.
  assert (Hn : normalizeStatsFilter half = Ok half') by (vm_compute; reflexivity). split; [exact Hn|].
  destruct (summary_exact half half' p1 d4 d4_reachable Hn) as [E _];
    [vm_compute; reflexivity|vm_compute; reflexivity|vm_compute; reflexivity|vm_compute; congruence|vm_compute; split; congruence|].
  vm_compute in E. vm_compute. exact E.
Defined.
End Example.
End AnalyticsQueries.
