(* ===== verification/AnalyticsProgress.v ===== *)
(** Progress of the analytics consumers (internal/analytics/infrastructure/kafka).

    The theorems of AnalyticsHistory say that nothing is skipped; here it is shown that
    the consumers are never stuck for another reason than an event the database cannot
    store: without faults every record is handled and its offset committed. *)
From Stdlib Require Import Ascii ZArith Lia.
From Corelib Require Import ssreflect.
From stdpp Require Import base gmap strings list numbers relations pretty.
From S2P Require Import Prelude GoStrings GoTime GoEncoding GoNet Events Postgres Analytics AnalyticsHistory AnalyticsQueries.

#[local] Open Scope Z_scope.

Module AnalyticsProgress.
Import Analytics AnalyticsHistory AnalyticsQueries.

(** ** How much the tables hold *)

Definition volume (d : db) : Z :=
  Z.of_nat (length (events d)) + total so_DurationMS (events d) + total so_ResponseBytes (events d).
Definition weight (e : GatewayAccessEvent) : Z := 1 + ev_DurationMS e + ev_ResponseBytes e.

Lemma total_filter f p l : Forall (fun r => 0 <= f r) l -> 0 <= total f (List.filter p l) <= total f l.
Proof.
  unfold total. induction 1 as [|r l Hr _ IH]; [done|]. cbn [List.filter foldr]. destruct (p r); cbn [foldr]; lia.
Qed.

Lemma bigint_fits z : int64_range z -> bigint z = Ok z.
Proof. intros Hz. unfold bigint. by rw bool_decide_eq_true_2. Qed.

Section progress.
Context `{UnicodeTables} `{PgUUID}.

Lemma class_counts s :
  let c := statusClassCounts s in
  0 <= status1xx c <= 1 /\ 0 <= status2xx c <= 1 /\ 0 <= status3xx c <= 1 /\ 0 <= status4xx c <= 1 /\ 0 <= status5xx c <= 1.
Proof. unfold statusClassCounts. cbn. split_and!; by destruct (_ =? _). Qed.

(** An aggregate of the stored rows has room for one more event. *)
Lemma add_counters_fits e l k :
  Forall row_ok l -> 0 <= ev_DurationMS e -> 0 <= ev_ResponseBytes e ->
  Z.of_nat (length l) + total so_DurationMS l + total so_ResponseBytes l + weight e <= max_int64 ->
  is_ok (add_counters (tally (rows_of k l)) (first_counters e)) = true.
Proof.
  intros Hl Hd Hb Hv. unfold weight in Hv.
  assert (Hn : 0 <= Z.of_nat (length (rows_of k l)) <= Z.of_nat (length l)).
  { split; [lia|]. apply inj_le. apply List.filter_length_le. }
  assert (D : 0 <= total so_DurationMS (rows_of k l) <= total so_DurationMS l)
    by (apply total_filter; eapply Forall_impl; [exact Hl|]; intros r Hr; apply Hr).
  assert (B : 0 <= total so_ResponseBytes (rows_of k l) <= total so_ResponseBytes l)
    by (apply total_filter; eapply Forall_impl; [exact Hl|]; intros r Hr; apply Hr).
  assert (C : forall p, 0 <= count p (rows_of k l) <= Z.of_nat (length l)) by (intros p; pose proof (count_le p (rows_of k l)); lia).
  pose proof (class_counts (ev_StatusCode e)) as (C1 & C2 & C3 & C4 & C5).
  unfold add_counters, tally, first_counters.
  cbn [ct_requests ct_1xx ct_2xx ct_3xx ct_4xx ct_5xx ct_limited ct_duration ct_max_duration ct_bytes].
  assert (Hr : 0 <= (if ev_RateLimited e then 1 else 0) <= 1) by (by destruct (ev_RateLimited e)).
  pose proof (C (status_class 1)). pose proof (C (status_class 2)). pose proof (C (status_class 3)).
  pose proof (C (status_class 4)). pose proof (C (status_class 5)). pose proof (C so_RateLimited).
  repeat (match goal with |- is_ok (bigint ?z ≫= _) = true =>
    rw (bigint_fits z); [unfold int64_range, min_int64; lia|cbn [mbind res_bind]] end).
  done.
Qed.

(** ** Without faults *)

Definition calm_store : store_env := mkStore None None None Committed.
Definition calm_env (k : Z) : attempt_env := mkAttempt calm_store None None.
Definition calm_commit : commit_env := mkCommit "" 0 0 None None true.

Lemma calm_honest : honest_env calm_env.
Proof. intros k. split_and!; [split|..]; by intros e. Qed.

Lemma volume_snoc l st row st' :
  volume (mkDB (l ++ [row]) st') = volume (mkDB l st) + 1 + so_DurationMS row + so_ResponseBytes row.
Proof. unfold volume. cbn [events]. rw !total_app length_app. cbn. lia. Qed.

(** A valid event that can be stored is stored, or was. *)
Lemma Store_calm e d :
  exact d -> event_valid e -> storable_event e = true -> volume d + weight e <= max_int64 ->
  exists r d', StoreGatewayAccess calm_store e d = (Ok r, d') /\ volume d' <= volume d + weight e.
Proof.
  intros [_ Hst Hrows] Hv Hs Hw.
  assert (Hd : 0 <= ev_DurationMS e) by apply Hv. assert (Hb : 0 <= ev_ResponseBytes e) by apply Hv.
  assert (Hi : insert_event e (events d) =
    Ok (if existsb (fun x => bool_decide (so_EventID x = ev_EventID e)) (events d) then None else Some (event_row e))).
  { apply insert_event_iff. split; [done|]. split; [|done]. destruct Hv. split; try done. by rw va_version. }
  unfold StoreGatewayAccess. cbn [calm_store st_begin st_insert st_upsert st_commit with_fault]. rw Hi.
  destruct (existsb _ _); [eexists _, d; split; [done|unfold weight; lia]|].
  assert (Hu : exists st, (if shouldAggregate e then upsert_stats e (stats d) else Ok (stats d)) = Ok st).
  { destruct (shouldAggregate e) eqn:Ea; [|by eexists]. unfold upsert_stats, cast_uuid.
    unfold storable_event in Hs. apply andb_true_iff in Hs as [_ Hs]. unfold shouldAggregate in Ea.
    destruct (blank (ev_ProjectID e)); [done|]. apply bool_decide_eq_true_1 in Hs as [u ->]. cbn [mbind res_bind].
    set (key := (_, _, _, _, _)). specialize (Hst key). unfold aggregate in Hst.
    pose proof (add_counters_fits e (events d) key Hrows Hd Hb Hw) as Hf. rw Hst.
    destruct (rows_of key (events d)); [by eexists|]. destruct (add_counters _ _); [by eexists|done]. }
  destruct Hu as [st Hu]. rw Hu. eexists _, _. split; [done|]. destruct d as [l st0]. rw (volume_snoc l st0). cbn. unfold weight. lia.
Qed.

Context `{EventJSON}.

(** A record the consumers can get past: it is no event, or one that can be stored. *)
Definition digestible (payload : string) : bool :=
  match decodeGatewayAccessEvent payload with Ok e => storable_event e | Err _ => true end.
Definition load (payload : string) : Z :=
  match decodeGatewayAccessEvent payload with Ok e => weight e | Err _ => 0 end.
Definition total_load (l : list string) : Z := foldr (fun p acc => load p + acc) 0 l.

Lemma decode_valid payload e : decodeGatewayAccessEvent payload = Ok e -> event_valid e.
Proof.
  unfold decodeGatewayAccessEvent. destruct (event_Unmarshal payload) as [e'|]; [|done].
  destruct (event_Validate e') as [[]|] eqn:Ev; [|done]. intros [= <-]. by apply event_Validate_spec.
Qed.
Lemma load_nonneg payload : 0 <= load payload.
Proof. unfold load. destruct (decodeGatewayAccessEvent payload) as [e|] eqn:E; [|done]. apply decode_valid in E as []. unfold weight. lia. Qed.

Lemma total_load_nonneg l : 0 <= total_load l.
Proof. unfold total_load. induction l as [|p l IH]; [done|]. cbn [foldr]. pose proof (load_nonneg p). lia. Qed.

Lemma handle_calm mx rmin rmax payload d :
  0 < mx -> rtc astep empty_db d -> digestible payload = true -> volume d + load payload <= max_int64 ->
  exists d', handleRecord mx rmin rmax calm_env calm_commit payload d = (Ok tt, d', true) /\
    rtc astep d d' /\ volume d' <= volume d + load payload.
Proof.
  intros Hmx Hd Hg Hw. cut (exists d', handleRecord mx rmin rmax calm_env calm_commit payload d = (Ok tt, d', true) /\
    volume d' <= volume d + load payload).
  { intros (d' & E & Hv). exists d'. split_and!; [done| |done]. by destruct (handleRecord_spec _ _ _ _ _ _ _ _ _ _ calm_honest E). }
  unfold handleRecord, digestible, load in *. destruct (decodeGatewayAccessEvent payload) as [e|] eqn:Ed; [|exists d; split; [done|lia]].
  apply decode_valid in Ed as Hv. destruct (Store_calm e d (exact_reachable d Hd) Hv Hg Hw) as (r & d' & Es & Hv').
  exists d'. split; [|done]. unfold processWithRetry. destruct (Z.to_nat mx) as [|n] eqn:En; [lia|]. cbn [retry_loop].
  unfold ProcessGatewayAccess. rw (proj2 (event_Validate_spec e) Hv). cbn [calm_env ae_store]. by rw Es.
Qed.

(** A consumer at the end of what is committed works off the rest. *)
Lemma drain mx rmin rmax log d i pos :
  0 < mx -> rtc astep empty_db d -> (i <= length log)%nat -> Forall (fun p => digestible p = true) (drop i log) ->
  volume d + total_load (drop i log) <= max_int64 ->
  exists d', rtc (kstep mx rmin rmax) (mkK log i (i :: pos) d) (mkK log (length log) (length log :: pos) d').
Proof.
  intros Hmx. remember (length log - i)%nat as n eqn:En. revert i d En.
  induction n as [|n IH]; intros i d En Hd Hi Hg Hw.
  { assert (i = length log) as -> by lia. exists d. apply rtc_refl. }
  destruct (lookup_lt_is_Some_2 log i) as [p Hp]; [lia|]. rw (drop_S _ _ _ Hp) in Hg Hw. apply Forall_cons in Hg as [Hp' Hg].
  change (total_load (p :: drop (S i) log)) with (load p + total_load (drop (S i) log)) in Hw.
  pose proof (total_load_nonneg (drop (S i) log)).
  destruct (handle_calm mx rmin rmax p d Hmx Hd Hp') as (d1 & E & Hd1 & Hv); [lia|].
  destruct (IH (S i) d1) as (d' & Hr); [lia|by etrans|lia|done|lia|]. exists d'. eapply rtc_l; [|exact Hr].
  exact (ks_handle mx rmin rmax calm_env calm_commit p (Ok tt) d1 true i log i [] pos d calm_honest Hp E).
Qed.

Lemma indigestible_poison payload : digestible payload = false -> poison payload.
Proof. unfold digestible, poison. destruct (decodeGatewayAccessEvent payload) as [e|]; [|done]. by exists e. Qed.

(** What every step keeps. *)
Lemma kstep_grows mx rmin rmax s s' :
  rtc (kstep mx rmin rmax) s s' -> k_log s `prefix_of` k_log s' /\ rtc astep (k_db s) (k_db s').
Proof.
  induction 1 as [s|s1 s2 s3 Hs _ [Hl Hd]]; [split; [done|apply rtc_refl]|].
  cut (k_log s1 `prefix_of` k_log s2 /\ rtc astep (k_db s1) (k_db s2)); [intros [Hl' Hd']; split; by etrans|].
  destruct Hs as [payload log c pos d|log c pos d|i log c p1 p2 d|env ce payload r d' asked i log c p1 p2 d He Hl' E]; cbn;
    [split; [by apply prefix_app_r|apply rtc_refl]|split; [done|apply rtc_refl]..|].
  split; [done|]. by destruct (handleRecord_spec _ _ _ _ _ _ _ _ _ _ He E).
Qed.

Lemma committed_in_log mx rmin rmax s :
  rtc (kstep mx rmin rmax) (mkK [] 0 [] empty_db) s -> (k_committed s <= length (k_log s))%nat.
Proof.
  intros Hr. destruct (k_committed s) as [|n] eqn:En; [lia|].
  destruct (committed_past mx rmin rmax (fun _ _ => True)) with s n as (p & Hp & _); [done..|lia|].
  apply lookup_lt_Some in Hp. lia.
Qed.

(** C38: The consumers of a partition are stuck for one reason only.  From every state
    they reach, as long as the sums of the stored events fit 64 bits, the whole log can
    still be committed, by a consumer that joins and meets no fault, exactly when every
    event from the committed offset on can be stored; an event that cannot, such as one
    of a request to /%00, keeps the committed offset at or before it whatever happens. *)
Theorem partition_progress mx rmin rmax s :
  0 < mx -> rtc (kstep mx rmin rmax) (mkK [] 0 [] empty_db) s ->
  volume (k_db s) + total_load (drop (k_committed s) (k_log s)) <= max_int64 ->
  ((exists s', rtc (kstep mx rmin rmax) s s' /\ k_log s' = k_log s /\ k_committed s' = length (k_log s)) <->
   Forall (fun p => digestible p = true) (drop (k_committed s) (k_log s))) /\
  (forall i p s', k_log s !! i = Some p -> digestible p = false -> rtc (kstep mx rmin rmax) s s' ->
     (k_committed s' <= i)%nat).
Proof.
  intros Hmx Hr Hw. assert (Hstuck : forall i p s', k_log s !! i = Some p -> digestible p = false ->
    rtc (kstep mx rmin rmax) s s' -> (k_committed s' <= i)%nat).
  { intros i p s' Hp Hg Hs. destruct (kstep_grows _ _ _ _ _ Hs) as [Hl _]. apply (poison_blocks mx rmin rmax s' i p).
    - by etrans.
    - by eapply prefix_lookup_Some.
    - by apply indigestible_poison. }
  split; [split|done].
  - intros (s' & Hs & Hl & Hc). apply Forall_lookup. intros j p Hp. rw lookup_drop in Hp.
    destruct (digestible p) eqn:Hg; [done|]. specialize (Hstuck _ _ _ Hp Hg Hs). apply lookup_lt_Some in Hp. lia.
  - intros Hg. destruct (kstep_grows _ _ _ _ _ Hr) as [_ Hd]. pose proof (committed_in_log _ _ _ _ Hr) as Hc.
    destruct s as [log c pos d]. cbn in *. destruct (drain mx rmin rmax log d c pos Hmx Hd Hc Hg Hw) as [d' Hs].
    eexists. split; [eapply rtc_l; [apply ks_join|exact Hs]|done].
Qed.
End progress.

(** ** Examples *)

Module Example.
Import AnalyticsQueries.Example.
#[local] Existing Instance ascii_only.
#[local] Existing Instance uuids.
#[local] Existing Instance two_payloads.

(** A partition with a malformed record and an event, which nobody has read. *)
Definition s0 : ksys := mkK ["?"; "1"] 0 [] empty_db.
Lemma s0_reachable : rtc (kstep 5 Second (30 * Second)) (mkK [] 0 [] empty_db) s0.
Proof.
  apply rtc_l with (mkK ["?"] 0 [] empty_db); [apply (ks_append _ _ _ "?" [])|].
  apply rtc_once. apply (ks_append _ _ _ "1" ["?"]).
Qed.
Lemma s0_fits : volume (k_db s0) + total_load (drop (k_committed s0) (k_log s0)) <= max_int64.
Proof. by vm_compute. Qed.
Lemma s_end_fits : volume (k_db s_end) + total_load (drop (k_committed s_end) (k_log s_end)) <= max_int64.
Proof. by vm_compute. Qed.
Lemma s0_digestible : Forall (fun p => digestible p = true) (drop (k_committed s0) (k_log s0)).
Proof. repeat (apply Forall_cons; split; [vm_compute; reflexivity|]). apply Forall_nil_2. Qed.

(** C38 at a partition that can be worked off, and at one with an event that cannot be
    stored. *)
Lemma partition_progress_witness :
  (exists s', rtc (kstep 5 Second (30 * Second)) s0 s' /\ k_log s' = k_log s0 /\ k_committed s' = 2%nat) /\
  ~ (exists s', rtc (kstep 5 Second (30 * Second)) s_end s' /\ k_log s' = k_log s_end /\ k_committed s' = 3%nat).
Proof.
  split.
  - apply (proj1 (partition_progress 5 Second (30 * Second) s0 eq_refl s0_reachable s0_fits)). exact s0_digestible.
  - intros Hc. apply (proj1 (partition_progress 5 Second (30 * Second) s_end eq_refl s_end_reachable s_end_fits)) in Hc.
    change (drop (k_committed s_end) (k_log s_end)) with ["0"] in Hc. apply Forall_cons in Hc as [Hc _]. vm_compute in Hc. discriminate.
Defined.
End Example.
End AnalyticsProgress.
