(* ===== verification/Report.v ===== *)
(** The report generator of the job worker (jobworker/infrastructure/report/generator.go):
    the rows of the hourly aggregates of the analytics tables, written to a file that
    appears under its name only when it is complete. *)
From Stdlib Require Import Ascii ZArith Lia String.
From Corelib Require Import ssreflect.
From stdpp Require Import base gmap strings list numbers relations pretty.
From S2P Require Import Prelude GoStrings GoTime GoEncoding GoNet GoDate GoJSON JSONFacts JSONIndent GoFiles Events Postgres Jobs JobWorker Analytics AnalyticsHistory AnalyticsQueries.

#[local] Open Scope Z_scope.

Module Report.
Import Jobs Worker Analytics AnalyticsHistory AnalyticsQueries.

Definition rerr (n t : string) : error := Sentinel ("jobworker/report." +:+ n) t.
Definition ErrProjectNotFound : error := rerr "ErrProjectNotFound" "report project not found".
Definition rep_ErrInvalidProjectID : error := rerr "ErrInvalidProjectID" "invalid report project id".
Definition rep_ErrInvalidReportRange : error := rerr "ErrInvalidReportRange" "invalid report range".
Definition ErrInvalidFormat : error := rerr "ErrInvalidFormat" "invalid report format".

Record row := mkRow {
  w_BucketStart : Z; w_RouteName : string; w_RoutePathPrefix : string; w_Method : string; w_RequestCount : Z;
  w_Status1xx : Z; w_Status2xx : Z; w_Status3xx : Z; w_Status4xx : Z; w_Status5xx : Z; w_RateLimited : Z;
  w_TotalDurationMS : Z; w_MaxDurationMS : Z; w_TotalResponseBytes : Z
}.

Record jsonReport := mkJSONReport {
  jr_GeneratedAt : Z; jr_ProjectID : string; jr_From : Z; jr_To : Z; jr_Items : list row
}.

(** ** Reading the aggregates *)

Inductive rows_stage := AtQuery | AtScan | AtIterate.
Definition rows_context (s : rows_stage) : string :=
  match s with AtQuery => "query report rows" | AtScan => "scan report row" | AtIterate => "iterate report rows" end.

Section reading.
Context `{PgUUID}.
(** The collation of the database, and the offset of its time zone to UTC. *)
Context (text_le : string -> string -> bool) (zone : Z).

Definition projectExists (f : fault) (projectID : string) (projects : list string) : res bool :=
  match with_fault f (u ← cast_uuid projectID; Ok (existsb (fun p => bool_decide (p = u)) projects)) with
  | Ok exists_ => Ok exists_
  | Err err =>
    match as_pg err with
    | Some (code, _) => if bool_decide (code = "22P02") then Err (Permanent rep_ErrInvalidProjectID)
                        else Err (wrapf "check report project" err)
    | None => Err (wrapf "check report project" err)
    end
  end.

(** date_trunc('hour', ...) in the zone of the session. *)
Definition date_trunc_hour (t : Z) : Z := Truncate (t + zone) Hour - zone.

Definition from_bound (from : Z) : Z := date_trunc_hour (pg_time from).
Definition to_bound (to : Z) : Z :=
  let to := pg_time to in
  if to =? date_trunc_hour to then to else date_trunc_hour to + Hour.

Definition report_row (kc : stats_key * counters) : row :=
  let '(k, c) := kc in
  mkRow (key_bucket k) (key_route k) (key_prefix k) (key_method k) (ct_requests c) (ct_1xx c) (ct_2xx c) (ct_3xx c)
    (ct_4xx c) (ct_5xx c) (ct_limited c) (ct_duration c) (ct_max_duration c) (ct_bytes c).

Definition loadRows (f : option (rows_stage * error)) (payload : ReportPayload) (d : db) : res (list row) :=
  match f with
  | Some (stage, err) => Err (wrapf (rows_context stage) err)
  | None =>
    map_err (wrapf (rows_context AtIterate)) (
      project ← cast_uuid (rp_ProjectID payload);
      Ok (map report_row (order_by (hourly_le text_le)
            (List.filter (fun kc => bool_decide (key_project kc.1 = project) &&
                                    (from_bound (rp_From payload) <=? key_bucket kc.1) &&
                                    (key_bucket kc.1 <? to_bound (rp_To payload))) (map_to_list (stats d))))))
  end.
End reading.

(** ** Writing the file *)

Section writing.
(** The zone of the process at an instant, in minutes to UTC: the driver returns
    timestamps in it, and the JSON of a row shows its bucket in it. *)
Context (local : Z -> Z).

Definition row_members (w : row) (bucketStart : string) : list (string * string) :=
  [("bucket_start", bucketStart); ("route_name", JSON.quote (w_RouteName w)); ("route_path_prefix", JSON.quote (w_RoutePathPrefix w));
   ("method", JSON.quote (w_Method w)); ("request_count", Itoa (w_RequestCount w)); ("status_1xx_count", Itoa (w_Status1xx w));
   ("status_2xx_count", Itoa (w_Status2xx w)); ("status_3xx_count", Itoa (w_Status3xx w)); ("status_4xx_count", Itoa (w_Status4xx w));
   ("status_5xx_count", Itoa (w_Status5xx w)); ("rate_limited_count", Itoa (w_RateLimited w));
   ("total_duration_ms", Itoa (w_TotalDurationMS w)); ("max_duration_ms", Itoa (w_MaxDurationMS w));
   ("total_response_bytes", Itoa (w_TotalResponseBytes w))].
Definition row_text (w : row) : res string :=
  bucketStart ← JSON.time_text_in (local (w_BucketStart w)) (w_BucketStart w);
  Ok (JSON.object_text (row_members w bucketStart)).
Fixpoint rows_texts (l : list row) : res (list string) :=
  match l with
  | [] => Ok []
  | w :: l => text ← row_text w; texts ← rows_texts l; Ok (text :: texts)
  end.

Definition jsonReport_members (r : jsonReport) (generatedAt from to items : string) : list (string * string) :=
  [("generated_at", generatedAt); ("project_id", JSON.quote (jr_ProjectID r)); ("from", from); ("to", to); ("items", items)].
Definition jsonReport_text (r : jsonReport) : res string :=
  generatedAt ← JSON.time_text (jr_GeneratedAt r);
  from ← JSON.time_text (jr_From r);
  to ← JSON.time_text (jr_To r);
  items ← rows_texts (jr_Items r);
  Ok (JSON.object_text (jsonReport_members r generatedAt from to (JSON.array_text items))).

(** Encode of an encoder with SetIndent("", "  "). *)
Definition encode_json (r : jsonReport) : res string :=
  text ← jsonReport_text r; Ok (Indent.encode_indented text).

(** A failed write: where it shows, its error, and the bytes that reached the file. *)
Inductive csv_stage := AtHeader | AtRow | AtFlush.
Record write_fault := mkWriteFault { wf_stage : csv_stage; wf_error : error; wf_bytes : nat }.

Definition writeJSON (f : option write_fault) (report : jsonReport) : res unit * string :=
  match encode_json report with
  | Err err => (Err (wrapf "encode JSON report" err), "")
  | Ok text =>
    match f with
    | Some w => (Err (wrapf "encode JSON report" (wf_error w)), String.substring 0 (wf_bytes w) text)
    | None => (Ok tt, text)
    end
  end.

Definition csv_header : list string :=
  ["bucket_start"; "route_name"; "route_path_prefix"; "method"; "request_count";
   "status_1xx_count"; "status_2xx_count"; "status_3xx_count"; "status_4xx_count"; "status_5xx_count";
   "rate_limited_count"; "total_duration_ms"; "max_duration_ms"; "total_response_bytes"].

Definition csv_record (item : row) : list string :=
  [Date.format_rfc3339 (w_BucketStart item); w_RouteName item; w_RoutePathPrefix item; w_Method item;
   Itoa (w_RequestCount item); Itoa (w_Status1xx item); Itoa (w_Status2xx item); Itoa (w_Status3xx item);
   Itoa (w_Status4xx item); Itoa (w_Status5xx item); Itoa (w_RateLimited item); Itoa (w_TotalDurationMS item);
   Itoa (w_MaxDurationMS item); Itoa (w_TotalResponseBytes item)].

Definition stage_context (s : csv_stage) : string :=
  match s with AtHeader => "write CSV header" | AtRow => "write CSV row" | AtFlush => "flush CSV report" end.

Definition writeCSV (f : option write_fault) (items : list row) : res unit * string :=
  let text := csv_text (csv_header :: map csv_record items) in
  match f with
  | Some w => (Err (wrapf (stage_context (wf_stage w)) (wf_error w)), String.substring 0 (wf_bytes w) text)
  | None => (Ok tt, text)
  end.
End writing.

(** os.CreateTemp(dir, ".edgeguard-report-*"): a decimal number for the star. *)
Definition temp_name (tempDir dir : string) (n : Z) : string :=
  let dir := if bool_decide (dir = "") then tempDir else dir in
  (if ends_with dir slash then dir else dir +:+ String slash "") +:+ ".edgeguard-report-" +:+ Itoa n.

(** The answers of the operating system. *)
Record report_env := mkReportEnv {
  ge_exists : fault; ge_rows : option (rows_stage * error); ge_mkdir : option error; ge_temp : res Z; ge_now : Z;
  ge_write : option write_fault; ge_sync : option error; ge_close : option error; ge_rename : option error;
  ge_removed : bool
}.

Section generate.
Context `{PgUUID} `{UnicodeTables} (text_le : string -> string -> bool) (zone : Z).
Context (local : Z -> Z) (tempDir directory : string).

Definition report_format (payload : ReportPayload) : string := ToLower (TrimSpace (rp_Format payload)).
Definition report_name (jobID format : string) : string := filepath_Base jobID +:+ "." +:+ format.
Definition report_path (jobID format : string) : string := filepath_Join directory (report_name jobID format).

Definition write_report (e : report_env) (format : string) (payload : ReportPayload) (items : list row)
    : res unit * string :=
  if bool_decide (format = "json") then
    writeJSON local (ge_write e) (mkJSONReport (ge_now e) (rp_ProjectID payload) (rp_From payload) (rp_To payload) items)
  else writeCSV (ge_write e) items.

(** From the creation of the temporary file on: the result and the effects on the
    file system, the deferred removal last. *)
Definition publish (e : report_env) (jobID format : string) (payload : ReportPayload) (items : list row)
    : res (string * Z) * list fs_op :=
  match ge_temp e with
  | Err err => (Err (wrapf "create temporary report" err), [])
  | Ok n =>
    let temporaryName := temp_name tempDir directory n in
    let filename := report_path jobID format in
    let remove := if ge_removed e then [RemoveFile temporaryName] else [] in
    let '(written, data) := write_report e format payload items in
    let effects := [CreateFile temporaryName; WriteFile temporaryName data] in
    match written with
    | Err err => (Err err, effects ++ remove)
    | Ok _ =>
      match ge_sync e with
      | Some err => (Err (wrapf "sync report" err), effects ++ remove)
      | None =>
        match ge_close e with
        | Some err => (Err (wrapf "close report" err), effects ++ remove)
        | None =>
          match ge_rename e with
          | Some err => (Err (wrapf "publish report" err), effects ++ remove)
          | None => (Ok (filename, Z.of_nat (length items)), effects ++ [RenameFile temporaryName filename] ++ remove)
          end
        end
      end
    end
  end.

Definition Generate (e : report_env) (jobID : string) (payload : ReportPayload) (projects : list string) (d : db)
    : res (string * Z) * list fs_op :=
  if IsZero (rp_From payload) || IsZero (rp_To payload) || negb (Before (rp_From payload) (rp_To payload)) then
    (Err (Permanent rep_ErrInvalidReportRange), [])
  else
    let format := report_format payload in
    if negb (bool_decide (format = "json")) && negb (bool_decide (format = "csv")) then
      (Err (Permanent ErrInvalidFormat), [])
    else
      match projectExists (ge_exists e) (rp_ProjectID payload) projects with
      | Err err => (Err err, [])
      | Ok false => (Err (Permanent ErrProjectNotFound), [])
      | Ok true =>
        match loadRows text_le zone (ge_rows e) payload d with
        | Err err => (Err err, [])
        | Ok items =>
          match ge_mkdir e with
          | Some err => (Err (wrapf "create report directory" err), [])
          | None => publish e jobID format payload items
          end
        end
      end.

(** ** Where reports are written *)

Definition known_format (format : string) : Prop := format = "json" \/ format = "csv".

Lemma report_path_spec jobID format :
  directory <> "" -> known_format format ->
  exists name, plain_name name /\ HasSuffix name ("." +:+ format) = true /\
    report_path jobID format = render (HasPrefix directory "/") (clean_comps directory ++ [name]).
Proof.
  intros Hd Hf. assert (Hs : no_byte slash ("." +:+ format) = true) by (by destruct Hf as [-> | ->]).
  unfold report_path, report_name. destruct (filepath_Base_spec jobID) as [E|[Hn Hb]].
  - exists ("." +:+ format). assert (Hp : plain_name ("." +:+ format)) by (destruct Hf as [-> | ->]; repeat split; done).
    split; [done|]. split; [apply HasSuffix_spec; by exists ""|]. rw E.
    unfold filepath_Join. rw bool_decide_eq_false_2 //. unfold filepath_Clean. rw (HasPrefix_first directory _ Hd). f_equal.
    unfold clean_comps. rw (HasPrefix_first directory _ Hd) Split_app foldl_app. by destruct Hf as [-> | ->].
  - exists (filepath_Base jobID +:+ "." +:+ format).
    assert (Hp : plain_name (filepath_Base jobID +:+ "." +:+ format)).
    { destruct (filepath_Base jobID) as [|a b]; [done|]. rw sapp_cons. repeat split; [done|..].
      - intros [= -> E]. apply sapp_eq_nil in E as [_ E]. by destruct Hf as [-> | ->].
      - intros [= -> E]. destruct b as [|a' b]; [by destruct Hf as [-> | ->]|]. rw sapp_cons in E. injection E as -> E.
        apply sapp_eq_nil in E as [_ E]. by destruct Hf as [-> | ->].
      - rw -sapp_cons. unfold no_byte in *. by rw all_bytes_app Hb Hs. }
    split; [done|]. split; [apply HasSuffix_spec; by eexists|]. by apply (Join_plain directory _ Hd Hp).
Qed.

Lemma render_ends rooted l x c : x <> "" -> ends_with (render rooted (l ++ [x])) c = ends_with x c.
Proof.
  intros Hx. assert (Hj : exists u, Join (l ++ [x]) slash = u +:+ x).
  { induction l as [|y l [u Hu]]; [by exists ""|]. cbn [app].
    destruct (l ++ [x]) as [|z l'] eqn:E; [by destruct l|]. exists (y +:+ String slash u).
    change (Join (y :: z :: l') slash) with (y +:+ String slash (Join (z :: l') slash)).
    rw Hu. by repeat (rw sapp_assoc || rw sapp_cons). }
  destruct Hj as [u Hu]. unfold render. destruct rooted.
  - rw Hu -sapp_cons. by apply ends_with_app.
  - rw bool_decide_eq_false_2; [by destruct l|]. rw Hu. by apply ends_with_app.
Qed.

(** The temporary file is another file than the report. *)
Lemma temp_not_report jobID format n :
  directory <> "" -> known_format format -> 0 <= n -> temp_name tempDir directory n <> report_path jobID format.
Proof.
  intros Hd Hf Hn E. destruct (Itoa_digits n Hn) as [Hdig Hne].
  destruct (report_path_spec jobID format Hd Hf) as (name & Hp & Hs & Er). rw Er in E.
  set (c := if bool_decide (format = "json") then "n"%char else "v"%char).
  assert (Ht : ends_with (temp_name tempDir directory n) c = false).
  { unfold temp_name. set (d0 := if ends_with _ slash then _ else _).
    rw ends_with_app; [by intros [? ?]%sapp_eq_nil|]. rw ends_with_app //. apply (ends_with_all is_digit); [done|].
    unfold c. by destruct Hf as [-> | ->]. }
  rw E render_ends in Ht; [by apply Hp|]. apply HasSuffix_spec in Hs as [u ->].
  rw ends_with_app in Ht; [by destruct Hf as [-> | ->]|]. unfold c in Ht. by destruct Hf as [-> | ->].
Qed.

(** ** Atomic publication *)

(** What a complete report of some rows is. *)
Definition complete (e : report_env) (payload : ReportPayload) (items : list row) (text : string) : Prop :=
  write_report e (report_format payload) payload items = (Ok tt, text).

(** The three shapes of the effects: none, a temporary file that never becomes the
    report, and one that does. *)
Inductive effects_of (e : report_env) (temp filename : string) (payload : ReportPayload) (items : list row)
    : res (string * Z) -> list fs_op -> Prop :=
| eff_none err : effects_of e temp filename payload items (Err err) []
| eff_abandoned err data :
  effects_of e temp filename payload items (Err err)
    ([CreateFile temp; WriteFile temp data] ++ if ge_removed e then [RemoveFile temp] else [])
| eff_published text :
  complete e payload items text ->
  effects_of e temp filename payload items (Ok (filename, Z.of_nat (length items)))
    ([CreateFile temp; WriteFile temp text; RenameFile temp filename] ++ if ge_removed e then [RemoveFile temp] else []).

Lemma Generate_effects e jobID payload projects d n r ops :
  ge_temp e = Ok n -> Generate e jobID payload projects d = (r, ops) ->
  exists items, (ops <> [] -> known_format (report_format payload) /\ loadRows text_le zone (ge_rows e) payload d = Ok items) /\
    effects_of e (temp_name tempDir directory n) (report_path jobID (report_format payload)) payload items r ops.
Proof.
  intros Ht. unfold Generate. destruct (_ || negb _); [intros [= <- <-]; exists []; split; [done|constructor]|].
  destruct (negb _ && negb _) eqn:Ef; [intros [= <- <-]; exists []; split; [done|constructor]|].
  assert (Hf : known_format (report_format payload)).
  { apply andb_false_iff in Ef as [Ef|Ef]; apply negb_false_iff, bool_decide_eq_true_1 in Ef; [by left|by right]. }
  destruct (projectExists _ _ _) as [[]|]; [|intros [= <- <-]; exists []; split; [done|constructor]..].
  destruct (loadRows _ _ _ _ _) as [items|] eqn:El; [|intros [= <- <-]; exists []; split; [done|constructor]].
  intros Hp. exists items. split; [done|]. revert Hp.
  destruct (ge_mkdir e); [intros [= <- <-]; constructor|]. unfold publish. rw Ht.
  destruct (write_report e (report_format payload) payload items) as [[[]|err] data] eqn:Ew; [|intros [= <- <-]; constructor].
  destruct (ge_sync e); [intros [= <- <-]; constructor|]. destruct (ge_close e); [intros [= <- <-]; constructor|].
  destruct (ge_rename e); intros [= <- <-]; by constructor.
Qed.

Lemma run_abandoned fs temp data k p :
  p <> temp -> fs_run fs (take k [CreateFile temp; WriteFile temp data; RemoveFile temp]) !! p = fs !! p.
Proof. intros Hp. apply fs_run_other. do 4 (destruct k as [|k]; [cbn; repeat constructor; cbn; congruence|]). cbn. repeat constructor; cbn; congruence. Qed.

(** The states a publication goes through. *)
Lemma run_published fs temp filename text k :
  temp <> filename ->
  let fs' := fs_run fs (take k [CreateFile temp; WriteFile temp text; RenameFile temp filename; RemoveFile temp]) in
  (fs' !! filename = fs !! filename \/ fs' !! filename = Some text) /\
  (3 <= k -> fs' !! filename = Some text /\ fs' !! temp = None)%nat /\
  forall p, p <> temp -> p <> filename -> fs' !! p = fs !! p.
Proof.
  intros Hne. assert (E : alter (fun c => c +:+ text) temp (<[temp := ""]> fs) = <[temp := text]> fs).
  { apply map_eq. intros p. destruct (decide (p = temp)) as [->|Hp].
    - rw lookup_alter_eq !lookup_insert_eq. cbn. by rw sapp_nil_l.
    - by rw lookup_alter_ne // !lookup_insert_ne. }
  assert (Hk : (k <= 2 \/ 3 <= k)%nat) by lia. destruct Hk as [Hk|Hk].
  - assert (Ho : forall p, p <> temp -> fs_run fs (take k [CreateFile temp; WriteFile temp text; RenameFile temp filename; RemoveFile temp]) !! p = fs !! p).
    { intros p Hp. apply fs_run_other. destruct k as [|[|[|]]]; [..|lia]; cbn; repeat constructor; cbn; congruence. }
    cbn zeta. split; [left; apply Ho; congruence|]. split; [lia|]. intros p Hp _. by apply Ho.
  - assert (Hs : fs_run fs [CreateFile temp; WriteFile temp text; RenameFile temp filename] = <[filename := text]> (delete temp fs)).
    { cbn. rw E lookup_insert_eq. by rw delete_insert_eq. }
    assert (Hd : delete temp (<[filename := text]> (delete temp fs)) = <[filename := text]> (delete temp fs)).
    { rw delete_insert_ne //. by rw delete_delete_eq. }
    cbn zeta. assert (Hf : fs_run fs (take k [CreateFile temp; WriteFile temp text; RenameFile temp filename; RemoveFile temp]) =
                           <[filename := text]> (delete temp fs)).
    { destruct k as [|[|[|[|k]]]]; [lia..|exact Hs|]. cbn [take]. rw take_nil.
      change (fs_apply (fs_run fs [CreateFile temp; WriteFile temp text; RenameFile temp filename]) (RemoveFile temp) = <[filename := text]> (delete temp fs)).
      rw Hs. exact Hd. }
    rw Hf. split; [right; by rw lookup_insert_eq|]. split.
    + intros _. rw lookup_insert_eq lookup_insert_ne // lookup_delete_eq. done.
    + intros p H1 H2. by rw lookup_insert_ne // lookup_delete_ne.
Qed.

(** The end of a generation. *)
Lemma Generate_outcome e jobID payload projects d fs n r ops :
  directory <> "" -> ge_temp e = Ok n -> 0 <= n -> Generate e jobID payload projects d = (r, ops) ->
  let temp := temp_name tempDir directory n in
  let filename := report_path jobID (report_format payload) in
  match r with
  | Ok (path, count) =>
    path = filename /\
    exists items text, loadRows text_le zone (ge_rows e) payload d = Ok items /\ count = Z.of_nat (length items) /\
      complete e payload items text /\ fs_run fs ops !! filename = Some text /\ fs_run fs ops !! temp = None
  | Err _ => fs_run fs ops !! filename = fs !! filename /\ (ge_removed e = true -> ops = [] \/ fs_run fs ops !! temp = None)
  end.
Proof.
  intros Hd Ht Hn HG temp filename. destruct (Generate_effects _ _ _ _ _ _ _ _ Ht HG) as (items & Hl & He).
  fold temp filename in He. inversion He as [err Er Eo|err data Er Eo|text Hc Er Eo]; clear He; subst r ops; [by split; [|left]|..];
    (destruct Hl as [Hf Hl]; [done|]); pose proof (temp_not_report jobID _ n Hd Hf Hn) as Hne; fold temp filename in Hne.
  - split.
    + destruct (ge_removed e); [apply (run_abandoned fs temp data 3)|apply (run_abandoned fs temp data 2)]; congruence.
    + intros ->. right. cbn. by rw lookup_delete_eq.
  - split; [done|]. exists items, text. do 3 (split; [done|]).
    destruct (ge_removed e); [apply (run_published fs temp filename text 4 Hne)|apply (run_published fs temp filename text 3 Hne)]; lia.
Qed.

(** C33: A report appears complete or not at all.  Whatever fails, and at whatever
    step the process is killed, the file of the report is as it was before or holds
    the whole report; no file other than it and the temporary one is touched; it
    lies directly in the report directory, whatever the job id; and the job reports
    success exactly when the file is there, with its path and its number of rows. *)
Theorem report_atomic e jobID payload projects d fs n r ops :
  directory <> "" -> ge_temp e = Ok n -> 0 <= n -> Generate e jobID payload projects d = (r, ops) ->
  let temp := temp_name tempDir directory n in
  let filename := report_path jobID (report_format payload) in
  (forall k, let fs' := fs_run fs (take k ops) in
     (fs' !! filename = fs !! filename \/
      exists items text, loadRows text_le zone (ge_rows e) payload d = Ok items /\
        complete e payload items text /\ fs' !! filename = Some text) /\
     forall p, p <> temp -> p <> filename -> fs' !! p = fs !! p) /\
  match r with
  | Ok (path, count) =>
    path = filename /\
    (exists name, plain_name name /\ path = render (HasPrefix directory "/") (clean_comps directory ++ [name])) /\
    exists items text, loadRows text_le zone (ge_rows e) payload d = Ok items /\ count = Z.of_nat (length items) /\
      complete e payload items text /\ fs_run fs ops !! filename = Some text /\ fs_run fs ops !! temp = None
  | Err _ => fs_run fs ops !! filename = fs !! filename /\ (ge_removed e = true -> ops = [] \/ fs_run fs ops !! temp = None)
  end.
Proof.
  intros Hd Ht Hn HG temp filename. pose proof (Generate_outcome _ _ _ _ _ fs _ _ _ Hd Ht Hn HG) as Hend.
  destruct (Generate_effects _ _ _ _ _ _ _ _ Ht HG) as (items & Hl & He). fold temp filename in He, Hend. split.
  - intros k. inversion He as [err Er Eo|err data Er Eo|text Hc Er Eo]; clear He; subst r ops; [rw take_nil; split; [by left|done]|..];
      (destruct Hl as [Hf Hl]; [done|]); pose proof (temp_not_report jobID _ n Hd Hf Hn) as Hne; fold temp filename in Hne; cbn zeta.
    + assert (Ho : forall p, p <> temp -> fs_run fs (take k ([CreateFile temp; WriteFile temp data] ++ if ge_removed e then [RemoveFile temp] else [])) !! p = fs !! p).
      { intros p Hp. destruct (ge_removed e); [by apply run_abandoned|].
        rw -(run_abandoned fs temp data (Nat.min k 2) p Hp) -take_take. done. }
      split; [left; apply Ho; congruence|intros p Hp _; by apply Ho].
    + set (ops := _ ++ _). assert (Ho : exists k', take k ops =
        take k' [CreateFile temp; WriteFile temp text; RenameFile temp filename; RemoveFile temp]).
      { unfold ops. destruct (ge_removed e); [by exists k|]. exists (Nat.min k 3). by rw -take_take. }
      destruct Ho as (k' & ->). destruct (run_published fs temp filename text k' Hne) as (Hs & _ & Hp).
      split; [|exact Hp]. destruct Hs as [Hs|Hs]; [by left|right; by exists items, text].
  - destruct r as [[path count]|]; [|done]. destruct Hend as [-> Hend]. split; [done|]. split; [|done].
    assert (Hf : known_format (report_format payload)) by (inversion He; subst; by apply Hl).
    destruct (report_path_spec jobID _ Hd Hf) as (name & ? & _ & ?). by exists name.
Qed.
End generate.

(** ** Contents *)

Section contents.
Context `{UnicodeTables} `{PgUUID} (text_le : string -> string -> bool) (zone : Z).

(** The window of a report as a filter of the analytics service. *)
Definition window (payload : ReportPayload) : RouteStatsFilter :=
  mkFilter (rp_ProjectID payload) (Truncate (rp_From payload) Hour) (ceilHour (pg_time (rp_To payload))) "" "".

Lemma date_trunc_utc t : zone mod Hour = 0 -> date_trunc_hour zone t = Truncate t Hour.
Proof.
  intros Hz. unfold date_trunc_hour, Truncate. change (Hour <=? 0) with false. cbn iota.
  rw Z.add_mod // Hz Z.add_0_r Z.mod_mod //. lia.
Qed.

Lemma loadRows_select payload d u :
  zone mod Hour = 0 -> pg_uuid (rp_ProjectID payload) = Some u ->
  loadRows text_le zone None payload d =
  Ok (map report_row (order_by (hourly_le text_le) (select_stats u (window payload) (stats d)))).
Proof.
  intros Hz Hu. unfold loadRows, cast_uuid. rw Hu. cbn [mbind res_bind map_err]. do 3 f_equal.
  unfold select_stats. apply List.filter_ext. intros [k c]. cbn [fst]. unfold selected, window. cbn [rf_From rf_To rf_RouteName rf_Method].
  unfold from_bound, to_bound. rw !date_trunc_utc // Truncate_Truncate.
  rw (pg_time_hour (Truncate _ Hour)); [by apply Truncate_aligned|].
  rw (pg_time_hour (ceilHour _)); [by apply ceilHour_spec|]. rw !(bool_decide_eq_true_2 ("" = "")) //.
  cbn [orb]. rw !andb_true_r. unfold ceilHour. by destruct (Z.eqb_spec (pg_time (rp_To payload)) (Truncate (pg_time (rp_To payload)) Hour)) as [<-|].
Qed.

Definition sum_rows (f : row -> Z) (l : list row) : Z := foldr (fun r acc => f r + acc) 0 l.

Lemma sum_rows_perm f g l m :
  l ≡ₚ m -> (forall kc, f (report_row kc) = g kc.2) -> sum_rows f (map report_row l) = sum_of g m.
Proof.
  intros Hp Hfg. transitivity (sum_of g l).
  - unfold sum_rows, sum_of. clear Hp. induction l as [|kc l IH]; cbn [map foldr]; [done|].
    by rw Hfg IH.
  - unfold sum_of. induction Hp; cbn [foldr]; lia.
Qed.

(** The rows are the tallies of the selected keys with events, and add up. *)
Definition exact_rows (u : string) (payload : ReportPayload) (d : db) (rows : list row) : Prop :=
  (forall r, r ∈ rows <-> exists k, selected u (window payload) k = true /\ rows_of k (events d) <> [] /\
                           r = report_row (k, tally (rows_of k (events d)))) /\
  sum_rows w_RequestCount rows = Z.of_nat (length (List.filter (matching u (window payload)) (events d))) /\
  sum_rows w_TotalResponseBytes rows = total so_ResponseBytes (List.filter (matching u (window payload)) (events d)) /\
  sum_rows w_TotalDurationMS rows = total so_DurationMS (List.filter (matching u (window payload)) (events d)).

(** A report is exact: after any history of ingestion its rows are the hourly
    tallies of the stored events of the project over the whole hours that cover its
    range, none missing and none else, and together they count every such event. *)
Theorem report_exact payload d u :
  rtc astep empty_db d -> zone mod Hour = 0 -> pg_uuid (rp_ProjectID payload) = Some u ->
  exists rows, loadRows text_le zone None payload d = Ok rows /\ exact_rows u payload d rows.
Proof.
  intros Hd%exact_reachable Hz Hu. eexists. split; [by apply loadRows_select|].
  assert (Hf : rf_From (window payload) mod Hour = 0) by (by apply Truncate_aligned).
  assert (Ht : rf_To (window payload) mod Hour = 0) by (apply ceilHour_spec).
  destruct (select_tally u (window payload) d Hd Hf Ht) as (Er & _ & _ & _ & _ & _ & _ & Ed & _ & Eb).
  split.
  - intros r. rw list_elem_of_In in_map_iff. destruct Hd as [_ Hst _]. split.
    + intros ([k c] & <- & Hin%list_elem_of_In). rw order_by_perm in Hin. apply list_elem_of_In, filter_In in Hin as [Hin Hs].
      apply list_elem_of_In, elem_of_map_to_list in Hin. rw Hst in Hin. unfold aggregate in Hin. exists k.
      split; [done|]. destruct (rows_of k (events d)); [done|]. by injection Hin as <-.
    + intros (k & Hs & Hne & ->). exists (k, tally (rows_of k (events d))). split; [done|].
      apply list_elem_of_In. rw order_by_perm. apply list_elem_of_In, filter_In. split; [|done].
      apply list_elem_of_In, elem_of_map_to_list. rw Hst. unfold aggregate. by destruct (rows_of k (events d)).
  - split; [|split]; [rw (sum_rows_perm _ ct_requests _ _ (order_by_perm _ _)) // | rw (sum_rows_perm _ ct_bytes _ _ (order_by_perm _ _)) //
      | rw (sum_rows_perm _ ct_duration _ _ (order_by_perm _ _)) //]; by intros [].
Qed.
End contents.

(** ** Examples *)

Module Example.
Import AnalyticsQueries.Example.
#[local] Existing Instance ascii_only.
#[local] Existing Instance uuids.

Definition all_le (a b : string) : bool := true.
Definition utc (t : Z) : Z := 0.
Definition os_ok : report_env := mkReportEnv None None None (Ok 7) t0 None None None None true.
Definition payload1 : ReportPayload := mkReport p1 (t0 + Minute) (t0 + 2 * Minute) "csv".

Definition generated := Generate all_le 0 utc "/tmp" "./data/reports" os_ok "../../etc/x" payload1 [p1] empty_db.

Example generated_path : generated.1 = Ok ("data/reports/x.csv", 0).
Proof. vm_compute. reflexivity. Qed.

(** C33 at a job id that climbs out of the directory, killed before the rename and
    run to the end. *)
Lemma report_atomic_witness :
  fs_run ∅ (take 2 generated.2) !! "data/reports/x.csv" = None /\
  exists text, fs_run ∅ generated.2 !! "data/reports/x.csv" = Some text.
Proof.
  pose proof (report_atomic all_le 0 utc "/tmp" "./data/reports" os_ok "../../etc/x" payload1 [p1] empty_db ∅ 7
    generated.1 generated.2) as Ht.
  assert (E : generated.1 = Ok ("data/reports/x.csv", 0)) by exact generated_path. rw E in Ht.
  destruct Ht as (_ & Ep & _ & items & text & _ & _ & _ & Hf & _); [discriminate|reflexivity|lia|rw -E; by apply surjective_pairing|].
  split; [vm_compute; reflexivity|]. exists text. rw Ep. exact Hf.
Defined.

(** At a report of two minutes: the whole hour is in it. *)
Lemma report_exact_witness :
  exists rows, loadRows all_le 0 None payload1 d4 = Ok rows /\ sum_rows w_RequestCount rows = 2.
Proof.
  destruct (report_exact all_le 0 payload1 d4 p1 d4_reachable) as (rows & Hl & _ & Hc & _); [reflexivity|vm_compute; reflexivity|].
  exists rows. split; [exact Hl|]. vm_compute in Hc. vm_compute. exact Hc.
Defined.
End Example.
End Report.
