(* ===== verification/ReportFormats.v ===== *)
(** What the files of reports say: both formats can be read back.

    The CSV file is read by the rules of RFC 4180, the JSON file by a decoder of the
    structs of the generator (jobworker/infrastructure/report/generator.go). *)
From Stdlib Require Import Ascii ZArith Lia String.
From Corelib Require Import ssreflect.
From stdpp Require Import base gmap strings list numbers relations pretty.
From S2P Require Import Prelude GoStrings GoTime GoEncoding GoNet GoDate GoJSON JSONFacts JSONIndent GoFiles Events Postgres Jobs Wire JobWorker Analytics AnalyticsHistory AnalyticsQueries Report.

#[local] Open Scope Z_scope.

Module Formats.
Import Jobs JSON JSONFacts Wire Report.
Import Analytics AnalyticsHistory.

(** ** A reader of JSON reports *)

Definition row_names : list string :=
  ["bucket_start"; "route_name"; "route_path_prefix"; "method"; "request_count"; "status_1xx_count"; "status_2xx_count";
   "status_3xx_count"; "status_4xx_count"; "status_5xx_count"; "rate_limited_count"; "total_duration_ms"; "max_duration_ms";
   "total_response_bytes"].
Definition read_row : decoder row :=
  read_struct false row_names (fun l =>
    let get {A} := @get A row_names in
    bucketStart ← get "bucket_start" dec_time l time_zero;
    routeName ← get "route_name" dec_string l "";
    routePathPrefix ← get "route_path_prefix" dec_string l "";
    method ← get "method" dec_string l "";
    requestCount ← get "request_count" dec_int64 l 0;
    status1xx ← get "status_1xx_count" dec_int64 l 0;
    status2xx ← get "status_2xx_count" dec_int64 l 0;
    status3xx ← get "status_3xx_count" dec_int64 l 0;
    status4xx ← get "status_4xx_count" dec_int64 l 0;
    status5xx ← get "status_5xx_count" dec_int64 l 0;
    rateLimited ← get "rate_limited_count" dec_int64 l 0;
    totalDurationMS ← get "total_duration_ms" dec_int64 l 0;
    maxDurationMS ← get "max_duration_ms" dec_int64 l 0;
    totalResponseBytes ← get "total_response_bytes" dec_int64 l 0;
    Ok (mkRow bucketStart routeName routePathPrefix method requestCount status1xx status2xx status3xx status4xx status5xx
          rateLimited totalDurationMS maxDurationMS totalResponseBytes)).
Definition zero_row : row := mkRow time_zero "" "" "" 0 0 0 0 0 0 0 0 0 0.

Definition report_file_names : list string := ["generated_at"; "project_id"; "from"; "to"; "items"].
Definition read_jsonReport : decoder jsonReport :=
  read_struct false report_file_names (fun l =>
    let get {A} := @get A report_file_names in
    generatedAt ← get "generated_at" dec_time l time_zero;
    projectID ← get "project_id" dec_string l "";
    from ← get "from" dec_time l time_zero;
    to ← get "to" dec_time l time_zero;
    items ← get "items" (dec_slice zero_row read_row) l [];
    Ok (mkJSONReport generatedAt projectID from to items)).

(** The file, its white space removed. *)
Definition read_file (text : string) : res jsonReport :=
  match compact_text text with
  | Some t => read_jsonReport t (mkJSONReport time_zero "" time_zero time_zero [])
  | None => Err syntax_error
  end.

(** ** What the tables of the service hold *)

(** The counts are of the type of their columns. *)
Definition counts_fit (w : row) : Prop :=
  Forall int64_range
    [w_RequestCount w; w_Status1xx w; w_Status2xx w; w_Status3xx w; w_Status4xx w; w_Status5xx w; w_RateLimited w;
     w_TotalDurationMS w; w_MaxDurationMS w; w_TotalResponseBytes w].
Record json_row (w : row) : Prop := {
  jw_route : utf8_valid (w_RouteName w) = true;
  jw_prefix : utf8_valid (w_RoutePathPrefix w) = true;
  jw_method : utf8_valid (w_Method w) = true;
  jw_counts : counts_fit w;
}.
(** A bucket starts at a whole second of a year with four digits. *)
Definition year_fits (w : row) : Prop := 0 <= Date.year_of (w_BucketStart w) < 10000.
Definition csv_row (w : row) : Prop := w_BucketStart w mod Second = 0 /\ year_fits w.

(** ** CSV *)

Lemma csv_parsed items : csv_parse (csv_text (csv_header :: map csv_record items)) = Some (csv_header :: map csv_record items).
Proof.
  apply csv_parse_text. apply Forall_cons. split; [done|]. induction items; cbn; [apply Forall_nil_2|]. by apply Forall_cons.
Qed.
Lemma csv_record_inj w w' : csv_row w -> csv_row w' -> csv_record w = csv_record w' -> w = w'.
Proof.
  intros [H1 H2] [H1' H2'] E. unfold csv_record in E. pose proof (f_equal head E) as Et. apply (f_equal tail) in E.
  cbn [head tail] in Et, E. assert (Et' : Date.format_rfc3339 (w_BucketStart w) = Date.format_rfc3339 (w_BucketStart w')) by congruence. clear Et.
  injection E as E2 E3 E4 E5 E6 E7 E8 E9 E10 E11 E12 E13 E14.
  apply (f_equal Date.parse_time) in Et'. rw !Date.format_rfc3339_parse // in Et'. injection Et' as Et.
  assert (Hb : forall t, Truncate t Second = t - t mod Second) by done. rw !Hb H1 H1' !Z.sub_0_r in Et.
  clear Hb H1 H1' H2 H2'. destruct w, w'. cbn in *. unfold Itoa in *. by simplify_eq.
Qed.
Lemma csv_records_inj items items' :
  Forall csv_row items -> Forall csv_row items' -> map csv_record items = map csv_record items' -> items = items'.
Proof.
  intros H H' E. revert items' H' E. induction H as [|w l Hw _ IH]; intros [|w' l'] H' E; [done..|]. inversion H'; subst.
  cbn [map] in E. assert (csv_record w = csv_record w' /\ map csv_record l = map csv_record l') as [Ew El] by (by split; congruence). f_equal; [by apply csv_record_inj|by apply IH].
Qed.

(** ** JSON *)

Section json.
Context (local : Z -> Z) (Hlocal : forall t, -1440 < local t < 1440).

Lemma row_read w s : json_row w -> row_text local w = Ok s -> compact s /\ read_row s zero_row = Ok w.
Proof using Hlocal.
  intros [H1 H2 H3 Hc]. unfold counts_fit in Hc. unfold row_text. destruct (time_text_in _ _) as [at_|] eqn:Et; [|done]. cbn [mbind res_bind]. intros [= <-].
  destruct (time_in_roundtrip _ _ _ time_zero (Hlocal _) Et) as [Ht Ht'].
  rw !list.Forall_cons in Hc. destruct Hc as (C1 & C2 & C3 & C4 & C5 & C6 & C7 & C8 & C9 & C10 & _).
  assert (Hm : members_of row_names (row_members w at_)) by (unfold row_members; struct_members).
  split; [apply object_text_compact, Hm|]. unfold read_row. rw read_struct_text //. cbv zeta beta. struct_get Hm.
  unfold row_members. lazy [assoc String.eqb Ascii.eqb Bool.eqb]. rw Ht' !dec_string_quote // !dec_int64_text //. by destruct w.
Qed.

Lemma rows_read items texts :
  Forall json_row items -> rows_texts local items = Ok texts ->
  Forall compact texts /\ forall cur, dec_slice zero_row read_row (array_text texts) cur = Ok items.
Proof using Hlocal.
  intros Hi Ht.
  assert (Hl : Forall compact texts /\ exists l, texts = map fst l /\ items = map snd l /\
    Forall (fun x => compact x.1 /\ read_row x.1 zero_row = Ok x.2) l).
  { revert texts Ht. induction Hi as [|w l Hw _ IH]; intros texts; cbn [rows_texts]; [intros [= <-]; split; [apply Forall_nil_2|by exists []]|].
    destruct (row_text local w) as [s|] eqn:Es; [|done]. destruct (rows_texts local l) as [ts|]; [|done]. cbn [mbind res_bind].
    intros [= <-]. destruct (row_read w s Hw Es) as [Hs Hr]. destruct (IH ts eq_refl) as (Hts & l' & -> & -> & Hl').
    split; [by apply Forall_cons|]. exists ((s, w) :: l'). split_and!; [done..|]. by apply Forall_cons. }
  destruct Hl as (Hc & l & -> & -> & Hl). split; [done|]. intros cur.
  exact (proj2 (dec_slice_text zero_row read_row fst snd l cur Hl)).
Qed.

Lemma jsonReport_read r s :
  utf8_valid (jr_ProjectID r) = true -> Forall json_row (jr_Items r) -> jsonReport_text local r = Ok s ->
  compact s /\ read_jsonReport s (mkJSONReport time_zero "" time_zero time_zero []) = Ok r.
Proof using Hlocal.
  intros Hu Hi. unfold jsonReport_text. destruct (time_text (jr_GeneratedAt r)) as [g|] eqn:Eg; [|done].
  destruct (time_text (jr_From r)) as [f|] eqn:Ef; [|done]. destruct (time_text (jr_To r)) as [t|] eqn:Et; [|done].
  destruct (rows_texts local (jr_Items r)) as [texts|] eqn:Er; [|done]. cbn [mbind res_bind]. intros [= <-].
  destruct (time_roundtrip _ _ time_zero Eg) as [Hg Hg']. destruct (time_roundtrip _ _ time_zero Ef) as [Hf Hf'].
  destruct (time_roundtrip _ _ time_zero Et) as [Ht Ht']. destruct (rows_read _ _ Hi Er) as [Hc Hd].
  pose proof (array_text_compact _ Hc) as Ha.
  assert (Hm : members_of report_file_names (jsonReport_members r g f t (array_text texts))) by (unfold jsonReport_members; struct_members).
  split; [apply object_text_compact, Hm|]. unfold read_jsonReport. rw read_struct_text //. cbv zeta beta. struct_get Hm.
  unfold jsonReport_members. lazy [assoc String.eqb Ascii.eqb Bool.eqb]. rw Hg' Hf' Ht' dec_string_quote // Hd. by destruct r.
Qed.

Lemma file_read r text :
  utf8_valid (jr_ProjectID r) = true -> Forall json_row (jr_Items r) -> encode_json local r = Ok text -> read_file text = Ok r.
Proof using Hlocal.
  intros Hu Hi. unfold encode_json. destruct (jsonReport_text local r) as [s|] eqn:Es; [|done]. cbn [mbind res_bind]. intros [= <-].
  destruct (jsonReport_read r s Hu Hi Es) as [Hc Hr]. unfold read_file. by rw Indent.indented_compact.
Qed.
End json.

(** ** Rows of the tables *)

Section tables.
Context `{UnicodeTables} `{PgUUID} (text_le : string -> string -> bool) (zone : Z).

Definition texts_ok (r : stored) : Prop :=
  utf8_valid (so_Method r) = true /\ (forall n, so_RouteName r = Some n -> utf8_valid n = true) /\
  (forall n, so_RoutePathPrefix r = Some n -> utf8_valid n = true).

Lemma texts_step d d' : astep d d' -> Forall texts_ok (events d) -> Forall texts_ok (events d').
Proof.
  intros [f e] Hd. destruct (Process_cases f e d) as [->| ->]; [done|].
  destruct (Store_cases f e d) as [->|(row & stats' & Hi & _ & ->)]; [done|]. apply insert_event_Ok in Hi as (Hs & _ & -> & _).
  cbn [events]. apply Forall_app. split; [done|]. apply Forall_singleton. unfold storable_event in Hs. cbn [forallb] in Hs.
  rw !andb_true_iff in Hs. destruct Hs as ((_ & _ & _ & [_ Hn] & [_ Hx] & [_ Hm] & _) & _).
  assert (Hnull : forall s n, nullif s = Some n -> s = n) by (intros s n; unfold nullif; case_bool_decide; congruence).
  split; [exact Hm|]. split; intros n Hn'; cbn [event_row so_RouteName so_RoutePathPrefix] in Hn'; apply Hnull in Hn' as <-; done.
Qed.
Lemma texts_reachable d : rtc astep empty_db d -> Forall texts_ok (events d).
Proof.
  intros Hr. cut (Forall texts_ok (events empty_db)); [revert Hr; generalize empty_db; induction 1; eauto using texts_step|].
  apply Forall_nil_2.
Qed.

Lemma loaded_row payload d rows w :
  rtc astep empty_db d -> loadRows text_le zone None payload d = Ok rows -> w ∈ rows ->
  utf8_valid (w_RouteName w) = true /\ utf8_valid (w_RoutePathPrefix w) = true /\ utf8_valid (w_Method w) = true /\
  w_BucketStart w mod Second = 0.
Proof.
  intros Hr Hl Hw. pose proof (texts_reachable d Hr) as Ht. apply exact_reachable in Hr as [_ Hst _].
  revert Hl. unfold loadRows. destruct (cast_uuid _) as [u|]; [|done]. cbn [mbind res_bind map_err]. intros [= <-].
  apply list_elem_of_In, in_map_iff in Hw as ([k c] & <- & Hk). apply list_elem_of_In in Hk. rw order_by_perm in Hk.
  apply list_elem_of_In, filter_In in Hk as [Hk _]. apply list_elem_of_In, elem_of_map_to_list in Hk. rw Hst in Hk.
  unfold aggregate in Hk. destruct (rows_of k (events d)) as [|r l] eqn:E; [done|].
  assert (Hrow : r ∈ events d /\ key_of r = Some k).
  { assert (Hin : r ∈ rows_of k (events d)) by (rw E; apply list_elem_of_here). unfold rows_of in Hin.
    apply list_elem_of_In, filter_In in Hin as [Hin Hkey%bool_decide_eq_true_1]. split; [by apply list_elem_of_In|done]. }
  destruct Hrow as [Hin Hkey]. destruct (proj1 (list.Forall_forall _ _) Ht r Hin) as (Hm & Hn & Hx).
  unfold key_of in Hkey. destruct (so_ProjectID r), (so_RouteName r) as [n|], (so_RoutePathPrefix r) as [x|]; try done.
  injection Hkey as <-. specialize (Hn n eq_refl). specialize (Hx x eq_refl).
  cbn [report_row w_RouteName w_RoutePathPrefix w_Method w_BucketStart].
  split_and!; [done..|]. change (key_bucket _) with (so_OccurredAt r - so_OccurredAt r mod Hour). unfold_time. lia.
Qed.
End tables.

(** ** The property *)

(** C35: A report loses nothing.  Take the rows the generator reads from tables any
    history of ingestion leaves, and the file it writes for them.  A JSON file is read
    back as the report it was written from: its time, project, range and every field of
    every row, in whatever time zone the service runs.  From a CSV file a reader that
    follows RFC 4180 gets the header and every field of every row, whatever commas,
    quotes and line breaks the names contain; and other rows have another text. *)
Theorem reports_read_back `{UnicodeTables} `{PgUUID} (text_le : string -> string -> bool) (zone : Z) (local : Z -> Z)
    (e : report_env) (payload : ReportPayload) (d : db) (rows : list row) (text : string) :
  (forall t, -1440 < local t < 1440) -> rtc astep empty_db d -> loadRows text_le zone None payload d = Ok rows ->
  utf8_valid (rp_ProjectID payload) = true -> Forall counts_fit rows -> complete local e payload rows text ->
  (report_format payload = "json" ->
     read_file text = Ok (mkJSONReport (ge_now e) (rp_ProjectID payload) (rp_From payload) (rp_To payload) rows)) /\
  (report_format payload <> "json" ->
     csv_parse text = Some (csv_header :: map csv_record rows) /\
     forall rows', Forall year_fits rows -> Forall csv_row rows' -> text = csv_text (csv_header :: map csv_record rows') -> rows' = rows).
Proof.
  intros Hlocal Hd Hl Hu Hc. unfold complete, write_report.
  assert (Hrow := fun w => loaded_row text_le zone payload d rows w Hd Hl). case_bool_decide as Hf.
  - intros Hw. split; [|done]. intros _. revert Hw. unfold writeJSON. destruct (encode_json local _) as [t|] eqn:Et; [|done].
    destruct (ge_write e); [done|]. intros [= <-]. eapply file_read in Et; [exact Et|done|exact Hu|].
    apply list.Forall_forall. intros w Hw. destruct (Hrow w Hw) as (H1 & H2 & H3 & _). split; try done.
    exact (proj1 (list.Forall_forall _ _) Hc w Hw).
  - intros Hw. split; [done|]. intros _. revert Hw. unfold writeCSV. destruct (ge_write e); [done|]. intros [= <-].
    split; [apply csv_parsed|]. intros rows' Hy Hr' E. apply (f_equal csv_parse) in E. rw !csv_parsed in E. injection E as E.
    symmetry. apply csv_records_inj; [|done|done]. apply list.Forall_forall. intros w Hw. split; [by apply Hrow|].
    exact (proj1 (list.Forall_forall _ _) Hy w Hw).
Qed.

(** ** Examples *)

Module Example.
Import AnalyticsQueries.AnalyticsQueries.Example Report.Example.
#[local] Existing Instance ascii_only.
#[local] Existing Instance uuids.

Definition payload2 : ReportPayload := mkReport p1 (t0 + Minute) (t0 + 2 * Minute) "json".
Definition rows2 : list row := ok_or [] (loadRows all_le 0 None payload2 d4).
(** Three hours east of Greenwich. *)
Definition moscow (t : Z) : Z := 180.
Definition text2 : string := (write_report moscow os_ok "json" payload2 rows2).2.

Lemma rows2_loaded : loadRows all_le 0 None payload2 d4 = Ok rows2.
Proof. vm_compute. reflexivity. Qed.
Lemma rows2_counts : Forall counts_fit rows2.
Proof.
  assert (E : forallb (fun w => bool_decide (Forall int64_range
    [w_RequestCount w; w_Status1xx w; w_Status2xx w; w_Status3xx w; w_Status4xx w; w_Status5xx w; w_RateLimited w;
     w_TotalDurationMS w; w_MaxDurationMS w; w_TotalResponseBytes w])) rows2 = true) by (vm_compute; reflexivity).
  apply list.Forall_forall. intros w Hw%list_elem_of_In. apply (proj1 (forallb_forall _ _) E w) in Hw. by apply bool_decide_eq_true_1 in Hw.
Qed.

(** C35 at a JSON report of a service that runs in another zone. *)
Lemma reports_read_back_witness :
  read_file text2 = Ok (mkJSONReport (ge_now os_ok) p1 (t0 + Minute) (t0 + 2 * Minute) rows2) /\ rows2 <> [].
Proof.
  destruct (reports_read_back all_le 0 moscow os_ok payload2 d4 rows2 text2) as [Hj _].
  - intros t. unfold moscow. lia.
  - exact d4_reachable.
  - exact rows2_loaded.
  - vm_compute. reflexivity.
  - exact rows2_counts.
  - vm_compute. reflexivity.
  - split; [apply Hj; vm_compute; reflexivity|vm_compute; discriminate].
Defined.
End Example.
End Formats.
