(* ===== verification/Topology.v ===== *)
(** The exchanges, queues and bindings of the jobs in RabbitMQ, as the publisher
    (jobs/infrastructure/rabbitmq/publisher.go) and the consumer
    (jobworker/infrastructure/rabbitmq/consumer.go) declare them when they start, and
    where messages go by them. *)
From Stdlib Require Import Ascii ZArith Lia String.
From Corelib Require Import ssreflect.
From stdpp Require Import base gmap strings list numbers pretty.
From S2P Require Import Prelude GoStrings GoTime GoEncoding GoNet Events Postgres Jobs JobWorker.

#[local] Open Scope Z_scope.

Module Topology.
Import Jobs Worker.

(** ** The broker *)

Record exchange_decl := mkExchangeDecl { x_kind : string; x_durable : bool; x_autoDelete : bool; x_internal : bool }.
Record queue_decl := mkQueueDecl {
  q_durable : bool; q_autoDelete : bool; q_exclusive : bool; q_args : list (string * string)
}.
Record binding := mkBinding { b_queue : string; b_key : string; b_exchange : string }.

#[global] Instance exchange_decl_eq : EqDecision exchange_decl.
Proof. solve_decision. Defined.
#[global] Instance queue_decl_eq : EqDecision queue_decl.
Proof. solve_decision. Defined.
#[global] Instance binding_eq : EqDecision binding.
Proof. solve_decision. Defined.

Record broker := mkBroker {
  exchanges : gmap string exchange_decl; queues : gmap string queue_decl; bindings : list binding
}.

Inductive declaration :=
| ExchangeDeclare (name : string) (d : exchange_decl)
| QueueDeclare (name : string) (d : queue_decl)
| QueueBind (name key exchange : string).

Definition precondition_failed : error := Opaque "Exception (406) Reason: PRECONDITION_FAILED".
Definition not_found : error := Opaque "Exception (404) Reason: NOT_FOUND".

(** AMQP: a declaration that exists is confirmed when it is the same and refused
    when it differs; a binding needs both ends. *)
Definition declare (b : broker) (d : declaration) : res broker :=
  match d with
  | ExchangeDeclare name x =>
    match exchanges b !! name with
    | Some x' => if bool_decide (x' = x) then Ok b else Err precondition_failed
    | None => Ok (mkBroker (<[name := x]> (exchanges b)) (queues b) (bindings b))
    end
  | QueueDeclare name q =>
    match queues b !! name with
    | Some q' => if bool_decide (q' = q) then Ok b else Err precondition_failed
    | None => Ok (mkBroker (exchanges b) (<[name := q]> (queues b)) (bindings b))
    end
  | QueueBind name key exchange =>
    match queues b !! name, exchanges b !! exchange with
    | Some _, Some _ =>
      let e := mkBinding name key exchange in
      Ok (if bool_decide (e ∈ bindings b) then b else mkBroker (exchanges b) (queues b) (e :: bindings b))
    | _, _ => Err not_found
    end
  end.

(** Declarations in order, each with the context of its error and a fault of the
    channel; the first error ends them and what was declared stays. *)
Fixpoint run_declarations (l : list (string * declaration)) (faults : list (option error)) (b : broker) : res unit * broker :=
  match l with
  | [] => (Ok tt, b)
  | (ctx, d) :: l =>
    match with_fault (default None (head faults)) (declare b d) with
    | Err err => (Err (wrapf ctx err), b)
    | Ok b' => run_declarations l (tail faults) b'
    end
  end.

(** Topic exchanges: words between dots, [*] for one word and [#] for any number. *)
Fixpoint topic_match (pattern : list string) : list string -> bool :=
  match pattern with
  | [] => fun words => bool_decide (words = [])
  | x :: pattern' =>
    if bool_decide (x = "#") then
      fix any (words : list string) : bool :=
        topic_match pattern' words || match words with [] => false | _ :: words' => any words' end
    else fun words =>
      match words with
      | [] => false
      | y :: words' => (bool_decide (x = "*") || bool_decide (x = y)) && topic_match pattern' words'
      end
  end.

Definition route (b : broker) (exchange key : string) : list string :=
  map b_queue (List.filter (fun e => bool_decide (b_exchange e = exchange) &&
                                     topic_match (Split (b_key e) "."%char) (Split key "."%char)) (bindings b)).

(** ** What the services declare *)

Definition topic_exchange : exchange_decl := mkExchangeDecl "topic" true false false.
Definition quorum_queue : queue_decl := mkQueueDecl true false false [("x-queue-type", "quorum")].

Definition publisher_topology (exchange queueName : string) : list (string * declaration) :=
  [("declare jobs exchange", ExchangeDeclare exchange topic_exchange);
   ("declare jobs queue", QueueDeclare queueName quorum_queue);
   ("bind jobs queue", QueueBind queueName "jobs.#" exchange)].

Record ConsumerConfig := mkConsumerConfig {
  cc_Exchange : string; cc_Queue : string; cc_DeadExchange : string; cc_DeadQueue : string; cc_Prefetch : Z; cc_ProcessTimeout : Z
}.

Definition consumer_topology (c : ConsumerConfig) : list (string * declaration) :=
  [("declare jobs exchange", ExchangeDeclare (cc_Exchange c) topic_exchange);
   ("declare jobs dead-letter exchange", ExchangeDeclare (cc_DeadExchange c) topic_exchange);
   ("declare jobs queue", QueueDeclare (cc_Queue c) quorum_queue);
   ("bind jobs queue", QueueBind (cc_Queue c) "jobs.#" (cc_Exchange c));
   ("declare jobs dead-letter queue", QueueDeclare (cc_DeadQueue c) quorum_queue);
   ("bind jobs dead-letter queue", QueueBind (cc_DeadQueue c) "jobs.#" (cc_DeadExchange c))].

(** The constructors: dial, open a channel, declare, and confirm mode or prefetch. *)
Record connect_env := mkConnect {
  cn_dial : option error; cn_channel : option error; cn_faults : list (option error); cn_last : option error
}.

Definition connect (e : connect_env) (topology : list (string * declaration)) (last : string) (b : broker) : res unit * broker :=
  match cn_dial e with
  | Some err => (Err (wrapf "dial RabbitMQ" err), b)
  | None =>
    match cn_channel e with
    | Some err => (Err (wrapf "open RabbitMQ channel" err), b)
    | None =>
      match run_declarations topology (cn_faults e) b with
      | (Err err, b') => (Err err, b')
      | (Ok _, b') => (match cn_last e with Some err => Err (wrapf last err) | None => Ok tt end, b')
      end
    end
  end.

Definition New_publisher (e : connect_env) (exchange queue : string) (b : broker) : res unit * broker :=
  connect e (publisher_topology exchange queue) "enable RabbitMQ publisher confirms" b.
Definition NewConsumer (e : connect_env) (c : ConsumerConfig) (b : broker) : res unit * broker :=
  connect e (consumer_topology c) "configure RabbitMQ prefetch" b.

(** ** The state of a connection *)

Record connection := mkConnection { co_closed : bool; co_connection_closed : bool; co_channel_closed : bool }.

Definition Ping_publisher (p : connection) : res unit :=
  if co_closed p || co_connection_closed p || co_channel_closed p then Err ErrPublisherClosed else Ok tt.
Definition Ping_consumer (p : connection) : res unit :=
  if co_connection_closed p || co_channel_closed p then Err ErrConsumerClosed else Ok tt.

(** amqp.ErrClosed. *)
Definition ErrClosed : error := Sentinel "amqp.ErrClosed" "Exception (504) Reason: ".

(** The first error of closing the channel and the connection that is not
    ErrClosed. *)
Definition close_error (channelErr connErr : option error) : res unit :=
  let relevant o := match o with Some err => if errors_Is err ErrClosed then None else Some err | None => None end in
  match relevant channelErr, relevant connErr with
  | Some err, _ => Err err
  | None, Some err => Err err
  | None, None => Ok tt
  end.

Definition Close_publisher (channelErr connErr : option error) (p : connection) : res unit * connection :=
  if co_closed p then (Ok tt, p) else (close_error channelErr connErr, mkConnection true true true).
Definition Close_consumer (channelErr connErr : option error) (p : connection) : res unit * connection :=
  (close_error channelErr connErr, mkConnection (co_closed p) true true).

(** ** Declarations persist *)

Record broker_le (b b' : broker) : Prop := {
  le_exchanges : exchanges b ⊆ exchanges b';
  le_queues : queues b ⊆ queues b';
  le_bindings : bindings b ⊆ bindings b';
}.
#[global] Instance broker_le_pre : PreOrder broker_le.
Proof. split; [by intros b|]. intros b1 b2 b3 [? ? ?] [? ? ?]. split; by etrans. Qed.

Definition declared (b : broker) (d : declaration) : Prop := declare b d = Ok b.

Lemma declare_Ok b d b' : declare b d = Ok b' -> broker_le b b' /\ declared b' d.
Proof.
  unfold declared. destruct d as [name x|name q|name key ex]; cbn.
  - destruct (exchanges b !! name) as [x'|] eqn:E.
    + case_bool_decide; [|done]. intros [= <-]. split; [done|]. by rw E bool_decide_eq_true_2.
    + intros [= <-]. split; [|cbn; by rw lookup_insert_eq bool_decide_eq_true_2].
      split; cbn; [by apply insert_subseteq|done|done].
  - destruct (queues b !! name) as [q'|] eqn:E.
    + case_bool_decide; [|done]. intros [= <-]. split; [done|]. by rw E bool_decide_eq_true_2.
    + intros [= <-]. split; [|cbn; by rw lookup_insert_eq bool_decide_eq_true_2].
      split; cbn; [done|by apply insert_subseteq|done].
  - destruct (queues b !! name) eqn:Eq; [|done]. destruct (exchanges b !! ex) eqn:Ex; [|done]. intros [= <-].
    case_bool_decide as Hin; [split; [done|]; by rw Eq Ex bool_decide_eq_true_2|].
    split; [split; cbn; [done|done|set_solver]|]. cbn. rw Eq Ex bool_decide_eq_true_2; [set_solver|]. done.
Qed.

Lemma declared_le b b' d : broker_le b b' -> declared b d -> declared b' d.
Proof.
  unfold declared. intros [Hx Hq Hb]. destruct d as [name x|name q|name key ex]; cbn.
  - destruct (exchanges b !! name) as [x'|] eqn:E.
    + rw (lookup_weaken _ _ _ _ E Hx). by case_bool_decide.
    + intros [= Eb]. apply (f_equal exchanges) in Eb. cbn in Eb. rw -Eb lookup_insert_eq in E. done.
  - destruct (queues b !! name) as [q'|] eqn:E.
    + rw (lookup_weaken _ _ _ _ E Hq). by case_bool_decide.
    + intros [= Eb]. apply (f_equal queues) in Eb. cbn in Eb. rw -Eb lookup_insert_eq in E. done.
  - destruct (queues b !! name) eqn:Eq; [|done]. destruct (exchanges b !! ex) eqn:Ex; [|done].
    rw (lookup_weaken _ _ _ _ Eq Hq) (lookup_weaken _ _ _ _ Ex Hx). case_bool_decide as Hin.
    + intros _. rw bool_decide_eq_true_2; [by apply Hb|done].
    + intros [= Eb]. apply (f_equal (length ∘ bindings)) in Eb. cbn in Eb. lia.
Qed.

Lemma declared_bind b name key ex : declared b (QueueBind name key ex) -> mkBinding name key ex ∈ bindings b.
Proof.
  unfold declared. cbn. destruct (queues b !! name); [|done]. destruct (exchanges b !! ex); [|done].
  case_bool_decide as Hin; [done|]. intros [= Eb]. apply (f_equal (length ∘ bindings)) in Eb. cbn in Eb. lia.
Qed.

Lemma run_Ok l faults b b' :
  run_declarations l faults b = (Ok tt, b') -> broker_le b b' /\ Forall (fun cd => declared b' cd.2) l.
Proof.
  revert faults b. induction l as [|[ctx d] l IH]; intros faults b; cbn.
  - intros [= <-]. split; [done|apply Forall_nil_2].
  - destruct (with_fault _ _) as [b1|] eqn:E; [|done]. apply with_fault_Ok in E as [_ E]. intros Hr.
    apply declare_Ok in E as [H1 Hd]. apply IH in Hr as [H2 Hl]. split; [by etrans|]. apply Forall_cons. split; [|done].
    by eapply declared_le.
Qed.

Lemma run_again l b : Forall (fun cd => declared b cd.2) l -> run_declarations l [] b = (Ok tt, b).
Proof. induction 1 as [|[ctx d] l Hd _ IH]; [done|]. cbn in *. by rw Hd. Qed.

Lemma route_bound b q key ex routing :
  mkBinding q key ex ∈ bindings b -> topic_match (Split key "."%char) (Split routing "."%char) = true -> q ∈ route b ex routing.
Proof.
  intros Hin Hm. unfold route. apply list_elem_of_In, in_map_iff. exists (mkBinding q key ex). split; [done|].
  apply filter_In. split; [by apply list_elem_of_In|]. cbn. by rw Hm bool_decide_eq_true_2.
Qed.

Lemma job_types_match t : Type_Valid t = true -> topic_match (Split "jobs.#" "."%char) (Split t "."%char) = true.
Proof. unfold Type_Valid. repeat case_bool_decide; subst; done. Qed.

Lemma connect_Ok e topology last b b' :
  connect e topology last b = (Ok tt, b') -> broker_le b b' /\ Forall (fun cd => declared b' cd.2) topology.
Proof.
  unfold connect. destruct (cn_dial e); [done|]. destruct (cn_channel e); [done|].
  destruct (run_declarations _ _ _) as [[[]|] b1] eqn:E; [|done]. destruct (cn_last e); [done|]. intros [= <-].
  by apply run_Ok in E.
Qed.

Definition no_trouble : connect_env := mkConnect None None [] None.


(** After Close a publisher answers ErrPublisherClosed, and Close can be repeated. *)
Lemma closed_publisher channelErr connErr e1 e2 p :
  let p' := (Close_publisher channelErr connErr p).2 in
  Ping_publisher p' = Err ErrPublisherClosed /\ Close_publisher e1 e2 p' = (Ok tt, p').
Proof. unfold Close_publisher, Ping_publisher. destruct (co_closed p) eqn:E; cbn; [rw E|]; by split. Qed.

(** ** Examples *)

Definition default_consumer : ConsumerConfig :=
  mkConsumerConfig "edgeguard.jobs.v1" "edgeguard.jobs.main.v1" "edgeguard.jobs.dead.v1" "edgeguard.jobs.dead.v1" 10 (2 * Minute).
Definition empty_broker : broker := mkBroker ∅ ∅ [].

Example default_topology :
  let b := (NewConsumer no_trouble default_consumer empty_broker).2 in
  route b "edgeguard.jobs.v1" TypeReportGenerate = ["edgeguard.jobs.main.v1"] /\
  route b "edgeguard.jobs.dead.v1" TypeReportGenerate = ["edgeguard.jobs.dead.v1"] /\
  route b "edgeguard.jobs.v1" "other.report" = [].
Proof. vm_compute. done. Qed.
End Topology.
