(* ===== verification/Proxy.v ===== *)
(** The reverse proxy of the gateway (gateway/infrastructure/proxy).

    [ServeHTTP] is the method of the same name with what it uses of
    net/http/httputil: the director of a single-host proxy, the removal of
    hop-by-hop headers, the forwarding headers, and the copy of the reply.  The
    transport, the URL parser and the handling of a protocol upgrade are
    parameters; replies carry no trailers. *)
From Stdlib Require Import Ascii ZArith Lia.
From Corelib Require Import ssreflect.
From stdpp Require Import base gmap strings list numbers pretty.
From S2P Require Import Prelude GoStrings GoEncoding GoTime GoNet GoURL GatewayRoutes RateLimit Gateway Platform.

#[local] Open Scope Z_scope.

Module Proxy.

(** ** Requests *)

(** The upstream URL, parsed. *)
Record target := mkTarget { tg_Scheme : string; tg_Host : string; tg_Path : string; tg_RawPath : string; tg_RawQuery : string }.

(** The fields of the request besides those of [request]: the escaped path when it is
    not the default one, the query, the host, whether it came over TLS, and the body
    unless its length is zero. *)
Record rest := mkRest {
  rq_RawPath : string; rq_RawQuery : string; rq_ForceQuery : bool; rq_Host : string; rq_TLS : bool; rq_Body : option stream
}.

Record outgoing := mkOutgoing {
  og_Method : string; og_Scheme : string; og_URLHost : string; og_Path : string; og_RawPath : string; og_RawQuery : string;
  og_ForceQuery : bool; og_Host : string; og_Header : Header; og_Body : option stream
}.

Definition getRequestScheme (x : rest) : string := if rq_TLS x then "https" else "http".

(** ** The director *)

(** httputil: joinURLPath and rewriteRequestURL. *)
Definition singleJoiningSlash (a b : string) : string :=
  match HasSuffix a "/", HasPrefix b "/" with
  | true, true => a +:+ TrimPrefix b "/"
  | false, false => a +:+ "/" +:+ b
  | _, _ => a +:+ b
  end.

Definition joinURLPath (aPath aRawPath bPath bRawPath : string) : string * string :=
  if bool_decide (aRawPath = "") && bool_decide (bRawPath = "") then (singleJoiningSlash aPath bPath, "")
  else
    let apath := EscapedPath aPath aRawPath in
    let bpath := EscapedPath bPath bRawPath in
    match HasSuffix apath "/", HasPrefix bpath "/" with
    | true, true => (aPath +:+ String.substring 1 (String.length bPath) bPath, apath +:+ TrimPrefix bpath "/")
    | false, false => (aPath +:+ "/" +:+ bPath, apath +:+ "/" +:+ bpath)
    | _, _ => (aPath +:+ bPath, apath +:+ bpath)
    end.

Definition rewriteRequestURL (t : target) (o : outgoing) : outgoing :=
  let '(path, rawpath) := joinURLPath (tg_Path t) (tg_RawPath t) (og_Path o) (og_RawPath o) in
  let query := if bool_decide (tg_RawQuery t = "") || bool_decide (og_RawQuery o = "")
               then tg_RawQuery t +:+ og_RawQuery o else tg_RawQuery t +:+ "&" +:+ og_RawQuery o in
  mkOutgoing (og_Method o) (tg_Scheme t) (tg_Host t) path rawpath query (og_ForceQuery o) (og_Host o) (og_Header o) (og_Body o).

(** proxy.Director, with the request [r] the proxy was called with. *)
Definition Director (t : target) (x : rest) (req : request) (route : Route) (o : outgoing) : outgoing :=
  let o := rewriteRequestURL t o in
  let h := Header_Set (Header_Set (og_Header o) "X-Forwarded-Host" (rq_Host x)) "X-Forwarded-Proto" (getRequestScheme x) in
  mkOutgoing (og_Method o) (tg_Scheme t) (tg_Host t) (joinPaths (tg_Path t) (UpstreamPath route (req_Path req)))
    (og_RawPath o) (rq_RawQuery x) (og_ForceQuery o) (tg_Host t) h (og_Body o).

(** ** Hop-by-hop headers (httputil) *)

Definition mime_space (a : ascii) : bool := bool_decide (a ∈ [" "; "009"; "010"; "013"]%char).
Fixpoint trim_left (s : string) : string :=
  match s with
  | String a s' => if mime_space a then trim_left s' else s
  | EmptyString => EmptyString
  end.
Fixpoint trim_right (s : string) : string :=
  match s with
  | EmptyString => EmptyString
  | String a s' => match trim_right s' with EmptyString => if mime_space a then EmptyString else String a EmptyString | t => String a t end
  end.
(** textproto.TrimString. *)
Definition TrimString (s : string) : string := trim_right (trim_left s).

Definition values (h : Header) (k : string) : list string := default [] (h !! k).
Definition comma_parts (vs : list string) : list string := TrimString <$> (vs ≫= fun v => Split v ","%char).

(** The header names the Connection header lists. *)
Definition connection_names (h : Header) : list string := filter (fun s => s <> "") (comma_parts (values h "Connection")).

(** httpguts.HeaderValuesContainsToken. *)
Definition contains_token (vs : list string) (token : string) : bool := existsb (fun s => EqualFold_ascii s token) (comma_parts vs).

Definition hopHeaders : list string :=
  ["Connection"; "Proxy-Connection"; "Keep-Alive"; "Proxy-Authenticate"; "Proxy-Authorization"; "Te"; "Trailer"; "Transfer-Encoding"; "Upgrade"].

Definition removeHopByHopHeaders (h : Header) : Header := foldl Header_Del (foldl Header_Del h (connection_names h)) hopHeaders.

Definition upgradeType (h : Header) : string :=
  if contains_token (values h "Connection") "Upgrade" then Header_Get h "Upgrade" else "".
Definition IsPrint (s : string) : bool := all_bytes (fun a => ((32 <=? byte_val a) && (byte_val a <=? 126))%N) s.

Fixpoint Join_comma (l : list string) : string :=
  match l with
  | [] => ""
  | [s] => s
  | s :: l => s +:+ ", " +:+ Join_comma l
  end.

(** X-Forwarded-For: prior values first, then the address of the client. *)
Definition forwarded_for (remoteAddr : string) (h : Header) : Header :=
  match SplitHostPort remoteAddr with
  | Err _ => h
  | Ok (clientIP, _) =>
    match h !! "X-Forwarded-For" with
    | Some (v :: vs) => Header_Set h "X-Forwarded-For" (Join_comma (v :: vs) +:+ ", " +:+ clientIP)
    | _ => Header_Set h "X-Forwarded-For" clientIP
    end
  end.

(** The headers of the outgoing request, once the director has run. *)
Definition outgoing_header (inbound : Header) (remoteAddr reqUpType : string) (h : Header) : Header :=
  let h := removeHopByHopHeaders h in
  let h := if contains_token (values inbound "Te") "trailers" then Header_Set h "Te" "trailers" else h in
  let h := if bool_decide (reqUpType <> "") then Header_Set (Header_Set h "Connection" "Upgrade") "Upgrade" reqUpType else h in
  let h := forwarded_for remoteAddr h in
  match h !! "User-Agent" with Some _ => h | None => Header_Set h "User-Agent" "" end.

(** ** The reply *)

Inductive body_event := Chunk (data : string) | FlushNow.

(** A reply whose body is read in chunks, flushed when the latency writer of the
    proxy does so, and which may break off. *)
Record reply := mkReply { rp_StatusCode : Z; rp_Header : Header; rp_Body : list body_event; rp_Err : option error }.

Definition copyHeader (h : Header) : list write_op :=
  map_to_list h ≫= fun kv => AddHeader kv.1 <$> kv.2.

Definition body_op (b : body_event) : write_op := match b with Chunk data => Write data | FlushNow => Flush end.

(** http.Error. *)
Definition http_Error (text : string) (code : Z) : list write_op :=
  [DelHeader "Content-Length"; SetHeader "Content-Type" "text/plain; charset=utf-8"; SetHeader "X-Content-Type-Options" "nosniff";
   WriteHeader code; Write (text +:+ LF)].

(** Each informational reply is passed on, and the header map cleared. *)
Definition informational_ops (info : list (Z * Header)) : list write_op :=
  info ≫= fun ch => copyHeader ch.2 ++ [WriteHeader ch.1; ClearHeader].

(** The calls on the response writer, the request sent if one was, and whether the
    handler ended with panic(http.ErrAbortHandler). *)
Record proxied := mkProxied { px_ops : list write_op; px_sent : option outgoing; px_aborted : bool }.

Section serve.
Context (parse : string -> res target).
(** The transport, given the time allowed: informational replies, then the reply. *)
Context (roundTrip : Z -> outgoing -> list (Z * Header) * res reply).
(** What handleUpgradeResponse does with a 101. *)
Context (upgrade : outgoing -> reply -> list write_op).

Definition upstream_error : list write_op := http_Error "upstream error" 502.

Definition write_reply (o : outgoing) (r : reply) : list write_op * bool :=
  if rp_StatusCode r =? 101 then (upgrade o r, false)
  else
    (copyHeader (removeHopByHopHeaders (rp_Header r)) ++ [WriteHeader (rp_StatusCode r)] ++ (body_op <$> rp_Body r),
     match rp_Err r with Some _ => true | None => false end).

Definition reverse_proxy (t : target) (x : rest) (req : request) (route : Route) : proxied :=
  let o := mkOutgoing (req_Method req) "" "" (req_Path req) (rq_RawPath x) (rq_RawQuery x) (rq_ForceQuery x) (rq_Host x)
             (req_Header req) (rq_Body x) in
  let o := Director t x req route o in
  let reqUpType := upgradeType (og_Header o) in
  if negb (IsPrint reqUpType) then mkProxied upstream_error None false
  else
    let o := mkOutgoing (og_Method o) (og_Scheme o) (og_URLHost o) (og_Path o) (og_RawPath o) (og_RawQuery o) (og_ForceQuery o)
               (og_Host o) (outgoing_header (req_Header req) (req_RemoteAddr req) reqUpType (og_Header o)) (og_Body o) in
    let '(info, result) := roundTrip (rt_Timeout route) o in
    match result with
    | Err _ => mkProxied (informational_ops info ++ upstream_error) (Some o) false
    | Ok r => let '(ops, aborted) := write_reply o r in mkProxied (informational_ops info ++ ops) (Some o) aborted
    end.

Definition ServeHTTP (x : rest) (req : request) (route : Route) : proxied :=
  match parse (rt_UpstreamURL route) with
  | Err _ => mkProxied (http_Error "bad upstream url" 502) None false
  | Ok t => reverse_proxy t x req route
  end.

(** The proxy as the handler calls it: what it writes for a request. *)
Definition gateway_proxy (x : rest) (req : request) (route : Route) : list write_op := px_ops (ServeHTTP x req route).
End serve.

(** The request line the transport writes (url.URL.RequestURI). *)
Definition RequestURI (o : outgoing) : string :=
  let path := EscapedPath (og_Path o) (og_RawPath o) in
  let path := if bool_decide (path = "") then "/" else path in
  if og_ForceQuery o || bool_decide (og_RawQuery o <> "") then path +:+ "?" +:+ og_RawQuery o else path.
(** ** Headers: lemmas *)

Lemma foldl_Header_Del l : forall h k,
  foldl Header_Del h l !! k = if bool_decide (k ∈ CanonicalHeaderKey <$> l) then None else h !! k.
Proof.
  induction l as [|s l IH]; intros h k; [done|]. cbn [foldl]. rw IH. unfold Header_Del. rw fmap_cons.
  destruct (decide (k = CanonicalHeaderKey s)) as [->|Hne].
  - rw lookup_delete_eq (bool_decide_eq_true_2 (_ ∈ _ :: _)); [apply list_elem_of_here|]. by case_bool_decide.
  - rw lookup_delete_ne; [congruence|]. repeat case_bool_decide; try done; set_solver.
Qed.

(** The names removed from a request or reply with this header map. *)
Definition hop_names (h : Header) : list string := (CanonicalHeaderKey <$> connection_names h) ++ hopHeaders.

Lemma removeHop_lookup h k : removeHopByHopHeaders h !! k = if bool_decide (k ∈ hop_names h) then None else h !! k.
Proof.
  unfold removeHopByHopHeaders, hop_names. rw !foldl_Header_Del.
  change (CanonicalHeaderKey <$> hopHeaders) with hopHeaders.
  repeat case_bool_decide; try done; set_solver.
Qed.

Definition appended : list string := ["Te"; "Connection"; "Upgrade"; "X-Forwarded-For"; "User-Agent"].

Lemma set_other h k v k' : CanonicalHeaderKey k = k -> k <> k' -> Header_Set h k v !! k' = h !! k'.
Proof. unfold Header_Set. intros -> ?. by rw lookup_insert_ne. Qed.

Lemma forwarded_for_other addr h k : k <> "X-Forwarded-For" -> forwarded_for addr h !! k = h !! k.
Proof.
  intros Hk. unfold forwarded_for. destruct (SplitHostPort addr) as [[ip port]|]; [|done].
  destruct (h !! "X-Forwarded-For") as [[|v vs]|]; apply set_other; (done || by intros <-).
Qed.

Lemma outgoing_header_other inbound addr up h k :
  k ∉ appended -> outgoing_header inbound addr up h !! k = removeHopByHopHeaders h !! k.
Proof.
  unfold appended, outgoing_header. intros Hk. rw !not_elem_of_cons in Hk. destruct Hk as (Ht & Hc & Hu & Hf & Ha & _).
  set (h1 := removeHopByHopHeaders h). set (h2 := if contains_token _ _ then _ else h1).
  set (h3 := if bool_decide _ then _ else h2). set (h4 := forwarded_for addr h3).
  assert (E : h4 !! k = h1 !! k).
  { unfold h4. rw forwarded_for_other //. unfold h3, h2.
    destruct (contains_token _ _), (bool_decide _); rw ?set_other; congruence || done. }
  destruct (h4 !! "User-Agent"); [done|]. rw set_other; congruence || done.
Qed.

(** The forwarding address: what the client sent in the header, unless it also asked
    for its removal, and the address the connection came from. *)
Definition prior_addresses (h : Header) : list string :=
  if bool_decide ("X-Forwarded-For" ∈ hop_names h) then [] else values h "X-Forwarded-For".

Lemma Join_comma_snoc l s : l <> [] -> Join_comma (l ++ [s]) = Join_comma l +:+ ", " +:+ s.
Proof.
  induction l as [|a l IH]; [done|]. intros _. destruct l as [|b l]; [done|].
  change (Join_comma ((a :: b :: l) ++ [s])) with (a +:+ ", " +:+ Join_comma ((b :: l) ++ [s])).
  rw IH //. change (Join_comma (a :: b :: l)) with (a +:+ ", " +:+ Join_comma (b :: l)). by rw !sapp_assoc.
Qed.

Lemma outgoing_header_for inbound addr up h ip port :
  SplitHostPort addr = Ok (ip, port) ->
  outgoing_header inbound addr up h !! "X-Forwarded-For" = Some [Join_comma (prior_addresses h ++ [ip])].
Proof.
  intros Hip. unfold outgoing_header.
  set (h1 := removeHopByHopHeaders h). set (h2 := if contains_token _ _ then _ else h1).
  set (h3 := if bool_decide _ then _ else h2).
  assert (E : h3 !! "X-Forwarded-For" = h1 !! "X-Forwarded-For").
  { unfold h3, h2. destruct (contains_token _ _), (bool_decide _); rw ?set_other; done. }
  assert (E4 : forwarded_for addr h3 !! "X-Forwarded-For" = Some [Join_comma (prior_addresses h ++ [ip])]).
  { unfold forwarded_for. rw Hip E. unfold h1. rw removeHop_lookup. unfold prior_addresses, values.
    destruct (bool_decide ("X-Forwarded-For" ∈ hop_names h)); [apply lookup_insert_eq|]. destruct (h !! "X-Forwarded-For") as [[|v vs]|]; cbn [default];
      try apply lookup_insert_eq. rw Join_comma_snoc //. apply lookup_insert_eq. }
  destruct (forwarded_for addr h3 !! "User-Agent"); [done|]. by rw set_other.
Qed.

Section upstream.
Context (parse : string -> res target) (roundTrip : Z -> outgoing -> list (Z * Header) * res reply).
Context (upgrade : outgoing -> reply -> list write_op) (x : rest).

Lemma sent_spec req route t o :
  parse (rt_UpstreamURL route) = Ok t -> px_sent (ServeHTTP parse roundTrip upgrade x req route) = Some o ->
  let h := Header_Set (Header_Set (req_Header req) "X-Forwarded-Host" (rq_Host x)) "X-Forwarded-Proto" (getRequestScheme x) in
  og_Path o = joinPaths (tg_Path t) (UpstreamPath route (req_Path req)) /\
  (og_Method o, og_Scheme o, og_URLHost o, og_Host o, og_Body o) = (req_Method req, tg_Scheme t, tg_Host t, tg_Host t, rq_Body x) /\
  (og_RawQuery o, og_ForceQuery o) = (rq_RawQuery x, rq_ForceQuery x) /\
  og_Header o = outgoing_header (req_Header req) (req_RemoteAddr req) (upgradeType h) h.
Proof.
  intros Ht. unfold ServeHTTP, reverse_proxy. rw Ht. unfold Director, rewriteRequestURL.
  destruct (joinURLPath _ _ _ _) as [path rawpath]. cbn.
  destruct (IsPrint _); [|done]. cbn. destruct (roundTrip _ _) as [info [r|e]]; [destruct (write_reply _ _ _)|];
    intros [= <-]; done.
Qed.

(** Setting the two forwarding headers leaves the Connection header alone. *)
Lemma director_hop_names h a b :
  hop_names (Header_Set (Header_Set h "X-Forwarded-Host" a) "X-Forwarded-Proto" b) = hop_names h.
Proof. unfold hop_names, connection_names, values. by rw !set_other. Qed.

Lemma director_prior h a b :
  prior_addresses (Header_Set (Header_Set h "X-Forwarded-Host" a) "X-Forwarded-Proto" b) = prior_addresses h.
Proof. unfold prior_addresses, values. by rw director_hop_names !set_other. Qed.

Lemma RequestURI_decodes o :
  exists path, RequestURI o = path +:+ (if og_ForceQuery o || bool_decide (og_RawQuery o <> "") then "?" +:+ og_RawQuery o else "") /\
  path_unescape path = Some (if bool_decide (og_Path o = "") then "/" else og_Path o).
Proof.
  unfold RequestURI. set (p := EscapedPath (og_Path o) (og_RawPath o)). exists (if bool_decide (p = "") then "/" else p).
  split; [destruct (_ || _); [done|by rw sapp_nil_r]|].
  pose proof (EscapedPath_decodes (og_Path o) (og_RawPath o)) as D. fold p in D.
  destruct (decide (p = "")) as [E|E].
  - rw E in D |- *. cbn in D. injection D as <-. done.
  - rw !bool_decide_eq_false_2 //. intros E0. rw E0 in D. by apply E, unescape_empty.
Qed.

Definition own_headers : list string := "X-Forwarded-Host" :: "X-Forwarded-Proto" :: appended.


(** *** The reply *)

Import Platform.

(** The calls of the handler on the writer, and what the client gets of them behind
    the recorders of the metrics and of the tracing middleware. *)
Definition call_of (op : write_op) : option write_call :=
  match op with
  | WriteHeader s => Some (CallHeader s)
  | Write d => Some (CallWrite d)
  | Flush => Some CallFlush
  | _ => None
  end.
Definition client_view (ops : list write_op) : response :=
  server_run (recorder_run true NewRecorder (recorder_run true NewRecorder (omap call_of ops)).2).2.

Fixpoint body_text (l : list body_event) : string :=
  match l with
  | [] => ""
  | Chunk d :: l => d +:+ body_text l
  | FlushNow :: l => body_text l
  end.

Lemma client_view_final ops :
  Forall final_header (omap call_of ops) -> client_view ops = server_run (omap call_of ops).
Proof. intros H. unfold client_view. rw recorder_out; [by apply recorder_run_final|]. by apply recorder_out. Qed.

Lemma copyHeader_calls h : omap call_of (copyHeader h) = [].
Proof.
  unfold copyHeader. induction (map_to_list h) as [|[k vs] l IH]; [done|]. cbn. rw omap_app IH app_nil_r.
  by induction vs.
Qed.

Lemma body_calls_final l : Forall final_header (omap call_of (body_op <$> l)).
Proof. induction l as [|[d|] l IH]; cbn; [constructor|by constructor..]. Qed.

Lemma server_body l : forall info s body,
  foldl server_call (mkResponse info (Some s) body) (omap call_of (body_op <$> l)) = mkResponse info (Some s) (body +:+ body_text l).
Proof.
  induction l as [|[d|] l IH]; intros info s body; cbn; [by rw sapp_nil_r| |apply IH]. by rw IH sapp_assoc.
Qed.

Lemma recorded_status accepted l r :
  rec_status r <> 0 -> rec_status (fold_left (recorder_step accepted) (body_op <$> l) r) = rec_status r.
Proof.
  revert r. induction l as [|[d|] l IH]; intros r Hr; [done| |by apply IH]. cbn [fmap list_fmap fold_left body_op recorder_step].
  apply Z.eqb_neq in Hr as Hr'. rw Hr' IH //.
Qed.

Lemma recorded_header accepted h r : fold_left (recorder_step accepted) (copyHeader h) r = r.
Proof.
  unfold copyHeader. induction (map_to_list h) as [|[k vs] l IH]; [done|]. cbn. rw fold_left_app.
  assert (E : fold_left (recorder_step accepted) (AddHeader k <$> vs) r = r) by (by induction vs). by rw E.
Qed.

(** C6: What the client gets.  When the upstream answers without an informational
    reply first, the client gets its status and the bytes of its body, through the
    recorders of the middlewares, and the handler is aborted exactly when the body
    broke off; when the upstream gives no answer, the client gets 502.  The status
    that the gateway's own recorder reports is the one the client got. *)
Theorem upstream_reply accepted req route t o result :
  parse (rt_UpstreamURL route) = Ok t ->
  px_sent (ServeHTTP parse roundTrip upgrade x req route) = Some o ->
  roundTrip (rt_Timeout route) o = ([], result) ->
  (forall r, result = Ok r -> 200 <= rp_StatusCode r <= 999) ->
  let p := ServeHTTP parse roundTrip upgrade x req route in
  match result with
  | Ok r => client_view (px_ops p) = mkResponse [] (Some (rp_StatusCode r)) (body_text (rp_Body r)) /\
            px_aborted p = bool_decide (rp_Err r <> None)
  | Err _ => client_view (px_ops p) = mkResponse [] (Some 502) ("upstream error" +:+ LF) /\ px_aborted p = false
  end /\
  rs_status (client_view (px_ops p)) = Some (rec_status (record_ops accepted (px_ops p))).
Proof.
  intros Ht. unfold ServeHTTP, reverse_proxy. rw Ht. destruct (IsPrint _); [|done]. cbn [negb].
  set (o' := mkOutgoing _ _ _ _ _ _ _ _ _ _). destruct (roundTrip _ o') as [info result'] eqn:E. intros Hs Hr Hst.
  assert (o' = o) as <-.
  { destruct result' as [r|e]; cbn in Hs; [destruct (write_reply _ _ _)|]; by injection Hs. }
  rw Hr in E. injection E as <- <-. clear Hs Hr. destruct result as [r|e]; [|by split].
  specialize (Hst r eq_refl). unfold write_reply. assert (Hne : (rp_StatusCode r =? 101) = false) by lia.
  assert (Hi : informational (rp_StatusCode r) = false) by (unfold informational; lia).
  rw Hne. cbn [px_ops px_aborted app informational_ops mbind list_bind].
  set (ops := copyHeader _ ++ _).
  assert (Ec : omap call_of ops = CallHeader (rp_StatusCode r) :: omap call_of (body_op <$> rp_Body r)).
  { unfold ops. by rw omap_app copyHeader_calls. }
  assert (Ev : client_view ops = mkResponse [] (Some (rp_StatusCode r)) (body_text (rp_Body r))).
  { rw client_view_final; rw Ec; [constructor; [done|apply body_calls_final]|].
    unfold server_run. cbn [foldl server_call rs_status]. rw Hi. apply server_body. }
  split; [split; [done|by destruct (rp_Err r)]|]. rw Ev. unfold ops, record_ops. rw fold_left_app recorded_header.
  change ([WriteHeader (rp_StatusCode r)] ++ (body_op <$> rp_Body r)) with (WriteHeader (rp_StatusCode r) :: (body_op <$> rp_Body r)).
  cbn [fold_left recorder_step rs_status]. rw recorded_status //. cbn. lia.
Qed.
End upstream.

(** ** Examples *)

Module Example.
Import Platform.

Definition parse1 (s : string) : res target := Ok (mkTarget "http" "orders:8081" "/v1/" "" "").
Definition route1 : Route := mkRoute "" "orders" "/orders" "http://orders:8081/v1/" true (5 * Second) false zero_policy.
Definition headers1 : Header :=
  <["X-Api-Key" := ["eg_secret"]]> (<["Connection" := ["close, x-forwarded-host"]]> (<["Accept" := ["text/plain"]]>
    (<["X-Forwarded-For" := ["192.0.2.1"]]> ∅))).
Definition context1 : context := mkContext (mkRequest "GET" "/orders/a/b" headers1 "10.0.0.7:4242") [] None [] [].
Definition rest1 : rest := mkRest "/orders/a%2Fb" "page=2" false "shop.example" true None.
Definition not_found : reply := mkReply 404 ∅ [Chunk "not "; FlushNow; Chunk "found"] None.
Definition answers_404 (_ : Z) (_ : outgoing) : list (Z * Header) * res reply := ([], Ok not_found).
Definition hints_then_404 (_ : Z) (_ : outgoing) : list (Z * Header) * res reply := ([(103, ∅)], Ok not_found).
Definition no_upgrade (_ : outgoing) (_ : reply) : list write_op := [].
Definition served1 : proxied :=
  ServeHTTP parse1 answers_404 no_upgrade rest1 (cx_req (forward (gateway_proxy parse1 answers_404 no_upgrade rest1) route1 context1)) route1.
Definition sent1 : outgoing := default (mkOutgoing "" "" "" "" "" "" false "" ∅ None) (px_sent served1).


(** The escaped slash of the client's path is not kept when the prefix is stripped. *)
Example encoded_slash_decoded : RequestURI sent1 = "/v1/a/b?page=2".
Proof. reflexivity. Qed.

(** C6 at a reply in two chunks. *)
Lemma upstream_reply_witness :
  client_view (px_ops served1) = mkResponse [] (Some 404) "not found" /\ px_aborted served1 = false.
Proof.
  destruct (upstream_reply parse1 answers_404 no_upgrade rest1 len
    (cx_req (forward (gateway_proxy parse1 answers_404 no_upgrade rest1) route1 context1)) route1
    (mkTarget "http" "orders:8081" "/v1/" "" "") sent1 (Ok not_found) eq_refl eq_refl eq_refl) as [[Hv Ha] _].
  { intros r [= <-]. cbn. lia. }
  split; [exact Hv|exact Ha].
Defined.

(** An informational reply ahead of it turns the 404 into a 200. *)
Example early_hints_hide_the_status :
  rs_status (client_view (px_ops (ServeHTTP parse1 hints_then_404 no_upgrade rest1 (cx_req context1) route1))) = Some 200.
Proof. reflexivity. Qed.

(** Dot segments are matched and forwarded as they are. *)
Example dot_segments_forwarded : Matches route1 "/orders/../admin" = true /\ UpstreamPath route1 "/orders/../admin" = "/../admin".
Proof. done. Qed.
End Example.
End Proxy.
