(* ===== verification/Apps.v ===== *)
(** How the services start, wait and stop (internal/*/app/app.go,
    platform/tracing/provider.go, platform/postgres/pool.go).

    A [Run] is a program in a small monad with Go's deferred calls: what it does to
    the outside is a trace of effects of its main goroutine, a wait consumes the
    events of the other goroutines, and the constructors of the components are those
    of their files, whose calls into libraries are fields of the environment.  Contexts
    that only carry a timeout are left out. *)
From Stdlib Require Import Ascii ZArith Lia.
From Corelib Require Import ssreflect.
From stdpp Require Import base gmap strings list numbers pretty.
From S2P Require Import Prelude GoStrings GoTime GoNet GatewayRoutes RateLimit RouteSources Postgres AuthSecurity Gateway Jobs Analytics WorkerSetup Topology Platform.

#[local] Open Scope Z_scope.

Module Apps.
Import Platform.

(** ** Effects and deferred calls *)

Inductive resource :=
| Signals | RunContext | Exporter | Pool | Redis | Producer | JobConnection | JobChannel | EventConsumer.
#[global] Instance resource_eq_dec : EqDecision resource.
Proof. solve_decision. Defined.

Inductive task := RefreshRoutesTask | ServeHTTPTask | ConsumeTask.
#[global] Instance task_eq_dec : EqDecision task.
Proof. solve_decision. Defined.

Inductive effect :=
| Acquire (r : resource)
| Release (r : resource)
| Go (t : task)
| CancelRun
| ServerShutdown.
#[global] Instance effect_eq_dec : EqDecision effect.
Proof. solve_decision. Defined.

(** What the other goroutines report. *)
Inductive event :=
| Signal
| ServerDone (e : option error)
| ConsumerDone (e : option error).

(** The trace so far and the deferred calls, the last one first. *)
Record frame := mkFrame { fr_trace : list effect; fr_defers : list effect }.

Inductive progress (A : Type) := Continue (a : A) | Return (r : res unit) | Blocked.
Arguments Continue {A}.
Arguments Return {A}.
Arguments Blocked {A}.

Definition app (A : Type) : Type := frame -> progress A * frame.
#[global] Instance app_ret : MRet app := fun A a f => (Continue a, f).
#[global] Instance app_bind : MBind app := fun A B k m f =>
  match m f with
  | (Continue a, f) => k a f
  | (Return r, f) => (Return r, f)
  | (Blocked, f) => (Blocked, f)
  end.

Definition emit (l : list effect) : app unit := fun f => (Continue tt, mkFrame (fr_trace f ++ l) (fr_defers f)).
Definition defer (l : list effect) : app unit := fun f => (Continue tt, mkFrame (fr_trace f) (l ++ fr_defers f)).
Definition return_ {A} (r : res unit) : app A := fun f => (Return r, f).
(** [x, err := ...; if err != nil { return wrap(err) }]. *)
Definition check {A} (wrap : error -> error) (r : res A) : app A :=
  match r with Ok a => mret a | Err e => return_ (Err (wrap e)) end.
(** A resource that is closed when the function returns. *)
Definition open (r : resource) : app unit := emit [Acquire r];; defer [Release r].
(** A constructor that may fail, with what it opened and closed itself, and the
    deferred calls that close what it returns. *)
Definition construct {A} (wrap : error -> error) (c : res A * list effect) (closes : list effect) : app A :=
  emit c.2;;
  a ← check wrap c.1;
  defer closes;;
  mret a.
(** A constructor that opens a resource with its last call. *)
Definition creates {A} (r : resource) (result : res A) : res A * list effect :=
  (result, if is_ok result then [Acquire r] else []).
Definition when {A} (b : bool) (m : app A) : app unit := if b then (m;; mret tt) else mret tt.
(** Waiting for something that does not come. *)
Definition wait {A} (found : option A) : app A := match found with Some a => mret a | None => fun f => (Blocked, f) end.

(** The whole function: deferred calls run when it returns. *)
Definition run_app (m : app (res unit)) : option (res unit) * list effect :=
  match m (mkFrame [] []) with
  | (Continue r, f) => (Some r, fr_trace f ++ fr_defers f)
  | (Return r, f) => (Some r, fr_trace f ++ fr_defers f)
  | (Blocked, f) => (None, fr_trace f)
  end.

(** ** Shared parts *)

(** tracing.Init: the configuration, the exporter and the resource, and what shutting
    the provider down returns. *)
Record tracing_env := mkTracing { tr_config : res TracingConfig; tr_exporter : res unit; tr_resource : res unit; tr_shutdown : res unit }.

(** Whether there is a provider to shut down, and what was opened on the way. *)
Definition Init (e : tracing_env) : res bool * list effect :=
  match tr_config e with
  | Err err => (Err err, [])
  | Ok config =>
    if bool_decide (tc_Endpoint config = "") then (Ok false, [])
    else match tr_exporter e with
         | Err err => (Err (wrapf "create OTLP trace exporter" err), [])
         | Ok _ =>
           match tr_resource e with
           | Err err => (Err (wrapf "create OpenTelemetry resource" err), [Acquire Exporter])
           | Ok _ => (Ok true, [Acquire Exporter])
           end
         end
  end.

Definition Shutdown (provider : bool) (shutdown : res unit) : res unit * list effect :=
  if provider then (map_err (wrapf "shutdown OpenTelemetry tracer provider") shutdown, [Release Exporter]) else (Ok tt, []).

Definition start_tracing (wrap : error -> error) (e : tracing_env) : app unit :=
  let '(result, effects) := Init e in
  emit effects;;
  provider ← check wrap result;
  defer (Shutdown provider (tr_shutdown e)).2.

(** postgres.NewPool: the pool is closed again when it cannot be reached. *)
Record pool_env := mkPool { pl_parse : res unit; pl_connect : res unit; pl_ping : res unit }.

Definition NewPool (e : pool_env) : res unit * list effect :=
  match pl_parse e, pl_connect e with
  | Err err, _ => (Err err, [])
  | Ok _, Err err => (Err err, [])
  | Ok _, Ok _ => match pl_ping e with Err err => (Err err, [Acquire Pool; Release Pool]) | Ok _ => (Ok tt, [Acquire Pool]) end
  end.

Definition connect_pool (context_text : string) (e : pool_env) : app unit :=
  construct (wrapf context_text) (NewPool e) [Release Pool].

(** The rest of New of the analytics consumer: the Kafka client is created and has to
    reach a broker, or it is closed again. *)
Record kafka_env := mkKafka { kf_client : Analytics.consumer_config -> res unit; kf_ping : res unit }.

Definition New_event_consumer (e : kafka_env) (config : Analytics.consumer_config) : res Analytics.consumer_config * list effect :=
  match Analytics.New_consumer config with
  | Err err => (Err err, [])
  | Ok config =>
    match kf_client e config with
    | Err err => (Err (wrapf "create Kafka analytics consumer" err), [])
    | Ok _ =>
      match kf_ping e with
      | Err err => (Err (wrapf "ping Kafka analytics broker" err), [Acquire EventConsumer; Release EventConsumer])
      | Ok _ => (Ok config, [Acquire EventConsumer])
      end
    end
  end.

(** Close of the access-event producer: what is buffered is flushed, and the client is
    closed whether that succeeds or not. *)
Definition Close_producer (flush : res unit) : res unit * list effect :=
  (map_err (wrapf "flush kafka producer") flush, [Release Producer]).

(** Close of the limiter and of the analytics consumer: nothing without a client. *)
Definition Close_limiter (client : bool) (close : res unit) : res unit * list effect :=
  if client then (close, [Release Redis]) else (Ok tt, []).
Definition Close_event_consumer (client : bool) : list effect := if client then [Release EventConsumer] else [].

(** What the constructors of the RabbitMQ publisher and consumer open: the connection
    is closed when it gives no channel, and both are closed after a later failure. *)
Definition connect_effects (e : Topology.connect_env) (result : res unit) : list effect :=
  match Topology.cn_dial e, Topology.cn_channel e, result with
  | Some _, _, _ => []
  | None, Some _, _ => [Acquire JobConnection; Release JobConnection]
  | None, None, Err _ => [Acquire JobConnection; Acquire JobChannel; Release JobChannel; Release JobConnection]
  | None, None, Ok _ => [Acquire JobConnection; Acquire JobChannel]
  end.
Definition connect_rabbitmq (context_text : string) (e : Topology.connect_env) (new : res unit * Topology.broker) : app unit :=
  construct (wrapf context_text) (new.1, connect_effects e new.1) [Release JobChannel; Release JobConnection].

(** The first event a wait selects. *)
Fixpoint first {A} (select : event -> option A) (events : list event) : option A :=
  match events with
  | [] => None
  | ev :: events => match select ev with Some a => Some a | None => first select events end
  end.

Definition is_signal (ev : event) : option unit := match ev with Signal => Some tt | _ => None end.
Definition server_or_signal (ev : event) : option (option (option error)) :=
  match ev with Signal => Some None | ServerDone e => Some (Some e) | ConsumerDone _ => None end.

(** The end of the services that only wait for a signal. *)
Definition serve_until_signal (events : list event) (shutdown : res unit) : app (res unit) :=
  emit [Go ServeHTTPTask];;
  wait (first is_signal events);;
  emit [ServerShutdown];;
  mret shutdown.

(** The end of the services that also return when the server fails. *)
Definition serve_until_done (serve_text shutdown_text : string) (events : list event) (shutdown : res unit) : app (res unit) :=
  emit [Go ServeHTTPTask];;
  why ← wait (first server_or_signal events);
  match why with
  | Some (Some e) => return_ (Err (wrapf serve_text e))
  | Some None => return_ (Ok tt)
  | None => emit [ServerShutdown];; mret (map_err (wrapf shutdown_text) shutdown)
  end.

(** The end of the two services with a consumer: [runErr] is set by whichever
    goroutine reports first, and the server is shut down in any case. *)
Definition run_error (consume_text serve_text : string) (ev : event) : res unit :=
  match ev with
  | ConsumerDone (Some e) => Err (wrapf consume_text e)
  | ServerDone (Some e) => Err (wrapf serve_text e)
  | _ => Ok tt
  end.
Definition consume_and_serve (consume_text serve_text shutdown_text : string) (events : list event) (shutdown : res unit)
    : app (res unit) :=
  emit [Go ConsumeTask; Go ServeHTTPTask];;
  ev ← wait (head events);
  let runErr := run_error consume_text serve_text ev in
  emit [CancelRun; ServerShutdown];;
  mret (match runErr with Err e => Err e | Ok _ => map_err (wrapf shutdown_text) shutdown end).

(** ** The services *)

Section services.
Context `{NetURL}.

(** *** Gateway *)

(** os.ReadFile, yaml.Unmarshal, redis.ParseURL, kgo.NewClient, and the results of
    closing the Redis client and of flushing the Kafka client. *)
Record gateway_env := mkGatewayEnv {
  ge_tracing : tracing_env;
  ge_config : res gateway_config;
  ge_readFile : string -> res string;
  ge_unmarshal : string -> res YamlConfig;
  ge_parseURL : string -> res unit;
  ge_newClient : producer_config -> res unit;
  ge_closeRedis : res unit;
  ge_flush : res unit;
  ge_events : list event;
  ge_shutdown : res unit
}.

Definition producer_config_of (c : gateway_config) : producer_config :=
  mkProducerConfig (gc_KafkaBrokers c) (gc_KafkaAccessTopic c) (gc_KafkaClientID c) 0 0.

Definition Run_gateway (e : gateway_env) : app (res unit) :=
  open Signals;;
  start_tracing id (ge_tracing e);;
  config ← check id (ge_config e);
  check id (Load_yaml (ge_readFile e (gc_ConfigPath config)) (ge_unmarshal e));;
  when (bool_decide (gc_ControlPlaneURL config <> "")) (check id (New_client (gc_ControlPlaneURL config)));;
  when (bool_decide (gc_AuthServiceURL config <> "")) (check id (New_auth_client (gc_AuthServiceURL config)));;
  when (bool_decide (gc_RedisURL config <> ""))
    (construct id (creates Redis (New_limiter (ge_parseURL e) (gc_RedisURL config) (gc_RedisRateLimitPrefix config)))
       (Close_limiter true (ge_closeRedis e)).2);;
  when (bool_decide (gc_KafkaBrokers config <> []))
    (construct id (creates Producer (New_producer (ge_newClient e) (producer_config_of config) false)) (Close_producer (ge_flush e)).2);;
  when (bool_decide (gc_ControlPlaneURL config <> "")) (emit [Go RefreshRoutesTask]);;
  serve_until_signal (ge_events e) (ge_shutdown e).

(** *** Auth *)

Record auth_env := mkAuthEnv {
  ae_config : res Security.Config; ae_tracing : tracing_env; ae_pool : pool_env;
  ae_events : list event; ae_shutdown : res unit
}.

Definition token_config_of (c : Security.Config) : Security.TokenServiceConfig :=
  Security.mkTSConfig (Security.cf_JWTSecret c) (Security.cf_JWTIssuer c) (Security.cf_JWTAudience c)
    (Security.cf_AccessTokenTTL c) (Security.cf_RefreshTokenSize c).

Definition Run_auth (e : auth_env) : app (res unit) :=
  config ← check (wrapf "load auth config") (ae_config e);
  open Signals;;
  start_tracing (wrapf "initialize auth tracing") (ae_tracing e);;
  connect_pool "connect to postgres" (ae_pool e);;
  check (wrapf "create password hasher") (Security.NewPasswordHasher (Security.cf_BcryptCost config));;
  check (wrapf "create token service") (Security.NewTokenService (token_config_of config));;
  serve_until_done "serve auth http" "shutdown auth http server" (ae_events e) (ae_shutdown e).

(** *** Control plane *)

(** [ce_broker] is what RabbitMQ has declared before. *)
Record controlplane_env := mkControlPlaneEnv {
  ce_tracing : tracing_env; ce_pool : pool_env; ce_jobs_config : res Jobs.Config;
  ce_connect : Topology.connect_env; ce_broker : Topology.broker;
  ce_events : list event; ce_shutdown : res unit
}.

Definition new_job_publisher (e : controlplane_env) (config : Jobs.Config) : res unit * Topology.broker :=
  Topology.New_publisher (ce_connect e) (Jobs.cf_Exchange config) (Jobs.cf_Queue config) (ce_broker e).

Definition Run_controlplane (e : controlplane_env) : app (res unit) :=
  open Signals;;
  start_tracing (wrapf "initialize control plane tracing") (ce_tracing e);;
  connect_pool "connect to postgres" (ce_pool e);;
  config ← check (wrapf "load jobs config") (ce_jobs_config e);
  connect_rabbitmq "create jobs publisher" (ce_connect e) (new_job_publisher e config);;
  serve_until_done "serve control plane http" "shutdown control plane http server" (ce_events e) (ce_shutdown e).

(** The address its server listens on. *)
Definition defaultHTTPAddr : string := ":8082".
Definition httpAddr (getenv : string -> string) : string :=
  let addr := getenv "CONTROL_PLANE_HTTP_ADDR" in if bool_decide (addr = "") then defaultHTTPAddr else addr.

(** *** Analytics *)

Record analytics_env := mkAnalyticsEnv {
  ne_config : res Analytics.Config; ne_tracing : tracing_env; ne_pool : pool_env; ne_kafka : kafka_env;
  ne_events : list event; ne_shutdown : res unit
}.

Definition Run_analytics (e : analytics_env) : app (res unit) :=
  config ← check (wrapf "load analytics config") (ne_config e);
  open Signals;;
  open RunContext;;
  start_tracing (wrapf "initialize analytics tracing") (ne_tracing e);;
  connect_pool "connect analytics service to postgres" (ne_pool e);;
  construct (wrapf "create analytics Kafka consumer") (New_event_consumer (ne_kafka e) (Analytics.consumer_config_of config))
    (Close_event_consumer true);;
  consume_and_serve "run analytics Kafka consumer" "serve analytics HTTP" "shutdown analytics HTTP server"
    (ne_events e) (ne_shutdown e).

(** *** Notification worker *)

(** [we_installs] are the rounds of installPolicy: what each exchange with the
    management API meets, and whether the context is done before the next tick. *)
Record worker_env := mkWorkerEnv {
  we_tracing : tracing_env; we_config : res WorkerSetup.Config; we_pool : pool_env;
  we_connect : Topology.connect_env; we_broker : Topology.broker;
  we_installs : list (WorkerSetup.install_env * option error);
  we_events : list event; we_shutdown : res unit
}.

Definition job_consumer_config (c : WorkerSetup.Config) : Topology.ConsumerConfig :=
  Topology.mkConsumerConfig (WorkerSetup.wc_Exchange c) (WorkerSetup.wc_Queue c) (WorkerSetup.wc_DeadExchange c)
    (WorkerSetup.wc_DeadQueue c) (WorkerSetup.wc_Prefetch c) (WorkerSetup.wc_ProcessTimeout c).
Definition new_job_consumer (e : worker_env) (config : WorkerSetup.Config) : res unit * Topology.broker :=
  Topology.NewConsumer (we_connect e) (job_consumer_config config) (we_broker e).
Definition install_rounds (e : worker_env) (config : WorkerSetup.Config) : option (res unit) :=
  WorkerSetup.installPolicy
    ((fun '(i, done) => (WorkerSetup.Install i (WorkerSetup.policy_config_of config), done)) <$> we_installs e).

Definition Run_worker (e : worker_env) : app (res unit) :=
  open Signals;;
  open RunContext;;
  start_tracing (wrapf "initialize notification worker tracing") (we_tracing e);;
  config ← check (wrapf "load notification worker config") (we_config e);
  connect_pool "connect notification worker to postgres" (we_pool e);;
  connect_rabbitmq "create RabbitMQ job consumer" (we_connect e) (new_job_consumer e config);;
  installed ← wait (install_rounds e config);
  check id installed;;
  consume_and_serve "run notification worker" "serve notification worker observability HTTP"
    "shutdown notification worker observability HTTP" (we_events e) (we_shutdown e).

(** *** Demo backend *)

Record demo_env := mkDemoEnv { de_tracing : tracing_env; de_events : list event; de_shutdown : res unit }.

Definition Run_demo (e : demo_env) : app (res unit) :=
  open Signals;;
  start_tracing id (de_tracing e);;
  serve_until_signal (de_events e) (de_shutdown e).

Inductive service :=
| Gateway_ (e : gateway_env) | Auth_ (e : auth_env) | ControlPlane_ (e : controlplane_env)
| Analytics_ (e : analytics_env) | Worker_ (e : worker_env) | Demo_ (e : demo_env).

Definition Run (s : service) : app (res unit) :=
  match s with
  | Gateway_ e => Run_gateway e | Auth_ e => Run_auth e | ControlPlane_ e => Run_controlplane e
  | Analytics_ e => Run_analytics e | Worker_ e => Run_worker e | Demo_ e => Run_demo e
  end.
Definition tracing_of (s : service) : tracing_env :=
  match s with
  | Gateway_ e => ge_tracing e | Auth_ e => ae_tracing e | ControlPlane_ e => ce_tracing e
  | Analytics_ e => ne_tracing e | Worker_ e => we_tracing e | Demo_ e => de_tracing e
  end.
Definition events_of (s : service) : list event :=
  match s with
  | Gateway_ e => ge_events e | Auth_ e => ae_events e | ControlPlane_ e => ce_events e
  | Analytics_ e => ne_events e | Worker_ e => we_events e | Demo_ e => de_events e
  end.

(** *** When a service gets to serve *)

Definition tracing_starts (e : tracing_env) : Prop := exists provider, (Init e).1 = Ok provider.
Definition pool_starts (e : pool_env) : Prop := pl_parse e = Ok tt /\ pl_connect e = Ok tt /\ pl_ping e = Ok tt.
Definition if_set (s : string) {A} (r : res A) : Prop := s <> "" -> exists a, r = Ok a.

Definition startable (s : service) : Prop :=
  tracing_starts (tracing_of s) /\
  match s with
  | Gateway_ e =>
    exists c, ge_config e = Ok c /\
      (exists y, Load_yaml (ge_readFile e (gc_ConfigPath c)) (ge_unmarshal e) = Ok y) /\
      if_set (gc_ControlPlaneURL c) (New_client (gc_ControlPlaneURL c)) /\
      if_set (gc_AuthServiceURL c) (New_auth_client (gc_AuthServiceURL c)) /\
      if_set (gc_RedisURL c) (New_limiter (ge_parseURL e) (gc_RedisURL c) (gc_RedisRateLimitPrefix c)) /\
      (gc_KafkaBrokers c <> [] -> exists p, New_producer (ge_newClient e) (producer_config_of c) false = Ok p)
  | Auth_ e =>
    pool_starts (ae_pool e) /\
    exists c, ae_config e = Ok c /\
      (exists cost, Security.NewPasswordHasher (Security.cf_BcryptCost c) = Ok cost) /\
      (exists ts, Security.NewTokenService (token_config_of c) = Ok ts)
  | ControlPlane_ e =>
    pool_starts (ce_pool e) /\ exists c, ce_jobs_config e = Ok c /\ (new_job_publisher e c).1 = Ok tt
  | Analytics_ e =>
    pool_starts (ne_pool e) /\
    exists c, ne_config e = Ok c /\
      (exists k, Analytics.New_consumer (Analytics.consumer_config_of c) = Ok k /\ kf_client (ne_kafka e) k = Ok tt) /\
      kf_ping (ne_kafka e) = Ok tt
  | Worker_ e =>
    pool_starts (we_pool e) /\
    exists c, we_config e = Ok c /\ (new_job_consumer e c).1 = Ok tt /\ install_rounds e c = Some (Ok tt)
  | Demo_ _ => True
  end.
End services.

(** ** Resources: properties *)

Definition acquired (l : list effect) : list resource := omap (fun e => match e with Acquire r => Some r | _ => None end) l.
Definition released (l : list effect) : list resource := omap (fun e => match e with Release r => Some r | _ => None end) l.

(** What is left open at the end of a trace, the last opened first; [None] when
    something is closed out of order or twice. *)
Fixpoint still_open (stack : list resource) (l : list effect) : option (list resource) :=
  match l with
  | [] => Some stack
  | Acquire r :: l => still_open (r :: stack) l
  | Release r :: l => match stack with r' :: s => if bool_decide (r = r') then still_open s l else None | [] => None end
  | _ :: l => still_open stack l
  end.

(** Whether the HTTP server is up after a trace, and whether something was closed
    while it was. *)
Definition serving_step (up : bool) (e : effect) : bool :=
  match e with Go ServeHTTPTask => true | ServerShutdown => false | _ => up end.
Definition serving (up : bool) (l : list effect) : bool := foldl serving_step up l.
Fixpoint closes_while_serving (up : bool) (l : list effect) : bool :=
  match l with
  | [] => false
  | e :: l => (up && match e with Release _ => true | _ => false end) || closes_while_serving (serving_step up e) l
  end.

(** The exporter was created and then the OpenTelemetry resource was not. *)
Definition tracing_leaks (e : tracing_env) : bool :=
  match tr_config e, tr_exporter e, tr_resource e with
  | Ok c, Ok _, Err _ => bool_decide (tc_Endpoint c <> "")
  | _, _, _ => false
  end.

(** What is open at the end of a trace is [stack], and at most one exporter that is
    never closed. *)
Definition opened (leaks : bool) (l : list effect) (stack : list resource) : Prop :=
  still_open [] l = Some stack \/
  leaks = true /\ exists l1 l2, l = l1 ++ Acquire Exporter :: l2 /\ still_open [] (l1 ++ l2) = Some stack.

Definition tidy (leaks : bool) (events : list event) (l : list effect) : Prop :=
  opened leaks l [] /\
  (closes_while_serving false l = true -> exists e, ServerDone e ∈ events).

Lemma still_open_app l l' : forall stack, still_open stack (l ++ l') = still_open stack l ≫= fun s => still_open s l'.
Proof.
  induction l as [|e l IH]; intros stack; [done|]. destruct e as [r|r| | |]; cbn; try apply IH.
  destruct stack as [|r' s]; [done|]. case_bool_decide; [apply IH|done].
Qed.

Lemma still_open_release stack : still_open stack (Release <$> stack) = Some [].
Proof. induction stack as [|r s IH]; [done|]. cbn. by rw bool_decide_eq_true_2. Qed.

Lemma closes_app l l' : forall up,
  closes_while_serving up (l ++ l') = closes_while_serving up l || closes_while_serving (serving up l) l'.
Proof. induction l as [|e l IH]; intros up; [done|]. cbn. by rw IH orb_assoc. Qed.

Lemma closes_down l : Forall (fun e => e <> Go ServeHTTPTask) l -> closes_while_serving false l = false.
Proof. induction 1 as [|e l He _ IH]; [done|]. cbn. by destruct e as [| |[]| |]. Qed.

(** What holds of a frame while a service starts: the deferred calls close what is
    open, up to an exporter that leaked, and the server is not up. *)
Record starting (leaks : bool) (f : frame) : Prop := {
  st_open : exists stack, fr_defers f = Release <$> stack /\ opened leaks (fr_trace f) stack;
  st_quiet : closes_while_serving false (fr_trace f) = false;
  st_down : serving false (fr_trace f) = false;
}.

Lemma opened_release leaks l stack : opened leaks l stack -> opened leaks (l ++ (Release <$> stack)) [].
Proof.
  intros [E|(Hl & l1 & l2 & -> & E)]; [left|right; split; [done|]].
  - rw still_open_app E. apply still_open_release.
  - exists l1, (l2 ++ (Release <$> stack)). split; [by rw -app_assoc|]. rw app_assoc still_open_app E. apply still_open_release.
Qed.

Lemma starting_weaken leaks f : starting false f -> starting leaks f.
Proof. intros [(stack & ? & [?|[]]) ? ?]; [|done]. split; [exists stack|..]; try done. split; [done|by left]. Qed.

Lemma starting_stack f : starting false f -> exists stack,
  fr_defers f = Release <$> stack /\ still_open [] (fr_trace f) = Some stack.
Proof. intros [(stack & ? & [?|[]]) _ _]; [eauto|done]. Qed.

(** Effects that neither start the server nor close anything. *)
Lemma starting_emit leaks f l defers stack' :
  starting false f -> closes_while_serving false l = false -> serving false l = false ->
  defers = Release <$> stack' ->
  (forall stack, fr_defers f = Release <$> stack -> still_open [] (fr_trace f) = Some stack -> opened leaks (fr_trace f ++ l) stack') ->
  starting leaks (mkFrame (fr_trace f ++ l) defers).
Proof.
  intros Hf Hc Hs -> Ho. destruct (starting_stack f Hf) as (stack & Hd & Ht). destruct Hf as [_ Hq Hu]. split; cbn.
  - exists stack'. split; [done|]. by apply (Ho stack).
  - by rw closes_app Hq Hu.
  - unfold serving in *. by rw foldl_app Hu.
Qed.

Ltac run_step := unfold mbind, app_bind, mret, app_ret; cbn.

Section invariant.
Context (leaks : bool) (events : list event).

Definition keeps {A} (m : app A) : Prop := forall f, starting false f ->
  match m f with (Continue _, f') => starting false f' | (Return _, f') => starting leaks f' | (Blocked, _) => True end.

Definition ends (m : app (res unit)) : Prop := forall f, starting false f ->
  match m f with
  | (Continue _, f') => tidy leaks events (fr_trace f' ++ fr_defers f')
  | (Return _, f') => tidy leaks events (fr_trace f' ++ fr_defers f')
  | (Blocked, _) => True
  end.

Lemma starting_tidy f : starting leaks f -> tidy leaks events (fr_trace f ++ fr_defers f).
Proof.
  intros [(stack & -> & Ho) Hq Hd]. split; [by apply opened_release|]. rw closes_app Hq Hd. cbn.
  rw closes_down; [|done]. apply Forall_fmap, Forall_forall. done.
Qed.

Lemma keeps_bind {A B} (m : app A) (k : A -> app B) : keeps m -> (forall a, keeps (k a)) -> keeps (m ≫= k).
Proof.
  intros Hm Hk f Hf. unfold mbind, app_bind. specialize (Hm f Hf). destruct (m f) as [[a|r|] f']; [by apply Hk|done..].
Qed.
Lemma ends_bind {A} (m : app A) (k : A -> app (res unit)) : keeps m -> (forall a, ends (k a)) -> ends (m ≫= k).
Proof.
  intros Hm Hk f Hf. unfold mbind, app_bind. specialize (Hm f Hf).
  destruct (m f) as [[a|r|] f']; [by apply Hk|by apply starting_tidy|done].
Qed.
Lemma keeps_ret {A} (a : A) : keeps (mret a).
Proof. by intros f Hf. Qed.
Lemma keeps_check {A} wrap (r : res A) : keeps (check wrap r).
Proof. intros f Hf. destruct r; [done|]. by apply starting_weaken. Qed.
Lemma keeps_wait {A} (o : option A) : keeps (wait o).
Proof. by intros f Hf; destruct o. Qed.
Lemma keeps_when {A} b (m : app A) : keeps m -> keeps (when b m).
Proof. intros Hm. destruct b; [|apply keeps_ret]. apply keeps_bind; [done|]. intros _. apply keeps_ret. Qed.

Lemma keeps_open r : keeps (open r).
Proof.
  intros f Hf. cbn. destruct (starting_stack f Hf) as (stack & Hd & Ht). apply (starting_emit false f _ _ (r :: stack)); try done.
  - by rw Hd.
  - intros s Hs Hts. left. rw still_open_app Hts. simplify_eq. done.
Qed.
(** The contract of a constructor: it leaves what it returns open, and nothing when it
    fails. *)
Definition constructor_ok {A} (c : res A * list effect) (rs : list resource) : Prop :=
  (Go ServeHTTPTask ∉ c.2) /\
  forall stack, still_open stack c.2 = Some (if is_ok c.1 then rs ++ stack else stack).

Lemma keeps_construct {A} wrap (c : res A * list effect) rs :
  constructor_ok c rs -> keeps (construct wrap c (Release <$> rs)).
Proof.
  intros [Hq Ho] f Hf. destruct (starting_stack f Hf) as (stack & Hd & Ht).
  assert (Hl : Forall (fun e => e <> Go ServeHTTPTask) c.2) by (apply Forall_forall; by intros e He ->).
  assert (Hs : serving false c.2 = false).
  { unfold serving. clear -Hl. induction Hl as [|e l He _ IH]; [done|]. cbn. by destruct e as [| |[]| |]. }
  apply closes_down in Hl. specialize (Ho stack). destruct c as [[a|err] l]; cbn in *.
  - apply (starting_emit false f _ _ (rs ++ stack)); [done..|by rw Hd fmap_app|].
    intros s Hs' Hts. left. rw still_open_app Ht. cbn. done.
  - apply starting_weaken, (starting_emit false f _ _ stack); [done..|]. intros s Hs' Hts. left. by rw still_open_app Ht.
Qed.

Lemma creates_ok {A} r (result : res A) : constructor_ok (creates r result) [r].
Proof. split; [|by destruct result]. destruct result; cbn; set_solver. Qed.
Lemma NewPool_ok e : constructor_ok (NewPool e) [Pool].
Proof. unfold NewPool. destruct (pl_parse e), (pl_connect e); try (by split; [set_solver|]). destruct (pl_ping e); by split; [set_solver|]. Qed.
Lemma New_event_consumer_ok e config : constructor_ok (New_event_consumer e config) [EventConsumer].
Proof.
  unfold New_event_consumer. destruct (Analytics.New_consumer config) as [k|]; [|by split; [set_solver|]].
  destruct (kf_client e k); [|by split; [set_solver|]]. destruct (kf_ping e); by split; [set_solver|].
Qed.

(** A constructor that succeeds has a connection and a channel. *)
Lemma connect_Ok_env e topology last b :
  (Topology.connect e topology last b).1 = Ok tt -> Topology.cn_dial e = None /\ Topology.cn_channel e = None.
Proof. unfold Topology.connect. by destruct (Topology.cn_dial e), (Topology.cn_channel e). Qed.
Lemma connect_ok e topology last b :
  let r := (Topology.connect e topology last b).1 in constructor_ok (r, connect_effects e r) [JobChannel; JobConnection].
Proof.
  cbn. destruct (Topology.connect e topology last b).1 as [[]|err] eqn:E; unfold connect_effects.
  - apply connect_Ok_env in E as [-> ->]. split; [set_solver|done].
  - destruct (Topology.cn_dial e), (Topology.cn_channel e); split; (set_solver || done).
Qed.

Lemma keeps_refresh : keeps (emit [Go RefreshRoutesTask]).
Proof.
  intros f Hf. cbn. destruct (starting_stack f Hf) as (stack & Hd & Ht). apply (starting_emit false f _ _ stack); try done.
  intros s Hs Hts. left. rw still_open_app Hts. simplify_eq. done.
Qed.

Lemma keeps_pool text e : keeps (connect_pool text e).
Proof. apply (keeps_construct _ _ [Pool]), NewPool_ok. Qed.
Lemma keeps_rabbitmq text e topology last b : keeps (connect_rabbitmq text e (Topology.connect e topology last b)).
Proof. apply (keeps_construct _ _ [JobChannel; JobConnection]), connect_ok. Qed.
Lemma keeps_create {A} wrap r (result : res A) : keeps (construct wrap (creates r result) [Release r]).
Proof. apply (keeps_construct _ _ [r]), creates_ok. Qed.
Lemma keeps_event_consumer wrap e config : keeps (construct wrap (New_event_consumer e config) [Release EventConsumer]).
Proof. apply (keeps_construct _ _ [EventConsumer]), New_event_consumer_ok. Qed.

Lemma keeps_tracing wrap e : (tracing_leaks e = true -> leaks = true) -> keeps (start_tracing wrap e).
Proof.
  intros Hl f Hf. destruct (starting_stack f Hf) as (stack & Hd & Ht). unfold start_tracing, Init. unfold tracing_leaks in Hl.
  destruct (tr_config e) as [c|err]; cycle 1.
  { cbn. apply starting_weaken. rw app_nil_r. by destruct f. }
  destruct (decide (tc_Endpoint c = "")) as [Hc|Hc].
  { rw (bool_decide_eq_true_2 (tc_Endpoint c = "")) //. run_step. rw app_nil_r. by destruct f. }
  rw (bool_decide_eq_false_2 (tc_Endpoint c = "")) //.
  destruct (tr_exporter e) as [|err]; cycle 1.
  { cbn. apply starting_weaken. rw app_nil_r. by destruct f. }
  destruct (tr_resource e) as [|err]; cbn.
  - apply (starting_emit false f _ _ (Exporter :: stack)); [done..|by rw Hd|].
    intros s Hs Hts. left. rw still_open_app Hts. simplify_eq. done.
  - apply (starting_emit leaks f _ _ stack); try done. intros s Hs Hts. right.
    split; [by apply Hl, bool_decide_eq_true_2|]. exists (fr_trace f), []. split; [done|]. rw app_nil_r. by simplify_eq.
Qed.

(** The last phases: the server is started, and everything is closed after it was
    shut down or has failed. *)
Lemma served_tidy f l :
  starting false f -> acquired l = [] -> released l = [] ->
  serving true l = false \/ (exists e, ServerDone e ∈ events) ->
  tidy leaks events ((fr_trace f ++ Go ServeHTTPTask :: l) ++ fr_defers f).
Proof.
  intros Hf Ha Hr Hs. destruct (starting_stack f Hf) as (stack & Hd & Ht). destruct Hf as [_ Hq Hu].
  assert (Ho : forall s, still_open s l = Some s).
  { clear -Ha Hr. induction l as [|[r|r| | |] l IH]; intros s; cbn in *; done || by apply IH. }
  assert (Hc : forall up, closes_while_serving up l = false).
  { clear -Hr. induction l as [|[r|r| | |] l IH]; intros up; cbn in *; rw ?andb_false_r; done || by apply IH. }
  rw Hd. split.
  - left. rw !still_open_app Ht. cbn. rw Ho. apply still_open_release.
  - destruct Hs as [Hs|]; [|done]. rw -app_assoc closes_app Hq Hu. cbn. rw closes_app Hc. cbn.
    fold (serving true l). rw Hs closes_down; [|done]. apply Forall_fmap, Forall_forall. done.
Qed.

Lemma ends_signal shutdown : ends (serve_until_signal events shutdown).
Proof.
  intros f Hf. unfold serve_until_signal. destruct (first is_signal events); [|done]. run_step. rw -(app_assoc (fr_trace f)).
  apply served_tidy; [done..|by left].
Qed.

Lemma first_server o : first server_or_signal events = Some (Some o) -> ServerDone o ∈ events.
Proof.
  induction events as [|ev l IH]; [done|]. cbn. destruct ev as [|e|e]; cbn.
  - done.
  - intros [= <-]. apply list_elem_of_here.
  - intros H. by apply list_elem_of_further, IH.
Qed.

Lemma ends_done serve_text shutdown_text shutdown : ends (serve_until_done serve_text shutdown_text events shutdown).
Proof.
  intros f Hf. unfold serve_until_done. destruct (first server_or_signal events) as [[[e|]|]|] eqn:E; run_step; [..|done].
  1,2: apply first_server in E; apply served_tidy; [done..|right; by eexists].
  rw -(app_assoc (fr_trace f)). apply served_tidy; [done..|by left].
Qed.

Lemma ends_consume consume_text serve_text shutdown_text shutdown :
  ends (consume_and_serve consume_text serve_text shutdown_text events shutdown).
Proof.
  intros f Hf. unfold consume_and_serve. destruct (head events) as [ev|]; [|done]. run_step. rw -(app_assoc (fr_trace f)). cbn.
  change (fr_trace f ++ [Go ConsumeTask; Go ServeHTTPTask; CancelRun; ServerShutdown])
    with (fr_trace f ++ [Go ConsumeTask] ++ Go ServeHTTPTask :: [CancelRun; ServerShutdown]). rw app_assoc.
  apply (served_tidy (mkFrame (fr_trace f ++ [Go ConsumeTask]) (fr_defers f))); [|done..|by left].
  destruct (starting_stack f Hf) as (stack & Hd & Ht). apply (starting_emit false f _ _ stack); try done.
  intros s Hs Hts. left. rw still_open_app Hts. simplify_eq. done.
Qed.
End invariant.

Create HintDb services.
#[export] Hint Resolve keeps_check keeps_wait keeps_when keeps_open keeps_create keeps_refresh keeps_pool keeps_rabbitmq keeps_event_consumer keeps_tracing : services.
(** One statement of a [Run], or its last phase. *)
Ltac service_step :=
  first [apply ends_signal | apply ends_done | apply ends_consume | apply ends_bind; [by auto with services|intros ?]].

Lemma starting_empty : starting false (mkFrame [] []).
Proof. split; [exists []; by repeat constructor|done..]. Qed.

(** ** Start: properties *)

(** The server is not started by what is done or deferred so far. *)
Definition quiet (f : frame) : Prop := Go ServeHTTPTask ∉ fr_trace f ++ fr_defers f.

(** A statement that goes on exactly with the values of [Q], and otherwise returns an
    error or waits for ever. *)
Definition passes {A} (m : app A) (Q : A -> Prop) : Prop := forall f, quiet f ->
  let '(o, f') := m f in
  quiet f' /\
  match o with
  | Continue a => Q a /\ forall a', Q a' -> a' = a
  | Return r => (forall a, ~ Q a) /\ is_ok r = false
  | Blocked => forall a, ~ Q a
  end.

(** A function that starts the server exactly when [S] holds, and otherwise returns an
    error or waits for ever. *)
Definition launches (m : app (res unit)) (S : Prop) : Prop := forall f, quiet f ->
  let '(o, f') := m f in
  (Go ServeHTTPTask ∈ fr_trace f' ++ fr_defers f' <-> S) /\
  (S \/ match o with Continue r => is_ok r = false | Return r => is_ok r = false | Blocked => True end).

Lemma quiet_extend f l defers :
  quiet f -> Go ServeHTTPTask ∉ l -> Go ServeHTTPTask ∉ defers -> quiet (mkFrame (fr_trace f ++ l) (defers ++ fr_defers f)).
Proof. unfold quiet. cbn. set_solver. Qed.

Lemma release_quiet (rs : list resource) : Go ServeHTTPTask ∉ Release <$> rs.
Proof. rw list_elem_of_fmap. by intros (r & ? & _). Qed.

Lemma launches_bind {A} (m : app A) (k : A -> app (res unit)) Q S :
  passes m Q -> (forall a, launches (k a) (S a)) -> launches (m ≫= k) (exists a, Q a /\ S a).
Proof.
  intros Hm Hk f Hf. unfold mbind, app_bind. specialize (Hm f Hf). destruct (m f) as [[a|r|] f'].
  - destruct Hm as (Hq & Ha & Hu). specialize (Hk a f' Hq). destruct (k a f') as [o f'']. destruct Hk as [Hi Hn]. split.
    + rw Hi. split; [by exists a|]. intros (a' & H1 & H2). by rw -(Hu a' H1).
    + destruct Hn; [left; by exists a|by right].
  - destruct Hm as (Hq & Hn & Hr). split; [split; [done|]|by right]. intros (a & Ha & _). by destruct (Hn a).
  - destruct Hm as (Hq & Hn). split; [split; [done|]|by right]. intros (a & Ha & _). by destruct (Hn a).
Qed.
Lemma launches_iff m S S' : launches m S -> (S <-> S') -> launches m S'.
Proof. intros Hm HS f Hf. specialize (Hm f Hf). destruct (m f). destruct Hm as [Hi Hn]. split; [by rw Hi|]. destruct Hn; [left; tauto|by right]. Qed.

Lemma passes_iff {A} (m : app A) Q Q' : passes m Q -> (forall a, Q a <-> Q' a) -> passes m Q'.
Proof. intros Hm HQ f Hf. specialize (Hm f Hf). destruct (m f) as [[] f']; repeat setoid_rewrite <- HQ; done. Qed.

Lemma passes_emit l : Go ServeHTTPTask ∉ l -> passes (emit l) (fun _ => True).
Proof.
  intros Hl f Hf. cbn. split; [by apply (quiet_extend f l []); [..|set_solver]|]. split; [done|]. by intros [].
Qed.
Lemma passes_open r : passes (open r) (fun _ => True).
Proof. intros f Hf. cbn. split; [apply (quiet_extend f _ [Release r]); [done|set_solver..]|]. split; [done|]. by intros []. Qed.
Lemma passes_check {A} wrap (r : res A) : passes (check wrap r) (fun a => r = Ok a).
Proof. intros f Hf. destruct r; cbn; naive_solver. Qed.
Lemma passes_wait {A} (o : option A) : passes (wait o) (fun a => o = Some a).
Proof. intros f Hf. destruct o; cbn; naive_solver. Qed.
Lemma passes_construct {A} wrap (c : res A * list effect) rs :
  constructor_ok c rs -> passes (construct wrap c (Release <$> rs)) (fun a => c.1 = Ok a).
Proof.
  intros [Hq _] f Hf. destruct c as [[a|err] l]; cbn in *.
  - split; [apply (quiet_extend f l (Release <$> rs)); [done..|apply release_quiet]|naive_solver].
  - split; [by apply (quiet_extend f l []); [..|set_solver]|naive_solver].
Qed.
Lemma passes_when {A} b (m : app A) Q : passes m Q -> passes (when b m) (fun _ => b = true -> exists a, Q a).
Proof.
  intros Hm f Hf. destruct b; cbn; [|split; [done|]; split; [done|by intros []]].
  unfold mbind, app_bind. specialize (Hm f Hf). destruct (m f) as [[a|r|] f']; cbn.
  - destruct Hm as (Hq & Ha & _). split; [done|]. split; [by exists a|by intros []].
  - destruct Hm as (Hq & Hn & Hr). split; [done|]. split; [|done]. intros _ Hx. destruct (Hx eq_refl) as [a Ha]. by destruct (Hn a).
  - destruct Hm as (Hq & Hn). split; [done|]. intros _ Hx. destruct (Hx eq_refl) as [a Ha]. by destruct (Hn a).
Qed.
Lemma passes_tracing wrap e : passes (start_tracing wrap e) (fun _ => tracing_starts e).
Proof.
  intros f Hf. unfold start_tracing, tracing_starts.
  assert (Hl : Go ServeHTTPTask ∉ (Init e).2).
  { unfold Init. destruct (tr_config e); [|set_solver]. case_bool_decide; [set_solver|].
    destruct (tr_exporter e), (tr_resource e); set_solver. }
  destruct (Init e) as [[provider|err] l]; cbn in *.
  - split; [apply (quiet_extend f l); [done..|destruct provider; set_solver]|]. split; [by eexists|by intros []].
  - split; [by apply (quiet_extend f l []); [..|set_solver]|]. split; [|done]. by intros _ [].
Qed.

Lemma launches_signal events shutdown : launches (serve_until_signal events shutdown) True.
Proof. intros f Hf. unfold serve_until_signal. destruct (first is_signal events); run_step; (split; [set_solver|by left]). Qed.
Lemma launches_done t1 t2 events shutdown : launches (serve_until_done t1 t2 events shutdown) True.
Proof.
  intros f Hf. unfold serve_until_done. destruct (first server_or_signal events) as [[[e|]|]|]; run_step; (split; [set_solver|by left]).
Qed.
Lemma launches_consume t1 t2 t3 events shutdown : launches (consume_and_serve t1 t2 t3 events shutdown) True.
Proof. intros f Hf. unfold consume_and_serve. destruct (head events); run_step; (split; [set_solver|by left]). Qed.

(** The shared constructors. *)
Lemma NewPool_starts e a : (NewPool e).1 = Ok a <-> pool_starts e.
Proof.
  unfold NewPool, pool_starts. destruct a. destruct (pl_parse e) as [[]|], (pl_connect e) as [[]|]; cbn; try naive_solver.
  destruct (pl_ping e) as [[]|]; naive_solver.
Qed.
Lemma passes_pool text e : passes (connect_pool text e) (fun _ => pool_starts e).
Proof.
  eapply passes_iff; [apply (passes_construct (wrapf text) _ [Pool]), NewPool_ok|]. apply NewPool_starts.
Qed.
Lemma New_event_consumer_starts e config k :
  (New_event_consumer e config).1 = Ok k <->
  Analytics.New_consumer config = Ok k /\ kf_client e k = Ok tt /\ kf_ping e = Ok tt.
Proof.
  unfold New_event_consumer. destruct (Analytics.New_consumer config) as [k'|]; cbn; [|naive_solver].
  destruct (kf_client e k') as [[]|err] eqn:E; cbn.
  - destruct (kf_ping e) as [[]|]; cbn; naive_solver.
  - split; [done|]. intros ([= ->] & Hk & _). congruence.
Qed.

(** The statements of a service one by one, and then its last phase. *)
Ltac launch_step :=
  first [apply launches_signal | apply launches_done | apply launches_consume
        | eapply launches_bind;
          [first [apply passes_open | apply passes_tracing | apply passes_pool | apply passes_check | apply passes_wait
                 | apply (passes_construct _ _ [JobChannel; JobConnection]), connect_ok
                 | apply (passes_construct _ _ [EventConsumer]), New_event_consumer_ok
                 | apply passes_when; first [apply passes_check | by apply passes_emit; set_solver
                                            | apply (passes_construct _ _ [_]), creates_ok]]
          |intros ?; launch_step]].

Lemma exists_unit (P : Prop) : (exists _ : unit, P) <-> P.
Proof. split; [by intros [_ ?]|by exists tt]. Qed.
Lemma set_branch `{Decision P} (Q : Prop) : (bool_decide P = true -> Q) <-> (P -> Q).
Proof. by rw bool_decide_eq_true. Qed.

(** Two nestings of the same conditions. *)
Ltac reshape :=
  split; intros;
  repeat match goal with
         | H : _ /\ _ |- _ => destruct H
         | H : exists _, _ |- _ => destruct H
         | u : unit |- _ => destruct u
         end; simplify_eq;
  repeat first [eassumption | reflexivity | exact I | split | eexists].

Section launch.
Context `{NetURL}.

Lemma launches_Run (s : service) : launches (Run s) (startable s).
Proof.
  destruct s; cbn [Run]; unfold Run_gateway, Run_auth, Run_controlplane, Run_analytics, Run_worker, Run_demo, startable, Close_limiter, Close_event_consumer.
  all: eapply launches_iff; [launch_step|]; cbn [tracing_of fst creates]; rw ?exists_unit.
  all: repeat setoid_rewrite exists_unit; repeat setoid_rewrite set_branch; repeat setoid_rewrite New_event_consumer_starts.
  all: unfold if_set, new_job_publisher, new_job_consumer.
  all: by reshape.
Qed.
End launch.

(** C40: A service starts and stops cleanly.  It starts its HTTP server exactly when
    every call of its start succeeds: tracing, configuration, the pool, and the clients
    its configuration asks for, among them the topology of RabbitMQ and, for the worker,
    the retry policy; otherwise it returns an error.  Whichever call fails and however
    it ends, what it opened is closed exactly once and in the reverse order, and nothing
    is closed while its server is up, unless that server had already failed.  The one
    exception is the exporter of the traces, which stays open when the description of
    the service cannot be built after it. *)
Theorem services_clean_up `{NetURL} (s : service) (r : res unit) (l : list effect) :
  run_app (Run s) = (Some r, l) ->
  (Go ServeHTTPTask ∈ l <-> startable s) /\
  (startable s \/ is_ok r = false) /\
  (still_open [] l = Some [] \/
   tracing_leaks (tracing_of s) = true /\ exists l1 l2, l = l1 ++ Acquire Exporter :: l2 /\ still_open [] (l1 ++ l2) = Some []) /\
  (closes_while_serving false l = true -> exists e, ServerDone e ∈ events_of s).
Proof.
  assert (He : ends (tracing_leaks (tracing_of s)) (events_of s) (Run s)).
  { destruct s; cbn [Run tracing_of events_of]; unfold Run_gateway, Run_auth, Run_controlplane, Run_analytics, Run_worker, Run_demo,
      Close_limiter, Close_event_consumer, new_job_publisher, new_job_consumer, Topology.New_publisher, Topology.NewConsumer; repeat service_step. }
  specialize (He _ starting_empty). pose proof (launches_Run s (mkFrame [] [])) as Hl.
  unfold run_app. destruct (Run s _) as [[r'|r'|] f]; intros [= <- <-]; (destruct Hl as [Hi Hn]; [unfold quiet; set_solver|split_and!; [done|done|apply He..]]).
Qed.

(** ** The wiring of the gateway *)

(** A Go interface value: nil, or a value of some pointer type, which may itself be
    a nil pointer. *)
Inductive iface (A : Type) := NilInterface | Holds (pointer : option A).
Arguments NilInterface {A}.
Arguments Holds {A}.
Definition is_nil {A} (i : iface A) : bool := match i with NilInterface => true | Holds _ => false end.

(** The variable [rateLimiter] is a pointer to a limiter (here its key prefix), nil
    without a Redis URL, and is stored in the field [RateLimiter] of the
    dependencies, which is an interface; the other three are interface variables. *)
Definition rateLimiter_pointer (config : gateway_config) (created : string) : option string :=
  if bool_decide (gc_RedisURL config <> "") then Some created else None.
Definition rateLimiter_dependency (config : gateway_config) (created : string) : iface string :=
  Holds (rateLimiter_pointer config created).
Definition validator_dependency {A} (config : gateway_config) (created : A) : iface A :=
  if bool_decide (gc_AuthServiceURL config <> "") then Holds (Some created) else NilInterface.

(** A call that returns, or dereferences a nil pointer. *)
Inductive outcome (A : Type) := Returned (a : A) | Panicked.
Arguments Returned {A}.
Arguments Panicked {A}.

Section limiter.
Context {RS : Type} (eval : string -> Z -> RS -> res reply * RS) (now : Z).

(** Allow up to its first use of the receiver, [l.now()]. *)
Definition Allow_on (l : option string) (request : RateLimitRequest) (rs : RS) : outcome (res RateLimitResult * RS) :=
  if (rl_Limit (rq_Policy request) <=? 0) || (rl_Window (rq_Policy request) <=? 0) then
    Returned (Err ErrInvalidRateLimitPolicy, rs)
  else if blank (rq_RouteKey request) || blank (rq_ClientID request) then Returned (Err ErrInvalidRateLimitClient, rs)
  else match l with
       | None => Panicked
       | Some keyPrefix => Returned (Allow keyPrefix eval now request rs)
       end.

(** CheckRateLimit on an interface value. *)
Definition CheckRateLimit_on (rateLimiter : iface string) (route : Route) (clientID : string) (rs : RS)
    : outcome (res RateLimitResult * RS) :=
  if negb (rl_Enabled (rt_RateLimit route)) then Returned (Ok (mkRLRes false true 0 0 time_zero 0), rs)
  else if (rl_Limit (rt_RateLimit route) <=? 0) || (rl_Window (rt_RateLimit route) <=? 0) then
    Returned (Err ErrInvalidRateLimitPolicy, rs)
  else
    let clientID := TrimSpace clientID in
    if bool_decide (clientID = "") then Returned (Err ErrInvalidRateLimitClient, rs)
    else if is_nil rateLimiter then Returned (Err ErrRateLimiterNotConfigured, rs)
    else match rateLimiter with
         | NilInterface => Panicked
         | Holds l => Allow_on l (mkRLReq (route_key route) clientID (rt_RateLimit route)) rs
         end.

(** Away from the nil pointer this is the use case as it stands. *)
Lemma CheckRateLimit_on_some keyPrefix route clientID rs :
  CheckRateLimit_on (Holds (Some keyPrefix)) route clientID rs =
  Returned (CheckRateLimit (Some (Allow keyPrefix eval now)) route clientID rs).
Proof.
  unfold CheckRateLimit_on, CheckRateLimit, Allow_on. destruct (negb _); [done|]. destruct (_ || _) eqn:E; [done|].
  case_bool_decide as Hc; [done|]. unfold Allow. cbn [is_nil rq_Policy rq_RouteKey rq_ClientID]. rw E.
  by destruct (blank _ || blank _).
Qed.
Lemma CheckRateLimit_on_nil route clientID rs :
  CheckRateLimit_on NilInterface route clientID rs = Returned (CheckRateLimit None route clientID rs).
Proof.
  unfold CheckRateLimit_on, CheckRateLimit. destruct (negb _); [done|]. destruct (_ || _); [done|]. by case_bool_decide.
Qed.

(** C10: A gateway without a Redis URL does not fail open: on every route with a valid
    rate limit, and for every client, the check of the limit panics, although the
    same use case without a limiter reports that none is configured, which the
    handler lets through. *)
Theorem unlimited_gateway_panics config created route principal req rs :
  gc_RedisURL config = "" -> rl_Enabled (rt_RateLimit route) = true ->
  0 < rl_Limit (rt_RateLimit route) -> 0 < rl_Window (rt_RateLimit route) ->
  let clientID := rateLimitClientID req route principal in
  CheckRateLimit_on (rateLimiter_dependency config created) route clientID rs = Panicked /\
  CheckRateLimit_on NilInterface route clientID rs = Returned (Err ErrRateLimiterNotConfigured, rs) /\
  lets_through (Err ErrRateLimiterNotConfigured) = true.
Proof.
  intros Hr He Hl Hw clientID. pose proof (rateLimitClientID_not_blank req route principal) as Hb. fold clientID in Hb.
  assert (Hp : (rl_Limit (rt_RateLimit route) <=? 0) || (rl_Window (rt_RateLimit route) <=? 0) = false) by lia.
  assert (Hc : bool_decide (TrimSpace clientID = "") = false) by (apply bool_decide_eq_false_2; by apply blank_false).
  unfold rateLimiter_dependency, rateLimiter_pointer. rw (bool_decide_eq_false_2 (gc_RedisURL config <> "")); [intros Hn; by apply Hn|].
  unfold CheckRateLimit_on, Allow_on. rw He Hp Hc. cbn [negb is_nil rq_Policy rq_RouteKey rq_ClientID].
  rw ?Hp route_key_not_blank blank_TrimSpace Hb. done.
Qed.
End limiter.

(** ** Readiness *)

(** The pings of the clients; [None] is a client that is not configured. *)
Definition Ping_limiter (client : option (res unit)) : res unit :=
  match client with
  | None => Err (Opaque "redis limiter is not configured")
  | Some ping => map_err (wrapf "ping redis") ping
  end.
Definition Ping_producer (client : option (res unit)) : res unit :=
  match client with
  | None => Err (Opaque "kafka producer is not configured")
  | Some ping => map_err (wrapf "ping kafka producer") ping
  end.
Definition Ping_event_consumer (client : option (res unit)) : res unit :=
  match client with
  | None => Err (Opaque "kafka consumer is not configured")
  | Some ping => map_err (wrapf "ping kafka analytics broker") ping
  end.

(** The checks of the services behind the gateway, all of them required. *)
Definition auth_checks (pool : res unit) : list Check := [mkCheck "postgres" (Some pool) false].
Definition controlplane_checks (pool : res unit) (publisher : Topology.connection) : list Check :=
  [mkCheck "postgres" (Some pool) false; mkCheck "rabbitmq" (Some (Topology.Ping_publisher publisher)) false].
Definition analytics_checks (pool kafka : res unit) : list Check :=
  [mkCheck "postgres" (Some pool) false; mkCheck "kafka" (Some (Ping_event_consumer (Some kafka))) false].
Definition worker_checks (pool : res unit) (consumer : Topology.connection) : list Check :=
  [mkCheck "postgres" (Some pool) false; mkCheck "rabbitmq" (Some (Topology.Ping_consumer consumer)) false].

(** They are ready exactly while all they depend on answers, and never degraded. *)
Theorem services_readiness tie pool kafka publisher consumer :
  Forall (fun '(name, checks) =>
    exists body, Handler tie (NewReadiness name checks) = JSONOk (if existsb check_failed checks then 503 else 200) body /\
      rr_Status body = (if existsb check_failed checks then "not_ready" else "ready") /\ rr_Service body = name)
    [("auth", auth_checks pool); ("control-plane", controlplane_checks pool publisher);
     ("analytics", analytics_checks pool kafka); ("notification-worker", worker_checks pool consumer)].
Proof.
  assert (Hv : forall name checks, TrimSpace name = name ->
    forallb (fun c => active c && negb (ck_Optional c)) checks = true ->
    exists body, Handler tie (NewReadiness name checks) = JSONOk (if existsb check_failed checks then 503 else 200) body /\
      rr_Status body = (if existsb check_failed checks then "not_ready" else "ready") /\ rr_Service body = name).
  { intros name checks Hn Hc. destruct (readiness_verdict tie (NewReadiness name checks)) as (body & E & Es & Ev).
    assert (Hr : existsb required_failed checks = existsb check_failed checks /\ existsb optional_failed checks = false).
    { clear -Hc. induction checks as [|c l IH]; [done|]. cbn [forallb existsb] in *. apply andb_true_iff in Hc as [Hc Hl].
      destruct (IH Hl) as [-> ->]. unfold required_failed, optional_failed. apply andb_true_iff in Hc as [-> Ho].
      apply negb_true_iff in Ho as ->. by rw andb_true_r andb_false_r. }
    destruct Hr as [Hr Ho]. exists body. cbn [rd_checks rd_service NewReadiness] in *. rw Hr Ho in E, Es. rw E Es Ev.
    by destruct (existsb check_failed checks). }
  repeat (apply Forall_cons; split; [by apply Hv|]). apply Forall_nil_2.
Qed.

(** Whether each dependency answers its check. *)
Record gateway_health := mkHealth { gh_controlplane : res unit; gh_auth : res unit; gh_redis : res unit; gh_kafka : res unit }.

Definition gateway_checks (config : gateway_config) (h : gateway_health) : list Check :=
  (if bool_decide (gc_ControlPlaneURL config <> "") then [Optional (mkCheck "control_plane" (Some (gh_controlplane h)) false)] else []) ++
  (if bool_decide (gc_AuthServiceURL config <> "") then [mkCheck "auth" (Some (gh_auth h)) false] else []) ++
  (if bool_decide (gc_RedisURL config <> "") then [mkCheck "redis" (Some (Ping_limiter (Some (gh_redis h)))) true] else []) ++
  (if bool_decide (gc_KafkaBrokers config <> []) then [mkCheck "kafka" (Some (Ping_producer (Some (gh_kafka h)))) true] else []).

(** A configured dependency that does not answer. *)
Definition down (configured : bool) (r : res unit) : bool := configured && negb (is_ok r).

(** The gateway leaves the load balancer only when it cannot authorise: it
    answers 503 exactly when an auth service is configured and not ready; without
    Redis, Kafka or the control plane it stays ready, degraded. *)
Theorem gateway_readiness tie config h :
  let auth_down := down (bool_decide (gc_AuthServiceURL config <> "")) (gh_auth h) in
  let other_down := down (bool_decide (gc_ControlPlaneURL config <> "")) (gh_controlplane h) ||
                    down (bool_decide (gc_RedisURL config <> "")) (gh_redis h) ||
                    down (bool_decide (gc_KafkaBrokers config <> [])) (gh_kafka h) in
  exists body, Handler tie (NewReadiness "gateway" (gateway_checks config h)) = JSONOk (if auth_down then 503 else 200) body /\
    rr_Status body = (if auth_down then "not_ready" else if other_down then "degraded" else "ready") /\
    rr_Service body = "gateway".
Proof.
  intros auth_down other_down.
  destruct (readiness_verdict tie (NewReadiness "gateway" (gateway_checks config h))) as (body & E & Es & Ev).
  assert (Hc : existsb required_failed (gateway_checks config h) = auth_down /\ existsb optional_failed (gateway_checks config h) = other_down).
  { unfold gateway_checks, auth_down, other_down.
    destruct h as [[|] [|] [|] [|]], (bool_decide (gc_ControlPlaneURL _ <> _)), (bool_decide (gc_AuthServiceURL _ <> _)),
      (bool_decide (gc_RedisURL _ <> _)), (bool_decide (gc_KafkaBrokers _ <> _)); by split. }
  destruct Hc as [Hr Ho].
  exists body. cbn [rd_checks NewReadiness] in *. rw Hr Ho in E, Es. rw E Es Ev. by destruct auth_down, other_down.
Qed.

(** ** Examples *)

Module Example.
Definition fails {A} : res A := Err (Opaque "connection refused").
Definition traced : tracing_env := mkTracing (Ok (mkTracingConfig "auth" "otel:4317" true "local" (Fin (QArith_base.Qmake 1 1)))) (Ok tt) (Ok tt) (Ok tt).
Definition untraced : tracing_env := mkTracing (Ok (mkTracingConfig "gateway" "" true "local" (Fin (QArith_base.Qmake 1 1)))) (Ok tt) (Ok tt) (Ok tt).
Definition pool_up : pool_env := mkPool (Ok tt) (Ok tt) (Ok tt).
Definition pool_down : pool_env := mkPool (Ok tt) (Ok tt) fails.

(** The worker, stopped by a signal. *)
Definition config_w : WorkerSetup.Config :=
  WorkerSetup.mkConfig "amqp://rabbitmq:5672/" "http://rabbitmq:15672" "edgeguard" "edgeguard" "/" "edgeguard.jobs.v1"
    "edgeguard.jobs.main.v1" "edgeguard.jobs.dead.v1" "edgeguard.jobs.dead.v1" "edgeguard-jobs" 10 Second Minute (2 * Minute)
    (10 * Second) [] "/var/lib/edgeguard/reports" Minute ":8085".
Definition installs (status : Z) : WorkerSetup.install_env := WorkerSetup.mkInstall (fun _ => Ok "{}") (fun _ => Ok tt) (fun _ _ _ => Ok (status, "")).
Definition worker1 : worker_env :=
  mkWorkerEnv traced (Ok config_w) pool_up Topology.no_trouble Topology.empty_broker [(installs 503, None); (installs 201, None)] [Signal] (Ok tt).
Definition worker1_trace : list effect :=
  [Acquire Signals; Acquire RunContext; Acquire Exporter; Acquire Pool; Acquire JobConnection; Acquire JobChannel;
   Go ConsumeTask; Go ServeHTTPTask; CancelRun; ServerShutdown;
   Release JobChannel; Release JobConnection; Release Pool; Release Exporter; Release RunContext; Release Signals].

Lemma worker1_runs : run_app (@Run plain_url (Worker_ worker1)) = (Some (Ok tt), worker1_trace).
Proof. vm_compute. reflexivity. Qed.

(** C40 at a worker whose policy is installed at the second try and that is stopped by
    a signal. *)
Lemma services_clean_up_witness :
  @startable plain_url (Worker_ worker1) /\
  (still_open [] worker1_trace = Some [] \/
   tracing_leaks traced = true /\ exists l1 l2, worker1_trace = l1 ++ Acquire Exporter :: l2 /\ still_open [] (l1 ++ l2) = Some []).
Proof.
  destruct (@services_clean_up plain_url (Worker_ worker1) (Ok tt) worker1_trace worker1_runs) as (Hs & _ & Ho & _).
  split; [apply Hs; unfold worker1_trace; set_solver|exact Ho].
Defined.

(** A channel that cannot be opened closes the connection, and then the rest. *)
Example worker_without_channel :
  (run_app (@Run plain_url (Worker_ (mkWorkerEnv untraced (Ok config_w) pool_up
     (Topology.mkConnect None (Some (Opaque "channel limit")) [] None) Topology.empty_broker [] [] (Ok tt))))).2 =
  [Acquire Signals; Acquire RunContext; Acquire Pool; Acquire JobConnection; Release JobConnection; Release Pool;
   Release RunContext; Release Signals].
Proof. vm_compute. reflexivity. Qed.

Definition config_a : Security.Config :=
  Security.mkConfig ":8083" "0123456789abcdef0123456789abcdef" "edgeguard-auth" "edgeguard" (15 * Minute) (720 * Hour) 32 12.

(** A pool that does not answer is closed, and then what was opened before it. *)
Example auth_without_database :
  (run_app (@Run plain_url (Auth_ (mkAuthEnv (Ok config_a) traced pool_down [] (Ok tt))))).2 =
  [Acquire Signals; Acquire Exporter; Acquire Pool; Release Pool; Release Exporter; Release Signals].
Proof. reflexivity. Qed.

Definition config1 : gateway_config := mkGatewayConfig "configs/gateway.yaml" "" (10 * Second) "" "" "" [] "topic" "client".
Definition gateway1 (events : list event) : gateway_env :=
  mkGatewayEnv untraced (Ok config1) (fun _ => Ok "") (fun _ => Ok (mkYaml "" [])) (fun _ => Ok tt) (fun _ => Ok tt) (Ok tt) (Ok tt) events (Ok tt).

(** When the listening address is taken the auth service returns the error, and the
    gateway keeps running without a server. *)
Example listen_failure :
  run_app (@Run plain_url (Auth_ (mkAuthEnv (Ok config_a) untraced pool_up [ServerDone (Some (Opaque "address already in use"))] (Ok tt)))) =
    (Some (Err (wrapf "serve auth http" (Opaque "address already in use"))),
     [Acquire Signals; Acquire Pool; Go ServeHTTPTask; Release Pool; Release Signals]) /\
  run_app (@Run plain_url (Gateway_ (gateway1 [ServerDone (Some (Opaque "address already in use"))]))) =
    (None, [Acquire Signals; Go ServeHTTPTask]).
Proof. split; reflexivity. Qed.

Definition limited_route : Route := mkRoute "" "orders" "/orders" "http://orders:8081" false (5 * Second) false (mkPolicy true 10 Minute).
Definition request1 : request := mkRequest "GET" "/orders" ∅ "10.0.0.7:4242".
Definition no_redis (key : string) (ttl : Z) (rs : unit) : res reply * unit := (fails, rs).

(** C10 at a gateway started without REDIS_URL. *)
Lemma unlimited_gateway_panics_witness :
  gc_RedisURL config1 = "" /\
  CheckRateLimit_on no_redis 0 (rateLimiter_dependency config1 "") limited_route (rateLimitClientID request1 limited_route no_principal) tt = Panicked.
Proof.
  split; [reflexivity|].
  exact (proj1 (unlimited_gateway_panics no_redis 0 config1 "" limited_route no_principal request1 tt eq_refl eq_refl eq_refl eq_refl)).
Defined.
End Example.
End Apps.
