(* ===== verification/Demo.v ===== *)
(** The demo backend (internal/demo): an in-memory store of orders behind three
    handlers.

    The map of the repository is a finite map; the order in which a range over it
    yields its values is a parameter. *)
From Stdlib Require Import Ascii ZArith Lia.
From Corelib Require Import ssreflect.
From stdpp Require Import base gmap strings list numbers relations pretty.
From S2P Require Import Prelude GoStrings GoTime GoNet GoDate GoJSON.

#[local] Open Scope Z_scope.

Module Demo.

Record Order := mkOrder { o_ID : string; o_Status : string; o_Amount : Z }.

Definition ErrOrderNotFound : error := Sentinel "demo/memory.ErrOrderNotFound" "order not found".

(** ** The repository (memory/order_repository.go) *)

Abbreviation OrderRepository := (gmap string Order).

Definition NewOrderRepository : OrderRepository :=
  <["ord_1" := mkOrder "ord_1" "created" 1000]> (<["ord_2" := mkOrder "ord_2" "paid" 2500]> ∅).

Section repository.
(** The values of a map in the order of a range over it. *)
Context (range : OrderRepository -> list Order).

Definition repo_ListOrders (r : OrderRepository) : res (list Order) := Ok (range r).
Definition repo_GetOrderByID (id : string) (r : OrderRepository) : res Order :=
  match r !! id with Some order => Ok order | None => Err ErrOrderNotFound end.
Definition repo_CreateOrder (order : Order) (r : OrderRepository) : res Order * OrderRepository :=
  (Ok order, <[o_ID order := order]> r).

(** ** The handlers (delivery/http/v1/handlers.go), through the use case *)

Definition internal_error {A} : json_reply A := JSONError 500 "internal error".

Definition list_orders (r : OrderRepository) : json_reply (list Order) :=
  match repo_ListOrders r with Ok orders => JSONOk 200 orders | Err _ => internal_error end.

Definition get_order (id : string) (r : OrderRepository) : json_reply Order :=
  match repo_GetOrderByID id r with
  | Ok order => JSONOk 200 order
  | Err err => if errors_Is err ErrOrderNotFound then JSONError 404 "order not found" else internal_error
  end.

(** The JSON of an order. *)
Definition order_names : list string := ["id"; "status"; "amount"].
Definition read_order : JSON.decoder Order :=
  JSON.read_struct false order_names (fun l =>
    id ← JSON.get order_names "id" JSON.dec_string l "";
    status ← JSON.get order_names "status" JSON.dec_string l "";
    amount ← JSON.get order_names "amount" JSON.dec_int64 l 0;
    Ok (mkOrder id status amount)).
Definition order_text (o : Order) : string :=
  JSON.object_text [("id", JSON.quote (o_ID o)); ("status", JSON.quote (o_Status o)); ("amount", Itoa (o_Amount o))].
Definition decode_order (body : stream) : res (Order * stream) := JSON.Decode (mkOrder "" "" 0) read_order body.

Definition create_order (body : stream) (r : OrderRepository) : json_reply Order * OrderRepository :=
  match decode_order body with
  | Err _ => (JSONError 400 "invalid request body", r)
  | Ok (req, _) =>
    match repo_CreateOrder req r with
    | (Ok order, r) => (JSONOk 201 order, r)
    | (Err _, r) => (internal_error, r)
    end
  end.

(** ** Properties *)

(** The orders accepted so far, the last one first. *)
Inductive dstep : OrderRepository * list Order -> OrderRepository * list Order -> Prop :=
| de_create body order rest r l : decode_order body = Ok (order, rest) -> dstep (r, l) ((create_order body r).2, order :: l)
| de_refuse body e r l : decode_order body = Err e -> dstep (r, l) ((create_order body r).2, l).

(** The last accepted order with an identifier. *)
Fixpoint latest (id : string) (l : list Order) : option Order :=
  match l with
  | [] => None
  | o :: l => if bool_decide (o_ID o = id) then Some o else latest id l
  end.

(** The store is the map of the last accepted order of each identifier: every get
    answers with it, or 404 exactly when there is none. *)
Theorem demo_orders_latest r l id :
  rtc dstep (NewOrderRepository, [mkOrder "ord_1" "created" 1000; mkOrder "ord_2" "paid" 2500]) (r, l) ->
  get_order id r = match latest id l with Some o => JSONOk 200 o | None => JSONError 404 "order not found" end.
Proof.
  intros Hr. assert (E : r !! id = latest id l); [|unfold get_order, repo_GetOrderByID; rw E; by destruct (latest id l)].
  set (inv (s : OrderRepository * list Order) := s.1 !! id = latest id s.2). change (inv (r, l)).
  cut (inv (NewOrderRepository, [mkOrder "ord_1" "created" 1000; mkOrder "ord_2" "paid" 2500])).
  - induction Hr as [|s1 s2 s3 Hs _ IH]; [done|]. intros Hi. apply IH. clear IH.
    destruct Hs as [body order rest r1 l1 E|body e r1 l1 E]; unfold inv, create_order in *; rw E; cbn in *; [|done].
    case_bool_decide as Hid; [subst; by rw lookup_insert_eq|]. by rw lookup_insert_ne.
  - unfold inv, NewOrderRepository. cbn [fst snd latest o_ID]. case_bool_decide as H1; [subst; by rw lookup_insert_eq|].
    rw lookup_insert_ne //. case_bool_decide as H2; [subst; by rw lookup_insert_eq|]. by rw lookup_insert_ne.
Qed.
End repository.
End Demo.
