(* ===== verification/Routers.v ===== *)
(** The routes the services register with echo (RegisterRoutes of every delivery
    package, observability.Register), and the auth service behind its router.

    A table is the list of registrations with their group prefixes.  The router of echo
    is a library: it is read as the search for an entry whose method and path match,
    where [param_ok] says which segments a parameter takes.  Since no two entries of a
    table match the same request, nothing depends on the order of the search.  The
    catch-all of the gateway overlaps its fixed paths, which echo tries first. *)
From Stdlib Require Import Ascii ZArith Lia.
From Corelib Require Import ssreflect.
From stdpp Require Import base gmap strings list numbers relations pretty.
From S2P Require Import Prelude GoStrings GoTime GoEncoding GoNet GoFiles Events Postgres AuthSecurity Auth AuthHistory Gateway Jobs Wire Bodies.

#[local] Open Scope Z_scope.

Module Routers.
Import Security Auth History.
Import (hints) Bodies.

Definition slash : ascii := "/"%char.

(** ** Tables *)

Record entry (H : Type) := mkEntry { en_Method : string; en_Path : string; en_Handler : H }.
Arguments mkEntry {H} _ _ _.
Arguments en_Method {H} _.
Arguments en_Path {H} _.
Arguments en_Handler {H} _.

Definition GET {H} : string -> H -> entry H := mkEntry "GET".
Definition POST {H} : string -> H -> entry H := mkEntry "POST".
Definition DELETE {H} : string -> H -> entry H := mkEntry "DELETE".
Definition Group {H} (prefix : string) (l : list (entry H)) : list (entry H) :=
  map (fun r => mkEntry (en_Method r) (prefix +:+ en_Path r) (en_Handler r)) l.

(** The handlers of every service, and the middleware of a group around one. *)
Inductive platform_endpoint := EHealth | EMetrics | EReady.
Definition platform_Register {H} (wrap : platform_endpoint -> H) : list (entry H) :=
  [GET "/metrics" (wrap EMetrics); GET "/ready" (wrap EReady)].

Inductive auth_endpoint :=
| AHealth | ARegister | ALogin | ARefresh | ALogout | ACreateAPIKey | AListAPIKeys | ARevokeAPIKey | AValidateAPIKey
| ARequireAccessToken (next : auth_endpoint) | APlatform (p : platform_endpoint).

Definition auth_Use (middleware : auth_endpoint -> auth_endpoint) (l : list (entry auth_endpoint)) : list (entry auth_endpoint) :=
  map (fun r => mkEntry (en_Method r) (en_Path r) (middleware (en_Handler r))) l.

Definition auth_RegisterRoutes : list (entry auth_endpoint) :=
  [GET "/health" AHealth] ++
  Group "/api/v1/auth"
    [POST "/register" ARegister; POST "/login" ALogin; POST "/refresh" ARefresh; POST "/logout" ALogout] ++
  Group "/api/v1/projects" (auth_Use ARequireAccessToken
    [POST "/:project_id/api-keys" ACreateAPIKey; GET "/:project_id/api-keys" AListAPIKeys;
     DELETE "/:project_id/api-keys/:api_key_id" ARevokeAPIKey]) ++
  Group "/internal/v1" [POST "/api-keys/validate" AValidateAPIKey].

Inductive controlplane_endpoint :=
| CHealth | CCreateProject | CListProjects | CCreateService | CListServices | CCreateRoute | CListRoutes | CListGatewayRoutes
| CSubmitWebhook | CSubmitReport | CSubmitCleanup | CGetJob | CPlatform (p : platform_endpoint).

Definition controlplane_RegisterRoutes : list (entry controlplane_endpoint) :=
  [GET "/health" CHealth] ++
  Group "/api/v1"
    [POST "/projects" CCreateProject; GET "/projects" CListProjects;
     POST "/projects/:project_id/services" CCreateService; GET "/projects/:project_id/services" CListServices;
     POST "/services/:service_id/routes" CCreateRoute; GET "/services/:service_id/routes" CListRoutes] ++
  Group "/internal/v1" [GET "/routes" CListGatewayRoutes].

Definition jobs_RegisterRoutes : list (entry controlplane_endpoint) :=
  Group "/api/v1/jobs"
    [POST "/webhooks" CSubmitWebhook; POST "/reports" CSubmitReport; POST "/cleanup" CSubmitCleanup; GET "/:job_id" CGetJob].

Inductive analytics_endpoint := NHealth | NSummary | NHourly | NPlatform (p : platform_endpoint).
Definition analytics_RegisterRoutes : list (entry analytics_endpoint) :=
  [GET "/health" NHealth] ++
  Group "/api/v1/projects/:project_id/analytics" [GET "/summary" NSummary; GET "/hourly" NHourly].

Inductive demo_endpoint := DHealth | DList | DGet | DCreate | DPlatform (p : platform_endpoint).
Definition demo_RegisterRoutes : list (entry demo_endpoint) :=
  [GET "/health" DHealth; GET "/orders" DList; GET "/orders/:id" DGet; POST "/orders" DCreate].

Definition worker_routes : list (entry platform_endpoint) := GET "/health" EHealth :: platform_Register id.

(** What each server registers, in the order of its app.go. *)
Definition auth_routes := platform_Register APlatform ++ auth_RegisterRoutes.
Definition controlplane_routes := platform_Register CPlatform ++ controlplane_RegisterRoutes ++ jobs_RegisterRoutes.
Definition analytics_routes := platform_Register NPlatform ++ analytics_RegisterRoutes.
Definition demo_routes := platform_Register DPlatform ++ demo_RegisterRoutes.

(** The gateway: its own paths, and everything else for the proxy. *)
Inductive gateway_endpoint := GHealth | GProxy | GPlatform (p : platform_endpoint).
#[global] Instance gateway_endpoint_eq_dec : EqDecision gateway_endpoint.
Proof. intros x y. unfold Decision. decide equality. decide equality. Defined.
Definition Any {H} : string -> H -> entry H := mkEntry "*".
Definition gateway_RegisterRoutes : list (entry gateway_endpoint) := [GET "/health" GHealth; Any "/*" GProxy].
Definition gateway_routes := platform_Register GPlatform ++ gateway_RegisterRoutes.

(** The body of the health handlers: the status and, but for the demo backend, the
    service. *)
Definition health (service : option string) : json_reply (list (string * string)) :=
  JSONOk 200 (("status", "ok") :: match service with Some s => [("service", s)] | None => [] end).

(** ** The router *)

Definition is_param (segment : string) : bool := HasPrefix segment ":".

Section router.
Context (param_ok : string -> bool).

Definition seg_matches (pattern segment : string) : bool :=
  if is_param pattern then param_ok segment else bool_decide (pattern = segment).

Fixpoint segs_match (pattern path : list string) : bool :=
  match pattern, path with
  | [], [] => true
  | p :: pattern, s :: path => seg_matches p s && segs_match pattern path
  | _, _ => false
  end.

(** The parameters of a path that matches, by name. *)
Definition params (pattern path : string) : list (string * string) :=
  omap (fun ps => if is_param ps.1 then Some (TrimPrefix ps.1 ":", ps.2) else None)
    (zip (Split pattern slash) (Split path slash)).
Definition Param (name : string) (l : list (string * string)) : string :=
  default "" (snd <$> List.find (fun kv => bool_decide (kv.1 = name)) l).

Definition matches {H} (method path : string) (r : entry H) : bool :=
  bool_decide (en_Method r = method) && segs_match (Split (en_Path r) slash) (Split path slash).

Definition find_route {H} (l : list (entry H)) (method path : string) : option (entry H) :=
  List.find (matches method path) l.
End router.

(** Two patterns that no path can match both, at some segment or in their number. *)
Fixpoint apart (p q : list string) : bool :=
  match p, q with
  | [], [] => false
  | a :: p, b :: q => (negb (is_param a) && negb (is_param b) && negb (bool_decide (a = b))) || apart p q
  | _, _ => true
  end.

Fixpoint unambiguous {H} (l : list (entry H)) : bool :=
  match l with
  | [] => true
  | r :: l =>
    forallb (fun r' => negb (bool_decide (en_Method r = en_Method r')) || apart (Split (en_Path r) slash) (Split (en_Path r') slash)) l &&
    unambiguous l
  end.

Lemma apart_spec param_ok p : forall q path, segs_match param_ok p path = true -> segs_match param_ok q path = true -> apart p q = false.
Proof.
  induction p as [|a p IH]; intros [|b q] [|s path]; try done. cbn. unfold seg_matches.
  intros [Ha Hp]%andb_true_iff [Hb Hq]%andb_true_iff. rw (IH q path Hp Hq) orb_false_r.
  destruct (is_param a), (is_param b); try done. cbn. apply bool_decide_eq_true_1 in Ha, Hb. subst.
  by rw bool_decide_eq_true_2.
Qed.

Lemma find_route_unique {H} param_ok (l : list (entry H)) method path r :
  unambiguous l = true -> r ∈ l -> matches param_ok method path r = true -> find_route param_ok l method path = Some r.
Proof.
  unfold find_route. induction l as [|r0 l IH]; [by intros _ ?%elem_of_nil|]. cbn. intros [Hf Hu]%andb_true_iff.
  intros [->|Hr]%elem_of_cons Hm; [by rw Hm|]. destruct (matches param_ok method path r0) eqn:E0; [|by apply IH].
  apply (proj1 (forallb_forall _ _)) with r in Hf; [|by apply list_elem_of_In].
  unfold matches in *. apply andb_true_iff in E0 as [M0%bool_decide_eq_true_1 S0], Hm as [M1%bool_decide_eq_true_1 S1].
  rw (apart_spec _ _ _ _ S0 S1) M0 M1 bool_decide_eq_true_2 // in Hf.
Qed.

(** No request has two handlers, in any of the services; and a table is searched in
    vain exactly when no entry matches. *)
Theorem one_handler_each param_ok method path :
  let one {H} (l : list (entry H)) :=
    forall r, find_route param_ok l method path = Some r <-> r ∈ l /\ matches param_ok method path r = true in
  one auth_routes /\ one controlplane_routes /\ one analytics_routes /\ one demo_routes /\ one worker_routes.
Proof.
  assert (Hone : forall H (l : list (entry H)), unambiguous l = true -> forall r,
    find_route param_ok l method path = Some r <-> r ∈ l /\ matches param_ok method path r = true).
  { intros H l Hu r. split; [|by intros []; apply find_route_unique].
    intros [? ?]%List.find_some. split; [by apply list_elem_of_In|done]. }
  intros one. unfold one. split_and!; apply Hone; vm_compute; reflexivity.
Qed.

(** *** The gateway *)

(** Documented of echo: static paths are matched before a wildcard, and Any registers
    its handler for every method. *)
Definition is_wildcard {H} (r : entry H) : bool := HasSuffix (en_Path r) "*".
Definition wildcard_matches {H} (path : string) (r : entry H) : bool :=
  bool_decide (en_Method r = "*") && HasPrefix path (TrimRight (en_Path r) "*"%char).
Definition find_gateway {H} (l : list (entry H)) (method path : string) : option (entry H) :=
  match List.find (fun r => negb (is_wildcard r) && bool_decide (en_Method r = method) && bool_decide (en_Path r = path)) l with
  | Some r => Some r
  | None => List.find (fun r => is_wildcard r && wildcard_matches path r) l
  end.

(** What of a gateway a request reaches: its health, its readiness and its metrics for
    a GET of these paths, and the proxy for everything else. *)
Theorem gateway_paths method path :
  HasPrefix path "/" = true ->
  exists r, find_gateway gateway_routes method path = Some r /\
    (en_Handler r = GProxy <-> ~ (method = "GET" /\ path ∈ ["/health"; "/ready"; "/metrics"])).
Proof.
  intros Hp. unfold find_gateway. destruct (List.find _ gateway_routes) as [r|] eqn:E.
  - exists r. split; [done|]. apply List.find_some in E as [Hin Hm]. apply andb_true_iff in Hm as [[Hw Hme]%andb_true_iff Hpa].
    apply bool_decide_eq_true_1 in Hme, Hpa. cbn in Hin.
    repeat (destruct Hin as [<-|Hin]; [cbn in *; subst; first [done|split; [done|intros []; split; [done|set_solver]]]|]). done.
  - exists (Any "/*" GProxy). split.
    + change (List.find (fun r => is_wildcard r && wildcard_matches path r) gateway_routes = Some (Any "/*" GProxy)).
      cbn -[HasPrefix HasSuffix TrimRight]. unfold wildcard_matches. change (TrimRight (en_Path (Any "/*" GProxy)) "*"%char) with "/".
      by rw Hp.
    + split; [|done]. intros _ [-> Hin]. assert (Hno := fun r H => List.find_none _ _ E r H). set_unfold in Hin.
      destruct Hin as [->|[->|[->|[]]]];
        [specialize (Hno (GET "/health" GHealth))|specialize (Hno (GET "/ready" (GPlatform EReady)))
        |specialize (Hno (GET "/metrics" (GPlatform EMetrics)))]; (discriminate Hno; cbn; tauto).
Qed.

(** ** The auth service behind its router (auth/delivery/http/v1) *)

Inductive auth_reply :=
| RHealth (r : json_reply (list (string * string))) | RUser (r : json_reply userResponse)
| RSession (r : json_reply sessionResponse) | RTokens (r : json_reply tokenPairResponse)
| REmpty (r : json_reply unit) | RCreated (r : json_reply createdAPIKeyResponse)
| RKeys (r : json_reply (list apiKeyResponse)) | RPrincipal (r : json_reply apiKeyPrincipalResponse)
| RPlatform (p : platform_endpoint) | RNotFound.

Record http_request := mkHTTP { hq_Method : string; hq_Path : string; hq_Header : Header; hq_Body : stream }.

(** The environments of the middleware's call and of the handler's. *)
Record serve_env := mkServe { se_auth : call_env; se_call : call_env }.

Section auth.
Context (param_ok : string -> bool).
Context `{PgUUID} `{PgText} `{JWT} `{Bcrypt} `{UnicodeTables} `{NetMail}.
Context (ts : TokenService) (cost refreshTokenTTL : Z).

Definition tag {A} (c : json_reply A -> auth_reply) (r : json_reply A * adb) : auth_reply * adb := (c r.1, r.2).

(** The handler of an endpoint without middleware. *)
Definition auth_handler (e : call_env) (q : http_request) (ps : list (string * string)) (ep : auth_endpoint) (d : adb)
    : auth_reply * adb :=
  match ep with
  | AHealth => (RHealth (health (Some "auth")), d)
  | ARegister => tag RUser (register cost e (decodeRequest (hq_Body q)) d)
  | ALogin => tag RSession (login ts refreshTokenTTL e (decodeRequest (hq_Body q)) d)
  | ARefresh => tag RTokens (refresh ts refreshTokenTTL e (decodeRequest (hq_Body q)) d)
  | ALogout => tag REmpty (logout e (decodeRequest (hq_Body q)) d)
  | ACreateAPIKey => tag RCreated (createAPIKey e (Param "project_id" ps) (decodeRequest (hq_Body q)) d)
  | AListAPIKeys => tag RKeys (listAPIKeys e (Param "project_id" ps) d)
  | ARevokeAPIKey => tag REmpty (revokeAPIKey e (Param "project_id" ps) (Param "api_key_id" ps) d)
  | AValidateAPIKey => tag RPrincipal (validateAPIKey e (hq_Header q) d)
  | ARequireAccessToken _ => (RNotFound, d)
  | APlatform p => (RPlatform p, d)
  end.

(** The middleware of the group answers itself, or the handler does. *)
Definition auth_endpoint_reply (e : serve_env) (q : http_request) (ps : list (string * string)) (ep : auth_endpoint) (d : adb)
    : auth_reply * adb :=
  match ep with
  | ARequireAccessToken next =>
    let header := Header_Get (hq_Header q) "Authorization" in
    match requireAccessToken ts (se_auth e) header (fun d => (JSONOk 200 tt, d)) d with
    | (JSONOk _ _, d) => auth_handler (se_call e) q ps next d
    | (JSONError status message, d) => (REmpty (JSONError status message), d)
    end
  | ep => auth_handler (se_call e) q ps ep d
  end.

Definition auth_serve (e : serve_env) (q : http_request) (d : adb) : auth_reply * adb :=
  match find_route param_ok auth_routes (hq_Method q) (hq_Path q) with
  | None => (RNotFound, d)
  | Some r => auth_endpoint_reply e q (params (en_Path r) (hq_Path q)) (en_Handler r) d
  end.

(** ** What a request can change *)

(** All of a key but its last use. *)
Definition key_grant (k : APIKey) :=
  (k_ID k, k_ProjectID k, k_Name k, k_KeyPrefix k, k_KeyHash k, k_Enabled k, k_ExpiresAt k, k_CreatedAt k, k_UpdatedAt k).

Lemma respond_tables {A B} status (body : A -> B) d r :
  (respond status body d r).2 = match r with Ok (_, d') => d' | Err _ => d end.
Proof. by destruct r as [[a d']|]. Qed.

Lemma register_tables e request d :
  let d' := (register cost e request d).2 in
  d' = d \/ exists u, d' = set_users (users d ++ [u]) d /\ u_Role u = RoleMember /\ u_Enabled u = true.
Proof.
  cbn zeta. unfold register. destruct request as [[email password]|]; [|by left]. rw respond_tables. unfold Register.
  destruct (negb _); [by left|]. destruct (Hash cost password) as [h|]; [|by left]. cbn [mbind res_bind].
  destruct (NewUser email h RoleMember) as [user|] eqn:En; [|by left]. cbn [mbind res_bind].
  destruct (CreateUser _ _ _ user d) as [[created d']|] eqn:Ec; [|by left]. right. cbn.
  apply map_err_Ok, with_fault_Ok in Ec as [_ (Er & Ed & _)%insert_user_Ok]. exists created. split; [done|].
  revert En. unfold NewUser. repeat (match goal with |- (if ?b then _ else _) = Ok _ -> _ => destruct b; [done|] end).
  intros [= <-]. by rw Er.
Qed.

Lemma insert_token_tables id now t d r d' : insert_token id now t d = Ok (r, d') -> exists l, d' = set_tokens l d.
Proof. intros (uid & _ & _ & -> & _)%insert_token_Ok. by eexists. Qed.

Lemma login_tables e request d : exists l, (login ts refreshTokenTTL e request d).2 = set_tokens l d.
Proof.
  assert (Hd : exists l, d = set_tokens l d) by (exists (tokens d); by destruct d).
  unfold login. destruct request as [[email password]|]; [|done]. rw respond_tables. unfold Login.
  destruct (not_found_as _ _ _) as [user|]; [|done]. cbn [mbind res_bind]. destruct (negb _); [done|]. destruct (negb _); [done|].
  destruct (buildTokens _ _ _ _ _) as [[[a b] t]|]; [|done]. cbn [mbind res_bind].
  destruct (CreateRefreshToken _ _ _ t d) as [[created d']|] eqn:Ec; [|done]. cbn.
  apply map_err_Ok, with_fault_Ok in Ec as [_ Ec]. by eapply insert_token_tables.
Qed.

Lemma refresh_tables e request d : exists l, (refresh ts refreshTokenTTL e request d).2 = set_tokens l d.
Proof.
  assert (Hd : exists l, d = set_tokens l d) by (exists (tokens d); by destruct d).
  unfold refresh. destruct request as [token|]; [|done]. unfold Refresh.
  destruct (Refresh_read _ _ _ _ _) as [p|]; [|done]. unfold Refresh_rotate, RotateRefreshToken, insertRefreshToken.
  destruct (ro_begin _); [done|]. destruct (with_fault (ro_revoke _) _) as [d1|] eqn:E1; [|done].
  apply with_fault_Ok in E1 as [_ E1]. destruct (with_fault (ro_insert _) _) as [[c d2]|] eqn:E2; [|done].
  apply with_fault_Ok in E2 as [_ [l2 ->]%insert_token_tables].
  assert (exists l, set_tokens l2 d1 = set_tokens l d) by (apply revoke_by_id_Ok in E1; naive_solver).
  destruct (ro_commit _) as [|err []]; done.
Qed.

Lemma logout_tables e request d : exists l, (logout e request d).2 = set_tokens l d.
Proof.
  assert (Hd : exists l, d = set_tokens l d) by (exists (tokens d); by destruct d).
  unfold logout. destruct request as [token|]; [|done]. rw respond_tables. unfold Logout.
  case_bool_decide; [done|]. case_bool_decide; [done|].
  destruct (not_found_as _ _ _) as [d'|] eqn:E; [|done]. cbn.
  apply map_err_Ok in E. apply lookup_row_Ok, with_fault_Ok in E as [_ E]. revert E. unfold revoke_by_hash.
  destruct (encode_text _) as [h|]; [|done]. cbn. destruct (update_where _ _ _) as [l|]; [|done]. cbn. intros [= <-]. by exists l.
Qed.

Lemma createAPIKey_tables e pid request d : exists l, (createAPIKey e pid request d).2 = set_keys l d.
Proof.
  assert (Hd : exists l, d = set_keys l d) by (exists (keys d); by destruct d).
  unfold createAPIKey. destruct request as [[name exp]|]; [|done]. rw respond_tables. unfold CreateAPIKey.
  do 2 (case_bool_decide; [done|]). destruct (match exp with Some _ => _ | None => _ end); [done|].
  destruct (map_err _ _) as [g|]; [|done]. cbn [mbind res_bind]. destruct (NewAPIKey _ _ _ _ _ _) as [k|]; [|done]. cbn [mbind res_bind].
  destruct (repo_CreateAPIKey _ _ _ k d) as [[c d']|] eqn:E; [|done]. cbn.
  apply map_err_Ok, with_fault_Ok in E as [_ (u & _ & _ & -> & _)%insert_key_Ok]. by eexists.
Qed.

Lemma revokeAPIKey_tables e pid kid d : exists l, (revokeAPIKey e pid kid d).2 = set_keys l d.
Proof.
  assert (Hd : exists l, d = set_keys l d) by (exists (keys d); by destruct d).
  unfold revokeAPIKey. rw respond_tables. unfold RevokeAPIKey. do 2 (case_bool_decide; [done|]).
  destruct (DisableAPIKey _ _ _ _ d) as [d'|] eqn:E; [|done]. cbn. apply lookup_row_Ok, with_fault_Ok in E as [_ E]. revert E.
  unfold disable_key. destruct (cast_uuid (TrimSpace kid)); [|done]. cbn. destruct (cast_uuid (TrimSpace pid)); [|done]. cbn.
  destruct (update_where _ _ _) as [l|]; [|done]. cbn.
  intros [= <-]. by exists l.
Qed.

Lemma listAPIKeys_tables e pid d : (listAPIKeys e pid d).2 = d.
Proof. unfold listAPIKeys. rw respond_tables. by destruct (ListAPIKeys e pid d). Qed.

Lemma validateAPIKey_tables e headers d :
  exists l, (validateAPIKey e headers d).2 = set_keys l d /\ key_grant <$> l = key_grant <$> keys d.
Proof.
  assert (Hd : exists l, d = set_keys l d /\ key_grant <$> l = key_grant <$> keys d) by (exists (keys d); by destruct d).
  unfold validateAPIKey. rw respond_tables. unfold ValidateAPIKey, ValidateAPIKey_at.
  destruct (Validate_read _ _ d) as [k|]; [|done]. cbn [mbind res_bind]. unfold Validate_touch.
  destruct (not_found_as _ _ _) as [d'|] eqn:E; [|done]. cbn.
  apply map_err_Ok in E. apply lookup_row_Ok, with_fault_Ok in E as [_ E]. revert E. unfold touch_key.
  destruct (cast_uuid _) as [i|]; [|done]. cbn. unfold update_where. destruct (existsb _ _); [|done]. cbn. intros [= <-].
  eexists. split; [done|]. change (map ?g (keys d)) with (g <$> keys d). rw -list_fmap_compose. apply list_fmap_ext.
  intros _ x _. cbn. by destruct (_ && _).
Qed.

(** ** Paths *)

Lemma static_path p path :
  forallb (fun s => negb (is_param s)) (Split p slash) = true ->
  segs_match param_ok (Split p slash) (Split path slash) = true -> path = p.
Proof.
  intros Hs Hm. rw -(Join_Split path slash) -(Join_Split p slash). f_equal. revert Hs Hm. generalize (Split path slash).
  induction (Split p slash) as [|a l IH]; intros [|s m]; try done. cbn. unfold seg_matches.
  intros [->%negb_true_iff Hl]%andb_true_iff [->%bool_decide_eq_true_1 Hm]%andb_true_iff. f_equal. by apply IH.
Qed.

(** The request carries a valid access token of a user who is enabled and still has the
    role of the token. *)
Definition authenticated (e : serve_env) (q : http_request) (d : adb) : Prop :=
  exists token p u, bearerToken (Header_Get (hq_Header q) "Authorization") = Some token /\
    ParseAccessToken ts (TrimSpace token) (v_now (se_auth e)) = Ok p /\
    u ∈ users d /\ pg_uuid (at_UserID p) = Some (u_ID u) /\ u_Enabled u = true /\ u_Role u = at_Role p.

Lemma requireAccessToken_spec e q d status d' :
  requireAccessToken ts (se_auth e) (Header_Get (hq_Header q) "Authorization") (fun d => (JSONOk status tt, d)) d = (JSONOk status tt, d') ->
  d' = d /\ authenticated e q d.
Proof.
  unfold requireAccessToken, handleError. destruct (bearerToken _) as [token|] eqn:Eb; [|by destruct (authError _) as [[]|]].
  destruct (AuthenticateAccessToken _ _ _ d) as [p|err] eqn:Ea; [|by destruct (authError err) as [[]|]]. intros [= ->]. split; [done|].
  revert Ea. unfold AuthenticateAccessToken. case_bool_decide; [done|].
  destruct (map_err _ _) as [p'|] eqn:Ep; [|done]. apply map_err_Ok in Ep. cbn [mbind res_bind].
  destruct (not_found_as _ _ _) as [u|] eqn:Eu; [|done]. apply map_err_Ok, lookup_row_Ok, with_fault_Ok in Eu as [_ Eu]. cbn [mbind res_bind].
  destruct (u_Enabled u) eqn:En; [|done]. cbn [negb]. case_bool_decide as Hr; [|done]. intros [= ->].
  unfold cast_uuid in Eu. destruct (pg_uuid (at_UserID p)) as [i|] eqn:Ei; [|done]. cbn in Eu.
  destruct (List.find _ _) as [u'|] eqn:Ef; [|done]. injection Eu as ->. apply List.find_some in Ef as [Hu Hi%bool_decide_eq_true_1].
  exists token, p, u. subst. split_and!; try done. by apply list_elem_of_In.
Qed.

Lemma middleware_cases e q d :
  let r := requireAccessToken ts (se_auth e) (Header_Get (hq_Header q) "Authorization") (fun d => (JSONOk 200 tt, d)) d in
  (r = (JSONOk 200 tt, d) /\ authenticated e q d) \/ exists status message, r = (JSONError status message, d).
Proof.
  cbn zeta. destruct (requireAccessToken _ _ _ _ d) as [r d'] eqn:E. destruct r as [status []|status message].
  - left. assert (status = 200) as ->; [|by destruct (requireAccessToken_spec _ _ _ _ _ E) as [-> ?]].
    revert E. unfold requireAccessToken, handleError. destruct (bearerToken _); [|by destruct (authError _) as [[]|]].
    destruct (AuthenticateAccessToken _ _ _ d) as [|err]; [congruence|by destruct (authError err) as [[]|]].
  - right. exists status, message. f_equal. revert E. unfold requireAccessToken. destruct (bearerToken _); [|by intros [= _ <-]].
    destruct (AuthenticateAccessToken _ _ _ d); by intros [= _ <-].
Qed.

(** What a request may do: the users it may add, and when it may change sessions, change
    keys and see them. *)
Record surface (e : serve_env) (q : http_request) (d : adb) (reply : auth_reply) (d' : adb) : Prop := {
  su_projects : project_ids d' = project_ids d;
  su_users : users d' = users d \/
    (hq_Method q = "POST" /\ hq_Path q = "/api/v1/auth/register" /\
     exists u, users d' = users d ++ [u] /\ u_Role u = RoleMember /\ u_Enabled u = true);
  su_tokens : tokens d' = tokens d \/
    (hq_Method q = "POST" /\ hq_Path q ∈ ["/api/v1/auth/login"; "/api/v1/auth/refresh"; "/api/v1/auth/logout"]);
  su_keys : key_grant <$> keys d' = key_grant <$> keys d \/ authenticated e q d;
  su_reply : match reply with RCreated _ | RKeys _ => authenticated e q d | _ => True end;
}.

Definition keyless (reply : auth_reply) : Prop := match reply with RCreated _ | RKeys _ => False | _ => True end.

Lemma surface_same e q d reply : keyless reply -> surface e q d reply d.
Proof. intros Hk. split; auto. by destruct reply. Qed.

Lemma surface_tokens e q d r d' p :
  hq_Method q = "POST" -> hq_Path q = p -> p ∈ ["/api/v1/auth/login"; "/api/v1/auth/refresh"; "/api/v1/auth/logout"] ->
  (exists l, d' = set_tokens l d) -> keyless r -> surface e q d r d'.
Proof. intros Hm <- Hp [l ->] Hk. split; cbn; auto. by destruct r. Qed.

Lemma surface_keys e q d r d' : authenticated e q d -> (exists l, d' = set_keys l d) -> surface e q d r d'.
Proof. intros Ha [l ->]. split; cbn; auto. by destruct r. Qed.

(** A handler behind the middleware that writes keys at most. *)
Lemma surface_protected e q ps next d :
  (exists l, (auth_handler (se_call e) q ps next d).2 = set_keys l d) ->
  surface e q d (auth_endpoint_reply e q ps (ARequireAccessToken next) d).1 (auth_endpoint_reply e q ps (ARequireAccessToken next) d).2.
Proof.
  intros Hl. unfold auth_endpoint_reply. destruct (middleware_cases e q d) as [[-> Ha]|(status & message & ->)].
  - by apply surface_keys.
  - by apply surface_same.
Qed.

(** Which requests reach which handlers. *)
Definition session_paths : list string := ["/api/v1/auth/login"; "/api/v1/auth/refresh"; "/api/v1/auth/logout"].
Definition reaches (q : http_request) (ep : auth_endpoint) : Prop :=
  match ep with
  | ARegister => hq_Method q = "POST" /\ hq_Path q = "/api/v1/auth/register"
  | ALogin | ARefresh | ALogout => hq_Method q = "POST" /\ hq_Path q ∈ session_paths
  | ACreateAPIKey | AListAPIKeys | ARevokeAPIKey => False
  | ARequireAccessToken next => next ∈ [ACreateAPIKey; AListAPIKeys; ARevokeAPIKey]
  | _ => True
  end.

Lemma routes_reach q r : r ∈ auth_routes -> matches param_ok (hq_Method q) (hq_Path q) r = true -> reaches q (en_Handler r).
Proof.
  intros Hr [Hm%bool_decide_eq_true_1 Hp]%andb_true_iff.
  assert (Hs : forallb (fun s => negb (is_param s)) (Split (en_Path r) slash) = true -> hq_Path q = en_Path r)
    by (intros ?; by apply static_path). clear Hp. revert Hr Hm Hs.
  assert (Hall : Forall (fun r => hq_Method q = en_Method r ->
    (forallb (fun s => negb (is_param s)) (Split (en_Path r) slash) = true -> hq_Path q = en_Path r) -> reaches q (en_Handler r)) auth_routes).
  { unfold auth_routes, auth_RegisterRoutes, platform_Register. cbn [app Group auth_Use map GET POST DELETE en_Handler en_Method en_Path].
    repeat (apply Forall_cons; split); try apply Forall_nil_2; cbn [en_Handler en_Method en_Path reaches]; intros Hm Hs; try exact I.
    all: try (split; [exact Hm|]). all: try (rw Hs; [vm_compute; reflexivity|]).
    all: unfold session_paths; auto using list_elem_of_here, list_elem_of_further. }
  intros Hr Hm. apply (proj1 (Forall_forall _ _) Hall r Hr). by symmetry.
Qed.

Lemma surface_reached e q ps ep d :
  reaches q ep -> surface e q d (auth_endpoint_reply e q ps ep d).1 (auth_endpoint_reply e q ps ep d).2.
Proof.
  destruct ep; cbn [reaches]; intros Hq; try (by apply surface_same); try done.
  - destruct Hq as [Hm Hp]. cbn. destruct (register_tables (se_call e) (decodeRequest (hq_Body q)) d) as [->|(u & -> & Hu)].
    + by apply surface_same.
    + split; cbn; auto. right. split_and!; [done|done|]. by exists u.
  - destruct Hq as [Hm Hp]. by apply (surface_tokens _ _ _ _ _ _ Hm eq_refl Hp); [apply login_tables|].
  - destruct Hq as [Hm Hp]. by apply (surface_tokens _ _ _ _ _ _ Hm eq_refl Hp); [apply refresh_tables|].
  - destruct Hq as [Hm Hp]. by apply (surface_tokens _ _ _ _ _ _ Hm eq_refl Hp); [apply logout_tables|].
  - cbn. destruct (validateAPIKey_tables (se_call e) (hq_Header q) d) as (l & -> & Hl). by split; cbn; auto.
  - apply surface_protected. rw !elem_of_cons elem_of_nil in Hq. destruct Hq as [->|[->|[->|[]]]].
    + apply createAPIKey_tables.
    + exists (keys d). cbn. rw listAPIKeys_tables. by destruct d.
    + apply revokeAPIKey_tables.
Qed.

(** C23: Every request to the auth service stays within its surface.  Accounts are only added,
    as enabled members, by a registration; refresh tokens are only touched by login,
    refresh and logout; API keys are only created, revoked and listed for a valid access
    token of an enabled user with the role of the token, and otherwise nothing of a key
    changes but the time of its last use. *)
Theorem auth_surface (e : serve_env) (q : http_request) (d : adb) :
  surface e q d (auth_serve e q d).1 (auth_serve e q d).2.
Proof.
  unfold auth_serve. destruct (find_route param_ok auth_routes _ _) as [r|] eqn:Ef; [|by apply surface_same].
  apply List.find_some in Ef as [Hr%list_elem_of_In Hm]. by apply surface_reached, routes_reach.
Qed.
End auth.

(** ** Examples *)

Example create_key_route :
  find_route (fun _ => true) auth_routes "POST" "/api/v1/projects/p1/api-keys" =
    Some (POST "/api/v1/projects/:project_id/api-keys" (ARequireAccessToken ACreateAPIKey)) /\
  params "/api/v1/projects/:project_id/api-keys/:api_key_id" "/api/v1/projects/p1/api-keys/k1" =
    [("project_id", "p1"); ("api_key_id", "k1")] /\
  find_route (fun _ => true) auth_routes "DELETE" "/api/v1/projects/p1/api-keys" = None.
Proof. vm_compute. done. Qed.
End Routers.
