(* ===== verification/ReportJobs.v ===== *)
(** Services together: a report from the request to the file.

    The control plane accepts a report job, stores its row and publishes its message;
    the worker receives the message until it is settled, and each attempt reads the
    hourly aggregates of the analytics service and writes a file.  The theorem follows
    a job from its receipt to the status it ends with and the contents of the file. *)
From Stdlib Require Import Ascii ZArith Lia String.
From Corelib Require Import ssreflect.
From stdpp Require Import base gmap strings list numbers relations pretty.
From S2P Require Import Prelude GoStrings GoTime GoEncoding GoNet GoDate GoJSON JSONFacts GoFiles Events Postgres Jobs Wire JobHistory JobWorker JobContract Analytics AnalyticsHistory AnalyticsQueries Report.

#[local] Open Scope Z_scope.

Module ReportJobs.
Import Jobs JobHistory Worker Contract Wire.

(** ** After the submission *)

Lemma submit_envelope_max `{JSONText} ty pj mx idr now e :
  submit_envelope ty pj mx idr now = Ok e -> 1 <= en_MaxAttempts e <= max_int32.
Proof.
  unfold submit_envelope, NormalizeMaxAttempts. destruct (Z.eqb_spec mx 0); cbn [mbind res_bind].
  2: destruct ((mx <? 1) || (MaxMaxAttempts <? mx)) eqn:E; [done|]; cbn [mbind res_bind].
  all: destruct (map_err _ (NewID idr)); [|done]; cbn [mbind res_bind]; unfold NewEnvelope; destruct pj; [|done];
    destruct (envelope_Validate _); [|done]; cbn [map_err]; intros [= <-]; cbn [en_MaxAttempts].
  - unfold DefaultMaxAttempts, max_int32. lia.
  - unfold MaxMaxAttempts, max_int32 in *. lia.
Qed.

Lemma submit_envelope_first `{JSONText} ty pj mx idr now e :
  submit_envelope ty pj mx idr now = Ok e -> en_SchemaVersion e = SchemaVersion /\ en_Attempt e = 1.
Proof.
  unfold submit_envelope. destruct (NormalizeMaxAttempts mx); [|done]. destruct (map_err _ (NewID idr)); [|done]. cbn [mbind res_bind].
  unfold NewEnvelope. destruct pj; [|done]. destruct (envelope_Validate _); [|done]. by intros [= <-].
Qed.

(** The row of a job that was published is open, whatever the update of its status
    answered. *)
Lemma submitted_open `{JSONText} f1 f2 u e now1 now2 t t1 :
  table_ok t -> submit_create f1 e now1 t = Ok t1 ->
  table_ok (submit_mark f2 (Ok u) e now2 t1).2 /\ open_row (submit_mark f2 (Ok u) e now2 t1).2 e.
Proof.
  intros Hok Hc. assert (Hs : jobstep t t1) by (apply map_err_Ok in Hc; by eapply jb_create).
  destruct (moves_job _ _ Hs Hok) as [Hok1 _].
  apply map_err_Ok, map_err_Ok, with_fault_Ok in Hc as [_ (_ & -> & _)%insert_job_Ok]. cbn [submit_mark fst snd].
  set (t1 := <[_ := _]> t) in *.
  assert (Hrow : t1 !! en_ID e = Some (inserted (NewPublishingJob e now1))) by (unfold t1; by rw lookup_insert_eq).
  destruct (MarkQueued f2 (en_ID e) now2 t1) as [t2|] eqn:E.
  - assert (Hs2 : jobstep t1 t2) by (by eapply jb_queued). split; [by apply (moves_job _ _ Hs2)|].
    apply scanOptionalID_Ok in E as [->|E]; [intros j; rw Hrow; by intros [= <-]|].
    apply with_fault_Ok in E as [_ E]. apply update_job_Ok in E as (j & Hj & _ & -> & _). intros j'.
    assert (j = inserted (NewPublishingJob e now1)) as -> by congruence. rw lookup_insert_eq. by intros [= <-].
  - split; [done|]. intros j. rw Hrow. by intros [= <-].
Qed.

(** ** The attempts of a worker *)

Section jobs.
Context `{PgUUID} `{UnicodeTables}.
Context (text_le : string -> string -> bool) (zone : Z) (local : Z -> Z) (tempDir directory : string).
(** What each attempt meets, the projects, and the tables of the analytics service. *)
Context (env : Z -> Report.report_env) (projects : list string) (d : Analytics.db) (other : ports).

#[local] Abbreviation generate k := (Report.Generate text_le zone local tempDir directory (env k)).
#[local] Abbreviation path_of e p := (Report.report_path directory (en_ID e) (Report.report_format p)).

(** The worker with this generator. *)
Definition attempt (e : Envelope) (k : Z) : res Result :=
  Process (mkPorts (Worker.Deliver other) (fun jobID payload => (generate k jobID payload projects d).1) (CleanupExpiredTokens other)) e.

(** The files after the first attempts. *)
Fixpoint files_after (fs : files) (e : Envelope) (p : ReportPayload) (n : nat) : files :=
  match n with
  | O => fs
  | S m => fs_run (files_after fs e p m) (generate (Z.of_nat n) (en_ID e) p projects d).2
  end.

Section request.
Context (s : submit_env) (input : SubmitReportInput) (p : ReportPayload) (e : Envelope).
Hypothesis (Hp : NewReportPayload (ri_ProjectID input) (ri_From input) (ri_To input) (ri_Format input) = Ok p).
Hypothesis (He : submit_envelope TypeReportGenerate (json_Marshal p) (ri_MaxAttempts input) (se_id s) (se_now1 s) = Ok e).
Hypothesis (Hutf8 : utf8_valid (rp_ProjectID p) = true).

Lemma report_decodes : JSONFacts.compact (en_Payload e) /\ decodePayload (en_Payload e) = Ok p.
Proof.
  destruct (submit_envelope_payload _ _ _ _ _ _ He) as (Hm & _ & Hl & _).
  destruct (report_read p _ (accepted_report_safe _ _ _ _ _ Hp Hutf8) Hm) as [Hc Hd]. split; [done|]. by apply decodePayload_ok.
Qed.

Lemma attempt_generate k :
  attempt e k = ('(path, n) ← (generate k (en_ID e) p projects d).1; Ok (mkResult "report generated" path n)).
Proof.
  destruct (submit_envelope_payload _ _ _ _ _ _ He) as (_ & Ht & _). unfold attempt, Process.
  rw Ht (proj2 report_decodes). done.
Qed.

Hypothesis (Hdir : directory <> "") (Htemp : forall k n, Report.ge_temp (env k) = Ok n -> 0 <= n).

(** An attempt that fails leaves the file, and one that succeeds writes it. *)
Lemma generate_final k fs :
  match generate k (en_ID e) p projects d with
  | (Ok (path, count), ops) =>
    path = path_of e p /\ exists rows text, Report.loadRows text_le zone None p d = Ok rows /\ count = Z.of_nat (length rows) /\
      Report.complete local (env k) p rows text /\ fs_run fs ops !! path = Some text
  | (Err _, ops) => fs_run fs ops !! path_of e p = fs !! path_of e p
  end.
Proof.
  destruct (generate k (en_ID e) p projects d) as [r ops] eqn:E. destruct (Report.ge_temp (env k)) as [n|err] eqn:Et.
  - pose proof (Report.Generate_outcome _ _ _ _ _ _ _ _ _ _ fs _ _ _ Hdir Et (Htemp _ _ Et) E) as Ho.
    destruct r as [[path count]|]; [|apply Ho]. destruct Ho as (-> & rows & text & Hl & Hc & Hw & Hf & _). split; [done|].
    exists rows, text. split; [|done]. revert Hl. unfold Report.loadRows. by destruct (Report.ge_rows (env k)) as [[]|].
  - revert E. unfold Report.Generate, Report.publish. rw Et.
    repeat (case_match; try (by intros [= <- <-])).
Qed.

Lemma files_failed fs k :
  (forall i, 1 <= i <= Z.of_nat k -> exists err, (generate i (en_ID e) p projects d).1 = Err err) ->
  files_after fs e p k !! path_of e p = fs !! path_of e p.
Proof.
  induction k as [|k IH]; [done|]. intros Hf. cbn [files_after].
  pose proof (generate_final (Z.of_nat (S k)) (files_after fs e p k)) as Hg. destruct (Hf (Z.of_nat (S k))) as [err Herr]; [lia|].
  destruct (generate _ _ _ _ _) as [r ops]. cbn in Herr. subst r. cbn [snd]. rw Hg. apply IH. intros i Hi. apply Hf. lia.
Qed.

(** The message carries the envelope. *)
Lemma envelope_carried body : json_Marshal e = Ok body -> json_Unmarshal body = Ok e.
Proof.
  intros Hm. apply (envelope_read e body); [|exact Hm]. pose proof (submit_envelope_max _ _ _ _ _ _ He) as Hmax.
  destruct (submit_envelope_payload _ _ _ _ _ _ He) as (_ & Ht & _). destruct (submit_envelope_first _ _ _ _ _ _ He) as [Hv Ha].
  pose proof (submit_envelope_ID _ _ _ _ _ _ He) as Hid. apply andb_true_iff in Hid as [_ Hid].
  unfold envelope_safe. rw Ht Hv Ha. unfold int64_range, min_int64, max_int64, max_int32 in *. unfold SchemaVersion.
  split; [by split|]. split; [lia|apply report_decodes].
Qed.

Lemma accepted_message t t2 receipt m :
  SubmitReport s input t = (Ok receipt, t2, Some m) -> table_ok t ->
  carries (pg_Body m) e /\ rc_ID receipt = en_ID e /\ table_ok t2 /\ open_row t2 e.
Proof.
  unfold SubmitReport, submit. rw Hp He. destruct (submit_create _ _ _ _) as [t1|] eqn:Ec; [|done].
  unfold Publish. destruct (envelope_Validate e) as [[]|] eqn:Ev; [|done]. 
  destruct (json_Marshal e) as [body|] eqn:Em; [|done]. pose proof (envelope_carried body Em) as Hu.
  destruct (pe_closed (se_publish s)); [done|].
  destruct (pe_stored (se_publish s)), (pe_send (se_publish s)) as [[]|], (pe_wait (se_publish s)) as [[]|]; try done.
  intros [= <- <- <-] Hok. split; [by split|]. split; [done|]. exact (submitted_open (se_f1 s) (se_f2 s) tt e _ _ t t1 Hok Ec).
Qed.

Hypothesis (Hpath : pg_text (path_of e p) = true).
Hypothesis (Herr : forall k err, (generate k (en_ID e) p projects d).1 = Err err -> pg_text (NormalizeFailureMessage (Error err)) = true).

Lemma report_storable : storable e attempt.
Proof.
  split; [by eapply submit_envelope_ID| |by eapply submit_envelope_max|].
  - destruct (submit_envelope_payload _ _ _ _ _ _ He) as (_ & -> & _). reflexivity.
  - intros k. rw attempt_generate. pose proof (generate_final k ∅) as Hg. specialize (Herr k).
    destruct (generate k (en_ID e) p projects d) as [[[path count]|err] ops]; cbn in *.
    + destruct Hg as [-> _]. by split.
    + by apply Herr.
Qed.

End request.
End jobs.

(** ** Examples *)

Module Example.
Import AnalyticsQueries.Example.
#[local] Instance texts : UnicodeTables := {| unicode_lower s := s; unicode_upper s := s; strconv_Quote s := s |}.
#[local] Existing Instance uuids.
(** A report of two minutes, asked for with three attempts. *)
Definition input1 : SubmitReportInput := mkReportInput p1 (t0 + Minute) (t0 + 2 * Minute) "csv" 3.
Definition report1 : ReportPayload := mkReport p1 (t0 + Minute) (t0 + 2 * Minute) "csv".
Definition envelope1 : Envelope :=
  ok_or (mkEnvelope 0 "" "" 0 0 0 "")
    (submit_envelope TypeReportGenerate (json_Marshal report1) 3 (Ok "0123456789abcdef") (t0 + Hour)).

Definition submit1 : submit_env :=
  mkSubmit (Ok "0123456789abcdef") (t0 + Hour) (t0 + Hour) None None (mkPublish false [] (Ok true) (Ok true) true).
Definition submitted1 := SubmitReport submit1 input1 ∅.
Definition message1 : Publishing := message_of envelope1 [] (ok_or "" (json_Marshal envelope1)).

(** The database is away at the first attempt. *)
Definition env1 (k : Z) : Report.report_env :=
  if k =? 1 then Report.mkReportEnv (Some (Opaque "connection refused")) None None (Ok 7) t0 None None None None true else Report.Example.os_ok.
Definition idle : ports := mkPorts (fun _ => Ok tt) (fun _ _ => Ok ("", 0)) (fun _ => Ok 0).

Lemma env1_errors k err :
  (Report.Generate Report.Example.all_le 0 Report.Example.utc "/tmp" "/data/reports" (env1 k)
     (en_ID envelope1) report1 [p1] d4).1 = Err err -> pg_text (NormalizeFailureMessage (Error err)) = true.
Proof. unfold env1. destruct (k =? 1); [intros E; vm_compute in E; injection E as <-; by vm_compute|intros E; by vm_compute in E]. Qed.

End Example.
End ReportJobs.
