(* ===== verification/Tracing.v ===== *)
(** Traces across the services (platform/tracing/propagation.go, and the spans of
    gateway/infrastructure/kafka, analytics/infrastructure/kafka,
    jobs/infrastructure/rabbitmq and jobworker/infrastructure/rabbitmq).

    The propagator of OpenTelemetry is a class: it writes the context of a span into
    named texts and reads it back from them.  The services put these texts among the
    headers of the messages they send and take them from the messages they receive;
    the theorem says that the span of the receiver continues the trace of the sender,
    whatever the broker adds to the headers. *)
From Stdlib Require Import Ascii ZArith Lia.
From Corelib Require Import ssreflect.
From stdpp Require Import base gmap strings list numbers pretty.
From S2P Require Import Prelude GoStrings GoTime GoEncoding GoNet GoFiles GoDate GoJSON Events GatewayRoutes RouteSources Postgres Gateway Jobs Wire JobHistory JobWorker Analytics Platform.

#[local] Open Scope Z_scope.

Module Tracing.
Import Jobs Worker.

(** ** Propagation *)

(** The texts of the composite propagator that Init installs. *)
Definition fields : list string := ["traceparent"; "tracestate"; "baggage"].

(** [C] are contexts; [trace_of] is the trace and span they carry, if any.  Documented:
    a propagator writes and reads only its fields, and reads back what it wrote. *)
Class Propagator (C : Type) := {
  Background : C;
  trace_of : C -> option (string * string);
  propagator_Inject : C -> list (string * string);
  propagator_Extract : C -> gmap string string -> C;
}.
Class PropagatorLaws (C : Type) `{Propagator C} := {
  inject_fields c : Forall (fun nv => nv.1 ∈ fields) (propagator_Inject c);
  inject_NoDup c : NoDup (propagator_Inject c).*1;
  extract_fields base m m' :
    (forall k, k ∈ fields -> m !! k = m' !! k) -> propagator_Extract base m = propagator_Extract base m';
  extract_inject base c :
    is_Some (trace_of c) -> trace_of (propagator_Extract base (list_to_map (propagator_Inject c))) = trace_of c;
}.

Section propagation.
Context `{Propagator C}.

(** The texts in the order a range over the map yields them. *)
Definition Inject (ctx : C) : list (string * string) := propagator_Inject ctx.
Definition Extract (ctx : option C) (headers : gmap string string) : C :=
  propagator_Extract (default Background ctx) headers.

(** ** Spans of messages *)

Inductive attribute := AttrString (s : string) | AttrInt (z : Z) | AttrBool (b : bool).
Record message_span := mkMessageSpan {
  ms_parent : C; ms_name : string; ms_attributes : list (string * attribute);
  ms_errors : list error; ms_status : option string
}.
Definition started (parent : C) (name : string) (attributes : list (string * attribute)) : message_span :=
  mkMessageSpan parent name attributes [] None.
Definition RecordError (err : error) (status : string) (s : message_span) : message_span :=
  mkMessageSpan (ms_parent s) (ms_name s) (ms_attributes s) (ms_errors s ++ [err]) (Some status).
Definition SetAttribute (k : string) (v : attribute) (s : message_span) : message_span :=
  mkMessageSpan (ms_parent s) (ms_name s) (ms_attributes s ++ [(k, v)]) (ms_errors s) (ms_status s).
(** The deferred function: the error that is returned is recorded. *)
Definition ended (result : res unit) (s : message_span) : message_span :=
  match result with Err err => RecordError err (Error err) s | Ok _ => s end.

(** *** Jobs *)

(** Publish in its span; an invalid envelope is refused before there is one. *)
Definition publish_span `{JSONText} `{JSONCodec Envelope} (ctx : C) (exchange : string) (p : publish_env) (e : Envelope) : option message_span :=
  match envelope_Validate e with
  | Err _ => None
  | Ok _ =>
    Some (ended (Publish p e).1
      (started ctx ("rabbitmq publish " +:+ en_Type e)
        [("messaging.system", AttrString "rabbitmq"); ("messaging.destination.name", AttrString exchange);
         ("messaging.operation.type", AttrString "send"); ("messaging.message.id", AttrString (en_ID e));
         ("messaging.rabbitmq.routing_key", AttrString (en_Type e))]))
  end.

(** The headers of a delivery that are texts. *)
Definition text_header (v : amqp_value) : option string :=
  match v with AString s => Some s | ABytes s => Some s | _ => None end.
Definition delivery_headers (headers : gmap string amqp_value) : gmap string string := omap text_header headers.

(** [handle]: the span, and what [handleDelivery] does in it. *)
Definition handle `{JSONText} `{JSONCodec Envelope} (ctx : C) (queue type_ messageID routingKey : string) (e : delivery_env)
    (d : Delivery) (process : Envelope -> Z -> res Result) (t : table)
    : message_span * (res unit * option action * bool * table) :=
  let ctx := Extract (Some ctx) (delivery_headers (dl_Headers d)) in
  let attempt := deliveryAttempt (dl_Headers d) in
  let span := started ctx ("rabbitmq process " +:+ type_)
    [("messaging.system", AttrString "rabbitmq"); ("messaging.destination.name", AttrString queue);
     ("messaging.operation.type", AttrString "process"); ("messaging.message.id", AttrString messageID);
     ("messaging.rabbitmq.routing_key", AttrString routingKey); ("edgeguard.job.attempt", AttrInt attempt)] in
  let handled := handleDelivery e d process t in
  (ended handled.1.1.1 span, handled).

(** *** Access events *)

(** The span PublishGatewayAccess starts and that ends in the callback of the delivery,
    with the error of building the record or of delivering it. *)
Definition access_span (ctx : C) (topic : string) (event : GatewayAccessEvent) (built delivered : res unit) : message_span :=
  let span := started ctx ("kafka publish " +:+ topic)
    [("messaging.system", AttrString "kafka"); ("messaging.destination.name", AttrString topic);
     ("messaging.operation.type", AttrString "send"); ("messaging.message.id", AttrString (ev_EventID event))] in
  match built with
  | Err err => RecordError err (Error err) span
  | Ok _ => ended delivered span
  end.

(** The headers of a record, a later one of the same name winning. *)
Definition record_headers (headers : list (string * string)) : gmap string string :=
  foldl (fun h nv => <[nv.1 := nv.2]> h) ∅ headers.

(** handleRecord in its span. *)
Definition record_span `{Analytics.EventJSON} `{UnicodeTables} `{PgUUID} (ctx : C) (r : kafka_record) (partition offset : Z)
    (maxAttempts retryMin retryMax : Z) (env : Z -> Analytics.attempt_env) (c : Analytics.commit_env) (d : Analytics.db)
    : message_span * (res unit * Analytics.db * bool) :=
  let ctx := Extract (Some ctx) (record_headers (kr_Headers r)) in
  let span := started ctx ("kafka process " +:+ kr_Topic r)
    [("messaging.system", AttrString "kafka"); ("messaging.destination.name", AttrString (kr_Topic r));
     ("messaging.operation.type", AttrString "process"); ("messaging.kafka.partition", AttrInt partition);
     ("messaging.kafka.offset", AttrInt offset)] in
  let handled := Analytics.handleRecord maxAttempts retryMin retryMax env c (kr_Value r) d in
  let invalid err := RecordError err "invalid gateway access event" in
  let span :=
    match Analytics.decodeGatewayAccessEvent (kr_Value r) with
    | Err err => invalid err span
    | Ok event =>
      let span := SetAttribute "messaging.message.id" (AttrString (ev_EventID event)) span in
      match (Analytics.processWithRetry maxAttempts retryMin retryMax env event d).1.1.1 with
      | Err err => if errors_Is err Analytics.ErrInvalidGatewayAccessEvent then invalid err span else span
      | Ok result =>
        if Analytics.ir_Duplicate result then SetAttribute "edgeguard.analytics.duplicate" (AttrBool true) span else span
      end
    end in
  (ended handled.1.1 span, handled).

(** *** Requests *)

(** WrapHTTPHandler: whether a request gets a span, and its first name. *)
Definition request_span (method path : string) : option string :=
  if Platform.isInfrastructurePath path then None else Some (method +:+ " " +:+ path).
End propagation.

(** ** Properties *)

(** The texts inserted one by one are those of their map. *)
Lemma foldl_headers {A} (g : string -> A) (l : list (string * string)) (k : string) : NoDup l.*1 -> forall base : gmap string A,
  foldl (fun h nv => <[nv.1 := g nv.2]> h) base l !! k =
  match (list_to_map l : gmap string string) !! k with Some v => Some (g v) | None => base !! k end.
Proof.
  induction l as [|[n v] l IH]; [done|]. cbn. intros [Hn Hl]%NoDup_cons base. rw IH //.
  destruct (decide (n = k)) as [->|Hk].
  - rw lookup_insert_eq (not_elem_of_list_to_map_1 _ _ Hn). by rw lookup_insert_eq.
  - by rw !lookup_insert_ne.
Qed.

Section laws.
Context `{PropagatorLaws C}.

Lemma inject_other (ctx : C) k : k ∉ fields -> (list_to_map (Inject ctx) : gmap string string) !! k = None.
Proof.
  intros Hk. apply not_elem_of_list_to_map_1. intros ([n v] & -> & Hin)%list_elem_of_fmap.
  apply Hk. exact (proj1 (list.Forall_forall _ _) (inject_fields ctx) _ Hin).
Qed.

(** Headers that agree with what was injected continue its trace. *)
Lemma extract_headers (ctx base : C) (headers : gmap string string) :
  is_Some (trace_of ctx) -> (forall k, k ∈ fields -> headers !! k = (list_to_map (Inject ctx) : gmap string string) !! k) ->
  trace_of (Extract (Some base) headers) = trace_of ctx.
Proof. intros Ht Hh. unfold Extract. cbn. rw (extract_fields base headers _ Hh). by apply extract_inject. Qed.

Lemma delivered_headers (ctx : C) e body count k :
  k ∈ fields ->
  delivery_headers (dl_Headers (delivery_of (message_of e (Inject ctx) body) count)) !! k =
  (list_to_map (Inject ctx) : gmap string string) !! k.
Proof.
  intros Hk. unfold delivery_headers. rw lookup_omap.
  assert (Hh : dl_Headers (delivery_of (message_of e (Inject ctx) body) count) !! k = pg_Headers (message_of e (Inject ctx) body) !! k).
  { unfold delivery_of. cbn. destruct (count =? 0); [rw lookup_delete_ne //|rw lookup_insert_ne //]; set_solver. }
  rw Hh. unfold message_of. cbn [pg_Headers]. rw foldl_headers; [apply inject_NoDup|].
  destruct (list_to_map (Inject ctx) !! k); [done|]. rw !lookup_insert_ne; [set_solver..|]. done.
Qed.

Lemma recorded_headers (ctx : C) marshal topic event r k :
  accessEventRecord marshal (Inject ctx) topic event = Ok r -> k ∈ fields ->
  record_headers (kr_Headers r) !! k = (list_to_map (Inject ctx) : gmap string string) !! k.
Proof.
  unfold accessEventRecord. destruct (marshal event); [|done]. intros [= <-] Hk. unfold record_headers. cbn [kr_Headers].
  pose proof (foldl_headers (fun v => v) (Inject ctx) k (inject_NoDup ctx)) as Hf. cbn beta in Hf.
  cbn [app foldl]. rw Hf. destruct (list_to_map (Inject ctx) !! k); [done|].
  cbn [fst snd]. rw !lookup_insert_ne; [set_solver..|]. done.
Qed.

Lemma ended_parent (r : res unit) (s : @message_span C) : ms_parent (ended r s) = ms_parent s.
Proof. by destruct r. Qed.

Lemma ended_status (r : res unit) (s : @message_span C) : ms_status s = None -> (ms_status (ended r s) = None <-> r = Ok tt).
Proof. destruct r as [[]|err]; cbn; naive_solver. Qed.

Lemma Publish_stored `{JSONText} `{JSONCodec Envelope} p e m : (Publish p e).2 = Some m -> exists body, m = message_of e (pe_trace p) body.
Proof.
  unfold Publish. destruct (envelope_Validate e); [|done]. destruct (json_Marshal e) as [body|]; [|done]. destruct (pe_closed p); [done|].
  exists body. destruct (pe_stored p), (pe_send p) as [[]|], (pe_wait p) as [[]|]; cbn in *; congruence.
Qed.

Section messages.
Context `{JSONText} `{JSONCodec Envelope} `{Analytics.EventJSON} `{UnicodeTables} `{PgUUID}.

End messages.
End laws.

(** ** Examples *)

Module Example.
Import Wire JobHistory.Example Worker.Example.
Definition comma : ascii := ","%char.

(** Contexts with at most a trace and a span, written as one field. *)
Definition text_of (c : option (string * string)) : list (string * string) :=
  match c with Some (t, s) => [("traceparent", Join [hex_encode t; hex_encode s] comma)] | None => [] end.
Definition of_text (v : string) : option (string * string) :=
  match Split v comma with [t; s] => Some (default "" (hex_decode t), default "" (hex_decode s)) | _ => None end.
#[local] Instance one_field : Propagator (option (string * string)) := {|
  Background := None; trace_of c := c; propagator_Inject := text_of;
  propagator_Extract base m := match m !! "traceparent" with Some v => of_text v | None => base end
|}.
Lemma hex_no_comma s : no_byte comma (hex_encode s) = true.
Proof. eapply all_bytes_impl; [|apply hex_encode_token]. intros a Ha. apply negb_true_iff, Ascii.eqb_neq. by intros ->. Qed.
#[local] Instance one_field_laws : PropagatorLaws (option (string * string)).
Proof.
  split.
  - intros [[t s]|]; cbn; [|apply Forall_nil_2]. apply Forall_cons. split; [cbn; set_solver|apply Forall_nil_2].
  - intros [[t s]|]; cbn; [apply NoDup_singleton|apply NoDup_nil_2].
  - intros base m m' Hm. cbn. by rw Hm; [set_solver|].
  - intros base [[t s]|] Hc; [clear Hc|by destruct Hc]. cbn [propagator_Extract propagator_Inject trace_of one_field text_of list_to_map foldr].
    rw lookup_insert_eq. unfold of_text. rw Split_Join; [done| |by rw !hex_decode_encode].
    apply list.Forall_forall. set_unfold. intros x [->|[->|[]]]; apply hex_no_comma.
Qed.

Definition ctx1 : option (string * string) := Some ("4bf92f3577b34da6", "00f067aa0ba902b7").
Definition publish1 : publish_env := mkPublish false (Inject ctx1) (Ok true) (Ok true) true.
Definition traced1 : Publishing := message_of envelope1 (Inject ctx1) body1.
Definition event1 : GatewayAccessEvent :=
  mkEvent 1 "0b7a4c1e2d3f405162738495a6b7c8d9" (unix_epoch + Hour) "r-1" sample_project "orders" "/orders" "GET" "/orders/7" 200 12 5
    "ip" "10.0.0.7" false false false.
#[local] Instance events : Analytics.EventJSON := {| Analytics.event_Unmarshal := unmarshal_event |}.
#[local] Instance texts : UnicodeTables := ascii_tables.
#[local] Instance uuids : PgUUID := canonical_uuids.
End Example.
End Tracing.
