(* ===== verification/PublishedRoutes.v ===== *)
(** Services together: the routes of the control plane in a gateway.

    The handler of the control plane that publishes routes answers the request the
    client of the gateway sends, as JSON within the limit of the client; the refresh puts
    the decoded snapshot into the repository, and requests are resolved with it.  The
    theorem says which request is served by which route, in terms of the tables of the
    control plane only. *)
From Stdlib Require Import Ascii ZArith Lia.
From Corelib Require Import ssreflect.
From stdpp Require Import base gmap strings list numbers relations pretty.
From S2P Require Import Prelude GoStrings GoTime GoEncoding GoNet GoJSON Events GatewayRoutes RouteSources Postgres ControlPlane Wire.

#[local] Open Scope Z_scope.

Module PublishedRoutes.
Import CP Wire.

Section published.
Context `{PgUUIDLaws} `{NetURL} `{UnicodeTables} `{RouteRepositoryLaws W}.

(** The control plane as the HTTP client of the gateway sees it. *)
Definition controlplane_server (order : list GatewayRoute -> list GatewayRoute) (f : fault) (d : db) : res Response :=
  Ok (match listGatewayRoutes order f d with
      | JSONOk status body => mkResponse status (mkStream (json_body (gatewayRoutes_text body)) None)
      | JSONError status message => mkResponse status (mkStream (json_body (error_text message)) None)
      end).

(** A refresh of a gateway that asks it. *)
Definition refresh_from (order : list GatewayRoute -> list GatewayRoute) (f : fault) (d : db) (w : W) : res Z * W :=
  RefreshRoutes (Some (client_ListRoutes (Ok tt) (controlplane_server order f d))) w.

(** The answer is below the limit of the client. *)
Definition fits (l : list GatewayRoute) : Prop :=
  (N.of_nat (String.length (json_body (gatewayRoutes_text (newGatewayRouteListResponse l)))) < maxResponseSize)%N.

(** The row serves the path: it matches, and no longer prefix does. *)
Definition serves (d : db) (path : string) (g : GatewayRoute) : Prop :=
  g ∈ gateway_rows d /\ Matches (to_route g) path = true /\
  forall g', g' ∈ gateway_rows d -> Matches (to_route g') path = true ->
    len (rt_PathPrefix (to_route g')) <= len (rt_PathPrefix (to_route g)).

Lemma row_json d g : db_ok d -> g ∈ gateway_rows d -> json_route (newGatewayRouteResponse g) = true.
Proof.
  intros [Hss Hrs _ _ _ _ _] (r & s & Hr & Hs & ->)%gateway_rows_elem.
  destruct (proj1 (list.Forall_forall _ _) Hss s Hs) as [Spid _ _ _ Surl].
  destruct (proj1 (list.Forall_forall _ _) Hrs r Hr) as [[_ Rname] _ Rpre Rto _ [Rq Rw]].
  apply isCanonicalUUID_token, token_pg_text in Spid. unfold storable, pg_text in *.
  apply andb_true_iff in Spid as [_ Spid], Surl as [_ Surl], Rname as [_ Rname], Rpre as [_ Rpre].
  unfold json_route. cbn. rw Spid Surl Rname Rpre. unfold int32_range, int64_range, min_int64, max_int64, max_int32 in *.
  by rw !bool_decide_eq_true_2; [lia..|].
Qed.

(** What the client makes of the answer. *)
Lemma client_reads order d :
  db_ok d -> (forall l, order l ≡ₚ l) -> fits (order (gateway_rows d)) ->
  client_ListRoutes (Ok tt) (controlplane_server order None d) =
    responseToDomain (received <$> newGatewayRouteListResponse (order (gateway_rows d))).
Proof.
  intros Hd Ho Hf. unfold client_ListRoutes, controlplane_server, listGatewayRoutes, ListGatewayRoutes.
  cbn [with_fault map_err listed res_StatusCode res_Body].
  destruct (routes_read (newGatewayRouteListResponse (order (gateway_rows d)))) as (rest & E & Hm); [|exact Hf|].
  - apply forallb_forall. intros x (g & <- & Hg)%in_map_iff. apply (row_json d); [done|].
    apply list_elem_of_In in Hg. by rw Ho in Hg.
  - change (200 =? 200) with true. cbn [negb]. by rw E Hm.
Qed.

(** What it makes of a failed query. *)
Lemma client_refuses order err d : exists e, client_ListRoutes (Ok tt) (controlplane_server order (Some err) d) = Err e.
Proof.
  destruct (client_ListRoutes _ _) as [rs|e] eqn:E; [exfalso|by exists e].
  apply client_ListRoutes_Ok in E as (body & rest & response & E & _).
  unfold controlplane_server, listGatewayRoutes, ListGatewayRoutes in E. cbn in E. unfold handleError in E.
  by destruct (isValidationError _).
Qed.

(** The refresh, in terms of the client. *)
Lemma refresh_Ok order f d w rs :
  client_ListRoutes (Ok tt) (controlplane_server order f d) = Ok rs ->
  (refresh_from order f d w).1 = Ok (Z.of_nat (length rs)) /\ snapshot (refresh_from order f d w).2 = rs.
Proof. intros E. unfold refresh_from, RefreshRoutes. rw E. split; [done|]. apply ReplaceRoutes_snapshot. Qed.
Lemma refresh_Err order f d w e :
  client_ListRoutes (Ok tt) (controlplane_server order f d) = Err e ->
  refresh_from order f d w = (Err (wrapf "load route snapshot" e), w).
Proof. intros E. unfold refresh_from, RefreshRoutes. by rw E. Qed.

Lemma ResolveRoute_snapshot path (w : W) : (ResolveRoute path w).1 = resolve_routes (snapshot w) path.
Proof. unfold ResolveRoute. destruct (ListRoutes_snapshot w) as [E _]. destruct (GatewayRoutes.ListRoutes w) as [r w']. cbn in E. by subst r. Qed.

Section resolution.
Context (order : list GatewayRoute -> list GatewayRoute) (d : db) (path : string).
Hypothesis (Ho : forall l, order l ≡ₚ l) (Hdist : distinct_prefixes (to_route <$> order (gateway_rows d))).

Lemma published_elem r : r ∈ to_route <$> order (gateway_rows d) <-> exists g, g ∈ gateway_rows d /\ r = to_route g.
Proof.
  rw list_elem_of_fmap. split; intros (g & Hx & Hy); exists g.
  - by rw Ho in Hy.
  - by rw Ho.
Qed.

Lemma published_Ok r :
  resolve_routes (to_route <$> order (gateway_rows d)) path = Ok r <-> exists g, serves d path g /\ r = to_route g.
Proof.
  split.
  - intros (Hr & Hm & Hmax)%resolve_routes_longest. apply published_elem in Hr as (g & Hg & ->).
    exists g. split; [|done]. split_and!; [done..|]. intros g' Hg'. apply Hmax. apply published_elem. by exists g'.
  - intros (g & (Hg & Hm & Hmax) & ->). apply resolve_routes_unique; [done|apply published_elem; by exists g|done|].
    intros r' (g' & Hg' & ->)%published_elem. by apply Hmax.
Qed.

Lemma published_Err :
  resolve_routes (to_route <$> order (gateway_rows d)) path = Err ErrRouteNotFound <->
  forall g, g ∈ gateway_rows d -> Matches (to_route g) path = false.
Proof.
  split.
  - intros [_ Hn]%resolve_routes_Err g Hg. apply Hn, published_elem. by exists g.
  - intros Hn. destruct (resolve_routes _ path) as [r|e] eqn:E.
    + apply published_Ok in E as (g & (Hg & Hm & _) & _). by rw Hn in Hm.
    + by apply resolve_routes_Err in E as [-> _].
Qed.
End resolution.

(** C16: A gateway serves what the control plane stores.  Take the tables any history of
    requests to the control plane leaves, and a gateway that refreshes its routes from
    it.  If the query succeeds and the stored routes are fit to publish (every upstream
    http(s), no prefix of only slashes, normalised prefixes pairwise distinct), the
    refresh reports the number of enabled routes, and afterwards a request for a path is
    routed to exactly the enabled route of the tables that matches it with the longest
    prefix, with the project, upstream, timeout, authentication and rate limit stored
    for it; it finds no route exactly if no enabled route matches.  If the query fails
    or the stored routes are not fit to publish, the refresh fails and the gateway keeps
    routing as before. *)
Theorem published_routes_served order (f : fault) (d : db) (w : W) :
  rtc step empty_db d -> (forall l, order l ≡ₚ l) -> fits (order (gateway_rows d)) ->
  let result := refresh_from order f d w in
  (f = None -> publishable d ->
     result.1 = Ok (Z.of_nat (length (base.filter (fun r => r_Enabled r = true) (routes d)))) /\
     forall path,
       (forall r, (ResolveRoute path result.2).1 = Ok r <-> exists g, serves d path g /\ r = to_route g) /\
       ((ResolveRoute path result.2).1 = Err ErrRouteNotFound <->
        forall g, g ∈ gateway_rows d -> Matches (to_route g) path = false)) /\
  (f <> None \/ ~ publishable d -> (exists e, result.1 = Err e) /\ result.2 = w).
Proof.
  intros Hd Ho Hf result. destruct (snapshot_published d order Hd Ho) as (Hlen & Hpub & Hnot). split.
  - intros -> (E & Hdist & _)%Hpub. rw -client_reads in E; [by apply reachable_ok|done|done|].
    destruct (refresh_Ok order None d w _ E) as [E1 E2]. fold result in E1, E2. split.
    { rw E1 -Hlen. unfold newGatewayRouteListResponse. by rw !length_fmap. }
    intros path. rw ResolveRoute_snapshot E2. split; [intros r; by apply published_Ok|by apply published_Err].
  - intros Hbad. assert (exists e, client_ListRoutes (Ok tt) (controlplane_server order f d) = Err e) as [e E].
    { destruct f as [err|]; [apply client_refuses|]. destruct Hbad as [?|Hn]; [done|].
      destruct (Hnot Hn) as [e E]. exists e. by rw client_reads; [apply reachable_ok|..]. }
    unfold result. rw (refresh_Err _ _ _ _ _ E). split; [by eexists|done].
Qed.
End published.

(** ** Examples *)

Module Example.
#[local] Instance urls : NetURL := plain_url.
#[local] Instance texts : UnicodeTables := ascii_tables.

Definition d1 : db := shop "http://orders" "/orders/".
Definition row1 : GatewayRoute :=
  mkGatewayRoute (uuid_n "1") "orders" "/orders/" "http://orders" true 3000 true (mkRatePolicy true 100 60).
Definition w1 : mem_world := (refresh_from (fun l => l) None d1 (mkMem ∅ 0 None)).2.

Lemma rows1 : gateway_rows d1 = [row1].
Proof. reflexivity. Qed.
Lemma publishable1 : publishable d1.
Proof.
  unfold publishable. rw rows1. split; [|apply NoDup_singleton].
  apply Forall_cons. split; [|apply Forall_nil_2]. split; [by eexists; split; [vm_compute; reflexivity|]|by vm_compute].
Qed.

(** C16 at a control plane with one route, and a gateway that starts without any: the
    orders are routed, another path is not. *)
Lemma published_routes_served_witness :
  (ResolveRoute "/orders/7" w1).1 = Ok (to_route row1) /\ (ResolveRoute "/users" w1).1 = Err ErrRouteNotFound.
Proof.
  destruct (published_routes_served (fun l => l) None d1 (mkMem ∅ 0 None)) as [H _].
  - apply shop_reachable.
  - done.
  - unfold fits. rw rows1. vm_compute. done.
  - destruct (H eq_refl publishable1) as [_ Hp]. split.
    + apply (proj1 (Hp "/orders/7")). exists row1. split; [|done]. unfold serves. rw rows1.
      split; [by apply list_elem_of_here|]. split; [by vm_compute|]. intros g' ->%list_elem_of_singleton. done.
    + apply (proj2 (Hp "/users")). rw rows1. intros g ->%list_elem_of_singleton. by vm_compute.
Defined.
End Example.
End PublishedRoutes.
