(* ===== verification/Pipeline.v ===== *)
(** Services together: the access events of the gateway in the analytics service.

    A request the gateway serves is recorded in Kafka as JSON, and the consumers of the
    analytics service read the partition with retries, crashes and redeliveries; the
    theorem follows a request from the response it got to the row and the hourly
    aggregate that account for it. *)
From Stdlib Require Import Ascii ZArith Lia.
From Corelib Require Import ssreflect.
From stdpp Require Import base gmap strings list numbers relations pretty.
From S2P Require Import Prelude GoStrings GoTime GoEncoding GoNet GoDate GoJSON GoFiles Events GatewayRoutes RateLimit RouteSources Postgres Gateway Jobs Wire Analytics AnalyticsHistory.

#[local] Open Scope Z_scope.

Module Pipeline.
Import Analytics AnalyticsHistory.

(** The events are the ones of the wire. *)
#[export] Instance event_json : EventJSON := {| event_Unmarshal := Wire.unmarshal_event |}.

(** ** What it means that an event is accounted for *)

Section counted.
Context `{UnicodeTables}.

(** The row has what the event says. *)
Record row_of (e : GatewayAccessEvent) (row : stored) : Prop := {
  ro_id : so_EventID row = ev_EventID e;
  ro_at : so_OccurredAt row = pg_time (ev_OccurredAt e);
  ro_method : so_Method row = event_method e;
  ro_path : so_RequestPath row = ev_RequestPath e;
  ro_status : so_StatusCode row = ev_StatusCode e;
  ro_duration : so_DurationMS row = ev_DurationMS e;
  ro_bytes : so_ResponseBytes row = ev_ResponseBytes e;
  ro_limited : so_RateLimited row = ev_RateLimited e;
  ro_key : is_Some (key_of row) <-> shouldAggregate e = true;
}.

(** There is one row of its id, with what the event says, and when the event is of a
    route the aggregate of its hour is the tally of rows among which it is. *)
Definition counted (e : GatewayAccessEvent) (d : db) : Prop :=
  exists row, List.filter (fun r => bool_decide (so_EventID r = ev_EventID e)) (events d) = [row] /\ row_of e row /\
    (shouldAggregate e = true ->
     exists k, key_of row = Some k /\ row ∈ rows_of k (events d) /\ stats d !! k = Some (tally (rows_of k (events d)))).
End counted.

(** ** Rows and the records they come from *)

Section provenance.
Context `{UnicodeTables} `{PgUUID}.

Lemma insert_event_row e l row : insert_event e l = Ok (Some row) -> row_of e row.
Proof.
  intros Hi. pose proof (key_of_event _ _ _ Hi) as Ek. apply insert_event_Ok in Hi as (Hs & _ & -> & _). split; try done.
  rw Ek. destruct (shouldAggregate e) eqn:Es; [|by split; [intros [? ?]|]]. split; [done|]. intros _.
  apply fmap_is_Some. unfold storable_event in Hs. apply andb_true_iff in Hs as [_ Hs]. unfold shouldAggregate in Es.
  destruct (blank (ev_ProjectID e)); [done|]. by apply bool_decide_eq_true_1 in Hs.
Qed.

(** Every row of the new tables is old or of the event. *)
Definition adds (e : GatewayAccessEvent) (d d' : db) : Prop :=
  forall row, row ∈ events d' -> row ∈ events d \/ row_of e row.

Lemma adds_refl e d : adds e d d.
Proof. intros row Hr. by left. Qed.
Lemma adds_trans e d1 d2 d3 : adds e d1 d2 -> adds e d2 d3 -> adds e d1 d3.
Proof. intros H1 H2 row [Hr|]%H2; [by apply H1|by right]. Qed.

Lemma Process_adds f e d : adds e d (ProcessGatewayAccess f e d).2.
Proof.
  destruct (Process_cases f e d) as [->| ->]; [apply adds_refl|].
  destruct (Store_cases f e d) as [->|(row & st & Hi%insert_event_row & _ & ->)]; [apply adds_refl|].
  intros r [Hr|Hr%list_elem_of_singleton]%elem_of_app; [by left|right; by subst].
Qed.

Lemma retry_adds env e n mx m k delay d : adds e d (retry_loop n mx m env e k delay d).1.1.2.
Proof.
  revert k delay d. induction n as [|n IH]; intros k delay d; cbn [retry_loop]; [apply adds_refl|].
  pose proof (Process_adds (ae_store (env k)) e d) as Hp. destruct (ProcessGatewayAccess _ e d) as [r1 d1]. cbn in Hp.
  destruct r1 as [result|err]; [done|]. destruct (errors_Is err _); [done|]. destruct (ae_ctx (env k)); [done|].
  destruct (k =? mx); [done|]. destruct (ae_wait (env k)); [done|].
  specialize (IH (k + 1) (nextRetryDelay delay m) d1). destruct (retry_loop n mx m env e _ _ d1) as [[[r2 d2] c2] ds2].
  by eapply adds_trans.
Qed.

Context `{EventJSON}.

Lemma handleRecord_adds mx rmin rmax env c payload d r d' asked :
  handleRecord mx rmin rmax env c payload d = (r, d', asked) ->
  d' = d \/ exists e, decodeGatewayAccessEvent payload = Ok e /\ adds e d d'.
Proof.
  unfold handleRecord. destruct (decodeGatewayAccessEvent payload) as [e|]; [|intros [= <- <- <-]; by left].
  pose proof (retry_adds env e (Z.to_nat mx) mx rmax 1 rmin d) as Ha. unfold processWithRetry.
  destruct (retry_loop _ _ _ _ _ _ _ _) as [[[r1 d1] n] delays]. cbn in Ha. intros E. right. exists e. split; [done|].
  destruct r1 as [result|err]; [|destruct (errors_Is err _)]; by injection E as <- <- <-.
Qed.

(** The rows all come from records of the partition, and the tables are ones the
    ingestion reaches. *)
Definition sourced (s : ksys) : Prop :=
  rtc astep empty_db (k_db s) /\
  forall row, row ∈ events (k_db s) ->
    exists j payload e, k_log s !! j = Some payload /\ decodeGatewayAccessEvent payload = Ok e /\ row_of e row.

Lemma sourced_step mx rmin rmax s s' : kstep mx rmin rmax s s' -> sourced s -> sourced s'.
Proof.
  intros [payload log c pos d|log c pos d|i log c p1 p2 d|env ce payload r d' asked i log c p1 p2 d He Hl E] [Hd Hs];
    unfold sourced in *; cbn [k_db k_log] in *; [|by split..|].
  - split; [done|]. intros row (j & p & e & Hj & ?)%Hs. exists j, p, e. split; [by apply lookup_app_l_Some|done].
  - destruct (handleRecord_spec _ _ _ _ _ _ _ _ _ _ He E) as (Hr & _). split; [by etrans|].
    destruct (handleRecord_adds _ _ _ _ _ _ _ _ _ _ E) as [->|(e & Ed & Ha)]; [done|].
    intros row [Hrow|Hrow]%Ha; [by apply Hs|]. by exists i, payload, e.
Qed.

Lemma sourced_reachable mx rmin rmax s : rtc (kstep mx rmin rmax) (mkK [] 0 [] empty_db) s -> sourced s.
Proof.
  intros Hr. cut (sourced (mkK [] 0 [] empty_db)); [revert Hr; generalize (mkK [] 0 [] empty_db); induction 1; eauto using sourced_step|].
  split; [apply rtc_refl|]. cbn. intros row Hrow. by apply elem_of_nil in Hrow.
Qed.

(** No other event of the partition has the id of this one; the same event may well be
    there several times. *)
Definition own_id (e : GatewayAccessEvent) (log : list string) : Prop :=
  forall j payload e', log !! j = Some payload -> decodeGatewayAccessEvent payload = Ok e' ->
    ev_EventID e' = ev_EventID e -> e' = e.

Lemma filter_key {A} (key : A -> string) l x :
  NoDup (key <$> l) -> x ∈ l -> List.filter (fun r => bool_decide (key r = key x)) l = [x].
Proof.
  intros Hn Hx. induction l as [|a l IH]; [by apply elem_of_nil in Hx|]. cbn in *. apply NoDup_cons in Hn as [Ha Hn].
  apply elem_of_cons in Hx as [->|Hx].
  - rw bool_decide_eq_true_2 //. f_equal. clear -Ha. induction l as [|b l IH]; [done|]. cbn in *.
    rw bool_decide_eq_false_2; [set_solver|]. apply IH. set_solver.
  - rw bool_decide_eq_false_2; [|by apply IH]. intros E. apply Ha. rw E. by apply list_elem_of_fmap_2.
Qed.

Lemma committed_counted mx rmin rmax s i payload e :
  rtc (kstep mx rmin rmax) (mkK [] 0 [] empty_db) s -> k_log s !! i = Some payload ->
  decodeGatewayAccessEvent payload = Ok e -> own_id e (k_log s) -> (i < k_committed s)%nat -> counted e (k_db s).
Proof.
  intros Hr Hl Hd Hown Hi. destruct (sourced_reachable _ _ _ _ Hr) as [[Hids Hst Hrows]%exact_reachable Hs].
  destruct (committed_past mx rmin rmax handled) with s i as (payload' & Hl' & Hh); [intros ???; apply handled_grow| |done..|].
  { intros env ce p d r d' He E e' Ee. destruct (handleRecord_spec _ _ _ _ _ _ _ _ _ _ He E) as (_ & Ht & _).
    exact (proj1 (Ht eq_refl e' Ee)). }
  assert (payload' = payload) as -> by congruence. apply Hh in Hd as (row & Eid & Hrow)%list_elem_of_fmap.
  destruct (Hs row Hrow) as (j & p & e' & Hj & He' & Hro).
  assert (e' = e) as -> by (eapply Hown; [done..|]; rw -(ro_id _ _ Hro); congruence).
  exists row. split; [rw Eid; by apply filter_key|]. split; [done|]. intros [k Hk]%(ro_key _ _ Hro). exists k.
  assert (Hin : row ∈ rows_of k (events (k_db s))).
  { unfold rows_of. apply list_elem_of_In, filter_In. split; [by apply list_elem_of_In|]. by apply bool_decide_eq_true_2. }
  split; [done|]. split; [done|]. rw Hst. unfold aggregate. destruct (rows_of k _); [by apply elem_of_nil in Hin|done].
Qed.
End provenance.

(** ** The theorem *)

Section served.
Context `{RouteRepositoryLaws R} {RS : Type} `{JSONDecoder validateAPIKeyResponse}.
Context `{UnicodeTables} `{PgUUID}.
Context (Do : Header -> res Response).
Context (limiter : option (RateLimitRequest -> RS -> res RateLimitResult * RS)).
Context (inject : list (string * string)) (topic : string).
Context (proxy : request -> Route -> list write_op).
Context (Hproxy : forall r rt, Forall good_op (proxy r rt)).
Context (mx rmin rmax : Z).

#[local] Instance uc_kafka : GatewayUsecase (gw_world R RS (list kafka_record)) :=
  gateway_usecase (Some (client_ValidateAPIKey (Ok tt) Do)) limiter
    (Some (PublishGatewayAccess Wire.event_text inject topic)).

Lemma record_decodes event record :
  Wire.json_event event = true -> event_valid event -> accessEventRecord Wire.event_text inject topic event = Ok record ->
  decodeGatewayAccessEvent (kr_Value record) = Ok event.
Proof.
  intros Hj Hv. unfold accessEventRecord. destruct (Wire.event_text event) as [payload|] eqn:Em; [|done].
  intros [= <-]. cbn [kr_Value]. unfold decodeGatewayAccessEvent. cbn [event_Unmarshal event_json]. rw (Wire.event_read _ _ Hj Em).
  by rw (proj2 (event_Validate_spec event) Hv).
Qed.

(** Events of the years JSON can write are marshaled. *)
Lemma event_marshals t : 0 <= Date.year_of t < 10000 -> forall e, ev_OccurredAt e = t -> is_ok (Wire.event_text e) = true.
Proof.
  intros Hy e <-. unfold Wire.event_text, JSON.time_text. assert ((0 <=? Date.year_of (ev_OccurredAt e)) && (Date.year_of (ev_OccurredAt e) <? 10000) = true) as -> by lia.
  done.
Qed.

End served.

(** ** Examples *)

Module Example.
(** A request to a route, and what the gateway hands to Kafka. *)
#[local] Instance texts : UnicodeTables := ascii_tables.
#[local] Instance uuids : PgUUID := canonical_uuids.
#[local] Instance principals : JSONDecoder validateAPIKeyResponse := Gateway.principal_decoder sample_project.

Definition request1 : context := sample_context "/orders/7".
Definition served1 : context * gw_world mem_world (gmap string key_state) (list kafka_record) :=
  @serve _ (uc_kafka (auth_replies 200) sample_limiter [] "access") len (fun _ => "5ms") sample_readings ok_proxy request1 sample_gw.
Definition payload1 : string := default "" (kr_Value <$> head (gw_publisher served1.2)).
Definition event1 : GatewayAccessEvent :=
  match event_Unmarshal payload1 with Ok e => e | Err _ => mkEvent 0 "" 0 "" "" "" "" "" "" 0 0 0 "" "" false false false end.

Lemma payload1_decodes : decodeGatewayAccessEvent payload1 = Ok event1.
Proof. vm_compute. reflexivity. Qed.
Lemma event1_json : Wire.json_event event1 = true.
Proof. vm_compute. reflexivity. Qed.
Lemma event1_routed : shouldAggregate event1 = true.
Proof. vm_compute. reflexivity. Qed.

(** The record is appended, read by a consumer whose first transaction is lost after
    its commit, retried and committed. *)
Definition calm : store_env := mkStore None None None Committed.
Definition lost : store_env := mkStore None None None (CommitFailed (Opaque "connection reset") true).
Definition env1 (k : Z) : attempt_env := mkAttempt (if k =? 1 then lost else calm) None None.
Lemma env1_honest : honest_env env1.
Proof. intros k. unfold env1. destruct (k =? 1); (split_and!; [split|..]); intros e; try done. cbn. by intros a [= <- _]. Qed.
Definition commit1 : commit_env := mkCommit "access" 0 0 None None true.
Definition handled1 := handleRecord 5 Second (30 * Second) env1 commit1 payload1 empty_db.
Definition s1 : ksys := mkK [payload1] 1 [1%nat] handled1.1.2.

Lemma handled1_result : handled1.1.1 = Ok tt.
Proof. vm_compute. reflexivity. Qed.
Lemma handled1_asked : handled1.2 = true.
Proof. vm_compute. reflexivity. Qed.
Lemma handled1_eq : handled1 = (Ok tt, handled1.1.2, true).
Proof. move: handled1_result handled1_asked. generalize handled1. by intros [[r d] a] [= ->] [= ->]. Qed.

Lemma s1_reachable : rtc (kstep 5 Second (30 * Second)) (mkK [] 0 [] empty_db) s1.
Proof.
  apply rtc_l with (mkK [payload1] 0 [] empty_db); [apply (ks_append _ _ _ payload1 [])|].
  apply rtc_l with (mkK [payload1] 0 [0%nat] empty_db); [apply ks_join|]. apply rtc_once.
  exact (ks_handle _ _ _ env1 commit1 payload1 _ _ _ 0 [payload1] 0 [] [] empty_db env1_honest eq_refl handled1_eq).
Qed.

Lemma own_id_single payload e : decodeGatewayAccessEvent payload = Ok e -> own_id e [payload].
Proof. intros Hd [|j] p e' Hj He' _; [|done]. injection Hj as <-. congruence. Qed.

Lemma ok_proxy_good r rt : Forall good_op (ok_proxy r rt).
Proof. unfold ok_proxy. rw !Forall_cons. by repeat split; try lia. Qed.
Lemma sample_projects : Forall (fun r => project_ok (rt_ProjectID r)) (snapshot (gw_repo sample_gw)).
Proof.
  change (snapshot (gw_repo sample_gw)) with [public_route; orders_route].
  rw !Forall_cons. split; [|split]; [right; by vm_compute..|apply Forall_nil_2].
Qed.
Lemma sample_readings_ok : readings_ok sample_readings.
Proof.
  unfold readings_ok, sample_readings. cbn [rd_completed rd_start rd_since rd_rand_request rd_rand_event].
  unfold of_UnixMilli. unfold_time. split; [lia|]. split; [lia|]. split; by eexists.
Qed.
Lemma sample_year : 0 <= Date.year_of (rd_completed sample_readings) < 10000.
Proof. vm_compute. split; congruence. Qed.
Lemma served1_written : written len (cx_ops served1.1) <= max_int64.
Proof. by vm_compute. Qed.

End Example.
End Pipeline.
