(* ===== verification/EndToEnd.v ===== *)
(** Services together: the gateway against the auth service it asks.

    The handler of the auth service that validates API keys answers the request the
    client of the gateway sends, in JSON.  The theorem says which keys open which routes, in
    terms of the rows of the auth database only. *)
From Stdlib Require Import Ascii ZArith Lia.
From Corelib Require Import ssreflect.
From stdpp Require Import base gmap strings list numbers relations pretty.
From S2P Require Import Prelude GoStrings GoTime GoEncoding GoNet GoFiles Events GatewayRoutes Postgres AuthSecurity Auth AuthHistory AuthKeys Gateway Jobs Wire.

#[local] Open Scope Z_scope.

Module EndToEnd.
Import Wire.

Section wire.
Context `{PgUUIDLaws} `{Auth.PgText}.

Definition to_response (r : json_reply Auth.apiKeyPrincipalResponse) : Response :=
  match r with
  | JSONOk status body => mkResponse status (mkStream (json_body (principal_text body)) None)
  | JSONError status message => mkResponse status (mkStream (json_body (error_text message)) None)
  end.

(** The auth service, as the HTTP client of the gateway sees it. *)
Definition auth_server (e : Auth.call_env) (d : Auth.adb) (headers : Header) : res Response :=
  Ok (to_response (Auth.validateAPIKey e headers d).1).

(** The authorization of a request by a gateway that asks it. *)
Definition authorize (e : Auth.call_env) (d : Auth.adb) (route : Route) (rawAPIKey : string) : res APIKeyPrincipal :=
  AuthorizeRoute (Some (client_ValidateAPIKey (Ok tt) (auth_server e d))) route rawAPIKey.

(** The value presents the key of a row: it parses to the prefix of the row and to a
    hash that matches. *)
Definition presents (raw : string) (k : Auth.APIKey) : Prop :=
  exists pk, Security.ParseAPIKey raw = Ok pk /\ Security.pk_Prefix pk = Auth.k_KeyPrefix k /\
    Security.MatchAPIKeyHash (Security.pk_Hash pk) (Auth.k_KeyHash k) = true.

Definition live_key (now : Z) (raw : string) (d : Auth.adb) (k : Auth.APIKey) : Prop :=
  k ∈ Auth.keys d /\ Auth.key_IsActive k now = true /\ presents raw k.

(** ** Lemmas *)

Lemma ParseAPIKey_prefix raw pk : Security.ParseAPIKey raw = Ok pk -> pg_text (Security.pk_Prefix pk) = true.
Proof.
  unfold Security.ParseAPIKey. destruct (SplitN _ _ _) as [|a [|b [|c [|t []]]]]; try done.
  destruct (negb _ || negb _); [done|]. destruct (hex_decode c) as [x|] eqn:Ec; [|done].
  destruct (negb _); [done|]. destruct (b64_decode t); [|done]. destruct (negb _); [done|].
  intros [= <-]. cbn. by eapply token_pg_text, hex_decode_token.
Qed.

Lemma ParseAPIKey_trim raw : Security.ParseAPIKey (TrimSpace raw) = Security.ParseAPIKey raw.
Proof. unfold Security.ParseAPIKey. by rw TrimSpace_idemp. Qed.

Lemma row_by_prefix d k k' :
  History.wf d -> k ∈ Auth.keys d -> k' ∈ Auth.keys d -> Auth.k_KeyPrefix k = Auth.k_KeyPrefix k' -> k = k'.
Proof.
  intros Hwf [i Hi]%list_elem_of_lookup [j Hj]%list_elem_of_lookup E.
  pose proof (unique_row Auth.k_KeyPrefix _ _ _ _ _ (History.wf_key_prefixes _ Hwf) Hi Hj E). congruence.
Qed.

Lemma live_key_unique now raw d k k' : History.wf d -> live_key now raw d k -> live_key now raw d k' -> k = k'.
Proof.
  intros Hwf (Hk & _ & pk & Hp & Ep & _) (Hk' & _ & pk' & Hp' & Ep' & _). apply (row_by_prefix d); congruence.
Qed.

(** The validation answers with the live key that is presented, or with the error. *)
Lemma ValidateAPIKey_exact e raw d :
  History.wf d -> Auth.v_f1 e = None -> Auth.v_f2 e = None ->
  (exists k d', live_key (Auth.v_now e) raw d k /\
     Auth.ValidateAPIKey e (TrimSpace raw) d = Ok (Auth.mkKeyPrincipal (Auth.k_ID k) (Auth.k_ProjectID k), d')) \/
  ((forall k, ~ live_key (Auth.v_now e) raw d k) /\ Auth.ValidateAPIKey e (TrimSpace raw) d = Err Auth.ErrInvalidAPIKey).
Proof.
  intros Hwf F1 F2. unfold Auth.ValidateAPIKey, Auth.ValidateAPIKey_at, Auth.Validate_read. rw ParseAPIKey_trim.
  destruct (Security.ParseAPIKey raw) as [pk|err] eqn:Ep; cycle 1.
  { right. split; [|done]. intros k (_ & _ & pk & Hp & _). congruence. }
  cbn [map_err mbind res_bind]. unfold Auth.GetAPIKeyByPrefix. rw F1. cbn [with_fault]. unfold encode_text.
  rw (ParseAPIKey_prefix raw pk Ep). cbn [mbind res_bind].
  destruct (List.find _ _) as [k|] eqn:Ef; cycle 1.
  { right. split; [|done]. intros k (Hk & _ & pk' & Hp & Epk & _). simplify_eq.
    eapply List.find_none in Ef; [|by apply list_elem_of_In]. apply bool_decide_eq_false_1 in Ef. congruence. }
  apply List.find_some in Ef as [Hk%list_elem_of_In Epk%bool_decide_eq_true_1]. cbn [query_row Auth.lookup_row Auth.not_found_as map_err mbind res_bind].
  destruct (Security.MatchAPIKeyHash _ _) eqn:Em; cbn [negb orb]; cycle 1.
  { right. split; [|done]. intros k' (Hk' & _ & pk' & Hp & Epk' & Em').
    assert (k' = k) as -> by (apply (row_by_prefix d); congruence). congruence. }
  destruct (Auth.key_IsActive k _) eqn:Ea; cbn [negb orb]; cycle 1.
  { right. split; [|done]. intros k' (Hk' & Ha & pk' & Hp & Epk' & _).
    assert (k' = k) as -> by (apply (row_by_prefix d); congruence). congruence. }
  left. apply list_elem_of_lookup in Hk as Hi. destruct Hi as [i Hi].
  assert (He : Auth.k_Enabled k = true) by (unfold Auth.key_IsActive in Ea; by destruct (Auth.k_Enabled k)).
  destruct (Keys.Validate_touch_at e k d i k Hwf Hi) as [(d' & Ht & _) _]; [done|done|done|].
  exists k, d'. split; [by split; [|split; [|exists pk]]|exact Ht].
Qed.

Lemma uuid_canonical d k : History.wf d -> k ∈ Auth.keys d ->
  isCanonicalUUID (Auth.k_ID k) = true /\ isCanonicalUUID (Auth.k_ProjectID k) = true.
Proof.
  intros Hwf Hk. pose proof (proj1 (list.Forall_forall _ _) (History.wf_key_uuid _ Hwf) k Hk) as H1'.
  pose proof (proj1 (list.Forall_forall _ _) (History.wf_key_project _ Hwf) k Hk) as H2'.
  split; [exact (pg_uuid_canonical _ _ H1')|exact (pg_uuid_canonical _ _ H2')].
Qed.

(** What the client of the gateway makes of the two answers of the auth service. *)
Lemma client_valid e d raw k d' :
  History.wf d -> k ∈ Auth.keys d ->
  Auth.ValidateAPIKey e (TrimSpace raw) d = Ok (Auth.mkKeyPrincipal (Auth.k_ID k) (Auth.k_ProjectID k), d') ->
  client_ValidateAPIKey (Ok tt) (auth_server e d) raw = Ok (mkPrincipal (Auth.k_ID k) (Auth.k_ProjectID k)).
Proof.
  intros Hwf Hk Hv. destruct (uuid_canonical d k Hwf Hk) as [C1 C2].
  unfold client_ValidateAPIKey, auth_server, Auth.validateAPIKey. rw Header_Get_Set Hv. cbn -[LimitReader authMaxResponseSize json_Decode json_more json_body].
  unfold decode_principal. destruct (principal_wire (Auth.mkPrincipalResponse (Auth.k_ID k) (Auth.k_ProjectID k)) authMaxResponseSize C1 C2) as (rest & E & Hm); [done|].
  cbn -[LimitReader authMaxResponseSize json_Decode json_more json_body] in E. rw E Hm. cbn [auth_ensureJSONEOF vr_APIKeyID vr_ProjectID]. destruct (isCanonicalUUID_trim _ C1) as [-> N1]. destruct (isCanonicalUUID_trim _ C2) as [-> N2].
  by rw !bool_decide_eq_false_2.
Qed.

Lemma client_invalid e d raw :
  Auth.ValidateAPIKey e (TrimSpace raw) d = Err Auth.ErrInvalidAPIKey ->
  client_ValidateAPIKey (Ok tt) (auth_server e d) raw = Err ErrInvalidAPIKey.
Proof.
  intros Hv. unfold client_ValidateAPIKey, auth_server, Auth.validateAPIKey. by rw Header_Get_Set Hv.
Qed.

(** C21: Which keys open which routes.  A gateway that asks the auth service, while
    both answer, lets a request through on a protected route exactly when it presents
    a key that is live in the auth database and belongs to the project of the route,
    and then knows it by that key and project; a live key of another project is
    refused as such, and everything else as an invalid key. *)
Theorem keys_open_routes (e : Auth.call_env) (d : Auth.adb) (route : Route) (raw : string) :
  rtc History.dbstep History.empty_adb d -> Auth.v_f1 e = None -> Auth.v_f2 e = None ->
  rt_AuthRequired route = true -> blank raw = false ->
  (forall p, authorize e d route raw = Ok p <->
     exists k, live_key (Auth.v_now e) raw d k /\ Auth.k_ProjectID k = rt_ProjectID route /\
       p = mkPrincipal (Auth.k_ID k) (Auth.k_ProjectID k)) /\
  (authorize e d route raw = Err ErrAPIKeyProjectMismatch <->
     exists k, live_key (Auth.v_now e) raw d k /\ Auth.k_ProjectID k <> rt_ProjectID route) /\
  (authorize e d route raw = Err ErrInvalidAPIKey <-> forall k, ~ live_key (Auth.v_now e) raw d k).
Proof.
  intros Hwf%History.wf_reachable F1 F2 Ha Hb. unfold authorize, AuthorizeRoute. rw Ha Hb. cbn [negb].
  destruct (ValidateAPIKey_exact e raw d Hwf F1 F2) as [(k & d' & Hk & Hv)|[Hn Hv]].
  - rw (client_valid e d raw k d' Hwf (proj1 Hk) Hv). cbn [pr_ProjectID].
    assert (Hu : forall k', live_key (Auth.v_now e) raw d k' -> k' = k) by (intros k' Hk'; by apply (live_key_unique (Auth.v_now e) raw d)).
    case_bool_decide as Hp; (split_and!; [intros p|..]); split; try done.
    + intros (k' & Hk'%Hu & E & _). by subst.
    + intros _. by exists k.
    + intros Hno. by destruct (Hno k).
    + intros [= <-]. exists k. split; [done|]. split; [|done]. by destruct (decide (Auth.k_ProjectID k = rt_ProjectID route)).
    + by intros (k' & ->%Hu & _ & ->).
    + by intros (k' & ->%Hu & E).
    + intros Hno. by destruct (Hno k).
  - rw (client_invalid e d raw Hv). rw errors_Is_sentinel.
    split_and!; [intros p|..]; split; try done; by intros (k & Hk%Hn & _).
Qed.
End wire.

(** ** Examples *)

Module Example.
Definition d1 : Auth.adb := Keys.created1.2.
Definition value1 : string := Auth.ck_Value Keys.created1.1.
Definition route_of (project : string) : Route := mkRoute project "orders" "/orders" "http://orders:8081" false (5 * Second) true zero_policy.

#[local] Instance ascii_lower : Auth.PgText := {| Auth.pg_lower := smap lower_byte |}.

Definition row1 : Auth.APIKey := default (Auth.mkKey "" "" "" "" "" false None None 0 0) (head (Auth.keys d1)).
Definition new1 : Auth.APIKey :=
  Auth.mkKey "" Keys.project1 "ci" (Auth.k_KeyPrefix row1) (Auth.k_KeyHash row1) true None None time_zero time_zero.

Lemma created_row1 : Auth.repo_CreateAPIKey None Keys.key1 (unix_epoch + Hour) new1 Keys.one_project = Ok (row1, d1).
Proof. vm_compute. reflexivity. Qed.

Lemma d1_reachable : rtc History.dbstep History.empty_adb d1.
Proof.
  apply rtc_l with Keys.one_project; [exact (History.st_project History.empty_adb Keys.project1)|].
  apply rtc_once. apply (History.st_key _ None Keys.key1 (unix_epoch + Hour) new1 row1); [|exact created_row1].
  unfold uuid_text. vm_compute. reflexivity.
Qed.

Lemma row1_live : live_key (Auth.v_now Keys.call1) value1 d1 row1.
Proof.
  split; [|split; [vm_compute; reflexivity|]].
  - assert (E : Auth.keys d1 = [row1]) by (vm_compute; reflexivity). rw E. apply list_elem_of_here.
  - exists (Security.mkParsed (Auth.k_KeyPrefix row1) (Auth.k_KeyHash row1)). split; [|split]; vm_compute; reflexivity.
Qed.

Lemma value1_present : blank value1 = false.
Proof. vm_compute. reflexivity. Qed.
Lemma row1_ids : Auth.k_ID row1 = Keys.key1 /\ Auth.k_ProjectID row1 = Keys.project1.
Proof. vm_compute. by split. Qed.

(** C21 at a fresh key: it opens a route of its project and no other. *)
Lemma keys_open_routes_witness :
  authorize Keys.call1 d1 (route_of Keys.project1) value1 = Ok (mkPrincipal Keys.key1 Keys.project1) /\
  authorize Keys.call1 d1 (route_of Keys.key1) value1 = Err ErrAPIKeyProjectMismatch.
Proof.
  destruct row1_ids as [Ei Ep]. split.
  - apply (keys_open_routes Keys.call1 d1 (route_of Keys.project1) value1 d1_reachable eq_refl eq_refl eq_refl value1_present).
    exists row1. split; [exact row1_live|]. rw Ei Ep. split; reflexivity.
  - apply (keys_open_routes Keys.call1 d1 (route_of Keys.key1) value1 d1_reachable eq_refl eq_refl eq_refl value1_present).
    exists row1. split; [exact row1_live|]. rw Ep. cbn. discriminate.
Defined.
End Example.
End EndToEnd.
